(* ===== verification/_CoqProject ===== *)
-Q . S2P
Prelude.v
Paths.v
Float64.v
Shim.v
Sched.v
Reorder.v
Bearer.v
Anchor.v
Fabric.v
Transport.v
Node.v
Shutdown.v
Encoding.v
Activation.v
Profile.v
EsimCrypto.v
Der.v
EsimRegistry.v
Smdp.v
Euicc.v
Interleave.v
EsimRaces.v
Simprov.v
Sha256.v
Api.v
Upf.v
Ber.v
RawTap.v
Cdr.v
Collector.v
Spectrum.v
Mesh.v
Store.v
Config.v
Control.v
Routes.v
ControlFacts.v
ControlSafety.v
ControlSims.v
SimRaces.v
ControlUsage.v
ControlAlerts.v
Backup.v
Csv.v
Mux.v
Cli.v
CliFacts.v
Json.v
Hss.v
Agent.v
Daemon.v
Programs.v
Reports.v
Files.v
Identity.v
Southbound.v
Boot.v
Replies.v
