(* ===== verification/Prelude.v ===== *)
(** * Fairwave: a verification library

    Fairwave runs private cellular cells: a data plane that weaves one stream
    over several SIM bearers ([core/hydra]), an eSIM service that mints and
    delivers carrier profiles ([core/esim], [core/sim-ops]), and a control
    plane that owns nodes, SIMs, sessions, usage, alerts and the permission to
    transmit ([core/fairwave-control], [core/policy]).  This library models
    their Go code as executable definitions and proves what makes each part
    correct.  Every file of the list below carries the part's name.

    ** Conventions

    Integers are [Z] with the wrap-around of their width written out ([u8] to
    [u64], [i64]); a float64 is an exact binary64 ([Float64]); bytes are lists
    of [Z]; a Go map is a [gmap], and a range over it takes its order from the
    environment, so a theorem holds for every order.  A fallible result is
    [res].  Time is nanoseconds on an argument clock.  Mutexes make each
    method atomic; goroutines are the transitions of a step relation.  Code
    that is not in the repository (AES, AES-GCM, P-256, JSON and YAML, HTTP,
    sockets, the HSS containers) is a type class or an argument, with the laws
    used stated in the class and a concrete instance for the witnesses.  Fuel
    is always the length of the input being consumed, and lemmas show it is
    never short ([Upf.walk_elements], [Ber.parseChildren_unfold]).

    ** The data plane

    [Shim] packet header; [Sched] thread choice; [Reorder] reassembly window;
    [Bearer] thread registry; [Anchor] egress; [Fabric] the weave engine that
    composes them; [Transport] token-bucket endpoint; [Node] the goroutines of
    [hydra/node] as a transition system.  [Fabric.weave_in_order] composes
    sender, any arrival order of a window's worth of frames with duplicates, and
    receiver into exactly-once in-order delivery, on top of [Reorder.reassembly], [Reorder.buffer_safety]
    and [Reorder.gap_recovery].  [Node.queue_accounting] ties the scheduler's
    view to what is really queued in every reachable state.
    [Shutdown] is the control flow of the same goroutines from [start] to
    [Close]: [Shutdown.close_terminates] shows that [Close] ends them all.

    ** The eSIM service

    [Encoding] hex, base64, digits; [Activation] codes; [Profile] profiles and
    card files; [EsimCrypto] CMAC, key derivation and CBC over an AES class;
    [Der] the package envelope; [EsimRegistry] the activation-code registry
    and its file, refined to an abstract map across restarts; [Smdp] the
    SM-DP+ server over a [Store] class with two instances, memory and files
    named after the transaction (the paths as the source joins them, the system
    they are opened on a class, [Disk]); [Euicc] the card;
    [Simprov] SIM batches.  [Euicc.Download_installs] runs card and server
    together; [Smdp.one_package_per_code] is the protocol's safety over any
    requests.  [Interleave] has calls that overlap: programs of atomic actions,
    pools of them, and a rely-guarantee logic.  On it [EsimRaces] runs the
    server's handlers action by action: alone each is [Smdp.serve]'s
    ([EsimRaces.run_handler]); overlapping, [EsimRaces.package_needs_proof] and
    [EsimRaces.later_requests_bound] say what still holds, and two examples
    what does not.

    ** Metering

    [Sha256] the hash subscribers are reported under; [Api] the shared
    records; [Upf] the GTP tap, with [Upf.billing_is_the_ledger] refining its
    counters to a ledger of tunnels and packets; [Ber] and [Cdr] the charging
    records, a round trip with what the charging function writes; [Collector]
    the polls of the Open5GS and free5GC cores.  [RawTap] puts the tap on a
    packet socket, over a class for the system calls.

    ** The control plane

    [Spectrum] the country registry that gates transmission; [Mesh] lifecycle
    phases, peers and WireGuard text; [Store] the tables and their files, a
    save replacing a file as a whole or failing; [Config] loading.

    [Control] is the server and its jobs: an operation is a state-passing
    function on the [World] (store and files, the server's fields, the HSS,
    webhooks, hydra engine, eSIM service) that asks the environment [Env] for
    clock readings, random bytes, the outcome of each save, map orders and
    polls.  [Routes] has the routes, the role matrix and every handler, and
    [step]/[run]: a request with its credentials, a background job, or a
    restart from the files.  The request that restores an archive is one of
    them: it replaces the files and not what is in memory, so the theorems over
    runs say what an archive can do or leave such requests out.  In these runs
    handlers go one after the other.
    [ControlFacts] is the logic for them: [keeps R m], what operation [m] does
    to the world is within the preorder [R], with a tactic that walks down to
    the primitive effects.  On it, over arbitrary runs: [ControlSafety] (the
    transmission gate, the audit trail, the role matrix), [ControlSims] (the
    status machine of a SIM; revoked subscribers and the core), [ControlUsage]
    (metering counts each byte once; quotas) and [ControlAlerts] (the alert
    engine is edge-triggered).  [SimRaces] has the operations on a SIM under
    requests and jobs that overlap, over records shared by pointer;
    [SimRaces.alone] ties it to the routes.

    [Backup] is backup and restore: a data directory as a map of paths, tar in
    gzip as a class with its round trip.  A backup restores to the directory
    it was made of, and no archive writes outside the directory;
    [Backup.restore_served] ties the restore to the one of the runs.

    [Identity] is the node's key and certificate, [Files] the writes that can
    leave a file torn, [Southbound] the configurations rendered for the core
    and the radio, [Hss] the commands and scripts of the subscriber-database
    drivers, read back as the statements they are with [Json].  [Boot] is the
    daemon's [main]: it composes [Config.Load], [Identity.LoadOrCreate],
    [Store.Open], the spectrum registry, the drivers the configuration chooses
    and [NewWithOptions]; [Boot.boot_resumes] shows that a start on what a
    stopped daemon left is the [Restart] of the runs above.

    ** Clients of the control plane

    [Mux] is the router over the texts of paths: what the middleware checks
    covers every pattern.  [Cli] has every command of [apps/fairwave-cli] as a
    program that prints, sends and writes files over a link that can lose a
    request or its reply; [CliFacts] runs them against the server; [Csv] is
    the batches and exports they exchange.  [Replies] types the API: what each
    route answers, and that no command fails to read an answer, but for one
    that has no JSON text ([Routes.writeJSON]).  [Reports] is
    the compliance export, the event stream and the gauges.  [Agent] is the
    on-box agent, whose heartbeats decide the server's alarms, and [Daemon] the
    configuration file and health reports of a Hydra node.  [Programs] is what
    the mains of the node and of the agent make of their flags and files.

    ** Not modelled

    The texts of tables and prompts (a printed line is its format and its
    arguments); Cobra's parser; JSON, YAML and duration parsing, taken to
    round-trip or given as arguments (that a float that is not finite and a year
    after 9999 have no JSON is modelled, in the answers of the API); the listener, its timeouts, signals and
    log lines of the [main] programs; mDNS and the QR picture; the dashboard's
    files, the two counters of the metrics page and the delivery of webhooks.
    Requests that overlap are modelled for the SM-DP+ over its file store and
    for what changes a SIM; elsewhere a handler runs at once.  The SM-DP+'s
    memory store has no lock at all, so what overlapping requests do to it is
    not defined, and it is outside the model of them. *)
From Stdlib Require Export ZArith Lia.
From stdpp Require Export sorting strings numbers fin_maps gmap base list.
#[global] Open Scope Z_scope.

(** ** Fallible results: Go's [(value, error)] returns *)
Inductive res (E A : Type) : Type :=
  | Ok (a : A)
  | Err (e : E).
Arguments Ok {E A} _.
Arguments Err {E A} _.

#[global] Instance res_eq_dec {E A} `{!EqDecision E, !EqDecision A} :
  EqDecision (res E A).
Proof. solve_decision. Defined.

#[global] Instance res_bind {E} : MBind (res E) := fun A B k m =>
  match m with Ok a => k a | Err e => Err e end.
#[global] Instance res_ret {E} : MRet (res E) := fun A a => Ok a.
#[global] Instance res_fmap {E} : FMap (res E) := fun A B f m =>
  match m with Ok a => Ok (f a) | Err e => Err e end.

Definition is_ok {E A} (r : res E A) : bool :=
  match r with Ok _ => true | Err _ => false end.

(** ** Machine integers: values are [Z], operations wrap explicitly *)
Definition u8 (z : Z) : Z := z mod 2 ^ 8.
Definition u16 (z : Z) : Z := z mod 2 ^ 16.
Definition u32 (z : Z) : Z := z mod 2 ^ 32.
Definition u64 (z : Z) : Z := z mod 2 ^ 64.
(** Go's [int] and [int64]: two's complement on 64 bits. *)
Definition i64 (z : Z) : Z := (z + 2 ^ 63) mod 2 ^ 64 - 2 ^ 63.

Definition is_u64 (z : Z) : Prop := 0 <= z < 2 ^ 64.
Definition is_u32 (z : Z) : Prop := 0 <= z < 2 ^ 32.
Definition is_byte (z : Z) : Prop := 0 <= z < 256.
Definition is_i64 (z : Z) : Prop := - 2 ^ 63 <= z < 2 ^ 63.

#[global] Instance is_u64_dec z : Decision (is_u64 z).
Proof. unfold is_u64. apply _. Defined.
#[global] Instance is_u32_dec z : Decision (is_u32 z).
Proof. unfold is_u32. apply _. Defined.
#[global] Instance is_byte_dec z : Decision (is_byte z).
Proof. unfold is_byte. apply _. Defined.
#[global] Instance is_i64_dec z : Decision (is_i64 z).
Proof. unfold is_i64. apply _. Defined.

Lemma u64_range z : is_u64 (u64 z).
Proof. unfold is_u64, u64. apply Z.mod_pos_bound. lia. Qed.
Lemma u64_id z : is_u64 z -> u64 z = z.
Proof. intros H. apply Z.mod_small, H. Qed.
Lemma u64_add_l a b : u64 (u64 a + b) = u64 (a + b).
Proof. apply Zplus_mod_idemp_l. Qed.
Lemma u64_add_r a b : u64 (a + u64 b) = u64 (a + b).
Proof. apply Zplus_mod_idemp_r. Qed.
Lemma u64_sub_l a b : u64 (u64 a - b) = u64 (a - b).
Proof. apply Zminus_mod_idemp_l. Qed.
Lemma u64_u64 a : u64 (u64 a) = u64 a.
Proof. apply Z.mod_mod. lia. Qed.
Lemma i64_id z : is_i64 z -> i64 z = z.
Proof.
  intros H. unfold i64, is_i64 in *. rewrite Z.mod_small by lia. lia.
Qed.
Lemma i64_range z : is_i64 (i64 z).
Proof.
  unfold i64, is_i64.
  pose proof (Z.mod_pos_bound (z + 2 ^ 63) (2 ^ 64)). lia.
Qed.

(** A bound on an iterated 64-bit sum does not matter for its residue. *)
Definition u64_sum (l : list Z) : Z := foldl (fun a x => u64 (a + x)) 0 l.
Definition Zsum (l : list Z) : Z := foldr Z.add 0 l.

Lemma u64_sum_acc l a :
  foldl (fun a x => u64 (a + x)) (u64 a) l = u64 (a + Zsum l).
Proof.
  revert a. induction l as [|x l IH]; intros a; simpl.
  - by rewrite Z.add_0_r.
  - rewrite u64_add_l, IH. f_equal. lia.
Qed.
Lemma u64_sum_spec l : u64_sum l = u64 (Zsum l).
Proof. exact (u64_sum_acc l 0). Qed.
Lemma Zsum_cons x l : Zsum (x :: l) = x + Zsum l.
Proof. done. Qed.
Lemma Zsum_app l1 l2 : Zsum (l1 ++ l2) = Zsum l1 + Zsum l2.
Proof. induction l1; simpl; lia. Qed.
Lemma Zsum_perm l1 l2 : l1 ≡ₚ l2 -> Zsum l1 = Zsum l2.
Proof. induction 1; simpl; lia. Qed.

(** ** Byte strings *)
Abbreviation bytes := (list Z).
Definition zlen {A} (l : list A) : Z := Z.of_nat (length l).
(** Go's [b[lo:hi]], used only where the source has checked the bounds. *)
Definition slice {A} (l : list A) (lo hi : Z) : list A :=
  take (Z.to_nat (hi - lo)) (drop (Z.to_nat lo) l).
(** Go's [b[i]] after a bounds check; 0 outside, which no checked path reads. *)
Definition at_ (l : bytes) (i : Z) : Z := nth (Z.to_nat i) l 0.

Lemma zlen_nonneg {A} (l : list A) : 0 <= zlen l.
Proof. unfold zlen. lia. Qed.
Lemma zlen_app {A} (l1 l2 : list A) : zlen (l1 ++ l2) = zlen l1 + zlen l2.
Proof. unfold zlen. rewrite length_app. lia. Qed.
Lemma zlen_cons {A} (x : A) l : zlen (x :: l) = 1 + zlen l.
Proof. unfold zlen. simpl length. lia. Qed.
Lemma slice_app_l {A} (l1 l2 : list A) n :
  n = zlen l1 -> slice (l1 ++ l2) 0 n = l1.
Proof.
  intros ->. unfold slice, zlen. rewrite Z.sub_0_r, Nat2Z.id.
  change (Z.to_nat 0) with 0%nat. rewrite drop_0. apply take_app_length.
Qed.
Lemma slice_app_skip {A} (l1 l2 : list A) lo hi :
  zlen l1 <= lo -> slice (l1 ++ l2) lo hi = slice l2 (lo - zlen l1) (hi - zlen l1).
Proof.
  intros Hlo. unfold slice, zlen in *.
  replace (hi - lo) with (hi - Z.of_nat (length l1) - (lo - Z.of_nat (length l1))) by lia.
  rewrite drop_app_ge by lia. do 2 f_equal. lia.
Qed.
Lemma zlen_slice {A} (l : list A) lo hi :
  0 <= lo <= hi -> hi <= zlen l -> zlen (slice l lo hi) = hi - lo.
Proof.
  intros ??. unfold slice, zlen in *. rewrite length_take, length_drop. lia.
Qed.

(** The bytes of a Go string. *)
Definition ascii_byte (a : Ascii.ascii) : Z := Z.of_N (Ascii.N_of_ascii a).
Definition string_bytes (s : string) : bytes := ascii_byte <$> String.list_ascii_of_string s.
Definition byte_ascii (z : Z) : Ascii.ascii := Ascii.ascii_of_N (Z.to_N z).
Definition bytes_string (l : bytes) : string := String.string_of_list_ascii (byte_ascii <$> l).
(** Go's [len] of a string. *)
Definition slen (s : string) : Z := zlen (string_bytes s).

Lemma ascii_byte_range a : is_byte (ascii_byte a).
Proof. unfold is_byte, ascii_byte. pose proof (Ascii.N_ascii_bounded a). lia. Qed.
Lemma byte_ascii_byte a : byte_ascii (ascii_byte a) = a.
Proof. unfold byte_ascii, ascii_byte. rewrite N2Z.id. apply Ascii.ascii_N_embedding. Qed.
Lemma ascii_byte_ascii z : is_byte z -> ascii_byte (byte_ascii z) = z.
Proof.
  unfold is_byte, byte_ascii, ascii_byte. intros H.
  rewrite Ascii.N_ascii_embedding by lia. apply Z2N.id. lia.
Qed.
Lemma string_bytes_string s : bytes_string (string_bytes s) = s.
Proof.
  unfold bytes_string, string_bytes. rewrite <- list_fmap_compose.
  rewrite (list_fmap_ext _ id) by (intros; apply byte_ascii_byte).
  rewrite list_fmap_id. apply String.string_of_list_ascii_of_string.
Qed.
Lemma bytes_string_bytes l : Forall is_byte l -> string_bytes (bytes_string l) = l.
Proof.
  intros Hl. unfold bytes_string, string_bytes.
  rewrite String.list_ascii_of_string_of_list_ascii, <- list_fmap_compose.
  induction Hl as [|x l Hx Hl IH]; cbn; [done|]. f_equal; [by apply ascii_byte_ascii|done].
Qed.
Lemma string_bytes_range s : Forall is_byte (string_bytes s).
Proof. apply Forall_fmap, Forall_true. intros a. apply ascii_byte_range. Qed.
Lemma string_bytes_app s t : string_bytes (s +:+ t) = string_bytes s ++ string_bytes t.
Proof.
  unfold string_bytes. rewrite <- fmap_app. f_equal.
  induction s as [|c s IH]; [done|]. cbn. by rewrite <- IH.
Qed.
Lemma slen_app s t : slen (s +:+ t) = slen s + slen t.
Proof. unfold slen. by rewrite string_bytes_app, zlen_app. Qed.
Lemma string_bytes_inj s t : string_bytes s = string_bytes t -> s = t.
Proof. intros E. by rewrite <- (string_bytes_string s), E, string_bytes_string. Qed.

Lemma string_assoc s t u : (s +:+ t) +:+ u = s +:+ (t +:+ u).
Proof. apply string_bytes_inj. by rewrite !string_bytes_app, app_assoc. Qed.

(** Big-endian fields ([encoding/binary]'s BigEndian). *)
Definition be_get (l : bytes) : Z := foldl (fun a b => a * 256 + b) 0 l.
Fixpoint be_put (n : nat) (z : Z) : bytes :=
  match n with
  | O => []
  | S n' => (z / 256 ^ Z.of_nat n') mod 256 :: be_put n' z
  end.

Lemma length_be_put n z : length (be_put n z) = n.
Proof. induction n; simpl; auto. Qed.
Lemma zlen_be_put n z : zlen (be_put n z) = Z.of_nat n.
Proof. unfold zlen. by rewrite length_be_put. Qed.
Lemma be_put_bytes n z : Forall is_byte (be_put n z).
Proof.
  induction n; simpl; constructor; auto. apply Z.mod_pos_bound. lia.
Qed.
Lemma be_get_acc l a :
  foldl (fun a b => a * 256 + b) a l = a * 256 ^ zlen l + be_get l.
Proof.
  unfold be_get. revert a. induction l as [|x l IH]; intros a; simpl.
  - unfold zlen; simpl. lia.
  - rewrite IH, (IH (0 * 256 + x)), zlen_cons, Z.pow_add_r;
      [|lia|apply zlen_nonneg]. ring.
Qed.
Lemma be_get_cons x l : be_get (x :: l) = x * 256 ^ zlen l + be_get l.
Proof. unfold be_get at 1. simpl. rewrite be_get_acc. ring. Qed.
Lemma be_get_put n z : be_get (be_put n z) = z mod 256 ^ Z.of_nat n.
Proof.
  induction n as [|n IH].
  - simpl. by rewrite Z.mod_1_r.
  - cbn [be_put]. rewrite be_get_cons, IH, zlen_be_put.
    rewrite Nat2Z.inj_succ, <- Z.add_1_r, Z.pow_add_r, Z.pow_1_r by lia.
    rewrite (Z.rem_mul_r z (256 ^ Z.of_nat n) 256) by lia. lia.
Qed.
Lemma be_get_bound l : Forall is_byte l -> 0 <= be_get l < 256 ^ zlen l.
Proof.
  induction 1 as [|x l Hx Hl IH].
  - unfold be_get, zlen; simpl; lia.
  - rewrite be_get_cons, zlen_cons, Z.pow_add_r by (try lia; apply zlen_nonneg).
    unfold is_byte in Hx. nia.
Qed.
Lemma be_put_mod n z : be_put n (z mod 256 ^ Z.of_nat n) = be_put n z.
Proof.
  enough (H : forall m, (n <= m)%nat ->
            be_put n (z mod 256 ^ Z.of_nat m) = be_put n z) by (apply H; lia).
  induction n as [|n IH]; intros m Hm; [done|]. cbn [be_put].
  f_equal; [|apply IH; lia].
  replace (Z.of_nat m) with (Z.of_nat n + (1 + Z.of_nat (m - n - 1))) by lia.
  rewrite Z.pow_add_r by lia.
  rewrite Z.rem_mul_r by (try lia; apply Z.pow_nonzero; lia).
  rewrite (Z.mul_comm (256 ^ Z.of_nat n)), Z.div_add by lia.
  rewrite Z.div_small by (apply Z.mod_pos_bound; lia). rewrite Z.add_0_l.
  rewrite Z.pow_add_r, Z.pow_1_r by lia.
  rewrite Z.rem_mul_r by (try lia; apply Z.pow_nonzero; lia).
  by rewrite (Z.mul_comm 256), Z.mod_add, Z.mod_mod by lia.
Qed.
Lemma be_put_get l : Forall is_byte l -> be_put (length l) (be_get l) = l.
Proof.
  induction 1 as [|x l Hx Hl IH]; [done|].
  cbn [length be_put]. rewrite be_get_cons.
  pose proof (be_get_bound l Hl) as Hb. unfold zlen in *.
  f_equal.
  - rewrite Z.div_add_l, Z.div_small, Z.add_0_r by lia. by apply Z.mod_small.
  - rewrite <- be_put_mod, Z.add_comm, Z.mod_add, be_put_mod by lia. done.
Qed.

Lemma be_put_get_eq n l : length l = n -> Forall is_byte l -> be_put n (be_get l) = l.
Proof. intros <-. apply be_put_get. Qed.

#[global] Arguments be_put : simpl never.
#[global] Arguments be_get : simpl never.

(** ** Time: nanoseconds since Go's zero [time.Time]; 0 is the zero time *)
Abbreviation time := Z (only parsing).
Definition IsZero (t : time) : bool := t =? 0.
(** [t.Sub(u)] saturates at the limits of [time.Duration]. *)
Definition time_sub (t u : time) : Z := Z.max (- 2 ^ 63) (Z.min (2 ^ 63 - 1) (t - u)).
Definition Second : Z := 1000000000.
Definition Minute : Z := 60 * Second.
Definition Hour : Z := 60 * Minute.

(** ** Tactics *)
Ltac case_if :=
  match goal with
  | |- context [if ?b then _ else _] => destruct b eqn:?
  | H : context [if ?b then _ else _] |- _ => destruct b eqn:?
  end.
(** Reflect boolean integer tests in the context into propositions. *)
Ltac zbool :=
  rewrite ?andb_true_iff, ?andb_false_iff, ?orb_true_iff, ?orb_false_iff,
    ?negb_true_iff, ?negb_false_iff, ?Z.ltb_lt, ?Z.ltb_ge, ?Z.leb_le, ?Z.leb_gt,
    ?Z.eqb_eq, ?Z.eqb_neq, ?Z.geb_le in *.

(** Decide a closed decidable proposition by evaluation. *)
Ltac vm_decide := apply (bool_decide_eq_true_1 _); vm_compute; reflexivity.

(** ** Stable sorting by a [less] function (Go's [sort.SliceStable]; also
    [sort.Slice] where the keys are distinct, so that the result is unique) *)
Section StableSort.
Context {A : Type} (less : A -> A -> bool).

Fixpoint sinsert (x : A) (l : list A) : list A :=
  match l with
  | [] => [x]
  | y :: l' => if less y x then y :: sinsert x l' else x :: y :: l'
  end.
Definition stable_sort (l : list A) : list A := foldr sinsert [] l.

(** The loop [best := l[0]; for t in l[1:] if less(t, best) best = t]. *)
Definition argmin (x : A) (l : list A) : A :=
  foldl (fun best t => if less t best then t else best) x l.

Lemma sinsert_perm x l : sinsert x l ≡ₚ x :: l.
Proof.
  induction l as [|y l IH]; simpl; [done|]. case_if; [|done].
  rewrite IH. apply Permutation_swap.
Qed.
Lemma stable_sort_perm l : stable_sort l ≡ₚ l.
Proof.
  induction l as [|x l IH]; simpl; [done|]. by rewrite sinsert_perm, IH.
Qed.
Lemma argmin_elem x l : argmin x l ∈ x :: l.
Proof.
  unfold argmin. revert x. induction l as [|y l IH]; intros x; simpl; [set_solver|].
  specialize (IH (if less y x then y else x)). rewrite !elem_of_cons in *.
  destruct (less y x); tauto.
Qed.

(** [less] is a strict weak order on the elements satisfying [P]. *)
Context (P : A -> Prop).
Hypothesis less_asym : forall x y, P x -> P y -> less x y = true -> less y x = false.
Hypothesis less_negtrans : forall x y z, P x -> P y -> P z ->
  less x y = false -> less y z = false -> less x z = false.

Lemma less_irrefl x : P x -> less x x = false.
Proof. intros Hx. destruct (less x x) eqn:E; [|done]. by rewrite <- (less_asym x x). Qed.
Lemma less_trans x y z : P x -> P y -> P z ->
  less x y = true -> less y z = true -> less x z = true.
Proof.
  intros Hx Hy Hz Hxy Hyz. destruct (less x z) eqn:E; [done|].
  enough (less x y = false) by congruence.
  apply (less_negtrans x z y); auto.
Qed.

Lemma sinsert_sorted x l : P x -> Forall P l ->
  StronglySorted (fun a b => less b a = false) l ->
  StronglySorted (fun a b => less b a = false) (sinsert x l).
Proof.
  intros Hx Hl. induction 1 as [|y l Hs IH Hy]; simpl.
  { constructor; [constructor|constructor]. }
  apply Forall_cons_1 in Hl as [Py Pl]. case_if.
  - constructor; [by apply IH|]. rewrite sinsert_perm. constructor; auto.
  - constructor; [by constructor|]. constructor; [done|].
    rewrite Forall_forall in Hy, Pl |- *. intros z Hz.
    apply (less_negtrans z y x); auto.
Qed.
Lemma stable_sort_sorted l : Forall P l ->
  StronglySorted (fun a b => less b a = false) (stable_sort l).
Proof.
  induction 1 as [|x l Hx Hl IH]; simpl; [constructor|].
  apply sinsert_sorted; auto. by rewrite stable_sort_perm.
Qed.

Lemma argmin_P x l : P x -> Forall P l -> P (argmin x l).
Proof.
  intros Hx Hl. pose proof (argmin_elem x l) as He.
  assert (H : Forall P (x :: l)) by (by constructor).
  rewrite Forall_forall in H. auto.
Qed.

(** The first minimal element is the head of the stable sort. *)
Lemma argmin_cons2 x y l : P x -> P y -> Forall P l ->
  argmin x (y :: l) =
    if less (argmin y l) x then argmin y l else x.
Proof.
  intros Hx Hy Hl. revert x y Hx Hy. induction Hl as [|z l Hz Hl IH]; intros x y Hx Hy.
  { done. }
  assert (Hstep : forall u v, argmin u (v :: l) = argmin (if less v u then v else u) l)
    by done.
  change (argmin x (y :: z :: l)) with (argmin (if less y x then y else x) (z :: l)).
  rewrite (IH (if less y x then y else x) z) by (try case_if; auto).
  rewrite (IH y z) by auto.
  set (m := argmin z l).
  assert (Pm : P m) by (by apply argmin_P).
  destruct (less y x) eqn:Eyx, (less m y) eqn:Emy.
  - by rewrite (less_trans m y x).
  - by rewrite Eyx.
  - done.
  - rewrite Eyx. by rewrite (less_negtrans m y x).
Qed.
Lemma argmin_head x l : P x -> Forall P l ->
  head (stable_sort (x :: l)) = Some (argmin x l).
Proof.
  intros Hx Hl. revert x Hx. induction Hl as [|y l Hy Hl IH]; intros x Hx; [done|].
  rewrite argmin_cons2 by auto. cbn [stable_sort foldr] in *.
  specialize (IH y Hy). unfold stable_sort in *.
  destruct (sinsert y (foldr sinsert [] l)) as [|h t]; [done|].
  simpl in IH. injection IH as ->. cbn [sinsert]. by case_if.
Qed.
Lemma argmin_le x l : P x -> Forall P l ->
  Forall (fun y => less y (argmin x l) = false) (x :: l).
Proof.
  intros Hx Hl. pose proof (argmin_head x l Hx Hl) as Hh.
  pose proof (stable_sort_sorted (x :: l) ltac:(constructor; auto)) as Hs.
  pose proof (stable_sort_perm (x :: l)) as Hp.
  destruct (stable_sort (x :: l)) as [|h t]; [done|]. injection Hh as ->.
  assert (Hm : P (argmin x l)) by (by apply argmin_P).
  rewrite <- Hp. constructor; [by apply less_irrefl|].
  by inversion Hs.
Qed.
End StableSort.

(** Go's [<] on strings is bytewise lexicographic: Stdlib's [String.ltb]. *)
Lemma string_ltb_le a b : String.ltb a b = negb (String.leb b a).
Proof.
  unfold String.ltb, String.leb. rewrite (String.compare_antisym b a).
  by destruct (String.compare a b).
Qed.
Lemma string_leb_trans a b c :
  String.leb a b = true -> String.leb b c = true -> String.leb a c = true.
Proof.
  intros H1%Is_true_true H2%Is_true_true. apply Is_true_true.
  exact (transitivity (R := String.le) H1 H2).
Qed.
Lemma string_ltb_asym a b : String.ltb a b = true -> String.ltb b a = false.
Proof.
  rewrite !string_ltb_le, negb_true_iff, negb_false_iff. intros H.
  destruct (String.leb_total a b); congruence.
Qed.
Lemma string_ltb_negtrans a b c :
  String.ltb a b = false -> String.ltb b c = false -> String.ltb a c = false.
Proof. rewrite !string_ltb_le, !negb_false_iff. intros. by eapply string_leb_trans. Qed.
Lemma string_ltb_total a b : a <> b -> String.ltb a b = true \/ String.ltb b a = true.
Proof.
  intros Hne. rewrite !string_ltb_le, !negb_true_iff.
  destruct (String.leb b a) eqn:E1, (String.leb a b) eqn:E2; auto.
  exfalso. apply Hne, String.leb_antisym; done.
Qed.

(** ** Listing a Go map sorted by a string key

    Go iterates a map in a random order; where the code sorts what it
    collected by a key that is unique, the result does not depend on it. *)
Section SortBy.
Context {A : Type} (key : A -> string).

Definition key_less (a b : A) : bool := String.ltb (key a) (key b).
Definition sort_by (l : list A) : list A := stable_sort key_less l.

Lemma sort_by_perm l : sort_by l ≡ₚ l.
Proof. apply stable_sort_perm. Qed.
Lemma elem_of_sort_by x l : x ∈ sort_by l <-> x ∈ l.
Proof. by rewrite sort_by_perm. Qed.
Lemma sort_by_weak l : StronglySorted (fun a b => key_less b a = false) (sort_by l).
Proof.
  apply (stable_sort_sorted _ (fun _ => True)).
  - intros x y _ _. apply string_ltb_asym.
  - intros x y z _ _ _. apply string_ltb_negtrans.
  - by apply Forall_forall.
Qed.
(** Distinct keys are strictly increasing. *)
Lemma sort_by_strict l : NoDup (key <$> l) ->
  StronglySorted (fun a b => String.ltb (key a) (key b) = true) (sort_by l).
Proof.
  intros Hnd. pose proof (sort_by_weak l) as Hs.
  assert (Hnd' : NoDup (key <$> sort_by l)) by (by rewrite sort_by_perm).
  induction Hs as [|x l' Hs IH Hx]; constructor.
  - apply IH. by apply NoDup_cons in Hnd' as [_ ?].
  - apply NoDup_cons in Hnd' as [Hnin _]. rewrite Forall_forall in Hx |- *.
    intros y Hy. specialize (Hx y Hy). unfold key_less in Hx.
    destruct (string_ltb_total (key x) (key y)) as [|]; [|done|congruence].
    intros E. apply Hnin. rewrite E. by apply list_elem_of_fmap_2.
Qed.
Lemma sort_by_unique l l' : NoDup (key <$> l) -> l ≡ₚ l' -> sort_by l = sort_by l'.
Proof.
  intros Hnd Hp. eapply (StronglySorted_unique_strong (fun a b => key_less b a = false)).
  - intros x y Hx Hy H1 H2. rewrite elem_of_sort_by in Hx, Hy. rewrite <- Hp in Hy.
    destruct (decide (key x = key y)) as [E|Hne].
    + apply list_elem_of_lookup in Hx as [i Hi], Hy as [j Hj].
      assert (i = j); [|congruence].
      eapply (NoDup_lookup _ _ _ (key x) Hnd); rewrite list_lookup_fmap.
      * by rewrite Hi.
      * by rewrite Hj, E.
    + unfold key_less in *. destruct (string_ltb_total _ _ Hne); congruence.
  - apply sort_by_weak.
  - apply sort_by_weak.
  - by rewrite !sort_by_perm.
Qed.
End SortBy.

(** The values of a map, and a map whose values carry their key. *)
Definition values {K A} `{Countable K} (m : gmap K A) : list A := (map_to_list m).*2.
Definition keyed {A} (key : A -> string) (m : gmap string A) : Prop :=
  map_Forall (fun k v => key v = k) m.

Lemma elem_of_values {K A} `{Countable K} (m : gmap K A) v :
  v ∈ values m <-> exists k, m !! k = Some v.
Proof.
  unfold values. rewrite list_elem_of_fmap. split.
  - intros ([k v'] & -> & Hk%elem_of_map_to_list). by exists k.
  - intros [k Hk%elem_of_map_to_list]. by exists (k, v).
Qed.
Lemma keyed_keys {A} (key : A -> string) m : keyed key m ->
  key <$> values m = (map_to_list m).*1.
Proof.
  intros Hk. unfold values. rewrite <- list_fmap_compose. apply list_fmap_ext.
  intros i [k v] Hi. cbn. apply Hk, elem_of_map_to_list. by eapply list_elem_of_lookup_2.
Qed.
Lemma keyed_NoDup {A} (key : A -> string) m : keyed key m -> NoDup (key <$> values m).
Proof. intros Hk. rewrite keyed_keys by done. apply NoDup_fst_map_to_list. Qed.
Lemma keyed_empty {A} (key : A -> string) : keyed key ∅.
Proof. apply map_Forall_empty. Qed.
Lemma keyed_insert {A} (key : A -> string) m k v : keyed key m -> key v = k ->
  keyed key (<[k := v]> m).
Proof. intros. by apply map_Forall_insert_2. Qed.
Lemma keyed_delete {A} (key : A -> string) m k : keyed key m -> keyed key (delete k m).
Proof. apply map_Forall_delete. Qed.

(** A fact about the integers below [n], decided by evaluation. *)
Lemma finite_fact n (P : Z -> Prop) `{forall z, Decision (P z)} :
  forallb (fun z => bool_decide (P z)) (seqZ 0 n) = true -> forall z, 0 <= z < n -> P z.
Proof.
  intros Hf z Hz. rewrite forallb_forall in Hf. eapply bool_decide_unpack, Is_true_true, Hf.
  apply list_elem_of_In, elem_of_seqZ. lia.
Qed.

(** ** Go's [strings] package, on bytes *)
Definition HasPrefix (s p : string) : bool := String.prefix p s.
Definition HasSuffix (s p : string) : bool :=
  (slen p <=? slen s) && bool_decide (drop (Z.to_nat (slen s - slen p)) (string_bytes s) = string_bytes p).
Definition TrimPrefix (s p : string) : string :=
  if HasPrefix s p then bytes_string (drop (Z.to_nat (slen p)) (string_bytes s)) else s.
(** [TrimSpace] on ASCII text. *)
Fixpoint drop_spaces (l : list Z) : list Z :=
  match l with
  | c :: l' => if ((9 <=? c) && (c <=? 13)) || (c =? 32) then drop_spaces l' else l
  | [] => []
  end.
Definition TrimSpace (s : string) : string :=
  bytes_string (reverse (drop_spaces (reverse (drop_spaces (string_bytes s))))).
(** [ToLower] on ASCII text, all the program applies it to. *)
Definition ToLower (s : string) : string :=
  bytes_string ((fun c => if (65 <=? c) && (c <=? 90) then c + 32 else c) <$> string_bytes s).

Lemma HasPrefix_spec s p : HasPrefix s p = true <-> exists t, s = p +:+ t.
Proof.
  unfold HasPrefix. revert s. induction p as [|c p IH]; intros s.
  { split; [by exists s|by destruct s]. }
  destruct s as [|d s]; cbn [String.prefix]; [split; [done|by intros [t ?]]|].
  destruct (Ascii.ascii_dec c d) as [->|Hne].
  - rewrite (IH s). split; intros [t E]; exists t; [by rewrite E|by injection E].
  - split; [done|]. intros [t [= ? _]]. congruence.
Qed.
