(* ===== verification/Paths.v ===== *)
(** * Paths: slash-separated names

    What the sources take from [path/filepath] and from the request router: a
    path as its components, [Clean], and the lemmas that relate a list of
    ordinary components to the text it is joined to.  [Backup] cleans archive
    names with it, [Mux] splits request paths with it. *)
From S2P Require Import Prelude.

(** ** Paths: [filepath.Clean] on a Unix system *)
Definition slash : Ascii.ascii := Ascii.ascii_of_nat 47.
Fixpoint split_slash (s : string) : string * list string :=
  match s with
  | EmptyString => (EmptyString, [])
  | String c s => let '(x, l) := split_slash s in
                  if Ascii.ascii_dec c slash then (EmptyString, x :: l) else (String c x, l)
  end.
Definition components (s : string) : list string := let '(x, l) := split_slash s in x :: l.
Definition join (p : list string) : string := String.concat (String slash EmptyString) p.
(** One component onto the cleaned ones, the last one first. *)
Definition clean_step (rooted : bool) (out : list string) (c : string) : list string :=
  if decide (c = ""%string \/ c = "."%string) then out
  else if decide (c = ".."%string) then
    match out with
    | [] => if rooted then [] else [c]
    | x :: rest => if decide (x = ".."%string) then c :: out else rest
    end
  else c :: out.
Definition clean (s : string) : list string :=
  reverse (foldl (clean_step (HasPrefix s "/")) [] (components s)).
Definition Clean (s : string) : string :=
  let p := join (clean s) in
  if HasPrefix s "/" then String slash p
  else if decide (p = ""%string) then "."%string else p.

(** [filepath.Join] of a directory and a name that is not empty. *)
Definition Join (dir name : string) : string :=
  if decide (dir = ""%string) then Clean name else Clean (dir +:+ String slash name).

(** ** Cleaning *)
Fixpoint slashless (s : string) : bool :=
  match s with
  | EmptyString => true
  | String c s => negb (bool_decide (c = slash)) && slashless s
  end.
(** A component that names something inside its directory. *)
Definition ordinary (c : string) : Prop :=
  c <> ""%string /\ c <> "."%string /\ c <> ".."%string /\ slashless c = true.

Lemma split_slashless s : (let '(x, l) := split_slash s in
  slashless x = true /\ Forall (fun c => slashless c = true) l).
Proof.
  induction s as [|c s IH]; [done|]. cbn [split_slash]. destruct (split_slash s) as [x l].
  destruct IH as [Hx Hl]. destruct (Ascii.ascii_dec c slash); [by split; [|constructor]|].
  split; [|done]. cbn. by rewrite bool_decide_false.
Qed.
Lemma components_slashless s : Forall (fun c => slashless c = true) (components s).
Proof.
  unfold components. pose proof (split_slashless s) as Hs. destruct (split_slash s).
  constructor; apply Hs.
Qed.
Lemma string_app_nil c : c +:+ ""%string = c.
Proof.
  induction c as [|a c IH]; [done|]. change (String a (c +:+ ""%string) = String a c). by rewrite IH.
Qed.
Lemma split_app c s : slashless c = true ->
  split_slash (c +:+ s) = let '(x, l) := split_slash s in (c +:+ x, l).
Proof.
  induction c as [|a c IH]; intros Hc.
  { change (""%string +:+ s) with s. by destruct (split_slash s). }
  cbn in Hc. change (split_slash (String a c +:+ s)) with
    (let '(x, l) := split_slash (c +:+ s) in
     if Ascii.ascii_dec a slash then (EmptyString, x :: l) else (String a x, l)).
  apply andb_true_iff in Hc as [Ha Hc]. apply negb_true_iff, bool_decide_eq_false in Ha.
  rewrite (IH Hc).
  destruct (split_slash s). by destruct (Ascii.ascii_dec a slash).
Qed.
Lemma components_join p : p <> [] -> Forall ordinary p -> components (join p) = p.
Proof.
  intros Hne Hp. unfold components. induction Hp as [|c p (_ & _ & _ & Hc) Hp IH]; [done|].
  destruct p as [|d p].
  - pose proof (split_app c "" Hc) as E. cbn in E |- *.
    rewrite string_app_nil in E. by rewrite E.
  - change (join (c :: d :: p)) with (c +:+ String slash (join (d :: p))). rewrite (split_app _ _ Hc).
    specialize (IH ltac:(done)). cbn [split_slash]. destruct (split_slash (join (d :: p))) as [x l].
    destruct (Ascii.ascii_dec slash slash); [|done]. rewrite <- IH.
    by rewrite string_app_nil.
Qed.
Lemma clean_plains rooted p : Forall ordinary p -> forall out, foldl (clean_step rooted) out p = reverse p ++ out.
Proof.
  induction 1 as [|c p (H1 & H2 & H3 & _) Hp IH]; intros out; [done|]. cbn [foldl].
  unfold clean_step at 2. rewrite decide_False by tauto. rewrite decide_False by done.
  rewrite IH, reverse_cons, <- app_assoc. done.
Qed.
(** A relative name that cleans to something not starting with two dots names
    something inside the directory. *)
Lemma clean_inside s : HasPrefix s "/" = false -> HasPrefix (Clean s) ".." = false ->
  Forall ordinary (clean s).
Proof.
  unfold Clean, clean. intros Hs. rewrite Hs. pose proof (components_slashless s) as Hl.
  assert (Hshape : exists ps n, foldl (clean_step false) [] (components s) = ps ++ replicate n ".."%string /\
                                Forall ordinary ps).
  { assert (Hg : forall l out, Forall (fun c => slashless c = true) l ->
       (exists ps n, out = ps ++ replicate n ".."%string /\ Forall ordinary ps) ->
       exists ps n, foldl (clean_step false) out l = ps ++ replicate n ".."%string /\ Forall ordinary ps).
    { clear. induction l as [|c l IH]; intros out Hl Ho; [done|]. apply Forall_cons in Hl as [Hc Hl].
      cbn [foldl]. apply IH; [done|]. destruct Ho as (ps & n & -> & Hps). unfold clean_step.
      destruct (decide (c = ""%string \/ c = "."%string)) as [|Hne]; [by exists ps, n|].
      destruct (decide (c = ".."%string)) as [->|Hne2].
      - destruct ps as [|x ps]; cbn [app].
        + exists [], (S n). by destruct n.
        + inversion Hps as [|? ? Hx Hps']; subst. destruct Hx as (_ & _ & Hx & _).
          rewrite decide_False by done. by exists ps, n.
      - exists (c :: ps), n. split; [done|]. constructor; [|done]. unfold ordinary. tauto. }
    apply Hg; [done|]. exists [], 0%nat. done. }
  destruct Hshape as (ps & n & E & Hps). rewrite E. destruct n as [|n].
  - intros _. rewrite app_nil_r. by apply Forall_reverse.
  - assert (Er : reverse (ps ++ replicate (S n) ".."%string) = ".."%string :: (replicate n ".."%string ++ reverse ps)).
    { rewrite reverse_app, reverse_replicate. done. }
    rewrite Er. generalize (replicate n ".."%string ++ reverse ps). intros l Hf. exfalso. revert Hf.
    unfold join. destruct l as [|x l]; [by vm_compute|].
    change (String.concat _ (".."%string :: x :: l)) with (".."%string +:+ String slash (join (x :: l))).
    rewrite decide_False by done. done.
Qed.

Lemma Clean_relative s : HasPrefix (Clean s) "/" = false -> HasPrefix s "/" = false.
Proof.
  unfold Clean. destruct (HasPrefix s "/") eqn:E; [|done]. intros Hf. exfalso. revert Hf.
  unfold HasPrefix. cbn [String.prefix]. by destruct (join (clean s)).
Qed.

Lemma prefix_char c s : HasPrefix (c +:+ s) "/" = true -> c <> ""%string -> slashless c = false.
Proof.
  destruct c as [|a c]; [done|]. intros Hp _. unfold HasPrefix in Hp.
  change (String a c +:+ s) with (String a (c +:+ s)) in Hp. cbn [String.prefix] in Hp.
  case_match; [by subst|done].
Qed.
Lemma join_head c p : exists s, join (c :: p) = c +:+ s /\ (s = ""%string \/ exists s', s = String slash s').
Proof.
  destruct p as [|d p]; [exists ""%string; rewrite string_app_nil; by eauto|].
  exists (String slash (join (d :: p))). by eauto.
Qed.
Lemma Clean_plain p : p <> [] -> Forall ordinary p ->
  (forall c, head p = Some c -> HasPrefix c ".." = false) ->
  clean (join p) = p /\ (HasPrefix (Clean (join p)) ".." || HasPrefix (Clean (join p)) "/") = false.
Proof.
  intros Hne Hp Hh.
  assert (Hs : HasPrefix (join p) "/" = false /\ HasPrefix (join p) ".." = false /\ join p <> ""%string).
  { destruct p as [|c p]; [done|]. inversion Hp as [|? ? (H1 & H2 & H3 & H4) _]; subst.
    specialize (Hh c eq_refl). destruct (join_head c p) as (s & -> & Hs). split; [|split].
    - apply not_true_is_false. intros E. apply prefix_char in E; congruence.
    - destruct c as [|a [|b c]]; [by destruct H1| |].
      + change (String a ""%string +:+ s) with (String a s). unfold HasPrefix. cbn [String.prefix].
        case_match; [|done]. destruct H2. by subst.
      + change (String a (String b c) +:+ s) with (String a (String b (c +:+ s))).
        unfold HasPrefix in Hh |- *. cbn [String.prefix] in Hh |- *. repeat case_match; try done.
        by destruct c.
    - by destruct c. }
  destruct Hs as (Hs & Hd & Hn).
  assert (Ec : clean (join p) = p).
  { unfold clean. rewrite Hs, components_join, clean_plains by done.
    by rewrite app_nil_r, reverse_involutive. }
  split; [done|]. unfold Clean. rewrite Hs, Ec, decide_False by done. by rewrite Hd, Hs.
Qed.

(** ** Names in a directory *)
Lemma string_app_assoc a b c : (a +:+ b) +:+ c = a +:+ b +:+ c.
Proof.
  induction a as [|x a IH]; [done|].
  change (String x ((a +:+ b) +:+ c) = String x (a +:+ b +:+ c)). by rewrite IH.
Qed.
Lemma string_app_inj a b c : a +:+ b = a +:+ c -> b = c.
Proof.
  induction a as [|x a IH]; [done|]. change (String x (a +:+ b) = String x (a +:+ c) -> b = c).
  intros [= E]. by apply IH.
Qed.
Lemma components_snoc d n : slashless n = true -> components (d +:+ String slash n) = components d ++ [n].
Proof.
  intros Hn. unfold components.
  assert (Es : split_slash n = (n, [])).
  { pose proof (split_app n "" Hn) as E. cbn in E. by rewrite string_app_nil in E. }
  induction d as [|c d IH].
  - change (""%string +:+ String slash n) with (String slash n). cbn [split_slash]. rewrite Es.
    by destruct (Ascii.ascii_dec slash slash).
  - change (String c d +:+ String slash n) with (String c (d +:+ String slash n)). cbn [split_slash].
    destruct (split_slash (d +:+ String slash n)) as [x l], (split_slash d) as [y k].
    cbn [app] in IH. injection IH as -> ->. by destruct (Ascii.ascii_dec c slash).
Qed.
Lemma join_snoc p : exists pre, forall n, join (p ++ [n]) = pre +:+ n.
Proof.
  induction p as [|c p [pre IH]]; [by exists ""%string|].
  exists (c +:+ String slash pre). intros n. rewrite string_app_assoc.
  change (String slash pre +:+ n) with (String slash (pre +:+ n)). rewrite <- IH. by destruct p.
Qed.
Lemma clean_step_ordinary rooted out n : ordinary n -> clean_step rooted out n = n :: out.
Proof.
  intros (H1 & H2 & H3 & _). unfold clean_step. rewrite decide_False by tauto. by rewrite decide_False.
Qed.
Lemma HasPrefix_slash d n : d <> ""%string -> HasPrefix (d +:+ String slash n) "/" = HasPrefix d "/".
Proof. destruct d as [|c d]; [done|]. intros _. cbn. by destruct d, n. Qed.
(** An ordinary name is joined to its directory as it is. *)
Lemma Join_ordinary d : exists pre, forall n, ordinary n -> Join d n = pre +:+ n.
Proof.
  unfold Join. case_decide as Hd.
  - exists ""%string. intros n Hn. pose proof Hn as (H1 & _ & _ & Hs).
    assert (Hp : HasPrefix n "/" = false).
    { apply not_true_is_false. intros E. rewrite <- (string_app_nil n) in E. apply prefix_char in E; congruence. }
    assert (Hc : components n = [n]) by (apply (components_join [n]); [done|by constructor]).
    unfold Clean, clean. rewrite Hp, Hc. cbn [foldl]. rewrite clean_step_ordinary by done.
    rewrite reverse_singleton. cbn [join String.concat]. by rewrite decide_False.
  - set (rooted := HasPrefix d "/"). set (out := foldl (clean_step rooted) [] (components d)).
    destruct (join_snoc (reverse out)) as [pre Hpre].
    exists ((if rooted then String slash "" else "") +:+ pre). intros n Hn.
    assert (Hc : clean (d +:+ String slash n) = reverse out ++ [n]).
    { unfold clean. rewrite HasPrefix_slash, components_snoc, foldl_app by (done || apply Hn).
      fold rooted out. cbn [foldl]. by rewrite clean_step_ordinary, reverse_cons. }
    unfold Clean. rewrite Hc, Hpre, HasPrefix_slash by done. fold rooted. destruct rooted; [done|].
    rewrite decide_False; [done|]. intros E. pose proof Hn as (Hne & _).
    destruct pre; [by destruct n|done].
Qed.
Lemma Join_inj d m n : ordinary m -> ordinary n -> Join d m = Join d n -> m = n.
Proof. destruct (Join_ordinary d) as [pre E]. intros Hm Hn. rewrite !E by done. apply string_app_inj. Qed.
