(* ===== verification/Float64.v ===== *)
(** * Float64: Go's [float64]

    IEEE 754 binary64 with round to nearest even, as computed by the
    Standard Library's [SpecFloat]: 53 bits of precision, maximal exponent
    1024.  Comparisons of non-NaN values are a total preorder; the scheduler
    and the token bucket rely on that. *)
From Stdlib Require Import SpecFloat.
From S2P Require Import Prelude.

Abbreviation f64 := spec_float.
Definition f64_zero : f64 := S754_zero false.
Definition f64_inf : f64 := S754_infinity false.
Definition fadd : f64 -> f64 -> f64 := SFadd 53 1024.
Definition fsub : f64 -> f64 -> f64 := SFsub 53 1024.
Definition fmul : f64 -> f64 -> f64 := SFmul 53 1024.
Definition fdiv : f64 -> f64 -> f64 := SFdiv 53 1024.
(** Go's comparison operators: all false when an operand is NaN. *)
Definition flt (a b : f64) : bool := SFltb a b.
Definition fle (a b : f64) : bool := SFleb a b.
Definition feq (a b : f64) : bool := SFeqb a b.
(** [float64(z)] for an integer [z], correctly rounded. *)
Definition f64_of_Z (z : Z) : f64 := binary_normalize 53 1024 z 0 false.
(** A decimal constant [p/q] with [p], [q] exact: the nearest float. *)
Definition f64_ratio (p q : Z) : f64 := fdiv (f64_of_Z p) (f64_of_Z q).
Definition is_nan (a : f64) : bool := match a with S754_nan => true | _ => false end.
(** What JSON has a text for. *)
Definition finite (f : f64) : bool := match f with S754_nan | S754_infinity _ => false | _ => true end.
Definition is_inf_pos (a : f64) : bool :=
  match a with S754_infinity false => true | _ => false end.
(** Truncation toward zero, [int64(x)], of a finite value; [None] where Go's
    conversion is implementation specific (NaN, infinities, out of range). *)
Definition f64_trunc (a : f64) : option Z :=
  match a with
  | S754_zero _ => Some 0
  | S754_finite s m e =>
      let v := Z.shiftl (Zpos m) e in
      let v := if s then - v else v in
      if (- 2 ^ 63 <=? v) && (v <? 2 ^ 63) then Some v else None
  | _ => None
  end.

#[global] Instance f64_eq_dec : EqDecision f64.
Proof. solve_decision. Defined.

(** ** Comparison as a lexicographic order on keys *)
Definition fkey (a : f64) : Z * Z * Z :=
  match a with
  | S754_nan => (3, 0, 0)
  | S754_infinity true => (-2, 0, 0)
  | S754_finite true m e => (-1, - e, - Zpos m)
  | S754_zero _ => (0, 0, 0)
  | S754_finite false m e => (1, e, Zpos m)
  | S754_infinity false => (2, 0, 0)
  end.
Definition lex3 (x y : Z * Z * Z) : comparison :=
  let '(a, b, c) := x in
  let '(a', b', c') := y in
  match Z.compare a a' with
  | Eq => match Z.compare b b' with Eq => Z.compare c c' | r => r end
  | r => r
  end.

Lemma SFcompare_key a b : is_nan a = false -> is_nan b = false ->
  SFcompare a b = Some (lex3 (fkey a) (fkey b)).
Proof.
  destruct a as [s1|s1| |s1 m1 e1], b as [s2|s2| |s2 m2 e2];
    try destruct s1; try destruct s2; try done; intros _ _; cbn.
  rewrite Z.compare_opp, (Z.compare_antisym e1 e2).
  destruct (e1 ?= e2); cbn; try done.
Qed.

Definition key_lt (x y : Z * Z * Z) : Prop :=
  x.1.1 < y.1.1 \/ (x.1.1 = y.1.1 /\ (x.1.2 < y.1.2 \/ (x.1.2 = y.1.2 /\ x.2 < y.2))).

Lemma lex3_lt x y : lex3 x y = Lt <-> key_lt x y.
Proof.
  unfold key_lt. destruct x as [[a b] c], y as [[a' b'] c']; cbn.
  destruct (Z.compare_spec a a'), (Z.compare_spec b b'), (Z.compare_spec c c');
    split; intros; try done; lia.
Qed.
Lemma lex3_eq x y : lex3 x y = Eq <-> x = y.
Proof.
  destruct x as [[a b] c], y as [[a' b'] c']; cbn.
  destruct (Z.compare_spec a a'), (Z.compare_spec b b'), (Z.compare_spec c c');
    split; intros; simplify_eq; try done; try lia.
Qed.

Lemma flt_key a b : is_nan a = false -> is_nan b = false ->
  flt a b = true <-> key_lt (fkey a) (fkey b).
Proof.
  intros Ha Hb. unfold flt, SFltb. rewrite SFcompare_key by done.
  rewrite <- lex3_lt. by destruct (lex3 _ _).
Qed.
Lemma feq_key a b : is_nan a = false -> is_nan b = false ->
  feq a b = true <-> fkey a = fkey b.
Proof.
  intros Ha Hb. unfold feq, SFeqb. rewrite SFcompare_key by done.
  rewrite <- lex3_eq. by destruct (lex3 _ _).
Qed.
Lemma fle_key a b : is_nan a = false -> is_nan b = false ->
  fle a b = true <-> key_lt (fkey a) (fkey b) \/ fkey a = fkey b.
Proof.
  intros Ha Hb. unfold fle, SFleb. rewrite SFcompare_key by done.
  rewrite <- lex3_lt, <- lex3_eq.
  destruct (lex3 _ _); intuition discriminate.
Qed.
Lemma key_eq_components (x y : Z * Z * Z) :
  x = y <-> x.1.1 = y.1.1 /\ x.1.2 = y.1.2 /\ x.2 = y.2.
Proof. destruct x as [[??]?], y as [[??]?]; cbn; split; intros; intuition congruence. Qed.

(** Decide a goal about comparisons of non-NaN floats by passing to keys. *)
Ltac fcmp :=
  repeat match goal with
  | H : flt ?a ?b = false |- _ => apply not_true_iff_false in H
  | H : fle ?a ?b = false |- _ => apply not_true_iff_false in H
  | H : feq ?a ?b = false |- _ => apply not_true_iff_false in H
  | |- flt ?a ?b = false => apply not_true_iff_false
  | |- fle ?a ?b = false => apply not_true_iff_false
  | |- feq ?a ?b = false => apply not_true_iff_false
  end;
  rewrite ?flt_key, ?feq_key, ?fle_key in * by done;
  rewrite ?key_eq_components in *; unfold key_lt in *; try lia.

Lemma flt_trans a b c : is_nan a = false -> is_nan b = false -> is_nan c = false ->
  flt a b = true -> flt b c = true -> flt a c = true.
Proof. intros. fcmp. Qed.
Lemma fle_lt_trans a b c : is_nan a = false -> is_nan b = false -> is_nan c = false ->
  fle a b = true -> flt b c = true -> flt a c = true.
Proof. intros. fcmp. Qed.
Lemma flt_fle a b : is_nan a = false -> is_nan b = false ->
  flt a b = negb (fle b a).
Proof.
  intros. destruct (fle b a) eqn:E; simpl; fcmp.
Qed.
