(* ===== verification/Shim.v ===== *)
(** * Shim: the Hydra per-packet sequencing header

    [core/hydra/shim/shim.go]: a fixed 24-byte header (magic, version, flags,
    weave id, sequence, timestamp, all big endian) in front of the payload. *)
From S2P Require Import Prelude.

Definition Magic : Z := 0x4859.
Definition Version : Z := 1.
Definition HeaderLen : Z := 24.
Definition FlagNone : Z := 0.
Definition FlagProbe : Z := 1.
Definition FlagLast : Z := 2.

Inductive Error := ErrShort | ErrMagic | ErrVersion (got : Z).
#[global] Instance Error_eq_dec : EqDecision Error.
Proof. solve_decision. Defined.

Record Header := mkHeader {
  hVersion : Z;  (* uint8 *)
  Flags : Z;     (* uint8 *)
  WeaveID : Z;   (* uint32 *)
  Seq : Z;       (* uint64 *)
  TSNanos : Z;   (* int64 *)
}.
#[global] Instance Header_eq_dec : EqDecision Header.
Proof. solve_decision. Defined.

(** The field widths of the Go struct. *)
Definition wf_header (h : Header) : Prop :=
  is_byte (hVersion h) /\ is_byte (Flags h) /\ is_u32 (WeaveID h) /\
  is_u64 (Seq h) /\ is_i64 (TSNanos h).

Definition New (weaveID seq tsNanos : Z) : Header :=
  {| hVersion := Version; Flags := FlagNone; WeaveID := weaveID; Seq := seq;
     TSNanos := tsNanos |}.

Definition Encode (h : Header) : bytes :=
  be_put 2 Magic ++ [hVersion h; Flags h] ++ be_put 4 (WeaveID h) ++
  be_put 8 (Seq h) ++ be_put 8 (u64 (TSNanos h)).

Definition Decode (b : bytes) : res Error (Header * bytes) :=
  if zlen b <? HeaderLen then Err ErrShort
  else if negb (be_get (slice b 0 2) =? Magic) then Err ErrMagic
  else
    let h := {| hVersion := at_ b 2; Flags := at_ b 3;
                WeaveID := be_get (slice b 4 8);
                Seq := be_get (slice b 8 16);
                TSNanos := i64 (be_get (slice b 16 24)) |} in
    if negb (hVersion h =? Version) then Err (ErrVersion (hVersion h))
    else Ok (h, drop (Z.to_nat HeaderLen) b).

Definition Frame (h : Header) (payload : bytes) : bytes := Encode h ++ payload.

(** ** Lemmas *)
Lemma length_Encode h : length (Encode h) = 24%nat.
Proof. reflexivity. Qed.
Lemma zlen_Frame h p : zlen (Frame h p) = HeaderLen + zlen p.
Proof. unfold Frame. by rewrite zlen_app. Qed.
Lemma i64_u64 z : is_i64 z -> i64 (u64 z) = z.
Proof.
  unfold is_i64, i64, u64. intros H.
  rewrite Zplus_mod_idemp_l. apply (i64_id z H).
Qed.
Lemma u64_i64 z : is_u64 z -> u64 (i64 z) = z.
Proof.
  unfold is_u64, i64, u64. intros H. rewrite Zminus_mod_idemp_l.
  replace (z + 2 ^ 63 - 2 ^ 63) with z by lia. by apply Z.mod_small.
Qed.
Lemma New_wf w s t : is_u32 w -> is_u64 s -> is_i64 t -> wf_header (New w s t).
Proof.
  intros. unfold wf_header, New, is_byte, Version, FlagNone. cbn. split_and!; try done; lia.
Qed.

(** Any 24 bytes split into the six fields; [Decode] reads them back. *)
Lemma Decode_fields m v f w s t p :
  length m = 2%nat -> length w = 4%nat -> length s = 8%nat -> length t = 8%nat ->
  Decode (m ++ [v; f] ++ w ++ s ++ t ++ p) =
    if negb (be_get m =? Magic) then Err ErrMagic
    else if negb (v =? Version) then Err (ErrVersion v)
    else Ok ({| hVersion := v; Flags := f; WeaveID := be_get w; Seq := be_get s;
                TSNanos := i64 (be_get t) |}, p).
Proof.
  intros Hm Hw Hs Ht.
  do 3 (destruct m as [|? m]; try discriminate Hm).
  do 5 (destruct w as [|? w]; try discriminate Hw).
  do 9 (destruct s as [|? s]; try discriminate Hs).
  do 9 (destruct t as [|? t]; try discriminate Ht).
  unfold Decode. rewrite (proj2 (Z.ltb_ge _ _)) by (unfold zlen, HeaderLen; cbn [app length]; lia).
  reflexivity.
Qed.

(** A frame of at least 24 bytes is the concatenation of its fields. *)
Lemma frame_fields b : HeaderLen <= zlen b -> exists (m : bytes) (v f : Z) (w s t p : bytes),
  b = m ++ [v; f] ++ w ++ s ++ t ++ p /\
  length m = 2%nat /\ length w = 4%nat /\ length s = 8%nat /\ length t = 8%nat.
Proof.
  intros H. unfold HeaderLen, zlen in H.
  do 24 (destruct b as [|? b]; [cbn [length] in H; lia|]).
  eexists [_; _], _, _, [_; _; _; _], [_; _; _; _; _; _; _; _],
    [_; _; _; _; _; _; _; _], b. cbn. done.
Qed.

Ltac forall_bytes :=
  repeat match goal with
  | H : Forall is_byte (_ ++ _) |- _ => apply Forall_app in H as [? H]
  | H : Forall is_byte (_ :: _) |- _ => apply Forall_cons in H as [? H]
  end.

Lemma Decode_Frame h p : wf_header h -> hVersion h = Version ->
  Decode (Frame h p) = Ok (h, p).
Proof.
  intros (Hv & Hf & Hw & Hs & Ht) Ev. unfold Frame, Encode. rewrite <- !app_assoc.
  rewrite Decode_fields by (by rewrite ?length_be_put).
  rewrite !be_get_put. change (negb (Magic mod 256 ^ Z.of_nat 2 =? Magic)) with false.
  cbn iota. rewrite Ev. cbn. unfold is_u32, is_u64 in *.
  rewrite !Z.mod_small by (try lia; apply u64_range).
  rewrite i64_u64 by done. destruct h; cbn in *. by subst.
Qed.

(** C29: [Decode] is exactly the inverse of [Frame]: a byte string decodes to a
    header and a payload iff it is the frame of that header and payload, the
    header has the current version and every field fits its Go type. *)
Theorem Decode_iff_Frame b h p : Forall is_byte b ->
  Decode b = Ok (h, p) <->
  b = Frame h p /\ wf_header h /\ hVersion h = Version.
Proof.
  intros Hb. split.
  - intros HD. destruct (decide (zlen b < HeaderLen)) as [Hs|Hs].
    { unfold Decode in HD. by rewrite (proj2 (Z.ltb_lt _ _) Hs) in HD. }
    destruct (frame_fields b ltac:(lia)) as (m & v & f & w & s & t & q & -> & Hl).
    destruct Hl as (Hm & Hw & Hs' & Ht). rewrite Decode_fields in HD by done.
    destruct (be_get m =? Magic) eqn:Em, (v =? Version) eqn:Ev; cbn in HD; try done.
    injection HD as <- ->. zbool. forall_bytes.
    pose proof (be_get_bound w ltac:(done)) as Bw.
    pose proof (be_get_bound s ltac:(done)) as Bs.
    pose proof (be_get_bound t ltac:(done)) as Bt.
    unfold zlen in Bw, Bs, Bt. rewrite Hw in Bw. rewrite Hs' in Bs. rewrite Ht in Bt.
    split; [|by unfold wf_header; cbn; split_and!; try done; apply i64_range].
    unfold Frame, Encode. cbn [hVersion Flags WeaveID Seq TSNanos].
    rewrite u64_i64, <- Em by done.
    by rewrite <- !app_assoc, !be_put_get_eq by done.
  - intros (-> & Hwf & Hv). by apply Decode_Frame.
Qed.

(** ** Concrete instance *)
Definition demo_header : Header := New 0xdeadbeef 42 (-5).
Lemma demo_frame_bytes : Forall is_byte (Frame demo_header [1; 2; 3]).
Proof. vm_decide. Qed.
Lemma Decode_iff_Frame_witness :
  Decode (Frame demo_header [1; 2; 3]) = Ok (demo_header, [1; 2; 3]) <->
  Frame demo_header [1; 2; 3] = Frame demo_header [1; 2; 3] /\
  wf_header demo_header /\ hVersion demo_header = Version.
Proof. apply (Decode_iff_Frame _ _ _ demo_frame_bytes). Defined.
