(* ===== verification/Sched.v ===== *)
(** * Sched: the delay-inflation scheduler

    [core/hydra/sched/sched.go]: each packet goes to the thread whose projected
    completion time is earliest.  Times are [float64], computed exactly as the
    Go code computes them ([Float64]). *)
From S2P Require Import Prelude Float64.

Inductive Error := ErrNoThread.
#[global] Instance Error_eq_dec : EqDecision Error.
Proof. solve_decision. Defined.

Record Thread := mkThread {
  ID : string;
  Mbps : f64;
  RTTms : f64;
  LossPct : f64;
  QueueBytes : Z;  (* uint64 *)
}.
#[global] Instance Thread_eq_dec : EqDecision Thread.
Proof. solve_decision. Defined.

Definition c0_99 : f64 := f64_ratio 99 100.

(** [Projected]: expected seconds until [pktBytes] more bytes are delivered. *)
Definition Projected (t : Thread) (pktBytes : Z) : f64 :=
  if fle (Mbps t) f64_zero then f64_inf
  else
    let rate := fdiv (fmul (Mbps t) (f64_of_Z 1000000)) (f64_of_Z 8) in
    let loss := fdiv (LossPct t) (f64_of_Z 100) in
    let loss := if flt loss f64_zero then f64_zero
                else if flt c0_99 loss then c0_99 else loss in
    let bytes := f64_of_Z (u64 (QueueBytes t + pktBytes)) in
    let service := fdiv (fdiv bytes rate) (fsub (f64_of_Z 1) loss) in
    fadd service (fdiv (RTTms t) (f64_of_Z 2000)).

(** The loop test of [Pick] for candidate [t] against the best so far. *)
Definition better (pktBytes : Z) (t best : Thread) : bool :=
  let pt := Projected t pktBytes in
  let bestT := Projected best pktBytes in
  flt pt bestT || (feq pt bestT && String.ltb (ID t) (ID best)).

Definition Pick (threads : list Thread) (pktBytes : Z) : res Error Thread :=
  match threads with
  | [] => Err ErrNoThread
  | t0 :: rest =>
      let best := argmin (better pktBytes) t0 rest in
      if is_inf_pos (Projected best pktBytes) then Err ErrNoThread else Ok best
  end.

(** The comparison function [Rank] hands to [sort.SliceStable]. *)
Definition rank_less (pktBytes : Z) (a b : Thread) : bool :=
  let pi := Projected a pktBytes in
  let pj := Projected b pktBytes in
  if feq pi pj then String.ltb (ID a) (ID b) else flt pi pj.

Definition Rank (threads : list Thread) (pktBytes : Z) : list Thread :=
  stable_sort (rank_less pktBytes) threads.

(** ** Lemmas *)
Definition projectable (pktBytes : Z) (t : Thread) : Prop :=
  is_nan (Projected t pktBytes) = false.

Lemma better_rank_less n a b : projectable n a -> projectable n b ->
  better n a b = rank_less n a b.
Proof.
  unfold projectable, better, rank_less. intros Ha Hb.
  destruct (feq _ _) eqn:E; simpl; [|by rewrite orb_false_r].
  replace (flt (Projected a n) (Projected b n)) with false; [done|].
  symmetry. fcmp.
Qed.
Lemma rank_less_asym n x y : projectable n x -> projectable n y ->
  rank_less n x y = true -> rank_less n y x = false.
Proof.
  unfold projectable, rank_less. intros Hx Hy.
  destruct (feq (Projected x n) _) eqn:E1, (feq (Projected y n) _) eqn:E2; intros.
  - by apply string_ltb_asym.
  - exfalso. fcmp.
  - exfalso. fcmp.
  - fcmp.
Qed.
Lemma rank_less_negtrans n x y z :
  projectable n x -> projectable n y -> projectable n z ->
  rank_less n x y = false -> rank_less n y z = false -> rank_less n x z = false.
Proof.
  unfold projectable, rank_less. intros Hx Hy Hz.
  destruct (feq (Projected x n) (Projected y n)) eqn:E1,
    (feq (Projected y n) (Projected z n)) eqn:E2,
    (feq (Projected x n) (Projected z n)) eqn:E3; intros;
    try (by eapply string_ltb_negtrans); try (exfalso; fcmp; fail); fcmp.
Qed.
Lemma argmin_ext {A} (f g : A -> A -> bool) (P : A -> Prop) x l :
  (forall a b, P a -> P b -> f a b = g a b) -> P x -> Forall P l ->
  argmin f x l = argmin g x l.
Proof.
  intros Hfg Hx Hl. unfold argmin. revert x Hx.
  induction Hl as [|y l Hy Hl IH]; intros x Hx; simpl; [done|].
  rewrite (Hfg y x) by done. apply IH. by destruct (g y x).
Qed.

Lemma Pick_argmin t0 rest n : Forall (projectable n) (t0 :: rest) ->
  head (Rank (t0 :: rest) n) = Some (argmin (better n) t0 rest).
Proof.
  intros [H0 Hr]%Forall_cons. unfold Rank.
  rewrite (argmin_head _ (projectable n));
    eauto using rank_less_asym, rank_less_negtrans.
  f_equal. symmetry. apply (argmin_ext _ _ (projectable n)); auto using better_rank_less.
Qed.

(** [Pick] is the head of [Rank], unless no thread can carry the packet. *)
Theorem Pick_head_of_Rank threads n : Forall (projectable n) threads ->
  Pick threads n =
    match Rank threads n with
    | [] => Err ErrNoThread
    | t :: _ => if is_inf_pos (Projected t n) then Err ErrNoThread else Ok t
    end.
Proof.
  intros HP. destruct threads as [|t0 rest]; [done|].
  pose proof (Pick_argmin t0 rest n HP) as Hh. unfold Pick.
  destruct (Rank (t0 :: rest) n) as [|h ?]; [done|]. by injection Hh as ->.
Qed.

(** The whole ordering: a permutation, sorted by completion time then id. *)
Theorem Rank_sorted threads n : Forall (projectable n) threads ->
  Rank threads n ≡ₚ threads /\
  StronglySorted (fun a b => fle (Projected a n) (Projected b n) = true /\
    (feq (Projected a n) (Projected b n) = true -> String.ltb (ID b) (ID a) = false))
    (Rank threads n).
Proof.
  intros HP. split; [apply stable_sort_perm|].
  pose proof (stable_sort_sorted (rank_less n) (projectable n)
    (rank_less_asym n) (rank_less_negtrans n) threads HP) as Hs.
  assert (HR : Forall (projectable n) (Rank threads n)).
  { unfold Rank. by rewrite stable_sort_perm. }
  unfold Rank in *. induction Hs as [|x l Hs IH Hx]; constructor.
  - apply IH. by inversion HR.
  - apply Forall_cons in HR as [Px Pl]. rewrite Forall_forall in Hx, Pl |- *.
    intros y Hy. specialize (Hx y Hy). specialize (Pl y Hy).
    unfold rank_less, projectable in *.
    destruct (feq (Projected y n) (Projected x n)) eqn:E; split; intros; fcmp.
    done.
Qed.

(** C30: A picked thread is one of the candidates, can carry traffic, and no
    candidate would complete the packet earlier. *)
Theorem Pick_optimal threads n t : Forall (projectable n) threads ->
  Pick threads n = Ok t ->
  t ∈ threads /\ fle (Mbps t) f64_zero = false /\
  Forall (fun u => fle (Projected t n) (Projected u n) = true) threads.
Proof.
  intros HP HPick. rewrite Pick_head_of_Rank in HPick by done.
  destruct (Rank_sorted threads n HP) as [Hp Hs].
  destruct (Rank threads n) as [|h l]; [done|].
  destruct (is_inf_pos (Projected h n)) eqn:Ei; [done|]. injection HPick as ->.
  apply StronglySorted_inv in Hs as [_ Hall].
  split_and!.
  - rewrite <- Hp. set_solver.
  - unfold Projected in Ei. by destruct (fle (Mbps t) f64_zero).
  - rewrite <- Hp. assert (Ht : projectable n t).
    { rewrite <- Hp in HP. by inversion HP. }
    constructor; [unfold projectable in Ht; fcmp|].
    eapply Forall_impl; [exact Hall|]. by intros ? [? _].
Qed.

(** [ErrNoThread] exactly when every candidate's projection is +Inf. *)
Theorem Pick_none_iff threads n : Forall (projectable n) threads ->
  Pick threads n = Err ErrNoThread <->
  Forall (fun u => is_inf_pos (Projected u n) = true) threads.
Proof.
  intros HP. rewrite Pick_head_of_Rank by done.
  destruct (Rank_sorted threads n HP) as [Hp Hs].
  assert (HR : Forall (projectable n) (Rank threads n)) by (by rewrite Hp).
  assert (Hiff : Forall (fun u => is_inf_pos (Projected u n) = true) threads <->
    Forall (fun u => is_inf_pos (Projected u n) = true) (Rank threads n)) by (by rewrite Hp).
  rewrite Hiff. clear HP Hp Hiff. rename HR into HP.
  destruct (Rank threads n) as [|h l]; [done|].
  apply StronglySorted_inv in Hs as [_ Hall]. apply Forall_cons in HP as [Ph Pl].
  destruct (is_inf_pos (Projected h n)) eqn:Ei; split; try done.
  - intros _. constructor; [done|]. rewrite Forall_forall in Hall, Pl |- *.
    intros u Hu. destruct (Hall u Hu) as [Hle _]. specialize (Pl u Hu).
    unfold projectable in *.
    destruct (Projected h n) as [|[]| |]; try done.
    by destruct (Projected u n) as [|[]| |].
  - intros [Hi _]%Forall_cons. congruence.
Qed.

(** ** Concrete instances *)
Definition thread_a : Thread := mkThread "a" (f64_of_Z 300) (f64_of_Z 18) f64_zero 0.
Definition thread_b : Thread := mkThread "b" (f64_of_Z 300) (f64_of_Z 22) f64_zero 0.
Definition thread_down : Thread := mkThread "c" f64_zero f64_zero f64_zero 0.
Example Pick_ab : Pick [thread_down; thread_b; thread_a] 1200 = Ok thread_a.
Proof. vm_compute. reflexivity. Qed.
Lemma projectable_abc : Forall (projectable 1200) [thread_down; thread_b; thread_a].
Proof. repeat constructor. Qed.

Definition threads_abc : list Thread := [thread_down; thread_b; thread_a].
Lemma Pick_optimal_witness : thread_a ∈ threads_abc /\ fle (Mbps thread_a) f64_zero = false /\
  Forall (fun u => fle (Projected thread_a 1200) (Projected u 1200) = true) threads_abc.
Proof. apply (Pick_optimal threads_abc 1200 thread_a projectable_abc Pick_ab). Defined.
Lemma Rank_sorted_witness : Rank threads_abc 1200 ≡ₚ threads_abc /\
  StronglySorted (fun a b => fle (Projected a 1200) (Projected b 1200) = true /\
    (feq (Projected a 1200) (Projected b 1200) = true -> String.ltb (ID b) (ID a) = false))
    (Rank threads_abc 1200).
Proof. apply (Rank_sorted threads_abc 1200 projectable_abc). Defined.
Lemma Pick_none_iff_witness : Pick threads_abc 1200 = Err ErrNoThread <->
  Forall (fun u => is_inf_pos (Projected u 1200) = true) threads_abc.
Proof. apply (Pick_none_iff threads_abc 1200 projectable_abc). Defined.
