(* ===== verification/Reorder.v ===== *)
(** * Reorder: the bounded sliding-window reassembler

    [core/hydra/reorder/reorder.go].  A [Buffer] is the Go struct without its
    mutex: every method runs under [b.mu], so a method is one atomic function
    from buffer to buffer.  The clock [b.now] is an argument: [t1] is its
    reading at the gap test, [t2] its reading when a gap is first observed. *)
From S2P Require Import Prelude.

Record Stats := mkStats {
  Received : Z; Delivered : Z; Duplicates : Z; TooFar : Z;
  Skipped : Z; Resyncs : Z; Reordered : Z; MaxDepth : Z;  (* all uint64 *)
}.
Definition zero_stats : Stats := mkStats 0 0 0 0 0 0 0 0.

Record Buffer := mkBuffer {
  window : Z;      (* uint64 *)
  next : Z;        (* uint64 *)
  gapTimeout : Z;  (* time.Duration *)
  gapSince : Z;    (* time.Time *)
  staleRun : Z;    (* uint64 *)
  slots : gmap Z bytes;
  stats : Stats;
}.

Definition DefaultWindow : Z := 4096.
Definition DefaultGapTimeout : Z := Second.
Definition ResyncAfter : Z := 64.

Definition NewAt (window start : Z) : Buffer :=
  let window := if window =? 0 then DefaultWindow else window in
  mkBuffer window start 0 0 0 ∅ zero_stats.
Definition New (window : Z) : Buffer := NewAt window 1.

Definition SetGapTimeout (b : Buffer) (d : Z) : Buffer := {| b with gapTimeout := d |}.

Definition depth (b : Buffer) : Z := Z.of_nat (size (slots b)).

(** [minBuffered]: 0 for an empty map, else the least key; Go's random map
    order does not matter to a minimum. *)
Definition minBuffered (b : Buffer) : Z :=
  match (map_to_list (slots b)).*1 with
  | [] => 0
  | k :: ks => foldr Z.min k ks
  end.

Definition with_stats (b : Buffer) (f : Stats -> Stats) : Buffer :=
  {| b with stats := f (stats b) |}.

(** The gap-timeout block at the top of [Push]. *)
Definition gapRecover (b : Buffer) (t1 : time) : Buffer :=
  if (0 <? gapTimeout b) && (0 <? depth b) && negb (IsZero (gapSince b)) &&
     (gapTimeout b <? time_sub t1 (gapSince b))
  then
    let lowest := minBuffered b in
    let b' :=
      if next b <? lowest then
        {| (with_stats b (fun s => {| s with Skipped := u64 (Skipped s + (lowest - next b)) |}))
           with next := lowest |}
      else b in
    {| b' with gapSince := 0 |}
  else b.

(** The [switch]: the buffer afterwards, and whether [Push] goes on. *)
Definition classify (b : Buffer) (seq : Z) : Buffer * bool :=
  if seq <? next b then
    if (depth b =? 0) && (ResyncAfter <=? u64 (staleRun b + 1)) then
      ({| (with_stats b (fun s => {| s with Resyncs := u64 (Resyncs s + 1) |}))
          with next := seq; staleRun := 0 |}, true)
    else
      let b := if depth b =? 0 then {| b with staleRun := u64 (staleRun b + 1) |} else b in
      (with_stats b (fun s => {| s with Duplicates := u64 (Duplicates s + 1) |}), false)
  else if u64 (next b + window b) <=? seq then
    (with_stats b (fun s => {| s with TooFar := u64 (TooFar s + 1) |}), false)
  else (b, true).

(** The [if seq > b.next] block. *)
Definition noteReorder (b : Buffer) (seq : Z) (t2 : time) : Buffer :=
  if next b <? seq then
    let b := {| (with_stats b (fun s => {| s with Reordered := u64 (Reordered s + 1) |}))
                with staleRun := 0 |} in
    if IsZero (gapSince b) then {| b with gapSince := t2 |} else b
  else b.

(** Copy the payload into its slot and track the high-water mark. *)
Definition store (b : Buffer) (seq : Z) (payload : bytes) : Buffer :=
  let b := {| b with slots := <[seq := payload]> (slots b) |} in
  with_stats b (fun s => {| s with MaxDepth := Z.max (MaxDepth s) (depth b) |}).

(** The release loop; every round deletes a slot, so [S (size slots)] rounds
    reach the exit. *)
Fixpoint drain (fuel : nat) (b : Buffer) : Buffer * list bytes :=
  match fuel with
  | O => (b, [])
  | S fuel =>
      match slots b !! next b with
      | None => (b, [])
      | Some p =>
          let b' := {| (with_stats b (fun s => {| s with Delivered := u64 (Delivered s + 1) |}))
                       with slots := delete (next b) (slots b); next := u64 (next b + 1) |} in
          let '(b'', out) := drain fuel b' in (b'', p :: out)
      end
  end.

Definition Push (b : Buffer) (t1 t2 : time) (seq : Z) (payload : bytes) : Buffer * list bytes :=
  let b := with_stats b (fun s => {| s with Received := u64 (Received s + 1) |}) in
  let b := gapRecover b t1 in
  match classify b seq with
  | (b, false) => (b, [])
  | (b, true) =>
      if decide (is_Some (slots b !! seq)) then
        (with_stats b (fun s => {| s with Duplicates := u64 (Duplicates s + 1) |}), [])
      else
        let b := noteReorder b seq t2 in
        let b := store b seq payload in
        let '(b, out) := drain (S (size (slots b))) b in
        match out with
        | [] => (b, out)
        | _ => ({| b with gapSince := 0; staleRun := 0 |}, out)
        end
  end.

(** ** The buffer invariant *)
Record inv (b : Buffer) : Prop := {
  inv_window : 0 < window b < 2 ^ 64;
  inv_next : is_u64 (next b);
  inv_stale : 0 <= staleRun b < ResyncAfter;
  inv_keys : forall k, is_Some (slots b !! k) ->
    next b <= k < next b + window b /\ k < 2 ^ 64 - 1;
}.
(** Every received packet is delivered, a duplicate, too far, or buffered. *)
Definition accounted (b : Buffer) : Prop :=
  let s := stats b in
  is_u64 (Delivered s) /\ Received s = u64 (Delivered s + Duplicates s + TooFar s + depth b).

Lemma NewAt_inv w start : is_u64 w -> is_u64 start -> inv (NewAt w start).
Proof.
  unfold is_u64. intros Hw Hs. split; cbn; try done; try (unfold ResyncAfter; lia).
  - destruct (Z.eqb_spec w 0); unfold DefaultWindow; lia.
  - intros k [? Hk]. by rewrite lookup_empty in Hk.
Qed.

Lemma depth_0 b : depth b = 0 <-> slots b = ∅.
Proof. unfold depth. rewrite <- map_size_empty_iff. lia. Qed.

Lemma minBuffered_spec b : slots b <> ∅ ->
  is_Some (slots b !! minBuffered b) /\
  forall k, is_Some (slots b !! k) -> minBuffered b <= k.
Proof.
  intros Hne.
  assert (Hkeys : forall k, is_Some (slots b !! k) <-> k ∈ (map_to_list (slots b)).*1).
  { intros k. rewrite list_elem_of_fmap. split.
    - intros [v Hv]. exists (k, v). by rewrite elem_of_map_to_list.
    - intros ([k' v] & -> & Hv%elem_of_map_to_list). by exists v. }
  setoid_rewrite Hkeys. unfold minBuffered.
  destruct (map_to_list (slots b)).*1 as [|k ks] eqn:E.
  - apply fmap_nil_inv in E. by rewrite map_to_list_empty_iff in E.
  - clear. induction ks as [|x ks [IH1 IH2]]; cbn.
    + split; [set_solver|]. intros j Hj. assert (j = k) by set_solver. lia.
    + split.
      * destruct (Z.min_spec x (foldr Z.min k ks)) as [[_ ->]|[_ ->]]; set_solver.
      * intros j Hj. destruct (decide (j = x)) as [->|]; [lia|].
        specialize (IH2 j ltac:(set_solver)). lia.
Qed.

(** ** The release loop *)
Record drained (b b' : Buffer) (out : list bytes) : Prop := {
  dr_window : window b' = window b;
  dr_timeout : gapTimeout b' = gapTimeout b;
  dr_since : gapSince b' = gapSince b;
  dr_stale : staleRun b' = staleRun b;
  dr_next : next b' = next b + zlen out;
  dr_slots : forall k, slots b' !! k = if decide (next b' <= k) then slots b !! k else None;
  dr_stop : slots b' !! next b' = None;
  dr_out : forall i p, out !! i = Some p -> slots b !! (next b + Z.of_nat i) = Some p;
  dr_size : depth b = depth b' + zlen out;
  dr_stats : stats b' = {| (stats b) with Delivered := u64 (Delivered (stats b) + zlen out) |};
}.

Lemma drain_drained fuel b b' out : drain fuel b = (b', out) ->
  (size (slots b) < fuel)%nat -> is_u64 (Delivered (stats b)) ->
  0 <= next b -> (forall k, is_Some (slots b !! k) -> next b <= k < 2 ^ 64 - 1) ->
  drained b b' out.
Proof.
  revert b b' out. induction fuel as [|fuel IH]; intros b b' out; [lia|]. cbn [drain].
  intros Hd Hsz Hu Hn Hk. destruct (slots b !! next b) as [p|] eqn:Ep.
  2:{ injection Hd as <- <-. split; try done.
      - change (zlen []) with 0. lia.
      - intros k. case_decide; [done|].
        destruct (slots b !! k) eqn:E; [|done]. destruct (Hk k); [by rewrite E|lia].
      - change (zlen []) with 0. lia.
      - change (zlen []) with 0. rewrite Z.add_0_r, u64_id by done.
        by destruct (stats b). }
  destruct (drain fuel _) as [b1 out1] eqn:E1. injection Hd as <- <-.
  assert (Hnext : u64 (next b + 1) = next b + 1).
  { apply u64_id. destruct (Hk (next b)); [by rewrite Ep|]. unfold is_u64. lia. }
  assert (Hs1 : size (slots b) = S (size (delete (next b) (slots b)))).
  { rewrite <- (insert_id (slots b) _ _ Ep) at 1. rewrite <- insert_delete_eq.
    apply map_size_insert_None, lookup_delete_eq. }
  apply IH in E1; cbn; [|lia|apply u64_range|lia|].
  2:{ intros k Hs. rewrite Hnext. rewrite lookup_delete in Hs.
      case_decide; [by destruct Hs|]. specialize (Hk k Hs). lia. }
  destruct E1 as [????? Hsl Hst Hout Hsz' Hstat]; cbn in *. rewrite Hnext in *.
  pose proof (zlen_nonneg out1).
  split; try done; rewrite ?zlen_cons; try lia.
  - intros k. rewrite Hsl. case_decide; [|done].
    rewrite lookup_delete_ne; [done|lia].
  - intros [|i] q; cbn.
    + intros [= <-]. by rewrite Z.add_0_r.
    + intros Hq%Hout. replace (next b + Z.of_nat (S i)) with (next b + 1 + Z.of_nat i) by lia.
      rewrite lookup_delete_ne in Hq by lia. done.
  - unfold depth in *. cbn in *. lia.
  - rewrite Hstat. rewrite u64_add_l. do 2 f_equal. lia.
Qed.

(** ** [Push], stage by stage *)
Definition received (b : Buffer) : Buffer :=
  with_stats b (fun s => {| s with Received := u64 (Received s + 1) |}).

Lemma received_inv b : inv b -> inv (received b).
Proof. by intros [????]. Qed.

Lemma gapRecover_slots b t1 : slots (gapRecover b t1) = slots b.
Proof. unfold gapRecover. repeat case_match; done. Qed.
Lemma gapRecover_window b t1 : window (gapRecover b t1) = window b.
Proof. unfold gapRecover. repeat case_match; done. Qed.
Lemma gapRecover_inv b t1 : inv b -> inv (gapRecover b t1).
Proof.
  intros [Hw Hn Hs Hk]. unfold gapRecover. case_match eqn:E; [|done].
  destruct (Z.ltb_spec (next b) (minBuffered b)) as [Hlt|]; [|done].
  assert (Hne : slots b <> ∅) by (rewrite <- depth_0; zbool; lia).
  destruct (minBuffered_spec b Hne) as [Hin Hmin].
  split; cbn; try done.
  - specialize (Hk _ Hin). unfold is_u64 in *. lia.
  - intros k Hs'. specialize (Hk k Hs'). specialize (Hmin k Hs'). lia.
Qed.

Lemma classify_slots b seq : slots (classify b seq).1 = slots b.
Proof. unfold classify. repeat case_match; done. Qed.
Lemma classify_inv b seq b2 go : inv b -> is_u64 seq -> classify b seq = (b2, go) ->
  inv b2 /\ (go = true -> next b2 <= seq < next b2 + window b2 /\ seq < 2 ^ 64 - 1).
Proof.
  intros [Hw Hn Hs Hk] Hq. unfold classify, is_u64 in *.
  assert (Hst : u64 (staleRun b + 1) = staleRun b + 1).
  { apply u64_id. unfold is_u64, ResyncAfter in *. lia. }
  destruct (Z.ltb_spec seq (next b)).
  - destruct (depth b =? 0) eqn:Ed; cbn [andb].
    + apply Z.eqb_eq, depth_0 in Ed. rewrite Hst. case_match eqn:El; intros [= <- <-].
      * split; [|cbn; lia]. split; cbn; try (unfold ResyncAfter, is_u64; lia).
        intros k [? Hk']. by rewrite Ed in Hk'.
      * split; [|done]. zbool. split; cbn; try done; lia.
    + intros [= <- <-]. by split.
  - case_match eqn:E; intros [= <- <-]; [by split|]. split; [done|]. intros _. zbool.
    unfold u64 in E. destruct (decide (next b + window b < 2 ^ 64)).
    + rewrite Z.mod_small in E by lia. lia.
    + rewrite <- (Z_mod_plus_full _ (-1)), Z.mod_small in E by lia. lia.
Qed.

Lemma noteReorder_frame b seq t2 :
  let b' := noteReorder b seq t2 in
  window b' = window b /\ next b' = next b /\ slots b' = slots b /\
  gapTimeout b' = gapTimeout b /\ staleRun b' = (if next b <? seq then 0 else staleRun b).
Proof. unfold noteReorder. repeat case_match; done. Qed.

(** What an accepted packet does, from the state the [switch] leaves. *)
Record accepted (b : Buffer) (seq : Z) (t2 : time) (payload : bytes) (b' : Buffer)
    (out : list bytes) : Prop := {
  ac_window : window b' = window b;
  ac_next : next b' = next b + zlen out;
  ac_slots : forall k, slots b' !! k =
    if decide (next b' <= k) then <[seq := payload]> (slots b) !! k else None;
  ac_stop : slots b' !! next b' = None;
  ac_out : forall i p, out !! i = Some p ->
    <[seq := payload]> (slots b) !! (next b + Z.of_nat i) = Some p;
  ac_size : depth b' + zlen out = depth b + 1;
  ac_stale : staleRun b' <= staleRun b /\ 0 <= staleRun b';
  ac_received : Received (stats b') = Received (stats b);
  ac_delivered : Delivered (stats b') = u64 (Delivered (stats b) + zlen out);
  ac_dup : Duplicates (stats b') = Duplicates (stats b);
  ac_far : TooFar (stats b') = TooFar (stats b);
  ac_skipped : Skipped (stats b') = Skipped (stats b);
  ac_inv : inv b';
  ac_timeout : gapTimeout b' = gapTimeout b;
  ac_since : gapSince b' = 0 \/ gapSince b' = gapSince b \/ gapSince b' = t2;
}.

Definition acceptance (b : Buffer) (seq : Z) (t2 : time) (payload : bytes) :
    Buffer * list bytes :=
  let b := store (noteReorder b seq t2) seq payload in
  let '(b, out) := drain (S (size (slots b))) b in
  match out with
  | [] => (b, out)
  | _ => ({| b with gapSince := 0; staleRun := 0 |}, out)
  end.

Lemma Push_stages b t1 t2 seq payload :
  Push b t1 t2 seq payload =
    match classify (gapRecover (received b) t1) seq with
    | (b, false) => (b, [])
    | (b, true) =>
        if decide (is_Some (slots b !! seq)) then
          (with_stats b (fun s => {| s with Duplicates := u64 (Duplicates s + 1) |}), [])
        else acceptance b seq t2 payload
    end.
Proof. reflexivity. Qed.

(** The state the release loop starts from. *)
Record prepared (b : Buffer) (seq : Z) (t2 : time) (payload : bytes) (b1 : Buffer) : Prop := {
  pr_window : window b1 = window b;
  pr_next : next b1 = next b;
  pr_slots : slots b1 = <[seq := payload]> (slots b);
  pr_stale : staleRun b1 = (if next b <? seq then 0 else staleRun b);
  pr_received : Received (stats b1) = Received (stats b);
  pr_delivered : Delivered (stats b1) = Delivered (stats b);
  pr_dup : Duplicates (stats b1) = Duplicates (stats b);
  pr_far : TooFar (stats b1) = TooFar (stats b);
  pr_skipped : Skipped (stats b1) = Skipped (stats b);
  pr_timeout : gapTimeout b1 = gapTimeout b;
  pr_since : gapSince b1 = gapSince b \/ gapSince b1 = t2;
}.
Lemma store_prepared b seq t2 payload :
  prepared b seq t2 payload (store (noteReorder b seq t2) seq payload).
Proof.
  unfold noteReorder. destruct (next b <? seq) eqn:E; [destruct (IsZero (gapSince b)) eqn:Eg|];
    split; cbn; rewrite ?Eg, ?E; auto.
Qed.

Lemma drained_inv b seq t2 payload b1 b2 out :
  inv b -> next b <= seq < next b + window b -> seq < 2 ^ 64 - 1 ->
  prepared b seq t2 payload b1 -> drained b1 b2 out -> inv b2.
Proof.
  intros [Hw Hn Hst Hk] Hseq Hmax [Pw Pn Ps Pst _ _ _ _ _ _ _]
    [Fw Ft Fs Fst Fn Fsl Fstop Fout Fsz Fstats].
  assert (Hkeys : forall k, is_Some (slots b1 !! k) ->
    next b <= k < next b + window b /\ k < 2 ^ 64 - 1).
  { intros k. rewrite Ps, lookup_insert. case_decide; [subst; lia|apply Hk]. }
  pose proof (zlen_nonneg out). split.
  - by rewrite Fw, Pw.
  - rewrite Fn, Pn. destruct (decide (out = [])) as [->|Hne]; [unfold zlen; cbn; unfold is_u64 in *; lia|].
    destruct (lookup_lt_is_Some_2 out (pred (length out))) as [q Hq].
    { destruct out; cbn; [done|lia]. }
    apply Fout in Hq. specialize (Hkeys _ (ex_intro _ _ Hq)).
    rewrite Pn in Hkeys. unfold zlen, is_u64 in *. destruct out; [done|cbn in *; lia].
  - rewrite Fst, Pst. unfold ResyncAfter in *. case_match; lia.
  - intros k. rewrite Fsl. case_decide; [|by intros [? ?]]. intros Hs%Hkeys.
    rewrite Fw, Pw. lia.
Qed.

Lemma acceptance_accepted b seq t2 payload b' out :
  inv b -> is_u64 (Delivered (stats b)) ->
  next b <= seq < next b + window b -> seq < 2 ^ 64 - 1 -> slots b !! seq = None ->
  acceptance b seq t2 payload = (b', out) -> accepted b seq t2 payload b' out.
Proof.
  intros Hinv Hu Hseq Hmax Hfree. unfold acceptance.
  pose proof (store_prepared b seq t2 payload) as Hp.
  set (b1 := store (noteReorder b seq t2) seq payload) in *. clearbody b1.
  destruct (drain _ b1) as [b2 out2] eqn:E.
  assert (Hkeys : forall k, is_Some (slots b1 !! k) -> next b1 <= k < 2 ^ 64 - 1).
  { intros k. rewrite (pr_slots _ _ _ _ _ Hp), (pr_next _ _ _ _ _ Hp), lookup_insert.
    case_decide; [subst; lia|]. intros Hs%(inv_keys _ Hinv). lia. }
  apply drain_drained in E; [|lia|by rewrite (pr_delivered _ _ _ _ _ Hp)| |done].
  2:{ rewrite (pr_next _ _ _ _ _ Hp). apply (inv_next _ Hinv). }
  pose proof (drained_inv _ _ _ _ _ _ _ Hinv Hseq Hmax Hp E) as Hinv2.
  destruct Hp as [Pw Pn Ps Pst Pr Pd Pdu Pf Psk Pt Psi], E as [Fw Ft Fs Fst Fn Fsl Fstop Fout Fsz Fstats].
  assert (Hsize : depth b1 = depth b + 1).
  { unfold depth. rewrite Ps, map_size_insert_None by done. lia. }
  assert (Hb' : forall b3, window b3 = window b2 -> next b3 = next b2 -> slots b3 = slots b2 ->
    stats b3 = stats b2 -> (staleRun b3 = staleRun b2 \/ staleRun b3 = 0) ->
    gapTimeout b3 = gapTimeout b2 -> (gapSince b3 = gapSince b2 \/ gapSince b3 = 0) ->
    accepted b seq t2 payload b3 out2).
  { destruct Hinv2 as [Iw In Is Ik]. destruct Hinv as [_ _ Is0 _].
    assert (0 <= staleRun b2 <= staleRun b) by (rewrite Fst, Pst; case_match; lia).
    intros b3 E1 E2 E3 E4 E5 E6 E7.
    split; unfold depth in *; rewrite ?E1, ?E2, ?E3, ?E4, ?Fstats; cbn [Received Delivered Duplicates TooFar Skipped];
      rewrite <- ?Ps, <- ?Pn; try congruence; try lia; try done.
    all: try (destruct Psi, E7; rewrite Fs in *; intuition congruence).
    split; rewrite ?E1, ?E2, ?E3; try done. unfold ResyncAfter in *. lia. }
  destruct out2; intros [= <- <-]; apply Hb'; auto.
Qed.

(** ** Safety of every push *)
Lemma inv_depth b : inv b -> depth b <= window b.
Proof.
  intros [Hw Hn _ Hk]. unfold depth. rewrite <- size_dom.
  transitivity (Z.of_nat (size (list_to_set (seqZ (next b) (window b)) : gset Z))).
  - apply inj_le, subseteq_size. intros k Hin%elem_of_dom%Hk.
    apply elem_of_list_to_set, elem_of_seqZ. lia.
  - rewrite size_list_to_set by apply NoDup_seqZ. rewrite length_seqZ. lia.
Qed.

Lemma u64_bump a b : u64 (a + u64 (b + 1)) = u64 (u64 (a + b) + 1).
Proof. rewrite u64_add_r, u64_add_l. f_equal. lia. Qed.

Lemma gapRecover_accounted b t1 : accounted (gapRecover b t1) <-> accounted b.
Proof. unfold gapRecover. repeat case_match; done. Qed.

(** What is received is accounted for, whichever branch a packet takes. *)
Lemma Push_cases b t1 t2 seq payload b' out : inv b -> accounted b -> is_u64 seq ->
  Push b t1 t2 seq payload = (b', out) ->
  (out = [] /\ inv b' /\ accounted b') \/
  (exists b2, classify (gapRecover (received b) t1) seq = (b2, true) /\ inv b2 /\
    slots b2 !! seq = None /\ accepted b2 seq t2 payload b' out /\ accounted b').
Proof.
  intros Hi Ha Hq. rewrite Push_stages.
  set (b1 := gapRecover (received b) t1).
  assert (Hi1 : inv b1) by (by apply gapRecover_inv, received_inv).
  assert (Ha1 : is_u64 (Delivered (stats b1)) /\
    Received (stats b1) = u64 (Delivered (stats b1) + Duplicates (stats b1) +
      TooFar (stats b1) + depth b1 + 1)).
  { destruct Ha as [Hu Ha]. unfold b1, depth. rewrite gapRecover_slots.
    unfold gapRecover. repeat case_match; split; cbn; try done; rewrite Ha, u64_add_l; done. }
  clearbody b1. clear Hi Ha b. destruct Ha1 as [Hu Hr].
  destruct (classify b1 seq) as [b2 go] eqn:Ec.
  destruct (classify_inv _ _ _ _ Hi1 Hq Ec) as [Hi2 Hgo].
  assert (Hs2 : slots b2 = slots b1).
  { rewrite <- (classify_slots b1 seq). by rewrite Ec. }
  destruct go.
  - assert (Hst : stats b2 = stats b1 \/ exists n, stats b2 = {| (stats b1) with Resyncs := n |}).
    { unfold classify in Ec. repeat case_match; simplify_eq; cbn; eauto. }
    assert (Hr2 : is_u64 (Delivered (stats b2)) /\
      Received (stats b2) = u64 (Delivered (stats b2) + Duplicates (stats b2) +
      TooFar (stats b2) + depth b2 + 1)).
    { unfold depth in *. rewrite Hs2. destruct Hst as [->|[n ->]]; cbn; done. }
    destruct Hr2 as [Hu2 Hr2], (Hgo eq_refl) as [Hrange Hmax].
    case_decide as Hd; intros Heq.
    + injection Heq as <- <-. left. split_and!; [done|by destruct Hi2|].
      split; [done|]. cbn. rewrite Hr2. unfold depth. cbn. clear.
      unfold u64. Z.div_mod_to_equations. lia.
    + right. exists b2. assert (Hf : slots b2 !! seq = None).
      { destruct (slots b2 !! seq); [exfalso; apply Hd; eauto|done]. }
      split_and!; try done; eapply acceptance_accepted in Heq; try done.
      destruct Heq. split; [rewrite ac_delivered0; apply u64_range|].
      rewrite ac_received0, ac_delivered0, ac_dup0, ac_far0, Hr2.
      replace (depth b') with (depth b2 + 1 - zlen out) by lia. clear.
      unfold u64. Z.div_mod_to_equations. lia.
  - intros [= <- <-]. left. split_and!; [done|done|].
    unfold accounted, depth in *. rewrite Hs2.
    unfold classify in Ec. repeat case_match; simplify_eq; cbn; split; try done;
      rewrite Hr; unfold u64; Z.div_mod_to_equations; lia.
Qed.

(** ** Runs: the pushes of one buffer, in the order the mutex grants them *)
Record Arrival := mkArrival { at1 : time; at2 : time; aseq : Z; apayload : bytes }.
Fixpoint run (b : Buffer) (l : list Arrival) : Buffer * list bytes :=
  match l with
  | [] => (b, [])
  | a :: l =>
      let '(b, out) := Push b (at1 a) (at2 a) (aseq a) (apayload a) in
      let '(b, out') := run b l in (b, out ++ out')
  end.

Lemma run_app b l1 l2 : run b (l1 ++ l2) =
  let '(b1, o1) := run b l1 in let '(b2, o2) := run b1 l2 in (b2, o1 ++ o2).
Proof.
  revert b. induction l1 as [|a l1 IH]; intros b; cbn.
  - by destruct (run b l2).
  - destruct (Push _ _ _ _ _) as [b1 o1]. rewrite IH.
    destruct (run b1 l1) as [b2 o2], (run b2 l2). by rewrite app_assoc.
Qed.

Lemma Push_window b t1 t2 seq payload : window (Push b t1 t2 seq payload).1 = window b.
Proof.
  rewrite Push_stages. rewrite <- (gapRecover_window (received b) t1 : _ = window b).
  set (b1 := gapRecover _ _). clearbody b1.
  assert (Hc : window (classify b1 seq).1 = window b1).
  { unfold classify. repeat case_match; done. }
  destruct (classify b1 seq) as [b2 []]; [|done]. cbn in Hc. case_decide; [done|].
  assert (Hd : forall fuel b, window (drain fuel b).1 = window b).
  { induction fuel as [|fuel IH]; intros b'; cbn; [done|]. case_match; [|done].
    specialize (IH {| (with_stats b' (fun s => {| s with Delivered := u64 (Delivered s + 1) |}))
      with slots := delete (next b') (slots b'); next := u64 (next b' + 1) |}).
    by destruct (drain fuel _). }
  unfold acceptance. set (b3 := store _ _ _).
  assert (H3 : window b3 = window b2) by apply (noteReorder_frame b2 seq t2).
  specialize (Hd (S (size (slots b3))) b3). destruct (drain _ b3) as [b4 o].
  destruct o; cbn in *; congruence.
Qed.

(** Whatever arrives and whatever the clock says, a buffer stays within its
    window and its counters account for every packet received. *)
Lemma run_safe b l : inv b -> accounted b -> Forall (fun a => is_u64 (aseq a)) l ->
  let b' := (run b l).1 in
  inv b' /\ accounted b' /\ depth b' <= window b' /\ window b' = window b.
Proof.
  intros Hi Ha Hl. revert b Hi Ha. induction Hl as [|a l Hq Hl IH]; intros b Hi Ha; cbn.
  - split_and!; auto using inv_depth.
  - pose proof (Push_window b (at1 a) (at2 a) (aseq a) (apayload a)) as Hw.
    destruct (Push b _ _ _ _) as [b1 o1] eqn:E.
    apply Push_cases in E as Hc; try done. cbn in Hw.
    destruct (IH b1) as (? & ? & ? & ?).
    { destruct Hc as [(_ & ? & _)|(? & _ & _ & _ & Hac & _)]; [done|by destruct Hac]. }
    { by destruct Hc as [(_ & _ & ?)|(? & _ & _ & _ & _ & ?)]. }
    destruct (run b1 l) as [b2 o2]; cbn in *. split_and!; try done. congruence.
Qed.

(** C27: for a buffer created by [NewAt] and any sequence of pushes under any
    clock, the number of buffered packets never exceeds the window, every
    buffered sequence lies in [next, next + window) without wrapping, and the
    counters balance: received = delivered + duplicates + too far + buffered. *)
Theorem buffer_safety w start d l : is_u64 w -> is_u64 start ->
  Forall (fun a => is_u64 (aseq a)) l ->
  let b := (run (SetGapTimeout (NewAt w start) d) l).1 in
  depth b <= window b /\
  (forall k, is_Some (slots b !! k) -> next b <= k < next b + window b /\ k < 2 ^ 64 - 1) /\
  accounted b.
Proof.
  intros Hw Hs Hl.
  destruct (run_safe (SetGapTimeout (NewAt w start) d) l) as (Hi & Ha & Hd & _); try done.
  { by destruct (NewAt_inv w start Hw Hs). }
  split_and!; [done|apply Hi|done].
Qed.

(** ** Refinement: the abstract reassembler

    The specification state is the set [R] of sequence numbers received so
    far, all at or above [start]; what has been delivered is the longest
    prefix [start, start+1, ...] contained in [R]. *)
Section Refinement.
Context (start w d T : Z) (pl : Z -> bytes).

Record tracks (R : gset Z) (dups : Z) (b : Buffer) (out : list bytes) : Prop := {
  tr_inv : inv b;
  tr_acc : accounted b;
  tr_window : window b = w;
  tr_next : next b = start + zlen out;
  tr_out : out = pl <$> seqZ start (zlen out);
  tr_below : forall k, start <= k < next b -> k ∈ R;
  tr_stop : next b ∉ R;
  tr_slots : forall k, slots b !! k = if decide (k ∈ R /\ next b <= k) then Some (pl k) else None;
  tr_stale : staleRun b <= dups;
  tr_timeout : gapTimeout b = d;
  tr_since : gapSince b = 0 \/ T <= gapSince b;
}.

Lemma tracks_quiet R dups b out t1 : tracks R dups b out -> 0 <= d -> t1 - T <= d ->
  gapRecover (received b) t1 = received b.
Proof.
  intros [] Hd Ht. unfold gapRecover, received, IsZero. cbn. rewrite tr_timeout0.
  case_match eqn:E; [|done]. exfalso. unfold time_sub in E. zbool. lia.
Qed.

Lemma seqZ_take_lookup (out : list bytes) n :
  (forall i p, out !! i = Some p -> p = pl (n + Z.of_nat i)) -> out = pl <$> seqZ n (zlen out).
Proof.
  intros Ho. apply list_eq. intros i. rewrite list_lookup_fmap.
  destruct (out !! i) as [p|] eqn:E.
  - apply lookup_lt_Some in E as Hlt. rewrite lookup_seqZ_lt by (unfold zlen; lia).
    cbn. f_equal. by apply Ho.
  - apply lookup_ge_None in E. rewrite lookup_seqZ_ge; [done|unfold zlen; lia].
Qed.

(** A packet in the window, not stale, passes the [switch] unchanged. *)
Lemma classify_in_window b seq : next b <= seq < next b + window b ->
  0 <= next b -> next b + window b < 2 ^ 64 -> classify b seq = (b, true).
Proof.
  intros Hseq Hn Hw. unfold classify. rewrite (proj2 (Z.ltb_ge _ _)) by lia.
  rewrite u64_id by (unfold is_u64; lia). by rewrite (proj2 (Z.leb_gt _ _)) by lia.
Qed.

Lemma tracks_accepted R dups b out seq t2 b' out' :
  tracks R dups b out -> T <= t2 -> next b <= seq -> start <= next b -> seq ∉ R ->
  accepted (received b) seq t2 (pl seq) b' out' -> accounted b' ->
  tracks ({[seq]} ∪ R) dups b' (out ++ out').
Proof.
  intros [Hi Ha Hw Hn Ho Hb Hs Hsl Hsta Hto Hsi] Ht2 Hge Hst HR
    [Aw An As Astop Aout _ Asta _ _ _ _ _ Ai At Asi] Ha'.
  cbn [received with_stats window next slots staleRun gapTimeout gapSince] in *.
  assert (Hlook : forall k, next b <= k -> <[seq := pl seq]> (slots b) !! k =
    if decide (k ∈ ({[seq]} ∪ R : gset Z)) then Some (pl k) else None).
  { intros k Hk. rewrite lookup_insert, Hsl.
    repeat case_decide; subst; try done; try set_solver; tauto || (exfalso; set_solver). }
  assert (Hin : forall i p, out' !! i = Some p ->
    p = pl (next b + Z.of_nat i) /\ next b + Z.of_nat i ∈ ({[seq]} ∪ R : gset Z)).
  { intros i p Hp%Aout. rewrite Hlook in Hp by lia. case_decide; by simplify_eq. }
  pose proof (zlen_nonneg out'). split; try done.
  - congruence.
  - rewrite An, Hn, zlen_app. lia.
  - rewrite zlen_app, seqZ_app, fmap_app by apply zlen_nonneg. f_equal; [done|].
    rewrite <- Hn. apply seqZ_take_lookup. intros i p Hp. by apply Hin.
  - intros k Hk. destruct (decide (k < next b)) as [Hlt|].
    + apply elem_of_union_r, Hb. lia.
    + destruct (lookup_lt_is_Some_2 out' (Z.to_nat (k - next b))) as [p Hp].
      { unfold zlen in *. lia. }
      apply Hin in Hp as [_ Hp]. by replace (next b + _) with k in Hp by lia.
  - intros Hin'. assert (Hle : next b <= next b') by lia.
    pose proof (As (next b')) as Hx. rewrite Astop, Hlook in Hx by done.
    repeat case_decide; done || lia.
  - intros k. rewrite As. repeat case_decide; try done; rewrite ?Hlook by lia;
      repeat case_decide; tauto.
  - lia.
  - congruence.
  - destruct Asi as [->|[->| ->]]; auto.
Qed.

Lemma tracks_fresh R dups b out t1 t2 seq b' out' :
  tracks R dups b out -> 0 <= start -> 0 <= d -> t1 - T <= d -> T <= t2 ->
  start <= seq < next b + w -> next b + w < 2 ^ 64 -> seq ∉ R ->
  Push b t1 t2 seq (pl seq) = (b', out') ->
  tracks ({[seq]} ∪ R) dups b' (out ++ out').
Proof.
  intros Htr Hst Hd Ht1 Ht2 Hseq Hmax HR HPush.
  pose proof (tracks_quiet _ _ _ _ _ Htr Hd Ht1) as Hq.
  destruct (Htr) as [Hi Ha Hw Hn Ho Hb Hs Hsl Hsta Hto Hsi].
  pose proof (zlen_nonneg out) as Hlo.
  assert (Hge : next b <= seq).
  { destruct (decide (next b <= seq)); [done|]. exfalso. apply HR, Hb. lia. }
  apply Push_cases in HPush as Hc; try done; [|unfold is_u64; lia].
  rewrite Push_stages, Hq, classify_in_window in * by (cbn; lia).
  assert (Hfree : slots (received b) !! seq = None).
  { cbn. rewrite Hsl. by rewrite decide_False by (intros [? _]; done). }
  rewrite decide_False in HPush by (rewrite Hfree; by intros [? ?]).
  destruct Hc as [(-> & Hi' & Ha')|(b2 & [= <-] & _ & _ & Hac & Ha')].
  - eapply tracks_accepted; try done; [lia|].
    eapply acceptance_accepted; try done; cbn; try lia; [by apply received_inv|apply Ha].
  - eapply tracks_accepted; try done. lia.
Qed.

(** A second copy is dropped; only a run of 64 stale copies resyncs. *)
Lemma tracks_dup R dups b out t1 t2 seq p b' out' :
  tracks R dups b out -> 0 <= d -> t1 - T <= d ->
  start <= seq < next b + w -> 0 <= start -> next b + w < 2 ^ 64 ->
  dups + 1 < ResyncAfter -> seq ∈ R ->
  Push b t1 t2 seq p = (b', out') ->
  out' = [] /\ tracks R (dups + 1) b' out.
Proof.
  intros Htr Hd Ht1 Hseq Hst Hmax Hdup HR HPush.
  pose proof (tracks_quiet _ _ _ _ _ Htr Hd Ht1) as Hq.
  destruct (Htr) as [Hi Ha Hw Hn Ho Hb Hs Hsl Hsta Hto Hsi].
  pose proof (zlen_nonneg out) as Hlo.
  assert (Hq64 : is_u64 seq) by (unfold is_u64; lia).
  apply Push_cases in HPush as Hc; try done.
  rewrite Push_stages, Hq in *.
  destruct (Z.ltb_spec seq (next b)) as [Hlt|Hge].
  - assert (Hcl : exists n, classify (received b) seq =
      (with_stats {| (received b) with staleRun := n |}
         (fun s => {| s with Duplicates := u64 (Duplicates s + 1) |}), false) /\
      n <= dups + 1).
    { destruct Hi as [_ _ Hsi' _]. unfold classify.
      unfold ResyncAfter in Hdup, Hsi' |- *.
      change (next (received b)) with (next b). rewrite (proj2 (Z.ltb_lt _ _) Hlt).
      change (staleRun (received b)) with (staleRun b).
      rewrite u64_id by (unfold is_u64; lia). rewrite (proj2 (Z.leb_gt 64 _)) by lia.
      rewrite andb_false_r.
      destruct (depth (received b) =? 0).
      - exists (staleRun b + 1). split; [reflexivity|lia].
      - exists (staleRun b). split; [reflexivity|lia]. }
    destruct Hcl as (n & Hcl & Hle). rewrite Hcl in *. injection HPush as <- <-.
    split; [done|].
    destruct Hc as [(_ & Hi' & Ha')|(? & [=] & _)]. by split.
  - rewrite classify_in_window in * by (cbn; lia).
    rewrite decide_True in HPush by (cbn; rewrite Hsl, decide_True by done; eauto).
    injection HPush as <- <-. split; [done|].
    destruct Hc as [(_ & Hi' & Ha')|(? & [= <-] & _ & Hf & _)].
    + split; try done. cbn. lia.
    + exfalso. cbn in Hf. by rewrite Hsl, decide_True in Hf.
Qed.

(** The sequences of a burst, and what each arrival of it satisfies. *)
Definition seqs (l : list Arrival) : gset Z := list_to_set (aseq <$> l).
Definition in_burst (n : Z) (a : Arrival) : Prop :=
  start <= aseq a < start + n /\ apayload a = pl (aseq a) /\ at1 a - T <= d /\ T <= at2 a.

Lemma seqs_bound n l : Forall (in_burst n) l ->
  forall k, k ∈ seqs l -> start <= k < start + n.
Proof.
  intros Hl k (a & -> & Ha)%elem_of_list_to_set%list_elem_of_fmap.
  rewrite Forall_forall in Hl. by apply Hl.
Qed.

Lemma tracks_run n l R dups b out : 0 <= start -> 0 <= d -> 0 <= n <= w ->
  start + 2 * w < 2 ^ 64 -> (forall k, k ∈ R -> start <= k < start + n) ->
  Forall (in_burst n) l -> tracks R dups b out ->
  dups + zlen l + Z.of_nat (size R) < ResyncAfter + Z.of_nat (size (seqs l ∪ R)) ->
  exists dups', tracks (seqs l ∪ R) dups' (run b l).1 (out ++ (run b l).2).
Proof.
  intros Hst Hd Hn Hmax HR Hl. revert R dups b out HR.
  induction Hl as [|a l (Hseq & Hp & Ht1 & Ht2) Hl IH]; intros R dups b out HR Htr Hdup.
  { exists dups. cbn. by rewrite app_nil_r, (left_id_L ∅ _). }
  assert (Hnext : start <= next b <= start + n).
  { destruct Htr. pose proof (zlen_nonneg out). split; [lia|].
    destruct (decide (next b <= start + n)); [done|].
    enough (start <= start + n < start + n) by lia. apply HR, tr_below0. lia. }
  assert (Hsize : Z.of_nat (size (seqs l ∪ R)) <= zlen l + Z.of_nat (size R)).
  { enough (size (seqs l ∪ R) <= length l + size R)%nat by (unfold zlen; lia).
    rewrite size_union_alt.
    assert (size (seqs l) <= length l)%nat.
    { unfold seqs. clear. induction l as [|x l IHl]; cbn; [rewrite size_empty; lia|].
      rewrite size_union_alt, size_singleton.
      pose proof (subseteq_size (list_to_set (aseq <$> l) ∖ {[aseq x]} : gset Z)
        (list_to_set (aseq <$> l)) ltac:(set_solver)). lia. }
    pose proof (subseteq_size (R ∖ seqs l) R ltac:(set_solver)). lia. }
  cbn [run seqs fmap list_fmap list_to_set]. rewrite Hp.
  assert (Hset : seqs (a :: l) ∪ R = seqs l ∪ ({[aseq a]} ∪ R)).
  { unfold seqs. cbn. set_solver. }
  change ({[aseq a]} ∪ list_to_set (aseq <$> l)) with (seqs (a :: l)).
  rewrite Hset in *. rewrite zlen_cons in Hdup.
  destruct (Push b (at1 a) (at2 a) (aseq a) (pl (aseq a))) as [b1 o1] eqn:EP.
  destruct (decide (aseq a ∈ R)) as [Hin|Hnin].
  - replace ({[aseq a]} ∪ R) with R in * by set_solver.
    eapply tracks_dup in EP as [-> Htr1]; try done; try lia.
    destruct (IH R (dups + 1) b1 out) as [dups' Htr']; try done; [lia|].
    destruct (run b1 l) as [b2 o2]. by exists dups'.
  - eapply tracks_fresh in EP; try done; try lia.
    destruct (IH ({[aseq a]} ∪ R) dups b1 (out ++ o1)) as [dups' Htr']; try done.
    + intros k. rewrite elem_of_union, elem_of_singleton. intros [->|?]; auto.
    + rewrite size_union, size_singleton by set_solver. lia.
    + destruct (run b1 l) as [b2 o2]. exists dups'. cbn in *. by rewrite (assoc_L (++)).
Qed.
End Refinement.

(** A buffer with nothing in flight. *)
Record idle (b : Buffer) : Prop := {
  id_inv : inv b;
  id_acc : accounted b;
  id_slots : slots b = ∅;
  id_since : gapSince b = 0;
}.

Lemma NewAt_idle w start d : is_u64 start -> is_u64 w ->
  idle (SetGapTimeout (NewAt w start) d).
Proof. intros Hs Hw. by destruct (NewAt_inv w start). Qed.

Lemma tracks_idle b T pl : idle b ->
  tracks (next b) (window b) (gapTimeout b) T pl ∅ (staleRun b) b [].
Proof.
  intros [Hi Ha Hs Hg]. split; try done; rewrite ?Hs; try lia.
  - change (zlen []) with 0. lia.
  - intros k. by rewrite decide_False by set_solver.
Qed.

(** An empty buffer is not waiting on a gap. *)
Definition settled (b : Buffer) : Prop := slots b = ∅ -> gapSince b = 0.

Lemma Push_settled b t1 t2 seq p : inv b -> accounted b -> is_u64 seq -> settled b ->
  settled (Push b t1 t2 seq p).1.
Proof.
  intros Hi Ha Hq Hs. destruct (Push b t1 t2 seq p) as [b' out] eqn:EP.
  apply Push_cases in EP as Hc; try done. rewrite Push_stages in EP.
  assert (Hs1 : settled (gapRecover (received b) t1)).
  { unfold settled. rewrite gapRecover_slots. unfold gapRecover. by repeat case_match. }
  set (b1 := gapRecover (received b) t1) in *. clearbody b1.
  assert (Hs2 : settled (classify b1 seq).1).
  { unfold settled. rewrite classify_slots. unfold classify. by repeat case_match. }
  destruct (classify b1 seq) as [b2 []]; [|by injection EP as <- <-].
  case_decide; [by injection EP as <- <-|].
  destruct Hc as [(-> & _)|(b2' & [= <-] & Hi2 & _ & Hac & _)].
  - unfold acceptance in EP. set (b3 := store _ _ _) in *.
    assert (slots b3 = <[seq := p]> (slots b2)) as Hb3.
    { apply (pr_slots _ _ _ _ _ (store_prepared b2 seq t2 p)). }
    cbn [drain] in EP. destruct (slots b3 !! next b3) eqn:E.
    { by destruct (drain _ _). }
    clearbody b3. assert (b' = b3) as -> by congruence. intros He. cbn in He. rewrite Hb3 in He. by apply insert_non_empty in He.
  - intros He. destruct (decide (out = [])) as [->|Hne].
    + destruct Hac as [_ _ _ _ _ Asz _ _ _ _ _ _ _ _ _]. cbn in He. apply depth_0 in He.
      rewrite He in Asz. change (zlen []) with 0 in Asz. unfold depth in Asz. lia.
    + unfold acceptance in EP. destruct (drain _ _) as [b4 o]. destruct o; simplify_eq; done.
Qed.

Lemma run_settled b l : inv b -> accounted b -> Forall (fun a => is_u64 (aseq a)) l ->
  settled b -> settled (run b l).1.
Proof.
  intros Hi Ha Hl. revert b Hi Ha. induction Hl as [|a l Hq Hl IH]; intros b Hi Ha Hs; [done|].
  pose proof (Push_settled b (at1 a) (at2 a) (aseq a) (apayload a) Hi Ha Hq Hs) as Hs'.
  destruct (run_safe b [a]) as (Hi' & Ha' & _); [done|done|by constructor|].
  cbn in *. destruct (Push b _ _ _ _) as [b1 o1]. cbn in *.
  specialize (IH b1 Hi' Ha' Hs'). by destruct (run b1 l).
Qed.

(** A burst of at most a window of packets into an idle buffer: in any order,
    with fewer extra copies than it takes to resync, within the gap timeout. *)
Record burst (b : Buffer) (T : time) (pl : Z -> bytes) (n : Z) (l : list Arrival) : Prop := {
  bu_fits : 0 <= n <= window b;
  bu_max : next b + 2 * window b < 2 ^ 64;
  bu_timeout : 0 <= gapTimeout b;
  bu_in : Forall (in_burst (next b) (gapTimeout b) T pl n) l;
  bu_copies : staleRun b + zlen l < ResyncAfter + Z.of_nat (size (seqs l));
}.

(** The shape in which clients use the refinement. *)
Lemma run_prefix b T pl n l : idle b -> burst b T pl n l ->
  exists m, 0 <= m <= n /\ (run b l).2 = pl <$> seqZ (next b) m /\
    next (run b l).1 = next b + m /\
    (forall k, next b <= k < next b + m -> k ∈ seqs l) /\ next b + m ∉ seqs l /\
    (forall k, is_Some (slots (run b l).1 !! k) <-> k ∈ seqs l /\ next b + m <= k).
Proof.
  intros Hid [Hn Hmax Hd Hl Hdup]. assert (Hn0 : is_u64 (next b)) by apply Hid.
  destruct (tracks_run (next b) (window b) (gapTimeout b) T pl n l ∅ (staleRun b) b [])
    as [dups Htr]; try done.
  - unfold is_u64 in *. lia.
  - by apply tracks_idle.
  - rewrite size_empty, (right_id_L ∅ (∪)). lia.
  - rewrite (right_id_L ∅ (∪)) in Htr.
    destruct (run b l) as [b' out]. cbn in *.
    destruct Htr as [_ _ _ Hnext Ho Hbelow Hstop Hsl _ _ _].
    pose proof (zlen_nonneg out). exists (zlen out). rewrite Hnext in *. split_and!; try done.
    + destruct (decide (zlen out <= n)); [done|].
      enough (next b <= next b + n < next b + n) by lia.
      eapply seqs_bound; [done|]. apply Hbelow. lia.
    + intros k. rewrite Hsl. case_decide as E; split; try done.
Qed.

(** A complete burst: everything comes out, and the buffer is idle again. *)
Lemma run_complete b T pl n l : idle b -> burst b T pl n l ->
  (forall k, next b <= k < next b + n -> k ∈ seqs l) ->
  (run b l).2 = pl <$> seqZ (next b) n /\ next (run b l).1 = next b + n /\
  idle (run b l).1.
Proof.
  intros Hid Hb Hall. destruct (run_prefix b T pl n l Hid Hb) as (m & Hm & -> & Hnx & Hin & Hout & Hsl).
  assert (m = n) as ->.
  { destruct (decide (m = n)) as [->|]; [done|]. exfalso. apply Hout, Hall. lia. }
  destruct Hid as [Hi Ha Hs Hg], Hb as [Hn Hmax _ Hl _].
  assert (Hu : Forall (fun a => is_u64 (aseq a)) l).
  { eapply Forall_impl; [exact Hl|]. intros a (Hr & _). destruct Hi as [_ Hi _ _].
    unfold is_u64 in *. lia. }
  assert (Hset : settled (run b l).1) by (apply run_settled; [done|done|done|by intros ?]).
  destruct (run_safe b l) as (Hi' & Ha' & _); try done.
  split_and!; try done. assert (He : slots (run b l).1 = ∅).
  { apply map_empty. intros k. apply eq_None_not_Some. rewrite Hsl.
    intros [Hk Hge]. eapply seqs_bound in Hk; [|exact Hl]. lia. }
  split; auto.
Qed.

(** The bound on copies, from the number of distinct packets. *)
Lemma seqs_size start n l : 0 <= n -> (forall k, start <= k < start + n -> k ∈ seqs l) ->
  n <= Z.of_nat (size (seqs l)).
Proof.
  intros Hn Hall.
  assert (Hsub : (list_to_set (seqZ start n) : gset Z) ⊆ seqs l).
  { intros k Hk%elem_of_list_to_set%elem_of_seqZ. auto. }
  apply subseteq_size in Hsub.
  rewrite size_list_to_set, length_seqZ in Hsub by apply NoDup_seqZ. lia.
Qed.

(** C15: a burst of at most a window's worth of packets, arriving in any order,
    over any threads, with up to 63 extra copies and within the gap timeout:
    the payloads released are exactly those of the longest unbroken run of
    sequence numbers received, in order and each exactly once; what stays
    buffered is exactly what was received beyond the first missing packet. *)
Theorem reassembly w d T pl start n l : is_u64 w -> is_u64 start ->
  let b := SetGapTimeout (NewAt w start) d in
  burst b T pl n l ->
  exists m, 0 <= m <= n /\ (run b l).2 = pl <$> seqZ start m /\
    (forall k, start <= k < start + m -> k ∈ seqs l) /\ start + m ∉ seqs l /\
    (forall k, is_Some (slots (run b l).1 !! k) <-> k ∈ seqs l /\ start + m <= k).
Proof.
  intros Hw Hs b Hb. destruct (run_prefix b T pl n l) as (m & Hm & Ho & _ & Hin & Hout & Hsl);
    [by apply NewAt_idle|done|]. by exists m.
Qed.

(** ** Gap recovery *)
Lemma minBuffered_least b lo : is_Some (slots b !! lo) ->
  (forall k, is_Some (slots b !! k) -> lo <= k) -> minBuffered b = lo.
Proof.
  intros Hlo Hmin. assert (Hne : slots b <> ∅).
  { intros E. rewrite E, lookup_empty in Hlo. by destruct Hlo. }
  destruct (minBuffered_spec b Hne) as [Hin Hle].
  specialize (Hle _ Hlo). specialize (Hmin _ Hin). lia.
Qed.

Definition gap_expired (b : Buffer) (t1 : time) : Prop :=
  0 < gapTimeout b /\ gapSince b <> 0 /\ gapTimeout b < time_sub t1 (gapSince b).

(** The buffer once the gap below [lo] is declared lost. *)
Definition recovered (b : Buffer) (lo : Z) : Buffer :=
  {| (with_stats b (fun s => {| s with Skipped := u64 (Skipped s + (lo - next b)) |}))
     with next := lo; gapSince := 0 |}.

Lemma gapRecover_expired b t1 lo : gap_expired b t1 -> is_Some (slots b !! lo) ->
  (forall k, is_Some (slots b !! k) -> lo <= k) -> next b < lo ->
  gapRecover b t1 = recovered b lo.
Proof.
  intros (Ht & Hs & He) Hlo Hmin Hnext. unfold gapRecover, IsZero.
  rewrite (minBuffered_least b lo) by done.
  assert (0 < depth b).
  { pose proof (depth_0 b) as Hd. assert (depth b <> 0); [|unfold depth in *; lia].
    rewrite Hd. intros E. rewrite E, lookup_empty in Hlo. by destruct Hlo. }
  rewrite (proj2 (Z.ltb_lt 0 (gapTimeout b))), (proj2 (Z.ltb_lt 0 (depth b))),
    (proj2 (Z.eqb_neq _ _) Hs), (proj2 (Z.ltb_lt _ (time_sub _ _))),
    (proj2 (Z.ltb_lt (next b) lo)) by done. done.
Qed.

(** A buffer that holds packets never resyncs: its [switch] only looks at
    the bounds. *)
Lemma classify_nonempty b seq : slots b <> ∅ -> next b + window b < 2 ^ 64 -> inv b ->
  exists f, classify b seq =
    (with_stats b f, (next b <=? seq) && (seq <? next b + window b)) /\
    (forall s, Skipped (f s) = Skipped s /\ Delivered (f s) = Delivered s).
Proof.
  intros Hne Hmax [Hw Hn _ _]. rewrite <- depth_0 in Hne. unfold classify.
  rewrite (proj2 (Z.eqb_neq (depth b) 0)) by done.
  rewrite (u64_id (next b + _)) by (unfold is_u64 in *; lia). unfold is_u64 in *. cbn [andb].
  destruct (Z.ltb_spec seq (next b)); [|destruct (Z.leb_spec (next b + window b) seq)].
  - rewrite (proj2 (Z.leb_gt _ _)) by lia. by eexists.
  - rewrite (proj2 (Z.ltb_ge _ _)), andb_false_r by lia. by eexists.
  - rewrite (proj2 (Z.ltb_lt _ _)), (proj2 (Z.leb_le _ _)) by lia.
    exists id. by destruct b.
Qed.

(** The run released by a push: the packets [held] from [lo] up to the first
    that is missing, the rest left in their slots. *)
Lemma accepted_releases b seq t2 payload b' out : accepted b seq t2 payload b' out ->
  let held := <[seq := payload]> (slots b) in
  Some <$> out = (held !!.) <$> seqZ (next b) (zlen out) /\ next b' = next b + zlen out /\
  held !! next b' = None /\
  forall k, slots b' !! k = if decide (next b' <= k) then held !! k else None.
Proof.
  intros [_ An As Astop Aout _ _ _ _ _ _ _ _ _ _] held. split_and!; [|done| |exact As].
  - apply list_eq. intros i. rewrite !list_lookup_fmap. destruct (out !! i) as [q|] eqn:Eq; cbn.
    + pose proof (lookup_lt_Some _ _ _ Eq). rewrite lookup_seqZ_lt by (unfold zlen; lia).
      cbn. f_equal. symmetry. exact (Aout _ _ Eq).
    + apply lookup_ge_None in Eq. by rewrite lookup_seqZ_ge by (unfold zlen; lia).
  - rewrite As in Astop. by rewrite decide_True in Astop by lia.
Qed.
(** C28: a gap older than the timeout ends at the next packet, whatever it is.
    The lost sequences are counted, and: a new packet beyond the lowest
    buffered one [lo], within a window of it, releases exactly the packets held
    from [lo] up to the first that is still missing, in order, itself
    included if it is among them; the release point is that first missing
    packet and what lies beyond it stays buffered.  Any other packet, a late
    copy of a skipped one, a copy of a buffered one or one too far ahead, is
    dropped: nothing is released, the slots stay as they were and the release
    point is [lo]. *)
Theorem gap_recovery b t1 t2 lo p seq payload : inv b -> accounted b ->
  gap_expired b t1 -> slots b !! lo = Some p ->
  (forall k, is_Some (slots b !! k) -> lo <= k) -> next b < lo ->
  lo + window b < 2 ^ 64 -> is_u64 seq ->
  let '(b', out) := Push b t1 t2 seq payload in
  Skipped (stats b') = u64 (Skipped (stats b) + (lo - next b)) /\
  if decide (lo < seq < lo + window b /\ slots b !! seq = None) then
    let held := <[seq := payload]> (slots b) in
    out <> [] /\ Some <$> out = (held !!.) <$> seqZ lo (zlen out) /\
    next b' = lo + zlen out /\ held !! next b' = None /\
    forall k, slots b' !! k = if decide (next b' <= k) then held !! k else None
  else out = [] /\ next b' = lo /\ slots b' = slots b.
Proof.
  intros Hi [Ha _] He Hp Hmin Hnext Hmax Hq.
  destruct (Push b t1 t2 seq payload) as [b' out] eqn:EP.
  rewrite Push_stages in EP.
  assert (Hi1 : inv (gapRecover (received b) t1)) by by apply gapRecover_inv, received_inv.
  rewrite (gapRecover_expired (received b) t1 lo) in * by (done || by eexists).
  set (b1 := recovered (received b) lo) in *.
  assert (Hne : slots b1 <> ∅) by (cbn; intros E; by rewrite E, lookup_empty in Hp).
  destruct (classify_nonempty b1 seq) as (f & Ec & Hf); try done.
  rewrite Ec in EP. change (next b1) with lo in EP. change (window b1) with (window b) in EP.
  destruct (classify_inv b1 seq _ _ Hi1 Hq Ec) as [Hi2 Hgo].
  change (next b1) with lo in Hgo. change (window b1) with (window b) in Hgo.
  destruct ((lo <=? seq) && (seq <? lo + window b)) eqn:E.
  - destruct (Hgo eq_refl) as [Hr Hm]. case_decide as Hdup.
    + injection EP as <- <-. cbn. cbn in Hdup. rewrite (proj1 (Hf _)). split; [done|].
      rewrite decide_False; [done|]. intros [_ E2]. rewrite E2 in Hdup. by destruct Hdup.
    + apply acceptance_accepted in EP; try done.
      * pose proof (accepted_releases _ _ _ _ _ _ EP) as Hrel.
        rewrite (ac_skipped _ _ _ _ _ _ EP). cbn in Hrel, Hdup |- *. rewrite (proj1 (Hf _)). split; [done|].
        assert (Hlt : seq <> lo) by (intros ->; rewrite Hp in Hdup; by apply Hdup).
        apply eq_None_not_Some in Hdup. rewrite decide_True by (split; [lia|done]). split; [|done].
        destruct Hrel as (_ & Hn & Hstop & _). intros ->. rewrite Hn in Hstop.
        change (zlen []) with 0 in Hstop. rewrite Z.add_0_r, lookup_insert_ne in Hstop by done. congruence.
      * cbn. by rewrite (proj2 (Hf _)).
      * destruct (slots _ !! seq); [exfalso; eauto|done].
  - injection EP as <- <-. cbn. rewrite (proj1 (Hf _)). split; [done|].
    rewrite decide_False; [done|]. intros [[? ?] _]. zbool. lia.
Qed.

(** ** Concrete instances *)
Definition demo_pl (k : Z) : bytes := [k].
Definition arr (s : Z) : Arrival := mkArrival 5 5 s (demo_pl s).
Definition demo_burst : list Arrival := [arr 3; arr 1; arr 1; arr 2; arr 5].
Lemma demo_in_burst : Forall (in_burst 1 10 5 demo_pl 5) demo_burst.
Proof. repeat constructor; cbn; lia. Qed.
Example demo_run : (run (SetGapTimeout (NewAt 8 1) 10) demo_burst).2 = [[1]; [2]; [3]].
Proof. reflexivity. Qed.

(** Packet 3 waits behind the gap at 1 when the timeout of 10 passes. *)
Definition demo_gap : Buffer := (run (SetGapTimeout (NewAt 8 1) 10) [arr 3]).1.
Lemma demo_gap_inv : inv demo_gap /\ accounted demo_gap.
Proof.
  destruct (NewAt_inv 8 1) as [????]; [done|done|].
  destruct (run_safe (SetGapTimeout (NewAt 8 1) 10) [arr 3]) as (? & ? & _);
    [done|done|by repeat constructor|done].
Qed.
Lemma demo_gap_slots k : is_Some (slots demo_gap !! k) -> 3 <= k.
Proof.
  replace (slots demo_gap) with ({[3 := [3]]} : gmap Z bytes) by reflexivity.
  intros [v [<- _]%lookup_singleton_Some]. lia.
Qed.
(** Once expired, a rejected packet moves the release point but releases
    nothing: packet 3 stays buffered until the next accepted packet. *)
Example late_push_releases_nothing :
  let '(b, out) := Push demo_gap 100 100 2 [] in
  out = [] /\ next b = 3 /\ slots b !! 3 = Some [3].
Proof. by vm_compute. Qed.

Lemma buffer_safety_witness :
  let b := (run (SetGapTimeout (NewAt 8 1) 10) demo_burst).1 in
  depth b <= window b /\
  (forall k, is_Some (slots b !! k) -> next b <= k < next b + window b /\ k < 2 ^ 64 - 1) /\
  accounted b.
Proof. apply (buffer_safety 8 1 10 demo_burst); try done. by repeat constructor. Defined.

Lemma demo_is_burst : burst (SetGapTimeout (NewAt 8 1) 10) 5 demo_pl 5 demo_burst.
Proof. split; try done. apply demo_in_burst. Qed.
Lemma reassembly_witness :
  let b := SetGapTimeout (NewAt 8 1) 10 in
  exists m, 0 <= m <= 5 /\ (run b demo_burst).2 = demo_pl <$> seqZ 1 m /\
    (forall k, 1 <= k < 1 + m -> k ∈ seqs demo_burst) /\ 1 + m ∉ seqs demo_burst /\
    (forall k, is_Some (slots (run b demo_burst).1 !! k) <-> k ∈ seqs demo_burst /\ 1 + m <= k).
Proof. apply (reassembly 8 10 5 demo_pl 1 5 demo_burst); [done|done|apply demo_is_burst]. Defined.

Lemma gap_recovery_witness :
  let '(b', out) := Push demo_gap 100 100 4 [4] in
  Skipped (stats b') = u64 (Skipped (stats demo_gap) + (3 - next demo_gap)) /\
  if decide (3 < 4 < 3 + window demo_gap /\ slots demo_gap !! 4 = None) then
    let held := <[4 := [4]]> (slots demo_gap) in
    out <> [] /\ Some <$> out = (held !!.) <$> seqZ 3 (zlen out) /\
    next b' = 3 + zlen out /\ held !! next b' = None /\
    forall k, slots b' !! k = if decide (next b' <= k) then held !! k else None
  else out = [] /\ next b' = 3 /\ slots b' = slots demo_gap.
Proof.
  apply (gap_recovery demo_gap 100 100 3 [3] 4 [4]); try done; try apply demo_gap_inv.
  apply demo_gap_slots.
Defined.
Example gap_recovery_run : (Push demo_gap 100 100 4 [4]).2 = [[3]; [4]].
Proof. reflexivity. Qed.
