(* ===== verification/Bearer.v ===== *)
(** * Bearer: the registry of threads a weave can stripe over

    [core/hydra/bearer/bearer.go].  The registry is the map under [r.mu]; the
    clock of [Upsert] is the argument [now].  Map iteration is random in Go, so
    [AggregateMbps] takes the order it visits the threads in. *)
From S2P Require Import Prelude Float64.
From S2P Require Import Sched.

Record Thread := mkThread {
  ID : string;
  Box : string;
  SIM : string;
  Mbps : f64;
  RTTms : f64;
  LossPct : f64;
  QueueBytes : Z;  (* uint64 *)
  Up : bool;
  LastSeen : Z;    (* time.Time *)
}.
#[global] Instance Thread_eq_dec : EqDecision Thread.
Proof. solve_decision. Defined.

Inductive UpsertError := ErrIDRequired | ErrMbps | ErrRTT | ErrLoss.

Definition Candidate (t : Thread) : Sched.Thread :=
  Sched.mkThread (ID t) (Mbps t) (RTTms t) (LossPct t) (QueueBytes t).

Abbreviation Registry := (gmap string Thread).
Definition NewRegistry : Registry := ∅.

Definition Upsert (r : Registry) (now : time) (t : Thread) : res UpsertError Registry :=
  if decide (ID t = ""%string) then Err ErrIDRequired
  else if flt (Mbps t) f64_zero then Err ErrMbps
  else if flt (RTTms t) f64_zero then Err ErrRTT
  else if flt (LossPct t) f64_zero || flt (f64_of_Z 100) (LossPct t) then Err ErrLoss
  else
    let t := if IsZero (LastSeen t) then {| t with LastSeen := now |} else t in
    Ok (<[ID t := t]> r).

Definition Remove (r : Registry) (id : string) : Registry * bool :=
  match r !! id with
  | None => (r, false)
  | Some _ => (delete id r, true)
  end.

Definition Get (r : Registry) (id : string) : option Thread := r !! id.

Definition List (r : Registry) : list Thread := sort_by ID (values r).

Definition UpThreads (r : Registry) : list Thread := filter (fun t => Up t = true) (List r).

Definition Candidates (r : Registry) (ids : list string) : list Sched.Thread :=
  omap (fun id =>
    match r !! id with
    | Some t => if Up t then Some (Candidate t) else None
    | None => None
    end) ids.

(** [order] is the order in which Go happens to range over the map. *)
Definition AggregateMbps (order : list Thread) : f64 :=
  foldl (fun sum t => if Up t then fadd sum (Mbps t) else sum) f64_zero order.

Definition Update (r : Registry) (id : string) (mutate : Thread -> Thread) : Registry * bool :=
  match r !! id with
  | None => (r, false)
  | Some t => (<[id := mutate t]> r, true)
  end.

Definition AddQueue (r : Registry) (id : string) (n : Z) : Registry :=
  match r !! id with
  | Some t => <[id := {| t with QueueBytes := u64 (QueueBytes t + n) |}]> r
  | None => r
  end.

Definition SubQueue (r : Registry) (id : string) (n : Z) : Registry :=
  match r !! id with
  | None => r
  | Some t =>
      if QueueBytes t <=? n then <[id := {| t with QueueBytes := 0 |}]> r
      else <[id := {| t with QueueBytes := u64 (QueueBytes t - n) |}]> r
  end.

(** ** The registry invariant: what [Upsert] validates, under its own key *)
Definition valid_thread (t : Thread) : Prop :=
  ID t <> ""%string /\ flt (Mbps t) f64_zero = false /\ flt (RTTms t) f64_zero = false /\
  flt (LossPct t) f64_zero = false /\ flt (f64_of_Z 100) (LossPct t) = false.
Definition wf (r : Registry) : Prop := map_Forall (fun id t => ID t = id /\ valid_thread t) r.

Lemma wf_keyed r : wf r -> keyed ID r.
Proof. intros Hr. eapply map_Forall_impl; [exact Hr|]. by intros ?? []. Qed.
Lemma wf_insert r id t : wf r -> ID t = id -> valid_thread t -> wf (<[id := t]> r).
Proof. intros. by apply map_Forall_insert_2. Qed.

Lemma Upsert_ok r now t r' : Upsert r now t = Ok r' ->
  valid_thread t /\
  r' = <[ID t := if IsZero (LastSeen t) then {| t with LastSeen := now |} else t]> r.
Proof.
  unfold Upsert, valid_thread. case_decide as E1; [done|].
  destruct (flt (Mbps t) _) eqn:E2, (flt (RTTms t) _) eqn:E3; try done.
  destruct (flt (LossPct t) _) eqn:E4, (flt (f64_of_Z 100) _) eqn:E5; try done.
  intros [= <-]. split; [done|]. by destruct (IsZero (LastSeen t)).
Qed.
Lemma Upsert_wf r now t r' : wf r -> Upsert r now t = Ok r' -> wf r'.
Proof.
  intros Hr [Hv ->]%Upsert_ok. by apply wf_insert; destruct (IsZero (LastSeen t)).
Qed.
Lemma Remove_wf r id : wf r -> wf (Remove r id).1.
Proof. intros Hr. unfold Remove. case_match; [by apply map_Forall_delete|done]. Qed.
Lemma queue_wf r id t q : wf r -> r !! id = Some t ->
  wf (<[id := {| t with QueueBytes := q |}]> r).
Proof. intros Hr Ht. destruct (Hr _ _ Ht). by apply wf_insert. Qed.
Lemma AddQueue_wf r id n : wf r -> wf (AddQueue r id n).
Proof. intros Hr. unfold AddQueue. case_match; [by apply queue_wf|done]. Qed.
Lemma SubQueue_wf r id n : wf r -> wf (SubQueue r id n).
Proof. intros Hr. unfold SubQueue. repeat case_match; try done; by apply queue_wf. Qed.

(** Operations on one thread leave every other thread alone. *)
Lemma AddQueue_ne r id n id' : id <> id' -> AddQueue r id n !! id' = r !! id'.
Proof. intros Hne. unfold AddQueue. destruct (r !! id); [|done]. by rewrite lookup_insert_ne. Qed.
Lemma SubQueue_ne r id n id' : id <> id' -> SubQueue r id n !! id' = r !! id'.
Proof.
  intros Hne. unfold SubQueue. destruct (r !! id); [|done].
  case_match; by rewrite lookup_insert_ne.
Qed.

(** An upsert stores exactly a valid thread and rejects every other one,
    leaving the registry as it was. *)
Theorem Upsert_spec r now t : wf r ->
  match Upsert r now t with
  | Ok r' => valid_thread t /\ wf r' /\
      Get r' (ID t) = Some (if IsZero (LastSeen t) then {| t with LastSeen := now |} else t) /\
      forall id, id <> ID t -> Get r' id = Get r id
  | Err _ => ~ valid_thread t
  end.
Proof.
  intros Hr. destruct (Upsert r now t) as [r'|e] eqn:E.
  - split_and!; [by apply Upsert_ok in E as []|by eapply Upsert_wf| |];
      apply Upsert_ok in E as [_ ->]; unfold Get.
    + by rewrite lookup_insert_eq.
    + intros id Hid. by rewrite lookup_insert_ne.
  - intros (H1 & H2 & H3 & H4 & H5). unfold Upsert in E.
    by rewrite decide_False, H2, H3, H4, H5 in E by done.
Qed.

(** [List] is deterministic: whatever order the map is visited in, the result
    is the registered threads, each once, strictly increasing in id. *)
Theorem List_spec r order : wf r -> order ≡ₚ values r ->
  sort_by ID order = List r /\
  StronglySorted (fun a b => String.ltb (ID a) (ID b) = true) (List r) /\
  forall t, t ∈ List r <-> Get r (ID t) = Some t.
Proof.
  intros Hr Hp. apply wf_keyed in Hr as Hk. split_and!.
  - apply sort_by_unique; [|done]. rewrite Hp. by apply keyed_NoDup.
  - by apply sort_by_strict, keyed_NoDup.
  - intros t. unfold List, Get. rewrite elem_of_sort_by, elem_of_values. split.
    + intros [k Ht]. by rewrite (Hk _ _ Ht).
    + eauto.
Qed.

Lemma elem_of_Candidates r ids c : c ∈ Candidates r ids <->
  exists id t, id ∈ ids /\ r !! id = Some t /\ Up t = true /\ c = Candidate t.
Proof.
  unfold Candidates. rewrite list_elem_of_omap. split.
  - intros (id & Hid & Hc). repeat case_match; simplify_eq. eauto 10.
  - intros (id & t & Hid & Ht & Hu & ->). exists id. by rewrite Ht, Hu.
Qed.
Lemma Candidates_cons r id ids : Candidates r (id :: ids) =
  (match r !! id with Some t => if Up t then [Candidate t] else [] | None => [] end)
  ++ Candidates r ids.
Proof. unfold Candidates. cbn. destruct (r !! id) as [t|]; [by destruct (Up t)|done]. Qed.

(** Queue accounting: a transmission added and then drained leaves the thread
    as it was, and draining more than is outstanding stops at zero. *)
Theorem queue_roundtrip r id t n m : Get r id = Some t -> is_u64 (QueueBytes t) ->
  0 <= n -> QueueBytes t + n < 2 ^ 64 -> 0 <= m ->
  SubQueue (AddQueue r id n) id n = r /\
  Get (SubQueue (AddQueue r id n) id m) id =
    Some {| t with QueueBytes := Z.max 0 (QueueBytes t + n - m) |}.
Proof.
  unfold Get. intros Ht Hq Hn Hmax Hm.
  assert (Hadd : AddQueue r id n = <[id := {| t with QueueBytes := QueueBytes t + n |}]> r).
  { unfold AddQueue. rewrite Ht, u64_id; [done|]. unfold is_u64 in *. lia. }
  rewrite Hadd.
  assert (Hsub : forall m, 0 <= m ->
    SubQueue (<[id := {| t with QueueBytes := QueueBytes t + n |}]> r) id m =
    <[id := {| t with QueueBytes := Z.max 0 (QueueBytes t + n - m) |}]> r).
  { intros k Hk. unfold SubQueue. rewrite lookup_insert_eq. cbn. unfold is_u64 in Hq.
    destruct (Z.leb_spec (QueueBytes t + n) k);
      rewrite insert_insert_eq; do 2 f_equal; [lia|].
    rewrite u64_id by (unfold is_u64; lia). lia. }
  rewrite !Hsub by lia. split; [|by rewrite lookup_insert_eq].
  replace (Z.max 0 _) with (QueueBytes t) by (unfold is_u64 in Hq; lia).
  apply insert_id. rewrite Ht. by destruct t.
Qed.

(** ** Concrete instances *)
Definition demo_registry : Registry :=
  <["b" := mkThread "b" "" "" f64_zero f64_zero f64_zero 7 true 1]>
    (<["a" := mkThread "a" "" "" f64_zero f64_zero f64_zero 0 true 1]> ∅).
Lemma demo_registry_wf : wf demo_registry.
Proof. apply wf_insert; [apply wf_insert|..]; done. Qed.
Lemma List_spec_witness :
  sort_by ID (reverse (values demo_registry)) = List demo_registry /\
  StronglySorted (fun a b => String.ltb (ID a) (ID b) = true) (List demo_registry) /\
  forall t, t ∈ List demo_registry <-> Get demo_registry (ID t) = Some t.
Proof.
  apply (List_spec demo_registry (reverse (values demo_registry)) demo_registry_wf).
  apply reverse_Permutation.
Defined.
Lemma queue_roundtrip_witness : exists t, Get demo_registry "b" = Some t /\
  SubQueue (AddQueue demo_registry "b" 5) "b" 5 = demo_registry /\
  Get (SubQueue (AddQueue demo_registry "b" 5) "b" 100) "b" =
    Some {| t with QueueBytes := Z.max 0 (QueueBytes t + 5 - 100) |}.
Proof.
  eexists. split; [reflexivity|].
  apply (queue_roundtrip demo_registry "b" _ 5 100); vm_decide || done.
Defined.
