(* ===== verification/Anchor.v ===== *)
(** * Anchor: where a reassembled weave leaves for transit

    [core/hydra/anchor/anchor.go].  Go's [Egress] interface is the class
    [Egress]; clients (the fabric) are proved against it.  [reliable] is the
    one promise a client may ask of an implementation. *)
From S2P Require Import Prelude.

Class Egress (S : Type) := {
  Send : S -> bytes -> S * bool;  (* the new state; [true] is a nil error *)
  Name : S -> string;
}.

Definition reliable (S : Type) `{Egress S} : Prop := forall s p, (Send s p).2 = true.

Record Sink := mkSink { frames : Z; octets : Z (* uint64 each *) }.
Definition NewSink : Sink := mkSink 0 0.
Definition Sink_Send (s : Sink) (payload : bytes) : Sink * bool :=
  ({| frames := u64 (frames s + 1); octets := u64 (octets s + zlen payload) |}, true).
#[export] Instance Sink_Egress : Egress Sink :=
  { Send := Sink_Send; Name := fun _ => "sink"%string }.

(** An egress that records what it is given: the specification of a terminal. *)
#[export] Instance log_Egress : Egress (list bytes) :=
  { Send := fun l p => (l ++ [p], true); Name := fun _ => "log"%string }.

(** The forwarding loop of [Ingest]: the first failing [Send] ends it. *)
Fixpoint send_all {S} `{Egress S} (s : S) (ps : list bytes) : S * bool :=
  match ps with
  | [] => (s, true)
  | p :: ps =>
      let '(s, ok) := Send s p in
      if ok then send_all s ps else (s, false)
  end.

Definition delivered_to {S} `{Egress S} (s : S) (ps : list bytes) : S :=
  foldl (fun s p => (Send s p).1) s ps.

Lemma reliable_Sink : reliable Sink.
Proof. done. Qed.
Lemma reliable_log : reliable (list bytes).
Proof. done. Qed.
Lemma send_all_reliable {S} `{Egress S} s ps : reliable S ->
  send_all s ps = (delivered_to s ps, true).
Proof.
  intros Hr. revert s. induction ps as [|p ps IH]; intros s; [done|]. cbn.
  specialize (Hr s p). destruct (Send s p) as [s' ok]; cbn in *. by subst.
Qed.
Lemma delivered_to_app {S} `{Egress S} s ps qs :
  delivered_to s (ps ++ qs) = delivered_to (delivered_to s ps) qs.
Proof. apply foldl_app. Qed.
Lemma delivered_to_log s ps : delivered_to (S := list bytes) s ps = s ++ ps.
Proof.
  revert s. induction ps as [|p ps IH]; intros s; cbn; [by rewrite app_nil_r|].
  unfold delivered_to in IH. rewrite IH. by rewrite <- app_assoc.
Qed.

(** The sink's counters are the number of payloads and of bytes it was sent,
    modulo the width of its counters. *)
Theorem Sink_counts s ps : is_u64 (frames s) -> is_u64 (octets s) ->
  delivered_to s ps =
    mkSink (u64 (frames s + zlen ps)) (u64 (octets s + Zsum (zlen <$> ps))).
Proof.
  intros Hf Ho. revert s Hf Ho. induction ps as [|p ps IH]; intros s Hf Ho.
  - cbn. change (zlen []) with 0. rewrite !Z.add_0_r, !u64_id by done. by destruct s.
  - change (delivered_to s (p :: ps)) with (delivered_to (Sink_Send s p).1 ps).
    rewrite IH by apply u64_range. cbn [Sink_Send fst frames octets].
    change (Zsum (zlen <$> p :: ps)) with (zlen p + Zsum (zlen <$> ps)).
    rewrite !u64_add_l, zlen_cons, !Z.add_assoc. done.
Qed.
