(* ===== verification/Fabric.v ===== *)
(** * Fabric: the weave engine

    [core/hydra/fabric/fabric.go].  An [Engine] owns the thread registry and
    the weaves; the egress is any implementation of [Anchor.Egress].  Each Go
    method holds [e.mu] (and [ws.sendMu] for push and egress), so a method is
    one function on the engine; clock readings are arguments.  [hash/fnv] is
    Go's standard library: 32-bit FNV-1a. *)
From S2P Require Import Prelude Float64.
From S2P Require Import Shim.
From S2P Require Import Sched.
From S2P Require Import Reorder.
From S2P Require Import Bearer.
From S2P Require Import Anchor.

Definition DefaultMode : string := "delay-inflation".

Record Weave := mkWeave {
  wID : string;
  wAnchor : string;
  Threads : list string;
  Mode : string;
  CreatedAt : Z;
}.

Inductive Error :=
  | ErrNoWeave | ErrWeaveExists | ErrNoThreads | ErrWeaveMismatch
  | ErrIDRequired | ErrUnknownThread (id : string) | ErrBenchArgs
  | ErrShim (e : Shim.Error) | ErrSched (e : Sched.Error) | ErrUpsert (e : UpsertError)
  | ErrEgress.

Record StripResult := mkStrip {
  srWeaveID : string;
  srThreadID : string;
  srSeq : Z;
  FrameLen : Z;
  srFrame : bytes;
}.

Record WeaveStats := mkWeaveStats {
  wsWeave : Weave;
  wsFramesSent : Z;
  wsBytesSent : Z;
  wsAggregate : f64;
  wsReorder : Stats;
  wsBenchRuns : Z;
  wsBenchDelivered : Z;
}.

Record Status := mkStatus {
  stThreads : Z; stThreadsUp : Z; stWeaves : Z; stAggregate : f64;
  stFramesSent : Z; stDelivered : Z; stAnchor : string;
}.

Record BenchResult := mkBench {
  brWeaveID : string; brPackets : Z; brBytes : Z; brDelivered : Z;
  brAggregate : f64; brSingle : f64; brSpeedup : f64; brReorder : Stats; brElapsedMs : f64;
}.

Record weaveState := mkWeaveState {
  ws_w : Weave;
  rb : Buffer;
  seq : Z; framesSent : Z; bytesSent : Z; benchRuns : Z; benchDelivered : Z;  (* uint64 *)
}.

Record Engine (S : Type) := mkEngine {
  reg : Registry;
  weaves : gmap string weaveState;
  egress : S;
  anchorName : string;
}.
Arguments mkEngine {S}.
Arguments reg {S}. Arguments weaves {S}. Arguments egress {S}. Arguments anchorName {S}.

(** FNV-1a over the bytes of the id. *)
Definition weaveHash (id : string) : Z :=
  foldl (fun h b => u32 (Z.lxor h b * 16777619)) 2166136261 (string_bytes id).

Definition newWeaveState (w : Weave) : weaveState :=
  mkWeaveState w (SetGapTimeout (NewAt 0 1) DefaultGapTimeout) 0 0 0 0 0.

Section Engine.
Context {S : Type} `{Egress S}.
Abbreviation Engine := (Engine S).

(** [name] is what [WithAnchorName] recorded, empty without that option. *)
Definition NewEngine (eg : S) (name : string) : Engine :=
  mkEngine ∅ ∅ eg (if decide (name = ""%string) then Name eg else name).

Definition with_weave (e : Engine) (id : string) (ws : weaveState) : Engine :=
  {| e with weaves := <[id := ws]> (weaves e) |}.

Definition AddThread (e : Engine) (now : time) (t : Bearer.Thread) : res Error Engine :=
  match Upsert (reg e) now t with
  | Ok r => Ok {| e with reg := r |}
  | Err err => Err (ErrUpsert err)
  end.
Definition RemoveThread (e : Engine) (id : string) : Engine * bool :=
  let '(r, ok) := Remove (reg e) id in ({| e with reg := r |}, ok).
Definition Complete (e : Engine) (id : string) (n : Z) : Engine :=
  {| e with reg := SubQueue (reg e) id n |}.

Fixpoint checkThreads (e : Engine) (ids : list string) : res Error unit :=
  match ids with
  | [] => Ok tt
  | id :: ids =>
      match Get (reg e) id with
      | None => Err (ErrUnknownThread id)
      | Some _ => checkThreads e ids
      end
  end.
Definition validateThreads (e : Engine) (ids : list string) : res Error unit :=
  match ids with [] => Err ErrNoThreads | _ => checkThreads e ids end.

Definition CreateWeave (e : Engine) (now : time) (id anchor : string) (threadIDs : list string) :
    res Error (Engine * Weave) :=
  if decide (id = ""%string) then Err ErrIDRequired
  else
    let anchor := if decide (anchor = ""%string) then anchorName e else anchor in
    match weaves e !! id with
    | Some _ => Err ErrWeaveExists
    | None =>
        match validateThreads e threadIDs with
        | Err err => Err err
        | Ok _ =>
            let w := mkWeave id anchor threadIDs DefaultMode now in
            Ok (with_weave e id (newWeaveState w), w)
        end
    end.

Definition GetWeave (e : Engine) (id : string) : option Weave := ws_w <$> weaves e !! id.
Definition ListWeaves (e : Engine) : list Weave := sort_by wID (ws_w <$> values (weaves e)).
Definition DeleteWeave (e : Engine) (id : string) : Engine * bool :=
  match weaves e !! id with
  | None => (e, false)
  | Some _ => ({| e with weaves := delete id (weaves e) |}, true)
  end.

(** [ts] is the clock's [UnixNano] reading, an [int64]. *)
Definition Strip (e : Engine) (weaveID : string) (payload : bytes) (ts : Z) :
    Engine * res Error StripResult :=
  match weaves e !! weaveID with
  | None => (e, Err ErrNoWeave)
  | Some ws =>
      let cands := Candidates (reg e) (Threads (ws_w ws)) in
      match cands with
      | [] => (e, Err ErrNoThreads)
      | _ =>
          let ws := {| ws with seq := u64 (seq ws + 1) |} in
          match Pick cands (zlen payload) with
          | Err err => (with_weave e weaveID ws, Err (ErrSched err))
          | Ok t =>
              let frame := Frame (Shim.New (weaveHash weaveID) (seq ws) ts) payload in
              let e := {| e with reg := AddQueue (reg e) (Sched.ID t) (zlen frame) |} in
              let ws' := {| ws with framesSent := u64 (framesSent ws + 1);
                                    bytesSent := u64 (bytesSent ws + zlen frame) |} in
              (with_weave e weaveID ws',
               Ok (mkStrip weaveID (Sched.ID t) (seq ws) (zlen frame) frame))
          end
      end
  end.

(** The checks both [Reassemble] and [Ingest] make before pushing. *)
Definition accept_frame (e : Engine) (weaveID : string) (frame : bytes) :
    res Error (weaveState * Header * bytes) :=
  match Decode frame with
  | Err err => Err (ErrShim err)
  | Ok (h, payload) =>
      if negb (WeaveID h =? weaveHash weaveID) then Err ErrWeaveMismatch
      else match weaves e !! weaveID with
           | None => Err ErrNoWeave
           | Some ws => Ok (ws, h, payload)
           end
  end.

Definition Reassemble (e : Engine) (t1 t2 : time) (weaveID : string) (frame : bytes) :
    Engine * res Error (list bytes) :=
  match accept_frame e weaveID frame with
  | Err err => (e, Err err)
  | Ok (ws, h, payload) =>
      let '(b, out) := Push (rb ws) t1 t2 (Seq h) payload in
      (with_weave e weaveID {| ws with rb := b |}, Ok out)
  end.

Definition Ingest (e : Engine) (t1 t2 : time) (weaveID : string) (frame : bytes) :
    Engine * res Error Z :=
  match accept_frame e weaveID frame with
  | Err err => (e, Err err)
  | Ok (ws, h, payload) =>
      let '(b, payloads) := Push (rb ws) t1 t2 (Seq h) payload in
      let e := with_weave e weaveID {| ws with rb := b |} in
      let '(eg, ok) := send_all (egress e) payloads in
      let e := {| e with egress := eg |} in
      (e, if ok then Ok (zlen payloads) else Err ErrEgress)
  end.

(** ** Stats, health and restart *)
(** [order] is the order in which Go ranges over the registry. *)
Definition weaveStats (e : Engine) (order : list Bearer.Thread) (id : string) :
    option WeaveStats :=
  (fun ws => mkWeaveStats (ws_w ws) (framesSent ws) (bytesSent ws) (AggregateMbps order)
               (stats (rb ws)) (benchRuns ws) (benchDelivered ws)) <$> weaves e !! id.

Definition SetThreadHealth (e : Engine) (now : time) (id : string) (mbps rttMs lossPct : f64)
    (up : bool) : Engine * bool :=
  let '(r, ok) := Update (reg e) id (fun t =>
    let t := if flt f64_zero mbps then {| t with Mbps := mbps |} else t in
    {| t with RTTms := rttMs; LossPct := lossPct; Up := up; LastSeen := now |}) in
  ({| e with reg := r |}, ok).

Fixpoint restoreThreads (r : Registry) (ts : list (time * Bearer.Thread)) :
    Registry * option UpsertError :=
  match ts with
  | [] => (r, None)
  | (now, t) :: ts =>
      match Upsert r now t with
      | Err err => (r, Some err)
      | Ok r => restoreThreads r ts
      end
  end.
Definition restoreWeave (ws : gmap string weaveState) (w : Weave) : gmap string weaveState :=
  if decide (wID w = ""%string) then ws
  else match ws !! wID w with
       | Some _ => ws
       | None =>
           let w' := if decide (Mode w = ""%string) then {| w with Mode := DefaultMode |} else w in
           <[wID w := newWeaveState w']> ws
       end.
(** Each thread comes with the clock reading its [Upsert] would stamp. *)
Definition Restore (e : Engine) (threads : list (time * Bearer.Thread)) (wl : list Weave) :
    Engine * option Error :=
  match restoreThreads (reg e) threads with
  | (r, Some err) => ({| e with reg := r |}, Some (ErrUpsert err))
  | (r, None) => ({| e with reg := r; weaves := foldl restoreWeave (weaves e) wl |}, None)
  end.

(** [worder] is the order in which Go ranges over the weaves: wrap-around
    addition commutes, so only [AggregateMbps] could depend on an order. *)
Definition status (e : Engine) (order : list Bearer.Thread) (worder : list weaveState) : Status :=
  {| stThreads := zlen (List (reg e));
     stThreadsUp := zlen (UpThreads (reg e));
     stWeaves := Z.of_nat (size (weaves e));
     stAggregate := AggregateMbps order;
     stFramesSent := u64_sum (framesSent <$> worder);
     stDelivered := u64_sum ((fun ws => Delivered (stats (rb ws))) <$> worder);
     stAnchor := anchorName e |}.

(** ** The lab bench *)
(** The striping loop, from packet [i] on: [ts i] is the clock at packet [i]. *)
Fixpoint benchStrip (e : Engine) (weaveID : string) (pktBytes : Z) (ts : nat -> Z)
    (i n : nat) : Engine * res Error (list StripResult) :=
  match n with
  | O => (e, Ok [])
  | Datatypes.S n =>
      let payload := replicate (Z.to_nat pktBytes) (u8 (Z.of_nat i)) in
      match Strip e weaveID payload (ts i) with
      | (e, Err err) => (e, Err err)
      | (e, Ok r) =>
          let '(e, rs) := benchStrip e weaveID pktBytes ts (Datatypes.S i) n in
          (e, cons r <$> rs)
      end
  end.

(** [feed]: decode the frame and push it; the result counts deliveries. *)
Definition feed (b : Buffer) (t : time * time) (r : StripResult) : Buffer * res Error Z :=
  match Decode (srFrame r) with
  | Err err => (b, Err (ErrShim err))
  | Ok (_, payload) =>
      let '(b, out) := Push b t.1 t.2 (srSeq r) payload in (b, Ok (zlen out))
  end.
Fixpoint feedAll (b : Buffer) (delivered : Z) (l : list ((time * time) * StripResult)) :
    Buffer * res Error Z :=
  match l with
  | [] => (b, Ok delivered)
  | (t, r) :: l =>
      match feed b t r with
      | (b, Err err) => (b, Err err)
      | (b, Ok n) => feedAll b (delivered + n) l
      end
  end.

(** The two index loops: 0, 2, 4, ... then 1, 3, 5, ... *)
Fixpoint evens {A} (l : list A) : list A :=
  match l with
  | [] => []
  | [x] => [x]
  | x :: _ :: l => x :: evens l
  end.
Definition odds {A} (l : list A) : list A := evens (tail l).

Definition single_of (cands : list Sched.Thread) : f64 :=
  foldl (fun single c => if flt single (Sched.Mbps c) then Sched.Mbps c else single)
    f64_zero cands.

(** [ts] are the clock readings of the strips, [tp i] those of the buffer's
    own clock at the [i]-th push, [tstart] and [tend] the bench timer's; [order] as above.
    No other call on the weave runs between the two phases. *)
Definition Bench (e : Engine) (weaveID : string) (packets pktBytes : Z) (ts : nat -> Z)
    (tp : nat -> time * time) (tstart tend : time) (order : list Bearer.Thread) :
    Engine * res Error BenchResult :=
  if (packets <=? 0) || (pktBytes <=? 0) then (e, Err ErrBenchArgs)
  else match weaves e !! weaveID with
  | None => (e, Err ErrNoWeave)
  | Some ws0 =>
      let cands := Candidates (reg e) (Threads (ws_w ws0)) in
      match cands with
      | [] => (e, Err ErrNoThreads)
      | _ =>
          match benchStrip e weaveID pktBytes ts 0 (Z.to_nat packets) with
          | (e, Err err) => (e, Err err)
          | (e, Ok results) =>
              match weaves e !! weaveID with
              | None => (e, Err ErrNoWeave)  (* the strips keep the weave *)
              | Some ws =>
                  match feedAll (rb ws) 0 (imap (fun i r => (tp i, r)) (evens results ++ odds results)) with
                  | (b, Err err) => (with_weave e weaveID {| ws with rb := b |}, Err err)
                  | (b, Ok delivered) =>
                      let ws := {| ws with rb := b; benchRuns := u64 (benchRuns ws + 1);
                                     benchDelivered := u64 (benchDelivered ws + delivered) |} in
                      let aggregate := AggregateMbps order in
                      let single := single_of cands in
                      let speedup := if flt f64_zero single then fdiv aggregate single
                                     else f64_of_Z 1 in
                      (with_weave e weaveID ws,
                       Ok {| brWeaveID := weaveID; brPackets := packets;
                             brBytes := u64_sum (FrameLen <$> results);
                             brDelivered := delivered; brAggregate := aggregate;
                             brSingle := single; brSpeedup := speedup;
                             brReorder := stats b;
                             brElapsedMs := fdiv (f64_of_Z (Z.quot (time_sub tend tstart) 1000))
                                              (f64_of_Z 1000) |})
                  end
              end
          end
      end
  end.
End Engine.

(** ** Lemmas on the frames of a weave *)
Lemma u32_range z : is_u32 (u32 z).
Proof. apply Z.mod_pos_bound. lia. Qed.
Lemma weaveHash_u32 id : is_u32 (weaveHash id).
Proof.
  unfold weaveHash. assert (Hs : is_u32 2166136261) by (unfold is_u32; lia).
  revert Hs. generalize 2166136261. induction (string_bytes id) as [|b l IH]; intros z Hz; cbn;
    auto using u32_range.
Qed.

Definition weave_frame (id : string) (k ts : Z) (p : bytes) : bytes :=
  Frame (Shim.New (weaveHash id) k ts) p.

Lemma Decode_weave_frame id k ts p : is_u64 k -> is_i64 ts ->
  Decode (weave_frame id k ts p) = Ok (Shim.New (weaveHash id) k ts, p).
Proof. intros. by apply Decode_Frame; [apply New_wf; auto using weaveHash_u32|]. Qed.

Lemma Pick_elem cands n t : Pick cands n = Ok t -> t ∈ cands.
Proof.
  unfold Pick. destruct cands as [|c cands]; [done|]. case_if; [done|].
  intros [= <-]. apply argmin_elem.
Qed.

Lemma Strip_ok {S} (e e' : Engine S) id p ts r : Strip e id p ts = (e', Ok r) ->
  exists ws t, weaves e !! id = Some ws /\
    Pick (Candidates (reg e) (Threads (ws_w ws))) (zlen p) = Ok t /\
    let k := u64 (seq ws + 1) in
    let n := HeaderLen + zlen p in
    r = mkStrip id (Sched.ID t) k n (weave_frame id k ts p) /\
    e' = with_weave {| e with reg := AddQueue (reg e) (Sched.ID t) n |} id
           {| ws with seq := k; framesSent := u64 (framesSent ws + 1);
                      bytesSent := u64 (bytesSent ws + n) |}.
Proof.
  unfold Strip. destruct (weaves e !! id) as [ws|]; [|done].
  destruct (Candidates _ _) as [|c cs] eqn:Ec; [done|].
  destruct (Pick _ _) as [t|] eqn:EP; [|done]. intros [= <- <-].
  exists ws, t. by rewrite Ec, zlen_Frame.
Qed.

(** A sequence of strips, stopping at the first error as [Bench] does. *)
Fixpoint strips {S} (e : Engine S) (id : string) (l : list (bytes * Z)) :
    Engine S * res Error (list StripResult) :=
  match l with
  | [] => (e, Ok [])
  | (p, ts) :: l =>
      match Strip e id p ts with
      | (e, Err err) => (e, Err err)
      | (e, Ok r) => let '(e, rs) := strips e id l in (e, cons r <$> rs)
      end
  end.

Record stripped {S} (e e' : Engine S) (id : string) (ws : weaveState) (l : list (bytes * Z))
    (rs : list StripResult) : Prop := {
  sd_length : length rs = length l;
  sd_frames : forall i r, rs !! i = Some r -> exists p ts, l !! i = Some (p, ts) /\
    srSeq r = seq ws + 1 + Z.of_nat i /\
    srFrame r = weave_frame id (seq ws + 1 + Z.of_nat i) ts p;
  sd_weave : exists ws', weaves e' !! id = Some ws' /\ seq ws' = seq ws + zlen l /\
    rb ws' = rb ws /\ ws_w ws' = ws_w ws;
}.

Lemma strips_length {S} (e e' : Engine S) id l rs : strips e id l = (e', Ok rs) ->
  length rs = length l.
Proof.
  revert e rs. induction l as [|[p ts] l IH]; intros e rs; cbn; [by intros [= <- <-]|].
  destruct (Strip e id p ts) as [e1 [r|]]; [|done].
  destruct (strips e1 id l) as [e2 [rs2|]] eqn:E; [|done].
  intros [= <- <-]. cbn. by erewrite IH.
Qed.

Lemma strips_stripped {S} (e e' : Engine S) id ws l rs : weaves e !! id = Some ws ->
  0 <= seq ws -> seq ws + zlen l < 2 ^ 64 -> strips e id l = (e', Ok rs) ->
  stripped e e' id ws l rs.
Proof.
  revert e ws rs. induction l as [|[p ts] l IH]; intros e ws rs Hws Hs Hmax.
  - intros [= <- <-]. split; [done|done|]. exists ws. change (zlen []) with 0.
    by rewrite Z.add_0_r.
  - cbn [strips]. destruct (Strip e id p ts) as [e1 [r|]] eqn:E1; [|done].
    apply Strip_ok in E1 as (ws0 & t & Hws0 & _ & -> & ->).
    assert (ws0 = ws) as -> by congruence. clear Hws0. rewrite zlen_cons in Hmax.
    pose proof (zlen_nonneg l) as Hl. rewrite (u64_id (seq ws + 1)) by (unfold is_u64; lia).
    match goal with |- context [with_weave ?x id ?w] =>
      set (ws1 := w); set (e1 := with_weave x id ws1) end.
    destruct (strips e1 id l) as [e2 [rs2|]] eqn:E2; [|done]. intros [= <- <-].
    apply (IH _ ws1) in E2 as [Hlen Hfr (ws' & H1 & H2 & H3 & H4)];
      [|apply lookup_insert_eq|cbn; lia|cbn; lia].
    cbn [ws1 seq] in Hfr, H2. split.
    + cbn. by rewrite Hlen.
    + intros [|i] r; cbn.
      * intros [= <-]. exists p, ts. cbn. by rewrite Z.add_0_r.
      * intros (p' & ts' & ? & Hq & Hf)%Hfr. exists p', ts'.
        replace (seq ws + 1 + Z.of_nat (Datatypes.S i))
          with (seq ws + 1 + 1 + Z.of_nat i) by lia. done.
    + exists ws'. rewrite zlen_cons. split_and!; [done|lia|done|done].
Qed.

(** A sequence of ingests; each frame comes with its two clock readings. *)
Fixpoint ingests {S} `{Egress S} (e : Engine S) (id : string) (l : list ((time * time) * bytes)) :
    Engine S :=
  match l with
  | [] => e
  | (t, frame) :: l => ingests (Ingest e t.1 t.2 id frame).1 id l
  end.

Definition arrival_of (x : (time * time) * bytes) : Arrival :=
  match Decode x.2 with
  | Ok (h, p) => mkArrival x.1.1 x.1.2 (Seq h) p
  | Err _ => mkArrival x.1.1 x.1.2 0 []
  end.
(** A frame this weave will accept. *)
Definition own_frame (id : string) (f : bytes) : Prop :=
  exists k ts p, is_u64 k /\ is_i64 ts /\ f = weave_frame id k ts p.

Lemma Ingest_own {S} `{Egress S} (e : Engine S) ws t id f : reliable S ->
  weaves e !! id = Some ws -> own_frame id f ->
  Ingest e t.1 t.2 id f =
    let a := arrival_of (t, f) in
    let '(b, out) := Push (rb ws) (at1 a) (at2 a) (aseq a) (apayload a) in
    ({| (with_weave e id {| ws with rb := b |}) with egress := delivered_to (egress e) out |},
     Ok (zlen out)).
Proof.
  intros Hr Hws (k & ts & p & Hk & Hts & ->). unfold Ingest, accept_frame, arrival_of.
  cbn [snd fst]. rewrite Decode_weave_frame by done. cbn [WeaveID Seq Shim.New at1 at2 aseq apayload].
  rewrite Z.eqb_refl, Hws. cbn [negb].
  destruct (Push _ _ _ _ _) as [b out]. by rewrite send_all_reliable.
Qed.

Lemma ingests_run {S} `{Egress S} (e : Engine S) ws id l : reliable S ->
  weaves e !! id = Some ws -> Forall (fun x => own_frame id x.2) l ->
  let b := run (rb ws) (arrival_of <$> l) in
  egress (ingests e id l) = delivered_to (egress e) b.2 /\
  weaves (ingests e id l) !! id = Some {| ws with rb := b.1 |}.
Proof.
  intros Hr Hws Hl. revert e ws Hws. induction Hl as [|[t f] l Hf Hl IH]; intros e ws Hws.
  - cbn. split; [done|]. rewrite Hws. by destruct ws.
  - cbn [ingests fmap list_fmap run]. rewrite (Ingest_own e ws t id f) by done. cbv zeta.
    destruct (Push _ _ _ _ _) as [b out]. cbn [fst].
    match goal with |- context [ingests ?x id l] => set (e1 := x) end.
    destruct (IH e1 {| ws with rb := b |}) as [He Hw]; [apply lookup_insert_eq|].
    rewrite He, Hw. cbn [rb]. destruct (run b _) as [b2 out2]. cbn [fst snd].
    by rewrite delivered_to_app.
Qed.

(** ** End to end

    The sender's counter and the receiver's release point move in lockstep:
    [lockstep] holds of a fresh weave and every complete burst restores it. *)
Definition lockstep (n : Z) (b : Buffer) : Prop := idle b /\ next b = n + 1.

Lemma newWeaveState_lockstep w :
  lockstep (seq (newWeaveState w)) (rb (newWeaveState w)).
Proof. split; [by apply NewAt_idle|done]. Qed.

(** A complete delivery of [frames]: every frame arrives, nothing else does,
    with few extra copies, and the clock stays within the gap timeout. *)
Record delivery (b : Buffer) (T : time) (frames : list bytes) (l : list ((time * time) * bytes)) :
    Prop := {
  dl_fits : zlen frames <= window b;
  dl_max : next b + 2 * window b < 2 ^ 64;
  dl_timeout : 0 <= gapTimeout b;
  dl_sound : Forall (fun x => x.2 ∈ frames) l;
  dl_complete : Forall (fun f => f ∈ l.*2) frames;
  dl_clock : Forall (fun x => x.1.1 - T <= gapTimeout b /\ T <= x.1.2) l;
  dl_copies : staleRun b + zlen l < ResyncAfter + zlen frames;
}.

Definition sent_payload (start : Z) (l : list (bytes * Z)) (k : Z) : bytes :=
  default [] (l.*1 !! Z.to_nat (k - start)).

Lemma sent_payload_all start l : sent_payload start l <$> seqZ start (zlen l) = l.*1.
Proof.
  apply list_eq. intros i. rewrite list_lookup_fmap.
  destruct (decide (i < length l)%nat) as [Hi|Hi].
  - rewrite lookup_seqZ_lt by (unfold zlen; lia). cbn. unfold sent_payload.
    replace (Z.to_nat (start + Z.of_nat i - start)) with i by lia.
    destruct (lookup_lt_is_Some_2 l.*1 i) as [x ->]; [by rewrite length_fmap|done].
  - rewrite lookup_seqZ_ge by (unfold zlen; lia).
    symmetry. apply lookup_ge_None. rewrite length_fmap. lia.
Qed.

(** The arrivals of a delivery are a complete burst for the buffer. *)
Lemma delivery_burst {S} (e e' : Engine S) id ws b T sent rs l :
  stripped e e' id ws sent rs -> Forall (fun x => is_i64 x.2) sent ->
  idle b -> next b = seq ws + 1 ->
  delivery b T (srFrame <$> rs) l ->
  burst b T (sent_payload (next b) sent) (zlen sent) (arrival_of <$> l) /\
  Forall (fun x => own_frame id x.2) l /\
  (forall k, next b <= k < next b + zlen sent -> k ∈ seqs (arrival_of <$> l)).
Proof.
  intros [Hlen Hfr _] Hts Hid Hn [Hfit Hmax Hto Hsound Hcomp Hclk Hcop].
  assert (Hnb : is_u64 (next b)) by apply Hid.
  assert (Hzl : zlen (srFrame <$> rs) = zlen sent).
  { unfold zlen. by rewrite length_fmap, Hlen. }
  rewrite Hzl in *. pose proof (zlen_nonneg sent) as Hs0.
  (* what one frame of the burst looks like *)
  assert (Hone : forall f, f ∈ srFrame <$> rs -> exists (i : nat) p ts, sent !! i = Some (p, ts) /\
    is_u64 (next b + Z.of_nat i) /\ is_i64 ts /\ f = weave_frame id (next b + Z.of_nat i) ts p).
  { intros f (r & -> & [i Hi]%list_elem_of_lookup)%list_elem_of_fmap.
    destruct (Hfr _ _ Hi) as (p & ts & Hs & Hq & Hf). exists i, p, ts.
    rewrite Hn, Hf. rewrite Forall_forall in Hts.
    specialize (Hts _ (list_elem_of_lookup_2 _ _ _ Hs)).
    apply lookup_lt_Some in Hs as Hlt. unfold is_u64, zlen in *. split_and!; try done; lia. }
  assert (Hall : forall k, next b <= k < next b + zlen sent -> k ∈ seqs (arrival_of <$> l)).
  { intros k Hk. destruct (lookup_lt_is_Some_2 rs (Z.to_nat (k - next b))) as [r Hr].
    { unfold zlen in *. lia. }
    destruct (Hfr _ _ Hr) as (p & ts & Hs & Hq & Hf).
    rewrite Forall_forall in Hcomp. rewrite Forall_forall in Hts.
    specialize (Hts _ (list_elem_of_lookup_2 _ _ _ Hs)).
    destruct (proj1 (list_elem_of_fmap _ _ _)
      (Hcomp _ (list_elem_of_fmap_2 _ _ _ (list_elem_of_lookup_2 _ _ _ Hr)))) as (x & Hx & Hxl).
    unfold seqs. apply elem_of_list_to_set, list_elem_of_fmap.
    exists (arrival_of x). split; [|by apply list_elem_of_fmap_2].
    unfold arrival_of. rewrite <- Hx, Hf, Decode_weave_frame; [cbn; lia| |done].
    unfold is_u64 in *. lia. }
  split_and!; [|by eapply Forall_impl; [exact Hsound|]; intros x (i & p & ts & ? & ? & ? & ->)%Hone;
    exists (next b + Z.of_nat i), ts, p|done].
  split; try done.
  - apply Forall_fmap, Forall_forall. intros x Hx. rewrite Forall_forall in Hsound.
    rewrite Forall_forall in Hclk.
    destruct (Hone _ (Hsound _ Hx)) as (i & p & ts & Hi & Hu & Hi64 & Hf).
    apply lookup_lt_Some in Hi as Hlt. specialize (Hclk _ Hx).
    unfold compose, in_burst, arrival_of. rewrite Hf, Decode_weave_frame by done. cbn.
    unfold sent_payload. replace (Z.to_nat (next b + Z.of_nat i - next b)) with i by lia.
    rewrite list_lookup_fmap, Hi. unfold zlen. cbn. split_and!; done || lia.
  - pose proof (seqs_size (next b) (zlen sent) (arrival_of <$> l) Hs0 Hall).
    unfold zlen in *. rewrite length_fmap. lia.
Qed.

(** C3: the weave carries a flow.  Take a burst of at most a window of payloads
    and a reliable egress.  Whatever threads the scheduler spreads the payloads
    over and whatever order their frames arrive in, if every frame arrives, none
    later than the gap timeout after the burst began, with at most 63 extra
    copies, stale ones since the receiver last made progress included, then the
    receiving engine's egress is sent exactly the payloads, in order and once
    each, and sender and receiver are in lockstep again for the next burst.  (Beyond a window a frame that overtakes
    too many others is dropped as too far.) *)
Theorem weave_in_order {SA SB} `{Egress SB} (eA eA' : Engine SA) (eB : Engine SB) id
    wsA wsB sent rs T l : reliable SB ->
  weaves eA !! id = Some wsA -> weaves eB !! id = Some wsB -> 0 <= seq wsA ->
  lockstep (seq wsA) (rb wsB) -> Forall (fun x => is_i64 x.2) sent ->
  strips eA id sent = (eA', Ok rs) -> delivery (rb wsB) T (srFrame <$> rs) l ->
  egress (ingests eB id l) = delivered_to (egress eB) sent.*1 /\
  exists wsA' wsB', weaves eA' !! id = Some wsA' /\ weaves (ingests eB id l) !! id = Some wsB' /\
    lockstep (seq wsA') (rb wsB').
Proof.
  intros Hr HwA HwB Hs [Hid Hn] Hts Hst Hd.
  assert (Hst' : stripped eA eA' id wsA sent rs).
  { apply strips_stripped; try done. apply strips_length in Hst.
    destruct Hd as [Hfit Hmax _ _ _ _ _]. unfold zlen in *. rewrite length_fmap in Hfit. lia. }
  destruct (delivery_burst _ _ _ _ _ _ _ _ _ Hst' Hts Hid Hn Hd) as (Hb & Hown & Hall).
  destruct (run_complete _ _ _ _ _ Hid Hb Hall) as (Hout & Hnext & Hidle).
  destruct (ingests_run eB wsB id l Hr HwB Hown) as [He Hw].
  rewrite He, Hout, sent_payload_all. split; [done|].
  destruct Hst' as [_ _ (wsA' & HA & HsA & _)].
  eexists wsA', _. split_and!; [done|exact Hw|]. split; [done|]. cbn. lia.
Qed.

(** ** The bench on a weave in lockstep *)
Definition bench_sent (pktBytes : Z) (ts : nat -> Z) (i n : nat) : list (bytes * Z) :=
  (fun k => (replicate (Z.to_nat pktBytes) (u8 (Z.of_nat k)), ts k)) <$> Stdlib.Lists.List.seq i n.

Lemma benchStrip_strips {S} (e : Engine S) id pk ts i n :
  benchStrip e id pk ts i n = strips e id (bench_sent pk ts i n).
Proof.
  revert e i. induction n as [|n IH]; intros e i; cbn; [done|].
  destruct (Strip e id _ _) as [e1 [r|]]; [|done]. by rewrite IH.
Qed.

Lemma evens_cons {A} (x : A) l : evens (x :: l) = x :: evens (tail l).
Proof. by destruct l. Qed.
Lemma evens_odds_perm {A} (l : list A) : evens l ++ odds l ≡ₚ l.
Proof.
  unfold odds. induction l as [|x l IH]; [done|].
  rewrite evens_cons. cbn [tail app]. constructor. by rewrite Permutation_app_comm.
Qed.

Definition bench_feed (tp : nat -> time * time) (rs : list StripResult) :
    list ((time * time) * StripResult) := imap (fun i r => (tp i, r)) (evens rs ++ odds rs).
Definition frame_of (x : (time * time) * StripResult) : (time * time) * bytes :=
  (x.1, srFrame x.2).

Lemma bench_feed_snd tp rs : (bench_feed tp rs).*2 ≡ₚ rs.
Proof.
  unfold bench_feed. rewrite fmap_imap.
  change (imap (const id) (evens rs ++ odds rs) ≡ₚ rs).
  rewrite imap_const, list_fmap_id. apply evens_odds_perm.
Qed.

(** Every strip result carries its own sequence in its frame. *)
Definition consistent (id : string) (r : StripResult) : Prop :=
  exists ts p, is_u64 (srSeq r) /\ is_i64 ts /\ srFrame r = weave_frame id (srSeq r) ts p.

Lemma feedAll_run id b d l : Forall (fun x => consistent id x.2) l ->
  feedAll b d l =
    let '(b', out) := run b (arrival_of ∘ frame_of <$> l) in (b', Ok (d + zlen out)).
Proof.
  intros Hl. revert b d. induction Hl as [|[t r] l (ts & p & Hk & Hts & Hf) Hl IH]; intros b d.
  - cbn. change (zlen []) with 0. by rewrite Z.add_0_r.
  - cbn [feedAll fmap list_fmap run]. unfold feed.
    cbn [snd fst] in *.
    assert (Ha : (arrival_of ∘ frame_of) (t, r) = mkArrival t.1 t.2 (srSeq r) p).
    { unfold compose, frame_of, arrival_of. cbn [fst snd]. by rewrite Hf, Decode_weave_frame. }
    rewrite Ha, Hf, Decode_weave_frame by done. cbn [at1 at2 aseq apayload].
    destruct (Push b _ _ _ _) as [b1 out1]. rewrite IH.
    destruct (run b1 _) as [b2 out2]. rewrite zlen_app. by rewrite Z.add_assoc.
Qed.

Lemma stripped_consistent {S} (e e' : Engine S) id ws sent rs : stripped e e' id ws sent rs ->
  0 <= seq ws -> seq ws + zlen sent < 2 ^ 64 -> Forall (fun x => is_i64 x.2) sent ->
  Forall (consistent id) rs.
Proof.
  intros [Hlen Hfr _] Hs Hmax Hts. apply Forall_forall. intros r [i Hi]%list_elem_of_lookup.
  destruct (Hfr _ _ Hi) as (p & ts & Hs' & Hq & Hf). exists ts, p. rewrite Hq.
  rewrite Forall_forall in Hts. specialize (Hts _ (list_elem_of_lookup_2 _ _ _ Hs')).
  apply lookup_lt_Some in Hs' as Hlt. unfold is_u64, zlen in *. split_and!; try done; lia.
Qed.

Lemma bench_delivery b T tp rs : idle b -> zlen rs <= window b ->
  next b + 2 * window b < 2 ^ 64 -> 0 <= gapTimeout b ->
  (forall i, (tp i).1 - T <= gapTimeout b /\ T <= (tp i).2) ->
  delivery b T (srFrame <$> rs) (frame_of <$> bench_feed tp rs).
Proof.
  intros Hid Hfit Hmax Hto Hclk.
  assert (Hz : zlen (srFrame <$> rs) = zlen rs) by (unfold zlen; by rewrite length_fmap).
  assert (Hp : (frame_of <$> bench_feed tp rs).*2 ≡ₚ srFrame <$> rs).
  { rewrite <- list_fmap_compose. change (snd ∘ frame_of) with (srFrame ∘ snd (A := time * time)).
    rewrite list_fmap_compose. by rewrite bench_feed_snd. }
  split; rewrite ?Hz; try done.
  - apply Forall_forall. intros x Hx. rewrite <- Hp. by apply list_elem_of_fmap_2.
  - apply Forall_forall. intros f Hf. by rewrite Hp.
  - apply Forall_forall. intros x ([t r] & -> & Hx)%list_elem_of_fmap.
    apply elem_of_lookup_imap in Hx as (i & r' & [= -> ->] & _). apply Hclk.
  - apply Permutation_length in Hp. unfold zlen in *. rewrite !length_fmap in *.
    destruct Hid as [[_ _ Hst _] _ _ _]. lia.
Qed.

(** A bench of at most a window of packets over a weave in lockstep
    delivers every packet, whatever threads the scheduler picked, and leaves
    the weave's sequence and release point in lockstep for live traffic. *)
Theorem Bench_delivers {S} (e e' : Engine S) id ws packets pk ts tp t0 t1 order T r :
  weaves e !! id = Some ws -> 0 <= seq ws -> lockstep (seq ws) (rb ws) ->
  packets <= window (rb ws) -> next (rb ws) + 2 * window (rb ws) < 2 ^ 64 ->
  0 <= gapTimeout (rb ws) -> (forall i, is_i64 (ts i)) ->
  (forall i, (tp i).1 - T <= gapTimeout (rb ws) /\ T <= (tp i).2) ->
  Bench e id packets pk ts tp t0 t1 order = (e', Ok r) ->
  brDelivered r = packets /\
  exists ws', weaves e' !! id = Some ws' /\ lockstep (seq ws') (rb ws').
Proof.
  intros Hws Hs [Hid Hn] Hfit Hmax Hto Hts Hclk. unfold Bench.
  destruct ((packets <=? 0) || (pk <=? 0)) eqn:Epos; [done|]. rewrite Hws.
  destruct (Candidates _ _) as [|c cs]; [done|].
  rewrite benchStrip_strips. set (sent := bench_sent pk ts 0 (Z.to_nat packets)).
  assert (Hsent : zlen sent = packets).
  { unfold sent, bench_sent, zlen. rewrite length_fmap, length_seq. zbool. lia. }
  assert (Hi64 : Forall (fun x => is_i64 x.2) sent).
  { apply Forall_fmap, Forall_forall. intros x _. apply Hts. }
  destruct (strips e id sent) as [e1 [rs|]] eqn:Est; [|done].
  assert (Hst : stripped e e1 id ws sent rs) by (eapply strips_stripped; try done; lia).
  assert (Hzr : zlen rs = packets) by (unfold zlen in *; by rewrite (sd_length _ _ _ _ _ _ Hst)).
  destruct (sd_weave _ _ _ _ _ _ Hst) as (ws1 & Hw1 & Hs1 & Hb1 & _). rewrite Hw1, Hb1.
  assert (Hcon : Forall (fun x => consistent id x.2) (bench_feed tp rs)).
  { assert (Hc : Forall (consistent id) (bench_feed tp rs).*2).
    { rewrite bench_feed_snd. eapply stripped_consistent; try done. lia. }
    exact (proj1 (Forall_fmap _ _ _) Hc). }
  fold (bench_feed tp rs). rewrite (feedAll_run id) by done. rewrite list_fmap_compose.
  destruct (delivery_burst _ _ _ _ _ T _ _ (frame_of <$> bench_feed tp rs) Hst Hi64 Hid Hn)
    as (Hb & _ & Hall); [apply bench_delivery; try done; lia|].
  destruct (run_complete _ _ _ _ _ Hid Hb Hall) as (Hout & Hnext & Hidle).
  destruct (run (rb ws) _) as [b' out]. cbn [fst snd] in *. intros [= <- <-]. cbn. split.
  - rewrite Hout, <- Hsent. unfold zlen. rewrite length_fmap, length_seqZ. lia.
  - eexists. split; [apply lookup_insert_eq|]. split; [done|]. cbn. lia.
Qed.

(** ** One strip, every branch *)
(** a strip sends the payload over a member thread that is up, under the
    weave's next sequence, and charges exactly that thread's queue with the
    frame.  Without a weave or an up thread nothing changes; when no candidate
    has capacity the sequence number is used up all the same. *)
Theorem Strip_spec {S} (e : Engine S) id p ts : wf (reg e) -> is_i64 ts ->
  match Strip e id p ts with
  | (e', Ok r) => exists ws t, weaves e !! id = Some ws /\
      srThreadID r ∈ Threads (ws_w ws) /\ Get (reg e) (srThreadID r) = Some t /\ Up t = true /\
      srSeq r = u64 (seq ws + 1) /\ FrameLen r = HeaderLen + zlen p /\
      Decode (srFrame r) = Ok (Shim.New (weaveHash id) (srSeq r) ts, p) /\
      reg e' = AddQueue (reg e) (srThreadID r) (FrameLen r) /\
      weaves e' = <[id := {| ws with seq := srSeq r; framesSent := u64 (framesSent ws + 1);
                                     bytesSent := u64 (bytesSent ws + FrameLen r) |}]> (weaves e)
  | (e', Err ErrNoWeave) => e' = e /\ weaves e !! id = None
  | (e', Err ErrNoThreads) => e' = e /\ exists ws, weaves e !! id = Some ws /\
      forall tid t, tid ∈ Threads (ws_w ws) -> Get (reg e) tid = Some t -> Up t = false
  | (e', Err (ErrSched _)) => exists ws, weaves e !! id = Some ws /\
      e' = with_weave e id {| ws with seq := u64 (seq ws + 1) |}
  | (_, Err _) => False
  end.
Proof.
  intros Hwf Hts. destruct (Strip e id p ts) as [e' [r|err]] eqn:E.
  - apply Strip_ok in E as (ws & c & Hws & Hp & -> & ->).
    apply Pick_elem, elem_of_Candidates in Hp as (tid & t & Hin & Ht & Hu & ->).
    destruct (Hwf _ _ Ht) as [Hid _]. cbn. rewrite Hid. unfold Get.
    rewrite Decode_weave_frame by (done || apply u64_range). by exists ws, t.
  - unfold Strip in E. destruct (weaves e !! id) as [ws|] eqn:Hws.
    2:{ by injection E as <- <-. }
    destruct (Candidates _ _) as [|c cs] eqn:Ec.
    + injection E as <- <-. split; [done|]. exists ws. split; [done|].
      intros tid t Hin Ht. destruct (Up t) eqn:Hu; [|done].
      assert (Hc : Candidate t ∈ Candidates (reg e) (Threads (ws_w ws))).
      { apply elem_of_Candidates. eauto 10. }
      rewrite Ec in Hc. by apply elem_of_nil in Hc.
    + destruct (Pick _ _); [done|]. injection E as <- <-. by exists ws.
Qed.

(** ** Ingest: what is refused, and what others see *)
(** an ingest that is refused - a malformed frame, another weave's frame,
    or an unknown weave - changes nothing; one that is accepted touches only
    its own weave's reassembler, never its counters, the registry, or any
    other weave. *)
Theorem Ingest_frame_condition {S} `{Egress S} (e : Engine S) t1 t2 id f :
  match accept_frame e id f, Ingest e t1 t2 id f with
  | Err err, (e', r) => e' = e /\ r = Err err
  | Ok (ws, h, p), (e', r) =>
      Decode f = Ok (h, p) /\ WeaveID h = weaveHash id /\ weaves e !! id = Some ws /\
      reg e' = reg e /\ anchorName e' = anchorName e /\
      weaves e' = <[id := {| ws with rb := (Push (rb ws) t1 t2 (Seq h) p).1 |}]> (weaves e) /\
      egress e' = (send_all (egress e) (Push (rb ws) t1 t2 (Seq h) p).2).1 /\
      (r = Err ErrEgress \/ r = Ok (zlen (Push (rb ws) t1 t2 (Seq h) p).2))
  end.
Proof.
  unfold Ingest. destruct (accept_frame e id f) as [[[ws h] p]|err] eqn:Ea; [|done].
  unfold accept_frame in Ea. destruct (Decode f) as [[h' p']|]; [|done].
  destruct (WeaveID h' =? weaveHash id) eqn:Eh; [|done]. cbn [negb] in Ea.
  destruct (weaves e !! id) as [ws'|] eqn:Ew; [|done]. injection Ea as -> -> ->.
  destruct (Push _ _ _ _ _) as [b out]. cbn [fst snd].
  cbn [with_weave egress]. destruct (send_all (egress e) out) as [eg []]; zbool; cbn; auto 10.
Qed.

(** ** Weave definitions *)
Definition engine_wf {S} (e : Engine S) : Prop :=
  wf (reg e) /\ map_Forall (fun id ws => wID (ws_w ws) = id) (weaves e).

Lemma checkThreads_ok {S} (e : Engine S) ids :
  checkThreads e ids = Ok tt <-> Forall (fun id => is_Some (Get (reg e) id)) ids.
Proof.
  induction ids as [|id ids IH]; cbn; [done|].
  rewrite Forall_cons, <- IH. destruct (Get (reg e) id); split; try done; try tauto; eauto.
  by intros [[? ?] _].
Qed.
Lemma validateThreads_ok {S} (e : Engine S) ids :
  validateThreads e ids = Ok tt <->
  ids <> [] /\ Forall (fun id => is_Some (Get (reg e) id)) ids.
Proof.
  rewrite <- checkThreads_ok. destruct ids; (split; [intros; by split|]); [|by intros [_ ?]].
  by intros [? _].
Qed.

(** a weave is created exactly when its id is new and non-empty and it has
    at least one thread, all of them registered; it then starts in lockstep,
    and no other weave and no thread changes. *)
Theorem CreateWeave_spec {S} (e : Engine S) now id anchor tids : engine_wf e ->
  match CreateWeave e now id anchor tids with
  | Ok (e', w) => id <> ""%string /\ GetWeave e id = None /\ tids <> [] /\
      Forall (fun t => is_Some (Get (reg e) t)) tids /\ Threads w = tids /\
      GetWeave e' id = Some w /\ engine_wf e' /\ reg e' = reg e /\
      (forall id', id' <> id -> weaves e' !! id' = weaves e !! id') /\
      exists ws, weaves e' !! id = Some ws /\ lockstep (seq ws) (rb ws)
  | Err ErrIDRequired => id = ""%string
  | Err ErrWeaveExists => is_Some (GetWeave e id)
  | Err ErrNoThreads => tids = []
  | Err (ErrUnknownThread t) => t ∈ tids /\ Get (reg e) t = None
  | Err _ => False
  end.
Proof.
  intros [Hr Hw]. unfold CreateWeave, GetWeave. case_decide; [done|].
  destruct (weaves e !! id) as [ws|] eqn:Ew; [by eexists|].
  destruct (validateThreads e tids) as [[]|err] eqn:Ev.
  - apply validateThreads_ok in Ev as [Hne Hall]. cbn. rewrite lookup_insert_eq.
    split_and!; try done.
    + split; [done|]. cbn. by apply map_Forall_insert_2.
    + intros id' Hid. by rewrite lookup_insert_ne.
    + eexists. split; [done|]. apply newWeaveState_lockstep.
  - unfold validateThreads in Ev. destruct tids as [|t0 tids]; [by injection Ev as <-|].
    assert (Hc : forall l, checkThreads e l = Err err ->
      exists t, err = ErrUnknownThread t /\ t ∈ l /\ Get (reg e) t = None).
    { induction l as [|t l IH]; cbn; [done|]. destruct (Get (reg e) t) eqn:Et.
      - intros (t' & -> & Hin & Hn)%IH. exists t'. set_solver.
      - intros [= <-]. exists t. set_solver. }
    by apply Hc in Ev as (t & -> & ? & ?).
Qed.

(** The engine's other operations keep its invariant. *)
Lemma AddThread_wf {S} (e e' : Engine S) now t : engine_wf e -> AddThread e now t = Ok e' ->
  engine_wf e'.
Proof.
  intros [Hr Hw]. unfold AddThread. destruct (Upsert _ _ _) eqn:E; [|done].
  intros [= <-]. split; [by eapply Upsert_wf|done].
Qed.
Lemma RemoveThread_wf {S} (e : Engine S) id : engine_wf e -> engine_wf (RemoveThread e id).1.
Proof.
  intros [Hr Hw]. unfold RemoveThread. pose proof (Remove_wf _ id Hr).
  by destruct (Remove (reg e) id).
Qed.
Lemma with_weave_wf {S} (e : Engine S) id ws ws' : engine_wf e -> weaves e !! id = Some ws ->
  ws_w ws' = ws_w ws -> engine_wf (with_weave e id ws').
Proof.
  intros [Hr Hw] Hws E. split; [done|]. apply map_Forall_insert_2; [|done].
  rewrite E. exact (Hw _ _ Hws).
Qed.
Lemma Strip_wf {S} (e : Engine S) id p ts : engine_wf e -> engine_wf (Strip e id p ts).1.
Proof.
  intros He. unfold Strip. destruct (weaves e !! id) as [ws|] eqn:Ew; [|done].
  destruct (Candidates _ _); [done|]. destruct (Pick _ _); [|by eapply with_weave_wf].
  eapply with_weave_wf; [|exact Ew|done]. destruct He. split; [by apply AddQueue_wf|done].
Qed.
Lemma Ingest_wf {S} `{Egress S} (e : Engine S) t1 t2 id f : engine_wf e ->
  engine_wf (Ingest e t1 t2 id f).1.
Proof.
  intros He. unfold Ingest. destruct (accept_frame e id f) as [[[ws h] p]|] eqn:Ea; [|done].
  destruct (Push _ _ _ _ _) as [b out].
  assert (Ew : weaves e !! id = Some ws).
  { unfold accept_frame in Ea. repeat case_match; by simplify_eq. }
  destruct (with_weave_wf e id ws {| ws with rb := b |} He Ew eq_refl).
  destruct (send_all _ out). by split.
Qed.

(** ** Restart and summaries *)
Lemma restoreWeave_spec ws w id s : ws !! id = Some s -> restoreWeave ws w !! id = Some s.
Proof.
  intros Hs. unfold restoreWeave. case_decide; [done|].
  destruct (ws !! wID w) eqn:E; [done|]. rewrite lookup_insert_ne; [done|].
  intros <-. congruence.
Qed.
Lemma restoreWeave_new ws w : wID w <> ""%string -> is_Some (restoreWeave ws w !! wID w).
Proof.
  intros Hne. unfold restoreWeave. rewrite decide_False by done.
  destruct (ws !! wID w) as [s|] eqn:E; [by exists s|]. eexists. apply lookup_insert_eq.
Qed.
Lemma restoreWeaves_keep ws wl id s : ws !! id = Some s ->
  foldl restoreWeave ws wl !! id = Some s.
Proof.
  revert ws. induction wl as [|w wl IH]; intros ws Hs; cbn; [done|].
  by apply IH, restoreWeave_spec.
Qed.
Lemma restoreWeaves_lockstep ws wl id s : foldl restoreWeave ws wl !! id = Some s ->
  ws !! id = Some s \/ lockstep (seq s) (rb s).
Proof.
  revert ws. induction wl as [|w wl IH]; intros ws Hs; cbn in *; [by left|].
  apply IH in Hs as [Hs|]; [|by right]. unfold restoreWeave in Hs.
  case_decide; [by left|]. destruct (ws !! wID w) eqn:E; [by left|].
  rewrite lookup_insert in Hs. case_decide; [|by left].
  injection Hs as <-. right. apply newWeaveState_lockstep.
Qed.

(** a restore never clobbers a live weave: whatever is persisted, a weave
    that exists keeps its state, every persisted weave exists afterwards, and
    each one added starts in lockstep. *)
Theorem Restore_keeps_weaves {S} (e e' : Engine S) ts wl : Restore e ts wl = (e', None) ->
  (forall id ws, weaves e !! id = Some ws -> weaves e' !! id = Some ws) /\
  (forall w, w ∈ wl -> wID w <> ""%string -> is_Some (weaves e' !! wID w)) /\
  (forall id ws, weaves e' !! id = Some ws -> weaves e !! id = Some ws \/ lockstep (seq ws) (rb ws)).
Proof.
  unfold Restore. destruct (restoreThreads _ _) as [r [|]]; [done|]. intros [= <-]. cbn.
  split_and!.
  - intros. by apply restoreWeaves_keep.
  - intros w Hw Hne. revert Hw. generalize (weaves e).
    induction wl as [|w' wl IH]; intros ws Hw; [by apply elem_of_nil in Hw|].
    cbn. apply elem_of_cons in Hw as [->|Hw]; [|by apply IH].
    destruct (restoreWeave_new ws w' Hne) as [s Hs]. exists s. by apply restoreWeaves_keep.
  - intros. by eapply restoreWeaves_lockstep.
Qed.

(** The summary counters do not depend on the order the weaves are visited. *)
Theorem status_order {S} (e : Engine S) order worder : worder ≡ₚ values (weaves e) ->
  status e order worder = status e order (values (weaves e)).
Proof.
  intros Hp. unfold status. rewrite !u64_sum_spec. f_equal; f_equal; by apply Zsum_perm, fmap_Permutation.
Qed.

(** ** Concrete instances *)
Definition demo_thread (id : string) (mbps : Z) : Bearer.Thread :=
  Bearer.mkThread id "" "" (f64_of_Z mbps) (f64_of_Z 20) f64_zero 0 true 1.
Definition demo_engine0 : Engine (list bytes) :=
  {| (NewEngine [] "") with
     reg := <["a" := demo_thread "a" 100]> (<["b" := demo_thread "b" 50]> ∅) |}.
Definition demo_ws : weaveState := newWeaveState (mkWeave "w" "log" ["a"; "b"] DefaultMode 1).
Definition demo_engine : Engine (list bytes) := with_weave demo_engine0 "w" demo_ws.
Example demo_created :
  CreateWeave demo_engine0 1 "w" "" ["a"; "b"] = Ok (demo_engine, ws_w demo_ws).
Proof. reflexivity. Qed.
Lemma demo_engine_wf : engine_wf demo_engine.
Proof.
  split.
  - apply wf_insert; [apply wf_insert|..]; try done.
  - apply map_Forall_insert_2; [done|]. apply map_Forall_empty.
Qed.
Definition demo_sent : list (bytes * Z) := [([1; 1], 7); ([2], 8); ([3; 3; 3], 9)].
Definition demo_stripped := strips demo_engine "w" demo_sent.
Definition demo_rs : list StripResult :=
  match demo_stripped.2 with Ok rs => rs | Err _ => [] end.
(** The frames arrive in reverse, the last one twice. *)
Definition demo_arrivals : list ((time * time) * bytes) :=
  (fun r => ((5, 5), srFrame r)) <$> (reverse demo_rs ++ take 1 demo_rs).

Example demo_threads_used : srThreadID <$> demo_rs = ["a"; "b"; "a"]%string.
Proof. vm_compute. reflexivity. Qed.
Lemma demo_delivery : delivery (rb demo_ws) 5 (srFrame <$> demo_rs) demo_arrivals.
Proof.
  split.
  - by vm_compute.
  - done.
  - done.
  - vm_decide.
  - vm_decide.
  - vm_decide.
  - by vm_compute.
Qed.

Lemma weave_in_order_witness :
  egress (ingests demo_engine "w" demo_arrivals) = delivered_to (egress demo_engine) demo_sent.*1 /\
  exists wsA' wsB', weaves demo_stripped.1 !! "w" = Some wsA' /\
    weaves (ingests demo_engine "w" demo_arrivals) !! "w" = Some wsB' /\
    lockstep (seq wsA') (rb wsB').
Proof.
  apply (weave_in_order demo_engine demo_stripped.1 demo_engine "w" demo_ws demo_ws demo_sent
           demo_rs 5 demo_arrivals).
  - apply reliable_log.
  - apply lookup_insert_eq.
  - apply lookup_insert_eq.
  - done.
  - apply newWeaveState_lockstep.
  - vm_decide.
  - vm_compute. reflexivity.
  - apply demo_delivery.
Defined.
Example demo_out : egress (ingests demo_engine "w" demo_arrivals) = [[1; 1]; [2]; [3; 3; 3]].
Proof. vm_compute. reflexivity. Qed.

Definition demo_bench := Bench demo_engine "w" 7 3 (fun _ => 0) (fun _ => (5, 5)) 5 6 [].
Lemma Bench_delivers_witness :
  match demo_bench with
  | (e', Ok r) => brDelivered r = 7 /\
      exists ws', weaves e' !! "w" = Some ws' /\ lockstep (seq ws') (rb ws')
  | _ => False
  end.
Proof.
  destruct demo_bench as [e' [r|err]] eqn:E; [|by vm_compute in E].
  apply (Bench_delivers demo_engine e' "w" demo_ws 7 3 (fun _ => 0) (fun _ => (5, 5)) 5 6 [] 5 r).
  9: exact E.
  3: apply newWeaveState_lockstep.
  all: clear E; done || apply lookup_insert_eq.
Defined.

Lemma Strip_spec_witness :
  match Strip demo_engine "w" [1; 2] 7 with
  | (e', Ok r) => exists ws t, weaves demo_engine !! "w" = Some ws /\
      srThreadID r ∈ Threads (ws_w ws) /\ Get (reg demo_engine) (srThreadID r) = Some t /\
      Up t = true /\ srSeq r = u64 (seq ws + 1) /\ FrameLen r = HeaderLen + zlen [1; 2] /\
      Decode (srFrame r) = Ok (Shim.New (weaveHash "w") (srSeq r) 7, [1; 2]) /\
      reg e' = AddQueue (reg demo_engine) (srThreadID r) (FrameLen r) /\
      weaves e' = <["w" := {| ws with seq := srSeq r; framesSent := u64 (framesSent ws + 1);
                                     bytesSent := u64 (bytesSent ws + FrameLen r) |}]>
                    (weaves demo_engine)
  | _ => True
  end.
Proof.
  pose proof (Strip_spec demo_engine "w" [1; 2] 7 (proj1 demo_engine_wf) ltac:(by vm_compute)) as H.
  destruct (Strip demo_engine "w" [1; 2] 7) as [e' [r|err]]; [exact H|done].
Defined.
Lemma CreateWeave_spec_witness : exists e w, CreateWeave demo_engine 2 "v" "x" ["b"] = Ok (e, w) /\
  engine_wf e /\ GetWeave e "v" = Some w.
Proof.
  pose proof (CreateWeave_spec demo_engine 2 "v" "x" ["b"] demo_engine_wf) as H.
  destruct (CreateWeave demo_engine 2 "v" "x" ["b"]) as [[e w]|err] eqn:E.
  - exists e, w. split; [done|]. destruct H as (_ & _ & _ & _ & _ & ? & ? & _). done.
  - by vm_compute in E.
Defined.
Lemma Restore_keeps_weaves_witness : exists e', Restore demo_engine [] [mkWeave "v" "" [] "" 0] = (e', None) /\
  weaves e' !! "w" = Some demo_ws.
Proof.
  destruct (Restore demo_engine [] [mkWeave "v" "" [] "" 0]) as [e' [err|]] eqn:E;
    [by vm_compute in E|].
  exists e'. split; [done|]. by apply (Restore_keeps_weaves demo_engine e' [] _ E).
Defined.

(** A bench of more packets than the window (here 8) loses the packets beyond
    it and leaves the sender ahead of the release point. *)
Definition demo_small : Engine (list bytes) :=
  with_weave demo_engine0 "w" {| demo_ws with rb := SetGapTimeout (NewAt 8 1) DefaultGapTimeout |}.
Example Bench_beyond_window :
  match Bench demo_small "w" 11 1 (fun _ => 0) (fun _ => (5, 5)) 5 6 [] with
  | (e, Ok r) => brDelivered r = 10 /\ TooFar (brReorder r) = 1 /\
      (fun ws => (seq ws, next (rb ws))) <$> weaves e !! "w"%string = Some (11, 11)
  | _ => False
  end.
Proof. vm_compute. done. Qed.
