(* ===== verification/Transport.v ===== *)
(** * Transport: one thread's paced endpoint

    [core/hydra/transport/transport.go].  The socket is outside the model: a
    resolved address is a string, and each operation takes what the socket
    did as an argument.  [wait] is a loop of bucket tests under [e.mu] with a
    sleep in between; [wait_attempt] is one test, at one clock reading. *)
From S2P Require Import Prelude Float64.

Inductive Error := ErrClosed | ErrTooLarge | ErrNoPeer | ErrSocket.
Definition MaxDatagram : Z := 65507.

Record Endpoint := mkEndpoint {
  eID : string;
  remote : option string;
  tokens : f64;
  last : Z;        (* time.Time *)
  rateBps : f64;   (* 0 = unlimited *)
  lossPct : f64;
  closed : bool;
  sentFrames : Z; sentBytes : Z; recvFrames : Z; recvBytes : Z; dropped : Z;  (* uint64 *)
}.

Definition c1e6 : f64 := f64_of_Z 1000000.
Definition SetRate (e : Endpoint) (mbps : f64) : Endpoint :=
  if fle mbps f64_zero then {| e with rateBps := f64_zero |}
  else {| e with rateBps := fdiv (fmul mbps c1e6) (f64_of_Z 8) |}.
Definition SetLoss (e : Endpoint) (pct : f64) : Endpoint := {| e with lossPct := pct |}.
Definition SetRemote (e : Endpoint) (resolved : option string) : res Error Endpoint :=
  match resolved with
  | None => Err ErrSocket
  | Some a => Ok {| e with remote := Some a |}
  end.

(** [Dial]: [bound] and [resolved] are what binding and resolving returned;
    a remote is resolved only when one is given. *)
Definition Dial (id : string) (bound : bool) (remote : string) (resolved : option string)
    (rateMbps : f64) (now : time) : res Error Endpoint :=
  if negb bound then Err ErrSocket
  else
    let e := mkEndpoint id None f64_zero now f64_zero f64_zero false 0 0 0 0 0 in
    if decide (remote = ""%string) then Ok (SetRate e rateMbps)
    else match resolved with
         | None => Err ErrSocket
         | Some a => Ok (SetRate {| e with remote := Some a |} rateMbps)
         end.

(** [Duration.Seconds]: whole seconds plus the remainder over 1e9. *)
Definition Seconds (d : Z) : f64 :=
  fadd (f64_of_Z (Z.quot d Second)) (fdiv (f64_of_Z (Z.rem d Second)) (f64_of_Z 1000000000)).

Inductive Attempt := Refused | Granted | Sleep (need : f64).

Definition refill (e : Endpoint) (now : time) : f64 :=
  let t := fadd (tokens e) (fmul (Seconds (time_sub now (last e))) (rateBps e)) in
  if flt (rateBps e) t then rateBps e else t.

Definition wait_attempt (e : Endpoint) (now : time) (n : Z) : Endpoint * Attempt :=
  if closed e then (e, Refused)
  else if fle (rateBps e) f64_zero then (e, Granted)
  else
    let t := refill e now in
    let e := {| e with tokens := t; last := now |} in
    if fle (f64_of_Z n) t then ({| e with tokens := fsub t (f64_of_Z n) |}, Granted)
    else (e, Sleep (fdiv (fsub (f64_of_Z n) t) (rateBps e))).

(** How long the loop sleeps; [None] where the conversion to [Duration] is
    implementation specific.  Never less than a millisecond. *)
Definition sleep_for (need : f64) : option Z :=
  Z.max 1000000 <$> f64_trunc (fmul need (f64_of_Z 1000000000)).

(** The loop over the successive clock readings; [None]: still waiting. *)
Fixpoint wait (e : Endpoint) (nows : list time) (n : Z) : Endpoint * option (res Error unit) :=
  match nows with
  | [] => (e, None)
  | now :: nows =>
      match wait_attempt e now n with
      | (e, Refused) => (e, Some (Err ErrClosed))
      | (e, Granted) => (e, Some (Ok tt))
      | (e, Sleep _) => wait e nows n
      end
  end.

(** After the wait: the loss roll, the peer check and the write. *)
Definition transmit (e : Endpoint) (roll : f64) (wrote : bool) (n : Z) : Endpoint * res Error unit :=
  if flt f64_zero (lossPct e) && flt (fmul roll (f64_of_Z 100)) (lossPct e) then
    ({| e with dropped := u64 (dropped e + 1) |}, Ok tt)
  else match remote e with
  | None => (e, Err ErrNoPeer)
  | Some _ =>
      if wrote then
        ({| e with sentFrames := u64 (sentFrames e + 1); sentBytes := u64 (sentBytes e + n) |}, Ok tt)
      else (e, Err ErrSocket)
  end.

(** [roll] is [rng.Float64()]; [wrote], whether [WriteToUDP] succeeded. *)
Definition Send (e : Endpoint) (frame : bytes) (nows : list time) (roll : f64) (wrote : bool) :
    Endpoint * option (res Error unit) :=
  let n := zlen frame in
  if MaxDatagram <? n then (e, Some (Err ErrTooLarge))
  else match wait e nows n with
       | (e, None) => (e, None)
       | (e, Some (Err err)) => (e, Some (Err err))
       | (e, Some (Ok _)) => let '(e, r) := transmit e roll wrote n in (e, Some r)
       end.

(** [Recv]: what the socket read, or [None] for an error. *)
Definition Recv (e : Endpoint) (read : option (Z * option string)) :
    Endpoint * res Error (Z * option string) :=
  match read with
  | None => (e, Err (if closed e then ErrClosed else ErrSocket))
  | Some (n, addr) =>
      let e := match addr, remote e with
               | Some a, None => {| e with remote := Some a |}
               | _, _ => e
               end in
      ({| e with recvFrames := u64 (recvFrames e + 1); recvBytes := u64 (recvBytes e + n) |},
       Ok (n, addr))
  end.

Definition Close (e : Endpoint) : Endpoint := if closed e then e else {| e with closed := true |}.

(** ** The token bucket *)
Lemma refill_capped e now : is_nan (rateBps e) = false ->
  flt (rateBps e) (refill e now) = false.
Proof.
  intros Hr. unfold refill. case_if; [|done].
  apply not_true_iff_false. rewrite flt_key by done. unfold key_lt. lia.
Qed.

Lemma wait_attempt_frame e now n :
  let e' := (wait_attempt e now n).1 in
  rateBps e' = rateBps e /\ closed e' = closed e /\ lossPct e' = lossPct e /\
  remote e' = remote e /\ sentFrames e' = sentFrames e /\ sentBytes e' = sentBytes e /\
  dropped e' = dropped e.
Proof. unfold wait_attempt. repeat case_if; done. Qed.

Lemma fle_capped n t rate : is_nan rate = false -> flt rate t = false ->
  flt rate (f64_of_Z n) = true -> fle (f64_of_Z n) t = false.
Proof.
  intros Hr Ht Hn. destruct (is_nan (f64_of_Z n)) eqn:En.
  { by destruct (f64_of_Z n). }
  destruct (is_nan t) eqn:Et.
  { destruct t; try done. destruct (f64_of_Z n) as [[]|[]| |[]]; done. }
  fcmp.
Qed.

Lemma oversized_attempt e now n : flt f64_zero (rateBps e) = true ->
  flt (rateBps e) (f64_of_Z n) = true ->
  (wait_attempt e now n).2 <> Granted.
Proof.
  intros Hpos Hn. unfold wait_attempt. destruct (closed e); [done|].
  assert (Hr : is_nan (rateBps e) = false) by by destruct (rateBps e).
  assert (Hz : fle (rateBps e) f64_zero = false) by by fcmp.
  rewrite Hz. cbn [rateBps].
  by rewrite (fle_capped n (refill e now) (rateBps e) Hr (refill_capped e now Hr) Hn).
Qed.

(** a frame larger than one second of the declared capacity is never
    granted: the bucket is capped at one second of capacity, so whatever the
    clock reads and however long the sender waits, [wait] ends only by
    [Close]. *)
Theorem oversized_frame_never_sent e nows n : flt f64_zero (rateBps e) = true ->
  flt (rateBps e) (f64_of_Z n) = true ->
  (wait e nows n).2 <> Some (Ok tt).
Proof.
  revert e. induction nows as [|now nows IH]; intros e Hpos Hn; cbn; [done|].
  pose proof (oversized_attempt e now n Hpos Hn) as Hng.
  destruct (wait_attempt_frame e now n) as [Hr _].
  destruct (wait_attempt e now n) as [e' []]; cbn in *; try done.
  apply IH; by rewrite Hr.
Qed.

(** every completed send is accounted for: it was refused without touching
    the counters, or counted once, as sent with its bytes or as dropped by the
    loss hook; an unlimited open endpoint never waits. *)
Theorem Send_accounting e frame nows roll wrote :
  let n := zlen frame in
  let '(e', r) := Send e frame nows roll wrote in
  match r with
  | None => fle (rateBps e) f64_zero = true -> closed e = true \/ nows = []
  | Some (Err _) => sentFrames e' = sentFrames e /\ sentBytes e' = sentBytes e /\
                    dropped e' = dropped e
  | Some (Ok _) => n <= MaxDatagram /\
      (sentFrames e' = u64 (sentFrames e + 1) /\ sentBytes e' = u64 (sentBytes e + n) /\
       dropped e' = dropped e /\ is_Some (remote e) \/
       sentFrames e' = sentFrames e /\ sentBytes e' = sentBytes e /\
       dropped e' = u64 (dropped e + 1) /\ flt f64_zero (lossPct e) = true)
  end.
Proof.
  cbn zeta. unfold Send. destruct (Z.ltb_spec MaxDatagram (zlen frame)); [done|].
  assert (Hw : forall nows e, let e' := (wait e nows (zlen frame)).1 in
    lossPct e' = lossPct e /\ remote e' = remote e /\ sentFrames e' = sentFrames e /\
    sentBytes e' = sentBytes e /\ dropped e' = dropped e).
  { clear. induction nows as [|now nows IH]; intros e; cbn; [done|].
    destruct (wait_attempt_frame e now (zlen frame)) as (_ & _ & H1 & H2 & H3 & H4 & H5).
    destruct (wait_attempt e now _) as [e1 []]; cbn in *; try done.
    destruct (IH e1) as (-> & -> & -> & -> & ->). done. }
  specialize (Hw nows e). cbn zeta in Hw.
  destruct (wait e nows (zlen frame)) as [e1 [[[]|err]|]] eqn:Ew; cbn in Hw;
    destruct Hw as (H1 & H2 & H3 & H4 & H5).
  - unfold transmit. rewrite H1, H2. destruct (_ && _) eqn:El.
    + split; [done|]. right. cbn. rewrite H3, H4, H5. by apply andb_true_iff in El as [? _].
    + destruct (remote e) eqn:Er; [|done].
      destruct wrote; [|done]. split; [done|]. left. cbn. rewrite H3, H4, H5. eauto.
  - done.
  - intros Hu. destruct nows as [|now nows]; [by right|]. cbn in Ew. unfold wait_attempt in Ew.
    left. destruct (closed e) eqn:Ec; [done|]. by rewrite Hu in Ew.
Qed.

(** ** Concrete instances *)
Definition demo_endpoint : Endpoint :=
  mkEndpoint "t" (Some "peer"%string) f64_zero 1 (f64_of_Z 1000) f64_zero false 0 0 0 0 0.
(** 1000 bytes per second: 1001 bytes never go, 1000 go after a second. *)
Lemma oversized_frame_never_sent_witness :
  (wait demo_endpoint [1; 10 * Second; 100 * Second] 1001).2 <> Some (Ok tt).
Proof. apply (oversized_frame_never_sent demo_endpoint _ 1001); by vm_compute. Defined.
Example full_second_sent :
  (wait demo_endpoint [1; 1 + Second] 1000).2 = Some (Ok tt).
Proof. by vm_compute. Qed.
