(* ===== verification/Node.v ===== *)
(** * Node: the Hydra data plane

    [core/hydra/node/node.go].  The goroutines become the constructors of a
    step relation on the node: the ingress loop (strip, then enqueue), one
    writer per thread (take a frame, then send and complete it), one reader
    per thread, and the prober.  Sockets, clocks and the loss roll are
    arguments of the steps; log lines are dropped. *)
From S2P Require Import Prelude Float64.
From S2P Require Import Shim.
From S2P Require Import Sched.
From S2P Require Import Reorder.
From S2P Require Import Bearer.
From S2P Require Import Anchor.
From S2P Require Import Fabric.
From S2P Require Import Transport.

Record ThreadConfig := mkThreadConfig {
  tcID : string; tcLocal : string; tcRemote : string; tcMbps : f64;
}.
Record Config := mkConfig {
  cID : string; cWeaveID : string; cAnchor : string; cIngress : string; cEgress : string;
  cThreads : list ThreadConfig;
  ProbeInterval : Z; ProbeTimeout : Z;  (* time.Duration *)
  ProbeFailures : Z; QueueFrames : Z;   (* int *)
}.

(** The engine's egress: the UDP socket, if any, and the outcome of each
    write to it; the counters are the node's [egressFrames], [egressBytes]. *)
Record udpSink := mkUdpSink {
  conn : bool;
  write_ok : Z -> bool;  (* indexed by the frame count *)
  egressFrames : Z; egressBytes : Z;
}.
Definition udpSink_Send (s : udpSink) (p : bytes) : udpSink * bool :=
  let s' := {| s with egressFrames := u64 (egressFrames s + 1);
                      egressBytes := u64 (egressBytes s + zlen p) |} in
  (s', if conn s then write_ok s (egressFrames s) else true).
#[export] Instance udpSink_Egress : Egress udpSink :=
  { Send := udpSink_Send; Name := fun _ => "udp"%string }.

Record threadPipe := mkPipe {
  ep : Endpoint;
  txq : list bytes;           (* chan of capacity QueueFrames *)
  inflight : option bytes;    (* the frame its writer holds *)
  probes : gmap Z time;
  probeSeq : Z;               (* uint64 *)
  rttEwma : f64;
  misses : Z;
  up : bool;
}.
Definition newPipe (ep : Endpoint) : threadPipe := mkPipe ep [] None ∅ 0 f64_zero 0 true.

Record Node := mkNode {
  cfg : Config;
  engine : Engine udpSink;
  threads : gmap string threadPipe;
  order : list string;
  ingressFrames : Z; ingressBytes : Z; nDropped : Z;  (* uint64 *)
}.

(** ** Construction *)
Inductive NewError :=
  | ErrNoThreadConfig | ErrEgressSocket | ErrThreadID | ErrDuplicate (id : string)
  | ErrDial (e : Transport.Error) | ErrEngine (e : Fabric.Error) | ErrIngressSocket.

Definition defaults (c : Config) : Config :=
  let c := if decide (cWeaveID c = ""%string) then {| c with cWeaveID := "default"%string |} else c in
  let c := if decide (cAnchor c = ""%string) then {| c with cAnchor := "local"%string |} else c in
  let c := if QueueFrames c <=? 0 then {| c with QueueFrames := 1024 |} else c in
  let c := if (0 <? ProbeInterval c) && (ProbeTimeout c <=? 0)
           then {| c with ProbeTimeout := i64 (3 * ProbeInterval c) |} else c in
  if ProbeFailures c <=? 0 then {| c with ProbeFailures := 3 |} else c.

(** What the operating system answers while a node is built. *)
Record Env := mkEnv {
  egress_ok : bool;
  egress_writes : Z -> bool;
  dial : ThreadConfig -> res Transport.Error Endpoint;
  ingress_ok : bool;
  clock : time;
}.

Definition declared (c : Config) (tc : ThreadConfig) : Bearer.Thread :=
  Bearer.mkThread (tcID tc) (cID c) "" (tcMbps tc) f64_zero f64_zero 0 true 0.

Fixpoint addThreads (env : Env) (n : Node) (tcs : list ThreadConfig) : res NewError Node :=
  match tcs with
  | [] => Ok n
  | tc :: tcs =>
      if decide (tcID tc = ""%string) then Err ErrThreadID
      else match threads n !! tcID tc with
      | Some _ => Err (ErrDuplicate (tcID tc))
      | None =>
          match dial env tc with
          | Err e => Err (ErrDial e)
          | Ok ep =>
              match AddThread (engine n) (clock env) (declared (cfg n) tc) with
              | Err e => Err (ErrEngine e)
              | Ok eng =>
                  addThreads env {| n with engine := eng;
                    threads := <[tcID tc := newPipe ep]> (threads n);
                    order := order n ++ [tcID tc] |} tcs
              end
          end
      end
  end.

Definition NewNode (env : Env) (c : Config) : res NewError Node :=
  let c := defaults c in
  match cThreads c with
  | [] => Err ErrNoThreadConfig
  | _ =>
      let has_egress := bool_decide (cEgress c <> ""%string) in
      if has_egress && negb (egress_ok env) then Err ErrEgressSocket
      else
        let eng := NewEngine (mkUdpSink has_egress (egress_writes env) 0 0) (cAnchor c) in
        match addThreads env (mkNode c eng ∅ [] 0 0 0) (cThreads c) with
        | Err e => Err e
        | Ok n =>
            match CreateWeave (engine n) (clock env) (cWeaveID c) (cAnchor c) (order n) with
            | Err e => Err (ErrEngine e)
            | Ok (eng, _) =>
                if bool_decide (cIngress c <> ""%string) && negb (ingress_ok env)
                then Err ErrIngressSocket
                else Ok {| n with engine := eng |}
            end
        end
  end.

(** ** Ingress: strip, then hand to the thread's writer *)
Definition set_engine (n : Node) (e : Engine udpSink) : Node := {| n with engine := e |}.
Definition set_pipe (n : Node) (id : string) (p : threadPipe) : Node :=
  {| n with threads := <[id := p]> (threads n) |}.
Definition drop_one (n : Node) : Node := {| n with nDropped := u64 (nDropped n + 1) |}.

Definition ingress (n : Node) (payload : bytes) (ts : Z) : Node * option StripResult :=
  let n := {| n with ingressFrames := u64 (ingressFrames n + 1);
                     ingressBytes := u64 (ingressBytes n + zlen payload) |} in
  match Strip (engine n) (cWeaveID (cfg n)) payload ts with
  | (e, Err _) => (drop_one (set_engine n e), None)
  | (e, Ok r) => (set_engine n e, Some r)
  end.

Definition complete (n : Node) (id : string) (k : Z) : Node :=
  set_engine n (Complete (engine n) id k).
Definition health (n : Node) (now : time) (id : string) (rtt loss : f64) (up : bool) : Node :=
  set_engine n (SetThreadHealth (engine n) now id f64_zero rtt loss up).1.
Definition c100 : f64 := f64_of_Z 100.

Definition enqueue (n : Node) (r : StripResult) : Node :=
  match threads n !! srThreadID r with
  | None => complete (drop_one n) (srThreadID r) (FrameLen r)
  | Some p =>
      if zlen (txq p) <? QueueFrames (cfg n) then
        set_pipe n (srThreadID r) {| p with txq := txq p ++ [srFrame r] |}
      else complete (drop_one n) (srThreadID r) (FrameLen r)
  end.

(** ** The writer *)
Definition write_take (n : Node) (id : string) (p : threadPipe) : Node :=
  match txq p with
  | [] => n
  | f :: q => set_pipe n id {| p with txq := q; inflight := Some f |}
  end.

(** What the loop does once [Send] has returned [r] and left the endpoint [e]. *)
Definition write_done (n : Node) (id : string) (p : threadPipe) (frame : bytes) (now : time)
    (e : Endpoint) (r : res Transport.Error unit) : Node :=
  let n := set_pipe n id {| p with ep := e; inflight := None |} in
  match r with
  | Err _ => complete (health (drop_one n) now id f64_zero c100 false) id (zlen frame)
  | Ok _ => complete n id (zlen frame)
  end.

(** ** Probing *)
(** The reaping loop: [now k] is the clock when probe [k] is looked at. *)
Definition reap (c : Config) (now : Z -> time) (p : threadPipe) : threadPipe :=
  let expired := filter (fun kt => ProbeTimeout c <? time_sub (now kt.1) kt.2 = true) (probes p) in
  {| p with probes := probes p ∖ expired; misses := misses p + Z.of_nat (size expired) |}.

Definition probe_frame (c : Config) (k : Z) : bytes :=
  Frame {| (Shim.New (weaveHash (cWeaveID c)) k 0) with Flags := FlagProbe |} [].

(** [sent] is the clock when the probe is recorded, [tx] the endpoint after
    the send and its result. *)
Definition probeOnce (n : Node) (id : string) (p : threadPipe) (now : Z -> time) (tnow sent : time)
    (tx : Endpoint * res Transport.Error unit) : Node :=
  let p := reap (cfg n) now p in
  let n := set_pipe n id p in
  let n := if ProbeFailures (cfg n) <=? misses p then health n tnow id f64_zero c100 false else n in
  if 0 <? Z.of_nat (size (probes p)) then n
  else
    let k := u64 (probeSeq p + 1) in
    let p := {| p with probeSeq := k; probes := <[k := sent]> (probes p); ep := tx.1 |} in
    let p := if is_ok tx.2 then p else {| p with probes := delete k (probes p) |} in
    set_pipe n id p.

Definition ewma (old rtt : f64) : f64 :=
  if feq old f64_zero then rtt
  else fadd (fmul (f64_ratio 8 10) old) (fmul (f64_ratio 2 10) rtt).

Definition echo_of (h : Header) : Header :=
  {| h with Flags := Z.lor (Flags h) FlagLast |}.

(** [nows], [roll] and [wrote] are what the echo's [Send] meets. *)
Definition handleProbe (n : Node) (id : string) (p : threadPipe) (h : Header) (now : time)
    (nows : list time) (roll : f64) (wrote : bool) : Node :=
  if negb (Z.land (Flags h) FlagLast =? 0) then
    match probes p !! Seq h with
    | None => n
    | Some sent =>
        let rtt := fdiv (f64_of_Z (Z.quot (time_sub now sent) 1000)) (f64_of_Z 1000) in
        let p := {| p with probes := delete (Seq h) (probes p); rttEwma := ewma (rttEwma p) rtt;
                           misses := 0; up := true |} in
        health (set_pipe n id p) now id (rttEwma p) f64_zero true
    end
  else set_pipe n id
    {| p with ep := (Transport.Send (ep p) (Frame (echo_of h) []) nows roll wrote).1 |}.

(** ** The reader: a datagram the socket delivered *)
Definition read_frame (n : Node) (id : string) (p : threadPipe) (frame : bytes)
    (from : option string) (t1 t2 now : time) (nows : list time) (roll : f64) (wrote : bool) :
    Node :=
  let p := {| p with ep := (Recv (ep p) (Some (zlen frame, from))).1 |} in
  let n := set_pipe n id p in
  match Decode frame with
  | Err _ => n
  | Ok (h, _) =>
      if negb (Z.land (Flags h) FlagProbe =? 0) then handleProbe n id p h now nows roll wrote
      else set_engine n (Ingest (engine n) t1 t2 (cWeaveID (cfg n)) frame).1
  end.

(** ** Lab controls *)
Definition SetThreadLoss (n : Node) (id : string) (pct : f64) : Node * bool :=
  match threads n !! id with
  | None => (n, false)
  | Some p => (set_pipe n id {| p with ep := SetLoss (ep p) pct |}, true)
  end.
Definition SetThreadRate (n : Node) (id : string) (mbps : f64) : Node * bool :=
  match threads n !! id with
  | None => (n, false)
  | Some p =>
      let n := set_pipe n id {| p with ep := SetRate (ep p) mbps |} in
      (set_engine n {| (engine n) with reg :=
         (Update (reg (engine n)) id (fun t => {| t with Mbps := mbps |})).1 |}, true)
  end.

(** ** The running node: the node and the result its ingress loop holds *)
Record State := mkState { node : Node; pending : option StripResult }.

Inductive step : State -> State -> Prop :=
  | step_ingress n payload ts : zlen payload <= MaxDatagram -> is_i64 ts ->
      step (mkState n None) (let '(n, r) := ingress n payload ts in mkState n r)
  | step_enqueue n r : step (mkState n (Some r)) (mkState (enqueue n r) None)
  | step_take n id p pe : threads n !! id = Some p -> inflight p = None ->
      step (mkState n pe) (mkState (write_take n id p) pe)
  | step_done n id p pe f nows roll wrote now e r :
      threads n !! id = Some p -> inflight p = Some f ->
      Transport.Send (ep p) f nows roll wrote = (e, Some r) ->
      step (mkState n pe) (mkState (write_done n id p f now e r) pe)
  | step_read n id p pe f from t1 t2 now nows roll wrote : threads n !! id = Some p ->
      step (mkState n pe) (mkState (read_frame n id p f from t1 t2 now nows roll wrote) pe)
  | step_probe n id p pe now tnow sent nows roll wrote e r : threads n !! id = Some p ->
      (probes (reap (cfg n) now p) = ∅ ->
       Transport.Send (ep p) (probe_frame (cfg n) (u64 (probeSeq p + 1))) nows roll wrote =
         (e, Some r)) ->
      step (mkState n pe) (mkState (probeOnce n id p now tnow sent (e, r)) pe)
  | step_loss n id pct pe : step (mkState n pe) (mkState (SetThreadLoss n id pct).1 pe)
  | step_rate n id mbps pe : step (mkState n pe) (mkState (SetThreadRate n id mbps).1 pe).

Definition reachable (s s' : State) : Prop := rtc step s s'.

(** ** Queue accounting *)
Definition qb (n : Node) (id : string) : option Z := QueueBytes <$> reg (engine n) !! id.

Lemma complete_qb n id k id' : 0 <= k -> (forall q, qb n id' = Some q -> is_u64 q) ->
  qb (complete n id k) id' =
    (fun q => if decide (id = id') then Z.max 0 (q - k) else q) <$> qb n id'.
Proof.
  intros Hk Hu. unfold qb, complete, Complete in *. cbn [engine reg set_engine] in *.
  case_decide as E.
  - subst id'. unfold SubQueue. destruct (reg (engine n) !! id) as [t|] eqn:Et; cbn.
    2:{ by rewrite Et. }
    specialize (Hu (QueueBytes t) eq_refl). unfold is_u64 in Hu.
    destruct (Z.leb_spec (QueueBytes t) k); rewrite lookup_insert_eq; cbn; f_equal; [lia|].
    rewrite u64_id by (unfold is_u64; lia). lia.
  - rewrite SubQueue_ne by done. by destruct (reg (engine n) !! id').
Qed.
Lemma Update_qb (r : Registry) id m id' : (forall t, QueueBytes (m t) = QueueBytes t) ->
  QueueBytes <$> (Update r id m).1 !! id' = QueueBytes <$> r !! id'.
Proof.
  intros Hm. unfold Update. destruct (r !! id) as [t|] eqn:Et; [|done]. cbn.
  rewrite lookup_insert. case_decide as E; [|done]. subst. rewrite Et. cbn. by rewrite Hm.
Qed.
Lemma SetThreadHealth_qb {S} (e : Engine S) now id m rtt loss u id' :
  QueueBytes <$> reg (SetThreadHealth e now id m rtt loss u).1 !! id' =
  QueueBytes <$> reg e !! id'.
Proof.
  unfold SetThreadHealth.
  match goal with |- context [Update ?r ?i ?f] =>
    pose proof (Update_qb r i f id') as Hq; destruct (Update r i f) as [r' ok] end.
  apply Hq. intros t. by destruct (flt f64_zero m).
Qed.
Lemma health_qb n now id rtt loss u id' : qb (health n now id rtt loss u) id' = qb n id'.
Proof. apply SetThreadHealth_qb. Qed.
Lemma Ingest_reg {S} `{Egress S} (e : Engine S) t1 t2 id f : reg (Ingest e t1 t2 id f).1 = reg e.
Proof.
  unfold Ingest. destruct (accept_frame _ _ _) as [[[ws h] p]|]; [|done].
  destruct (Push _ _ _ _ _). by destruct (send_all _ _).
Qed.

Definition MaxFrame : Z := HeaderLen + MaxDatagram.
(** The bytes a thread still owes: queued, in its writer's hands, or striped
    to it and not yet enqueued. *)
Definition held (pe : option StripResult) (id : string) : Z :=
  match pe with
  | Some r => if decide (srThreadID r = id) then FrameLen r else 0
  | None => 0
  end.
Definition backlog (pe : option StripResult) (id : string) (p : threadPipe) : Z :=
  Zsum (zlen <$> txq p) + default 0 (zlen <$> inflight p) + held pe id.

Definition pipe_ok (cap : Z) (p : threadPipe) : Prop :=
  zlen (txq p) <= cap /\ Forall (fun f => zlen f <= MaxFrame) (txq p) /\
  match inflight p with Some f => zlen f <= MaxFrame | None => True end.
Definition pending_ok (pe : option StripResult) : Prop :=
  match pe with Some r => FrameLen r = zlen (srFrame r) /\ FrameLen r <= MaxFrame | None => True end.

Record node_inv (s : State) : Prop := {
  ni_size : 0 <= QueueFrames (cfg (node s)) <= 2 ^ 32;
  ni_pending : pending_ok (pending s);
  ni_pipes : forall id p, threads (node s) !! id = Some p ->
    pipe_ok (QueueFrames (cfg (node s))) p;
  ni_queue : forall id p, threads (node s) !! id = Some p ->
    qb (node s) id = Some (backlog (pending s) id p);
}.

Lemma Zsum_bound (l : list bytes) M : 0 <= M -> Forall (fun f => zlen f <= M) l ->
  0 <= Zsum (zlen <$> l) <= M * zlen l.
Proof.
  intros HM. induction 1 as [|f l Hf Hl IH]; cbn; [unfold zlen; cbn; lia|].
  rewrite zlen_cons. pose proof (zlen_nonneg f). unfold Zsum in IH. cbn in IH. nia.
Qed.
Lemma backlog_u64 cap pe id p : 0 <= cap <= 2 ^ 32 -> pending_ok pe -> pipe_ok cap p ->
  0 <= backlog pe id p <= MaxFrame * (2 ^ 32 + 2).
Proof.
  intros Hc Hp (Hn & Hq & Hi). unfold backlog.
  pose proof (Zsum_bound (txq p) MaxFrame ltac:(done) Hq).
  assert (0 <= held pe id <= MaxFrame).
  { unfold held. destruct pe as [r|]; [|done]. destruct Hp as [E ?].
    pose proof (zlen_nonneg (srFrame r)). case_decide; [lia|done]. }
  assert (0 <= default 0 (zlen <$> inflight p) <= MaxFrame).
  { destruct (inflight p) as [f|]; cbn; [|done]. pose proof (zlen_nonneg f). lia. }
  assert (MaxFrame * zlen (txq p) <= MaxFrame * 2 ^ 32).
  { apply Z.mul_le_mono_nonneg_l; [done|lia]. }
  lia.
Qed.
Lemma inv_qb_u64 s id p : node_inv s -> threads (node s) !! id = Some p ->
  forall q, qb (node s) id = Some q -> is_u64 q.
Proof.
  intros [Hs Hpe Hp Hq] Hid q. rewrite (Hq _ _ Hid). intros [= <-].
  pose proof (backlog_u64 _ _ id _ Hs Hpe (Hp _ _ Hid)) as Hb.
  unfold is_u64.
  unfold MaxFrame, HeaderLen, MaxDatagram in Hb. lia.
Qed.

(** Steps that keep every queue and every writer's frame keep the invariant. *)
Lemma node_inv_ext n n' pe : node_inv (mkState n pe) -> cfg n' = cfg n ->
  (forall id, qb n' id = qb n id) ->
  (forall id p', threads n' !! id = Some p' -> exists p, threads n !! id = Some p /\
     txq p' = txq p /\ inflight p' = inflight p) ->
  node_inv (mkState n' pe).
Proof.
  intros [Hs Hpe Hp Hq] Hc Hqb Ht. cbn in *. split; cbn; rewrite ?Hc; try done.
  - intros id p' (p & Hid & E1 & E2)%Ht. unfold pipe_ok. rewrite E1, E2. by apply (Hp id).
  - intros id p' (p & Hid & E1 & E2)%Ht. rewrite Hqb, (Hq _ _ Hid). unfold backlog.
    by rewrite E1, E2.
Qed.
Lemma set_pipe_same n id p q : threads n !! id = Some p -> txq q = txq p ->
  inflight q = inflight p ->
  forall id' p', threads (set_pipe n id q) !! id' = Some p' -> exists p0,
    threads n !! id' = Some p0 /\ txq p' = txq p0 /\ inflight p' = inflight p0.
Proof.
  intros Hp E1 E2 id' p'. cbn. rewrite lookup_insert. case_decide; [|eauto].
  intros [= <-]. subst. eauto.
Qed.

Lemma Strip_err_reg {S} (e e' : Engine S) id p ts err :
  Strip e id p ts = (e', Err err) -> reg e' = reg e.
Proof.
  unfold Strip. destruct (weaves e !! id); [|by intros [= <- <-]].
  destruct (Candidates _ _); [by intros [= <- <-]|].
  destruct (Pick _ _); [done|by intros [= <- <-]].
Qed.

Lemma AddQueue_qb (r : Registry) id n id' :
  QueueBytes <$> AddQueue r id n !! id' =
    (fun q => if decide (id = id') then u64 (q + n) else q) <$> (QueueBytes <$> r !! id').
Proof.
  case_decide as E.
  - subst. unfold AddQueue. destruct (r !! id') as [t|] eqn:Et; [|by rewrite Et].
    by rewrite lookup_insert_eq.
  - rewrite AddQueue_ne by done. by destruct (r !! id').
Qed.

Lemma ingress_inv n payload ts : node_inv (mkState n None) -> zlen payload <= MaxDatagram ->
  node_inv (let '(n, r) := ingress n payload ts in mkState n r).
Proof.
  intros Hi Hlen. unfold ingress. destruct (Strip _ _ _ _) as [e' [r|err]] eqn:E.
  - apply Strip_ok in E as (ws & t & _ & _ & -> & ->). cbn [engine] in *.
    pose proof (zlen_nonneg payload) as Hnn.
    destruct Hi as [Hs _ Hp Hq]. cbn [node pending cfg threads set_engine] in *.
    match goal with |- node_inv (mkState _ (Some ?x)) => set (r := x) end.
    assert (Hpe : pending_ok (Some r)).
    { cbn. unfold weave_frame. rewrite zlen_Frame. unfold MaxFrame. lia. }
    split; cbn [node pending cfg threads set_engine]; try done.
    intros id p Hid. specialize (Hq _ _ Hid).
    pose proof (backlog_u64 _ _ id _ Hs Hpe (Hp _ _ Hid)) as Hb.
    unfold qb in *. cbn [engine reg with_weave set_engine] in *.
    rewrite AddQueue_qb, Hq. cbn [fmap option_fmap option_map]. f_equal.
    assert (Hbk : backlog (Some r) id p = backlog None id p +
      if decide (Sched.ID t = id) then HeaderLen + zlen payload else 0).
    { unfold backlog, held. cbn. case_decide; lia. }
    rewrite Hbk in *. case_decide; [|lia]. apply u64_id. unfold is_u64.
    unfold MaxFrame, HeaderLen, MaxDatagram in *. lia.
  - apply Strip_err_reg in E. eapply node_inv_ext; [exact Hi|done| |].
    + intros id. unfold qb. cbn. by rewrite E.
    + eauto.
Qed.

Lemma enqueue_inv n r : node_inv (mkState n (Some r)) -> node_inv (mkState (enqueue n r) None).
Proof.
  intros Hi. pose proof Hi as [Hs Hpe Hp Hq]. cbn [node pending] in *. destruct Hpe as [Hfl Hmax].
  pose proof (zlen_nonneg (srFrame r)) as Hnn.
  assert (Hcomp : node_inv (mkState (complete (drop_one n) (srThreadID r) (FrameLen r)) None)).
  { split; cbn [node pending]; try done. intros id p Hid.
    rewrite complete_qb; [|lia|apply (inv_qb_u64 _ _ _ Hi Hid)].
    change (qb (drop_one n) id) with (qb n id).
    rewrite (Hq _ _ Hid). cbn [fmap option_fmap option_map]. f_equal.
    pose proof (backlog_u64 _ None id _ Hs I (Hp _ _ Hid)) as Hb.
    unfold backlog, held in *. case_decide; lia. }
  unfold enqueue. destruct (threads n !! srThreadID r) as [p|] eqn:Et; [|done].
  destruct (Z.ltb_spec (zlen (txq p)) (QueueFrames (cfg n))); [|done].
  destruct (Hp _ _ Et) as (Hn & Hf & Hin).
  split; cbn [node pending]; try done.
  - intros id p'. cbn. rewrite lookup_insert. case_decide; [|apply Hp].
    intros [= <-]. split_and!; cbn; [rewrite zlen_app; change (zlen [srFrame r]) with 1; lia| |done].
    apply Forall_app. split; [done|]. constructor; [lia|done].
  - intros id p'. cbn. rewrite lookup_insert. change (qb (set_pipe _ _ _) id) with (qb n id).
    case_decide as Eid.
    + intros [= <-]. subst id. rewrite (Hq _ _ Et). unfold backlog, held. cbn.
      rewrite decide_True by done. rewrite fmap_app, Zsum_app. cbn. f_equal. lia.
    + intros Hid. rewrite (Hq _ _ Hid). unfold backlog, held. by rewrite decide_False.
Qed.

Lemma take_inv n id p pe : node_inv (mkState n pe) -> threads n !! id = Some p ->
  inflight p = None -> node_inv (mkState (write_take n id p) pe).
Proof.
  intros Hi Hid Hin. unfold write_take. destruct (txq p) as [|f q] eqn:Eq; [done|].
  destruct Hi as [Hs Hpe Hp Hq]. cbn [node pending] in *.
  destruct (Hp _ _ Hid) as (Hn & Hf & _). rewrite Eq in Hn, Hf.
  apply Forall_cons in Hf as [Hf0 Hf]. rewrite zlen_cons in Hn.
  split; cbn [node pending]; try done.
  - intros id' p'. cbn. rewrite lookup_insert. case_decide; [|apply Hp].
    intros [= <-]. split_and!; cbn; try done. lia.
  - intros id' p'. cbn. rewrite lookup_insert. change (qb (set_pipe _ _ _) id') with (qb n id').
    case_decide; [|apply Hq]. intros [= <-]. subst. rewrite (Hq _ _ Hid). unfold backlog.
    rewrite Eq, Hin. cbn. f_equal. unfold Zsum. lia.
Qed.

Lemma done_inv n id p pe f now e r : node_inv (mkState n pe) -> threads n !! id = Some p ->
  inflight p = Some f -> node_inv (mkState (write_done n id p f now e r) pe).
Proof.
  intros Hi Hid Hin. destruct (Hi) as [Hs Hpe Hp Hq]. cbn [node pending] in *.
  destruct (Hp _ _ Hid) as (Hn & Hf & Hfl). pose proof (zlen_nonneg f) as Hnn.
  set (n1 := set_pipe n id {| p with ep := e; inflight := None |}).
  (* completing the frame once the writer has let go of it *)
  assert (Hdone : forall n2, cfg n2 = cfg n -> threads n2 = threads n1 ->
    (forall id', qb n2 id' = qb n id') -> node_inv (mkState (complete n2 id (zlen f)) pe)).
  { intros n2 Ec Et Eq. split; cbn [node pending]; cbn [complete set_engine cfg threads];
      rewrite ?Ec, ?Et; try done.
    - intros id' p'. cbn. rewrite lookup_insert. case_decide; [|apply Hp].
      intros [= <-]. by split_and!.
    - intros id' p'. cbn. rewrite lookup_insert. case_decide as E.
      + intros [= <-]. subst id'.
        rewrite complete_qb; [|done|rewrite Eq; exact (inv_qb_u64 _ _ _ Hi Hid)].
        rewrite Eq, (Hq _ _ Hid). cbn [fmap option_fmap option_map]. rewrite decide_True by done. f_equal.
        pose proof (backlog_u64 _ pe id {| p with ep := e; inflight := None |} Hs Hpe
          (conj Hn (conj Hf I))) as Hb.
        unfold backlog in *. rewrite Hin. cbn -[Zsum] in *. lia.
      + intros Hid'. rewrite complete_qb; [|done|rewrite Eq; exact (inv_qb_u64 _ _ _ Hi Hid')].
        rewrite Eq, (Hq _ _ Hid'). cbn [fmap option_fmap option_map].
        by rewrite decide_False by congruence. }
  unfold write_done. fold n1. destruct r as [u|err].
  - by apply Hdone.
  - apply Hdone; [done|done|]. intros id'. by rewrite health_qb.
Qed.

Lemma read_inv n id p pe f from t1 t2 now nows roll wrote : node_inv (mkState n pe) ->
  threads n !! id = Some p ->
  node_inv (mkState (read_frame n id p f from t1 t2 now nows roll wrote) pe).
Proof.
  intros Hi Hid. unfold read_frame.
  set (p1 := {| p with ep := (Recv _ _).1 |}). set (n1 := set_pipe n id p1).
  assert (Hi1 : node_inv (mkState n1 pe)).
  { eapply node_inv_ext; [exact Hi|done|done|]. by eapply set_pipe_same. }
  assert (Hid1 : threads n1 !! id = Some p1) by apply lookup_insert_eq.
  destruct (Decode f) as [[h q]|]; [|done]. case_if.
  - unfold handleProbe. case_if.
    + destruct (probes p1 !! Seq h) as [sent|]; [|done].
      eapply node_inv_ext; [exact Hi1|done| |].
      * intros id'. by rewrite health_qb.
      * by eapply set_pipe_same.
    + eapply node_inv_ext; [exact Hi1|done|done|]. by eapply set_pipe_same.
  - eapply node_inv_ext; [exact Hi1|done| |eauto].
    intros id'. unfold qb. cbn [engine set_engine]. by rewrite Ingest_reg.
Qed.

Lemma probe_inv n id p pe now tnow sent tx : node_inv (mkState n pe) ->
  threads n !! id = Some p -> node_inv (mkState (probeOnce n id p now tnow sent tx) pe).
Proof.
  intros Hi Hid. unfold probeOnce. set (p1 := reap (cfg n) now p).
  set (n1 := set_pipe n id p1).
  assert (Hi1 : node_inv (mkState n1 pe)).
  { eapply node_inv_ext; [exact Hi|done|done|]. by eapply set_pipe_same. }
  assert (Hid1 : threads n1 !! id = Some p1) by apply lookup_insert_eq.
  set (n2 := if _ <=? _ then _ else n1).
  assert (Hi2 : node_inv (mkState n2 pe) /\ threads n2 !! id = Some p1).
  { unfold n2. case_if; [|done]. split; [|done].
    eapply node_inv_ext; [exact Hi1|done| |eauto]. intros id'. by rewrite health_qb. }
  destruct Hi2 as [Hi2 Hid2]. clearbody n2. case_if; [done|].
  eapply node_inv_ext; [exact Hi2|done|done|]. eapply set_pipe_same; [exact Hid2|..];
    by destruct (is_ok tx.2).
Qed.

Lemma step_inv s s' : node_inv s -> step s s' -> node_inv s'.
Proof.
  intros Hi Hst. destruct Hst.
  - by apply ingress_inv.
  - by apply enqueue_inv.
  - by apply take_inv.
  - by apply done_inv.
  - by apply read_inv.
  - by apply probe_inv.
  - unfold SetThreadLoss. destruct (threads n !! id) as [p|] eqn:Et; [|done].
    eapply node_inv_ext; [exact Hi|done|done|]. by eapply set_pipe_same.
  - unfold SetThreadRate. destruct (threads n !! id) as [p|] eqn:Et; [|done].
    eapply node_inv_ext; [exact Hi|done| |].
    + intros id'. unfold qb. cbn [engine set_engine reg fst set_pipe].
      by apply (Update_qb (reg (engine n))).
    + by eapply set_pipe_same.
Qed.
Lemma reachable_inv s s' : node_inv s -> reachable s s' -> node_inv s'.
Proof. intros Hi. induction 1; eauto using step_inv. Qed.

(** ** A new node satisfies the invariant *)
Lemma AddThread_reg {S} (e e' : Engine S) now t : AddThread e now t = Ok e' ->
  weaves e' = weaves e /\ exists t', reg e' = <[ID t := t']> (reg e) /\ QueueBytes t' = QueueBytes t.
Proof.
  unfold AddThread. destruct (Upsert _ _ _) as [r|] eqn:E; [|done]. intros [= <-].
  apply Upsert_ok in E as [_ ->]. split; [done|]. eexists. split; [done|].
  by destruct (IsZero (LastSeen t)).
Qed.
Lemma CreateWeave_reg {S} (e e' : Engine S) now id a tids w :
  CreateWeave e now id a tids = Ok (e', w) -> reg e' = reg e.
Proof.
  unfold CreateWeave. case_decide; [done|]. destruct (weaves e !! id); [done|].
  destruct (validateThreads _ _); [|done]. by intros [= <- <-].
Qed.

Lemma addThreads_inv env tcs n n' : node_inv (mkState n None) -> addThreads env n tcs = Ok n' ->
  node_inv (mkState n' None) /\ cfg n' = cfg n.
Proof.
  revert n. induction tcs as [|tc tcs IH]; intros n Hi; cbn; [by intros [= <-]|].
  case_decide; [done|]. destruct (threads n !! tcID tc) eqn:Et; [done|].
  destruct (dial env tc) as [ep|]; [|done].
  destruct (AddThread _ _ _) as [eng|] eqn:Ea; [|done].
  apply AddThread_reg in Ea as (_ & t' & Hr & Hqt). cbn in Hr, Hqt.
  intros Hrest. apply IH in Hrest as [Hi' Hc]; [by split|].
  destruct Hi as [Hs Hpe Hp Hq]. cbn [node pending] in *. split; cbn; try done.
  - intros id p. rewrite lookup_insert. case_decide; [|apply Hp].
    intros [= <-]. split; cbn; [change (zlen []) with 0; lia|done].
  - intros id p. rewrite lookup_insert. unfold qb. cbn. rewrite Hr, lookup_insert.
    case_decide; [|apply Hq]. intros [= <-]. cbn. by rewrite Hqt.
Qed.

Lemma defaults_QueueFrames c : QueueFrames c <= 2 ^ 32 ->
  0 <= QueueFrames (defaults c) <= 2 ^ 32.
Proof.
  intros Hc. unfold defaults.
  set (c1 := if decide (cWeaveID c = _) then _ else c).
  assert (Q1 : QueueFrames c1 = QueueFrames c) by (unfold c1; by case_decide).
  clearbody c1. cbv zeta. set (c2 := if decide (cAnchor c1 = _) then _ else c1).
  assert (Q2 : QueueFrames c2 = QueueFrames c) by (unfold c2; by case_decide).
  clearbody c2. set (c3 := if QueueFrames c2 <=? 0 then _ else c2).
  assert (Q3 : 0 <= QueueFrames c3 <= 2 ^ 32).
  { unfold c3. destruct (Z.leb_spec (QueueFrames c2) 0); cbn; lia. }
  clearbody c3. set (c4 := if _ && _ then _ else c3).
  assert (Q4 : QueueFrames c4 = QueueFrames c3) by (unfold c4; by case_if).
  clearbody c4. case_if; cbn; lia.
Qed.

Lemma NewNode_inv env c n : QueueFrames c <= 2 ^ 32 -> NewNode env c = Ok n ->
  node_inv (mkState n None).
Proof.
  intros Hc%defaults_QueueFrames. unfold NewNode. set (c' := defaults c) in *. clearbody c'.
  destruct (cThreads c') eqn:Et; [done|]. rewrite <- Et. case_if; [done|].
  destruct (addThreads _ _ _) as [n1|] eqn:Ea; [|done].
  apply addThreads_inv in Ea as [Hi Hcfg]; [|by split].
  destruct (CreateWeave _ _ _ _ _) as [[eng w]|] eqn:Ew; [|done]. case_if; [done|].
  intros [= <-]. apply CreateWeave_reg in Ew.
  eapply node_inv_ext; [exact Hi|done| |eauto]. intros id. unfold qb. cbn. by rewrite Ew.
Qed.

(** C9: queue accounting.  In every reachable state of a node, under any
    interleaving of its loops, failed sends and tail drops included, the
    outstanding bytes the scheduler sees for a thread are exactly the bytes
    queued for it, held by its writer, or striped to it and not yet queued;
    and no queue exceeds its capacity. *)
Theorem queue_accounting env c n s id p : QueueFrames c <= 2 ^ 32 -> NewNode env c = Ok n ->
  reachable (mkState n None) s -> threads (node s) !! id = Some p ->
  (QueueBytes <$> Get (reg (engine (node s))) id) = Some (backlog (pending s) id p) /\
  zlen (txq p) <= QueueFrames (cfg (node s)).
Proof.
  intros Hc Hn Hr Hid. apply NewNode_inv in Hn; [|done].
  pose proof (reachable_inv _ _ Hn Hr) as [_ _ Hp Hq]. split; [by apply Hq|].
  by destruct (Hp _ _ Hid).
Qed.

(** ** Probing *)
Definition probing_ok (p : threadPipe) : Prop :=
  0 <= misses p /\ (probes p = ∅ \/ exists t, probes p = {[probeSeq p := t]}).
Definition probes_ok (s : State) : Prop :=
  forall id p, threads (node s) !! id = Some p -> probing_ok p.

Lemma probes_ok_ext n n' pe pe' : probes_ok (mkState n pe) ->
  (forall id p', threads n' !! id = Some p' -> probing_ok p' \/ threads n !! id = Some p') ->
  probes_ok (mkState n' pe').
Proof. intros H Ht id p' [Hid|Hid]%Ht; [done|]. exact (H _ _ Hid). Qed.
Lemma set_pipe_probing n id q : probing_ok q -> forall id' p',
  threads (set_pipe n id q) !! id' = Some p' -> probing_ok p' \/ threads n !! id' = Some p'.
Proof.
  intros Hq id' p'. cbn. rewrite lookup_insert. case_decide; [|by right].
  intros [= <-]. by left.
Qed.

Lemma reap_ok c now p : probing_ok p -> probing_ok (reap c now p).
Proof.
  intros [Hm Hp]. split; cbn; [lia|]. destruct Hp as [->|[t ->]].
  - left. by rewrite map_filter_empty, map_difference_empty.
  - match goal with |- context [filter ?P {[?k := ?v]}] =>
      destruct (decide (P (k, v))) as [HP|HP] end.
    + left. rewrite map_filter_singleton_True by done. apply map_difference_diag.
    + right. exists t. rewrite map_filter_singleton_False by done. apply map_difference_empty.
Qed.

Lemma step_probes s s' : probes_ok s -> step s s' -> probes_ok s'.
Proof.
  intros Hok Hst. destruct Hst; cbn in *.
  - unfold ingress. destruct (Strip _ _ _ _) as [e [r|]]; eapply probes_ok_ext; eauto.
  - unfold enqueue. destruct (threads n !! srThreadID r) as [p|] eqn:Ep;
      [case_if|]; eapply probes_ok_ext; eauto.
    apply set_pipe_probing. exact (Hok _ _ Ep).
  - unfold write_take. destruct (txq p); [done|]. eapply probes_ok_ext; [done|].
    apply set_pipe_probing. exact (Hok _ _ H).
  - unfold write_done. destruct r; (eapply probes_ok_ext; [done|]);
      apply set_pipe_probing; exact (Hok _ _ H).
  - unfold read_frame. set (p1 := {| p with ep := _ |}).
    assert (Hp1 : probing_ok p1) by exact (Hok _ _ H).
    destruct (Decode f) as [[h q]|]; [|eapply probes_ok_ext; [done|by apply set_pipe_probing]].
    case_if; [|eapply probes_ok_ext; [done|by apply set_pipe_probing]].
    assert (Hn1 : probes_ok (mkState (set_pipe n id p1) pe)).
    { eapply probes_ok_ext; [exact Hok|by apply set_pipe_probing]. }
    unfold handleProbe. case_if.
    + destruct (probes p1 !! Seq h) as [sent|] eqn:Es; [|done].
      eapply probes_ok_ext; [exact Hn1|]. apply set_pipe_probing. split; [done|]. left. cbn [probes].
      change (probes p1) with (probes p) in *.
      destruct Hp1 as [_ [E|[t E]]]; change (probes p1) with (probes p) in E; rewrite E in Es |- *.
      * by rewrite lookup_empty in Es.
      * apply lookup_singleton_Some in Es as [<- _]. apply delete_singleton_eq.
    + eapply probes_ok_ext; [exact Hn1|]. by apply set_pipe_probing.
  - unfold probeOnce. set (p1 := reap (cfg n) now p).
    assert (Hp1 : probing_ok p1) by (apply reap_ok, (Hok _ _ H)).
    set (n2 := if ProbeFailures (cfg (set_pipe n id p1)) <=? misses p1
               then health (set_pipe n id p1) tnow id f64_zero c100 false else set_pipe n id p1).
    assert (Hn2 : probes_ok (mkState n2 pe)).
    { unfold n2. case_if; (eapply probes_ok_ext; [exact Hok|]); by apply set_pipe_probing. }
    clearbody n2. cbn zeta. destruct (Z.ltb_spec 0 (Z.of_nat (size (probes p1)))) as [|Hz]; [done|].
    eapply probes_ok_ext; [exact Hn2|]. apply set_pipe_probing.
    assert (E : probes p1 = ∅) by (apply map_size_empty_iff; lia).
    split; [destruct Hp1; by case_if|]. rewrite E. cbn. destruct (is_ok r); cbn; [right|left].
    + exists sent. done.
    + rewrite delete_insert_eq. apply delete_empty.
  - unfold SetThreadLoss. destruct (threads n !! id) as [p|] eqn:Ep; [|done].
    eapply probes_ok_ext; [exact Hok|]. apply set_pipe_probing, (Hok _ _ Ep).
  - unfold SetThreadRate. destruct (threads n !! id) as [p|] eqn:Ep; [|done].
    eapply probes_ok_ext; [exact Hok|]. apply set_pipe_probing, (Hok _ _ Ep).
Qed.

Lemma NewNode_probes env c n : NewNode env c = Ok n -> probes_ok (mkState n None).
Proof.
  unfold NewNode. destruct (cThreads (defaults c)) eqn:Et; [done|]. rewrite <- Et.
  case_if; [done|].
  assert (Hadd : forall tcs n n', probes_ok (mkState n None) -> addThreads env n tcs = Ok n' ->
    probes_ok (mkState n' None)).
  { induction tcs as [|tc tcs IH]; intros n1 n2 Hok; cbn [addThreads]; [by intros [= <-]|].
    destruct (decide (tcID tc = ""%string)); [done|]. destruct (threads n1 !! tcID tc); [done|].
    destruct (dial env tc) as [ep|]; [|done]. destruct (AddThread _ _ _); [|done].
    apply IH. eapply probes_ok_ext; [exact Hok|].
    apply (set_pipe_probing n1 (tcID tc) (newPipe ep)). split; [done|by left]. }
  destruct (addThreads _ _ _) as [n1|] eqn:Ea; [|done].
  apply Hadd in Ea. 2:{ intros id p. cbn. by rewrite lookup_empty. }
  destruct (CreateWeave _ _ _ _ _) as [[eng w]|]; [|done]. case_if; [done|].
  intros [= <-]. eapply probes_ok_ext; [exact Ea|]. intros id p Hid. by right.
Qed.

(** in every reachable state a thread has at most one probe in flight, and
    it is the one numbered last, so an echo is matched against no other. *)
Theorem one_probe_in_flight env c n s id p : NewNode env c = Ok n ->
  reachable (mkState n None) s -> threads (node s) !! id = Some p ->
  probes p = ∅ \/ exists t, probes p = {[probeSeq p := t]}.
Proof.
  intros Hn%NewNode_probes Hr Hid.
  assert (Hok : probes_ok s) by (clear Hid; induction Hr; eauto using step_probes).
  by destruct (Hok _ _ Hid).
Qed.

Definition thread_up (n : Node) (id : string) : option bool := Up <$> Get (reg (engine n)) id.

Lemma health_up n now id rtt loss u t : Get (reg (engine n)) id = Some t ->
  thread_up (health n now id rtt loss u) id = Some u /\
  (RTTms <$> Get (reg (engine (health n now id rtt loss u))) id) = Some rtt /\
  (LossPct <$> Get (reg (engine (health n now id rtt loss u))) id) = Some loss.
Proof.
  unfold thread_up, Get, health, SetThreadHealth, Update. intros Ht. rewrite Ht. cbn.
  by rewrite !lookup_insert_eq.
Qed.

(** The probes a round finds overdue are exactly those older than the timeout
    when they are looked at; each is taken out and counted as a miss. *)
Definition overdue (c : Config) (now : Z -> time) (p : threadPipe) (late : gmap Z time) : Prop :=
  forall k at_, late !! k = Some at_ <->
    probes p !! k = Some at_ /\ ProbeTimeout c < time_sub (now k) at_.
Lemma reap_overdue c now p late : overdue c now p late ->
  reap c now p = {| p with probes := probes p ∖ late; misses := misses p + Z.of_nat (size late) |}.
Proof.
  intros Hl. unfold reap. replace (filter _ (probes p)) with late; [done|].
  apply map_eq. intros k. apply option_eq. intros at_. rewrite (Hl k at_), map_lookup_filter_Some.
  cbn. by rewrite Z.ltb_lt.
Qed.
(** C26: failover.  A probe round counts a miss for every probe older than the
    timeout and forgets it; it marks the thread down when the misses have
    reached [ProbeFailures] and otherwise leaves the registry alone; and unless
    a probe is still in flight it leaves a new one, under the next number, if
    it could be sent.  An echo of a probe in flight clears the misses and marks
    the thread up with its smoothed round-trip time; an echo nobody waits for
    changes nothing.  (A failed send of a frame marks a thread down too,
    [oversized_payload_downs_thread].) *)
Theorem failover n id p t : threads n !! id = Some p -> Get (reg (engine n)) id = Some t ->
  (forall now tnow sent tx late, overdue (cfg n) now p late ->
     let n' := probeOnce n id p now tnow sent tx in
     let missed := misses p + Z.of_nat (size late) in
     let waiting := probes p ∖ late in
     (if ProbeFailures (cfg n) <=? missed
      then thread_up n' id = Some false
      else reg (engine n') = reg (engine n)) /\
     exists p', threads n' !! id = Some p' /\ misses p' = missed /\
       probes p' = if decide (waiting = ∅)
                   then if is_ok tx.2 then {[u64 (probeSeq p + 1) := sent]} else ∅
                   else waiting) /\
  (forall h now nows roll wrote, Z.land (Flags h) FlagLast <> 0 ->
     let n' := handleProbe n id p h now nows roll wrote in
     match probes p !! Seq h with
     | Some sent =>
         let rtt := fdiv (f64_of_Z (Z.quot (time_sub now sent) 1000)) (f64_of_Z 1000) in
         thread_up n' id = Some true /\ (misses <$> threads n' !! id) = Some 0 /\
         (RTTms <$> Get (reg (engine n')) id) = Some (ewma (rttEwma p) rtt)
     | None => n' = n
     end).
Proof.
  intros Hp Ht. split.
  - intros now tnow sent tx late Hl. unfold probeOnce. rewrite (reap_overdue _ _ _ _ Hl).
    set (p1 := {| p with probes := _; misses := _ |}). cbn zeta.
    change (cfg (set_pipe n id p1)) with (cfg n). cbn [misses p1].
    change (probes p1) with (probes p ∖ late).
    assert (Hsz : (0 <? Z.of_nat (size (probes p ∖ late))) = negb (bool_decide (probes p ∖ late = ∅))).
    { case_bool_decide as E; [by rewrite E, map_size_empty|]. rewrite <- map_size_empty_iff in E. cbn. lia. }
    rewrite Hsz. split.
    + destruct (ProbeFailures (cfg n) <=? _).
      * pose proof (health_up (set_pipe n id p1) tnow id f64_zero c100 false t Ht) as [Hu _]. by case_if.
      * by case_if.
    + case_bool_decide as E; cbn [negb].
      * eexists. split; [apply lookup_insert_eq|]. rewrite decide_True by done. unfold p1.
        destruct (is_ok tx.2); (split; [done|]); cbn; rewrite E; [done|].
        by rewrite insert_empty, delete_singleton_eq.
      * exists p1. rewrite decide_False by done. split; [|done].
        by case_if; [|]; cbn; rewrite lookup_insert_eq.
  - intros h now nows roll wrote Hl. unfold handleProbe.
    rewrite (proj2 (Z.eqb_neq _ _) Hl). cbn [negb].
    destruct (probes p !! Seq h) as [sent|]; [|done].
    pose proof (fun q x => health_up (set_pipe n id q) now id x f64_zero true t Ht) as Hh.
    cbv zeta. split_and!; [apply Hh| |apply Hh]. cbn. by rewrite lookup_insert_eq.
Qed.

Lemma complete_up n id k id' : thread_up (complete n id k) id' = thread_up n id'.
Proof.
  unfold thread_up, complete, Complete, Get. cbn. destruct (decide (id = id')) as [->|].
  - unfold SubQueue. destruct (reg (engine n) !! id') eqn:E; [|by rewrite E].
    case_if; by rewrite lookup_insert_eq.
  - by rewrite SubQueue_ne.
Qed.

(** a payload the ingress accepts but whose frame exceeds a datagram is
    striped all the same; when its thread's writer comes to it, the send fails
    as too large and the healthy thread is marked down. *)
Theorem oversized_payload_downs_thread n n' payload ts r m p nows roll wrote now e res :
  MaxDatagram - HeaderLen < zlen payload -> ingress n payload ts = (n', Some r) ->
  is_Some (Get (reg (engine m)) (srThreadID r)) ->
  threads m !! srThreadID r = Some p -> inflight p = Some (srFrame r) ->
  Transport.Send (ep p) (srFrame r) nows roll wrote = (e, Some res) ->
  res = Err ErrTooLarge /\
  thread_up (write_done m (srThreadID r) p (srFrame r) now e res) (srThreadID r) = Some false.
Proof.
  intros Hlen Hin [t Ht] Hp Hf Hs. unfold ingress in Hin.
  destruct (Strip _ _ _ _) as [e' [r'|]] eqn:E; [|done]. injection Hin as <- <-.
  apply Strip_ok in E as (ws & c & _ & _ & -> & _).
  unfold Transport.Send in Hs. cbn [srFrame srThreadID] in *. unfold weave_frame in Hs.
  rewrite zlen_Frame, (proj2 (Z.ltb_lt _ _)) in Hs by lia.
  injection Hs as <- <-. split; [done|]. unfold write_done. rewrite complete_up.
  by eapply health_up.
Qed.

(** ** Concrete instances *)
Definition demo_env : Env :=
  mkEnv true (fun _ => true) (fun tc => Dial (tcID tc) true "peer" (Some "peer"%string) f64_zero 1)
    true 1.
Definition demo_config : Config :=
  mkConfig "n" "" "" "" "" [mkThreadConfig "a" "" "" (f64_of_Z 100)] Second 0 0 4.
Definition demo_empty : Node := mkNode demo_config (NewEngine (mkUdpSink false (fun _ => true) 0 0) "") ∅ [] 0 0 0.
Definition demo_node : Node :=
  match NewNode demo_env demo_config with Ok n => n | Err _ => demo_empty end.
Lemma demo_node_new : NewNode demo_env demo_config = Ok demo_node.
Proof. vm_compute. reflexivity. Qed.
Definition demo_state : State :=
  let '(n, r) := ingress demo_node [1; 2; 3] 5 in mkState n r.
Lemma demo_reachable : reachable (mkState demo_node None) demo_state.
Proof. eapply rtc_once, (step_ingress demo_node [1; 2; 3] 5); by vm_compute. Qed.
Definition demo_pipe : threadPipe :=
  newPipe (mkEndpoint "a" (Some "peer"%string) f64_zero 1 f64_zero f64_zero false 0 0 0 0 0).
Lemma demo_state_pipe : threads (node demo_state) !! "a"%string = Some demo_pipe.
Proof. vm_compute. reflexivity. Qed.
Example demo_backlog : backlog (pending demo_state) "a" demo_pipe = 27.
Proof. vm_compute. reflexivity. Qed.

Lemma queue_accounting_witness :
  (QueueBytes <$> Get (reg (engine (node demo_state))) "a") =
    Some (backlog (pending demo_state) "a" demo_pipe) /\
  zlen (txq demo_pipe) <= QueueFrames (cfg (node demo_state)).
Proof.
  apply (queue_accounting demo_env demo_config demo_node demo_state "a" demo_pipe).
  - by vm_compute.
  - exact demo_node_new.
  - exact demo_reachable.
  - exact demo_state_pipe.
Defined.
Lemma one_probe_in_flight_witness :
  probes demo_pipe = ∅ \/ exists t, probes demo_pipe = {[probeSeq demo_pipe := t]}.
Proof.
  apply (one_probe_in_flight demo_env demo_config demo_node demo_state "a" demo_pipe).
  - exact demo_node_new.
  - exact demo_reachable.
  - exact demo_state_pipe.
Defined.

Definition demo_missed : threadPipe := {| demo_pipe with probes := {[7 := 10]}; probeSeq := 7; misses := 2 |}.
Definition demo_probing : Node := set_pipe demo_node "a" demo_missed.
Lemma failover_witness : exists t, Get (reg (engine demo_probing)) "a" = Some t /\
  overdue (cfg demo_probing) (fun _ => 10 + 4 * Second) demo_missed {[7 := 10]} /\
  (* the third miss, 3 s after the probe *)
  thread_up (probeOnce demo_probing "a" demo_missed (fun _ => 10 + 4 * Second) 11 12
    (ep demo_missed, Ok tt)) "a" = Some false /\
  (* the echo of probe 7 *)
  thread_up (handleProbe demo_probing "a" demo_missed
    {| (Shim.New 1 7 0) with Flags := Z.lor FlagProbe FlagLast |} 20 [] f64_zero true) "a" = Some true.
Proof.
  destruct (Get (reg (engine demo_probing)) "a") as [t|] eqn:E; [|by vm_compute in E].
  exists t. split; [done|].
  assert (Hl : overdue (cfg demo_probing) (fun _ => 10 + 4 * Second) demo_missed {[7 := 10]}).
  { intros k at_. split; [|by intros [? _]]. intros [<- <-]%lookup_singleton_Some.
    split; [apply lookup_singleton_eq|vm_compute; reflexivity]. }
  destruct (failover demo_probing "a" demo_missed t (lookup_insert_eq _ _ _) E) as [Hd Hu].
  split; [exact Hl|]. split.
  - exact (proj1 (Hd (fun _ => 10 + 4 * Second) 11 12 (ep demo_missed, Ok tt) {[7 := 10]} Hl)).
  - refine (proj1 (Hu {| (Shim.New 1 7 0) with Flags := Z.lor FlagProbe FlagLast |} 20 [] f64_zero
      true _)). done.
Defined.

Definition demo_big : bytes := replicate 65500 0.
Lemma oversized_payload_downs_thread_witness :
  match ingress demo_node demo_big 5 with
  | (n', Some r) =>
      let id := srThreadID r in
      let p := {| demo_pipe with inflight := Some (srFrame r) |} in
      match Transport.Send (ep p) (srFrame r) [] f64_zero true with
      | (e, Some res) => res = Err ErrTooLarge /\
          thread_up (write_done (set_pipe n' id p) id p (srFrame r) 6 e res) id = Some false
      | _ => False
      end
  | _ => False
  end.
Proof.
  assert (H : match ingress demo_node demo_big 5 with
    | (n', Some r) => bool_decide (is_Some (Get (reg (engine n')) (srThreadID r))) &&
        match (Transport.Send (ep demo_pipe) (srFrame r) [] f64_zero true).2 with
        | Some _ => true | None => false end = true
    | _ => False end) by (vm_compute; reflexivity).
  assert (Hlen : MaxDatagram - HeaderLen < zlen demo_big) by (vm_compute; reflexivity).
  revert H Hlen. generalize demo_big. intros payload H Hlen.
  destruct (ingress demo_node payload 5) as [n' [r|]] eqn:E; [|done].
  apply andb_true_iff in H as [Hr%bool_decide_eq_true_1 Hs]. cbv zeta. cbn [ep] in *.
  destruct (Transport.Send _ _ _ _ _) as [e [res|]] eqn:Es; [|done].
  apply (oversized_payload_downs_thread demo_node n' payload 5 r
    (set_pipe n' (srThreadID r) {| demo_pipe with inflight := Some (srFrame r) |})
    {| demo_pipe with inflight := Some (srFrame r) |} [] f64_zero true 6 e res); try done.
  apply lookup_insert_eq.
Defined.
