(* ===== verification/Shutdown.v ===== *)
(** * Shutdown: the goroutines of a Hydra node and how they end

    [core/hydra/node/node.go] and [core/hydra/transport/transport.go] seen for
    their control flow: [start] spawns the loops, [Close] closes the channel
    and the sockets and waits for the loops.  A loop is the point it is at;
    what it computes there is [Node]'s and [Transport]'s.  The theorems: no
    loop ends before [Close], [Close] is never stuck, and it returns within a
    number of steps that is computed from where the loops were. *)
From S2P Require Import Prelude.

(** ** Points *)
(** Inside [Endpoint.Send]: at the head of [wait]'s loop, in its select, or
    past it at the write. *)
Inductive Sending := Head | Sleeping | Writing.
Inductive IngressPoint := IRead | IPause | IWork | IEnd.
Inductive ReaderPoint := RRead | RPause | RWork | RSend (a : Sending) | REnd.
Inductive WriterPoint := WSelect | WSend (a : Sending) | WEnd.
#[global] Instance Sending_eq_dec : EqDecision Sending.
Proof. solve_decision. Defined.
#[global] Instance ReaderPoint_eq_dec : EqDecision ReaderPoint.
Proof. solve_decision. Defined.
#[global] Instance WriterPoint_eq_dec : EqDecision WriterPoint.
Proof. solve_decision. Defined.
(** A round probes the threads of a list; the endpoint a probe is sent on. *)
Inductive ProberPoint := PSelect | PRound (l : list nat) | PSend (i : nat) (a : Sending) (l : list nat) | PEnd.
(** A thread: its reader, its writer, the frames in its queue, its socket. *)
Record Thread := mkThread { reader : ReaderPoint; writer : WriterPoint; queued : nat; open_ : bool }.
(** [Close]'s caller: not there yet, closing the ingress socket (the egress
    socket, which no loop reads, goes with it), closing the endpoints in the
    map's order, waiting for the loops, or back. *)
Inductive Closer := NotCalled | CloseIngress | CloseThreads (l : list nat) | Waiting | Returned.
Record State := mkState {
  closing : bool; ingress : IngressPoint; ingress_open : bool;
  threads : list Thread; prober : ProberPoint; closer : Closer;
}.
(** What [start] spawns: no ingress loop without a socket, no prober without an
    interval. *)
Definition start (has_ingress : bool) (n : nat) (probing : bool) : State :=
  mkState false (if has_ingress then IRead else IEnd) has_ingress
    (replicate n (mkThread RRead WSelect 0 true)) (if probing then PSelect else PEnd) NotCalled.

(** ** Steps *)
(** [Send], [None] when it returns.  A closed endpoint is seen at the head and
    in the select; a bucket that is full enough or has no rate is left for the
    write; a frame too large returns at once. *)
Inductive send_step (is_open : bool) : Sending -> option Sending -> Prop :=
  | send_return : send_step is_open Head None
  | send_granted : is_open = true -> send_step is_open Head (Some Writing)
  | send_short : is_open = true -> send_step is_open Head (Some Sleeping)
  | send_timer : send_step is_open Sleeping (Some Head)
  | send_closed : is_open = false -> send_step is_open Sleeping None
  | send_written : send_step is_open Writing None.
Definition set_thread (i : nat) (t : Thread) (s : State) : State :=
  {| s with threads := <[i := t]> (threads s) |}.
Definition thread_of (s : State) (i : nat) (t : Thread) : Prop := threads s !! i = Some t.
Definition ended (s : State) : Prop :=
  ingress s = IEnd /\ prober s = PEnd /\ Forall (fun t => reader t = REnd /\ writer t = WEnd) (threads s).
(** [isClosing] after an error of a read. *)
Definition read_failed {P} (s : State) (end_ pause : P) : P := if closing s then end_ else pause.
Definition after_send {P} (r : option Sending) (again : Sending -> P) (back : P) : P :=
  match r with Some a => again a | None => back end.

Inductive Label := Tick | Other.
(** [cap]: the capacity of the queues. *)
Inductive step (cap : nat) : State -> Label -> State -> Prop :=
  (* ingressLoop *)
  | ingress_reads s : ingress s = IRead -> ingress_open s = true -> step cap s Other {| s with ingress := IWork |}
  | ingress_fails s : ingress s = IRead -> step cap s Other {| s with ingress := read_failed s IEnd IPause |}
  | ingress_wakes s : ingress s = IPause -> step cap s Other {| s with ingress := IRead |}
  | ingress_drops s : ingress s = IWork -> step cap s Other {| s with ingress := IRead |}
  | ingress_enqueues s i t : ingress s = IWork -> thread_of s i t -> (queued t < cap)%nat ->
      step cap s Other (set_thread i {| t with queued := S (queued t) |} {| s with ingress := IRead |})
  (* readLoop *)
  | reader_reads s i t : thread_of s i t -> reader t = RRead -> open_ t = true ->
      step cap s Other (set_thread i {| t with reader := RWork |} s)
  | reader_fails s i t : thread_of s i t -> reader t = RRead ->
      step cap s Other (set_thread i {| t with reader := read_failed s REnd RPause |} s)
  | reader_wakes s i t : thread_of s i t -> reader t = RPause ->
      step cap s Other (set_thread i {| t with reader := RRead |} s)
  | reader_handles s i t : thread_of s i t -> reader t = RWork ->
      step cap s Other (set_thread i {| t with reader := RRead |} s)
  | reader_echoes s i t : thread_of s i t -> reader t = RWork ->
      step cap s Other (set_thread i {| t with reader := RSend Head |} s)
  | reader_sends s i t a r : thread_of s i t -> reader t = RSend a -> send_step (open_ t) a r ->
      step cap s Other (set_thread i {| t with reader := after_send r RSend RRead |} s)
  (* writeLoop *)
  | writer_ends s i t : thread_of s i t -> writer t = WSelect -> closing s = true ->
      step cap s Other (set_thread i {| t with writer := WEnd |} s)
  | writer_takes s i t q : thread_of s i t -> writer t = WSelect -> queued t = S q ->
      step cap s Other (set_thread i (mkThread (reader t) (WSend Head) q (open_ t)) s)
  | writer_sends s i t a r : thread_of s i t -> writer t = WSend a -> send_step (open_ t) a r ->
      step cap s Other (set_thread i {| t with writer := after_send r WSend WSelect |} s)
  (* probeLoop *)
  | prober_ends s : prober s = PSelect -> closing s = true -> step cap s Other {| s with prober := PEnd |}
  | prober_ticks s : prober s = PSelect ->
      step cap s Tick {| s with prober := PRound (seq 0 (length (threads s))) |}
  | prober_done s : prober s = PRound [] -> step cap s Other {| s with prober := PSelect |}
  | prober_skips s i l : prober s = PRound (i :: l) -> step cap s Other {| s with prober := PRound l |}
  | prober_probes s i l : prober s = PRound (i :: l) -> step cap s Other {| s with prober := PSend i Head l |}
  | prober_sends s i t a l r : prober s = PSend i a l -> thread_of s i t -> send_step (open_ t) a r ->
      step cap s Other {| s with prober := after_send r (fun a => PSend i a l) (PRound l) |}
  (* Close *)
  | close_called s : closer s = NotCalled ->
      step cap s Other {| s with closing := true; closer := CloseIngress |}
  | close_ingress s order : closer s = CloseIngress -> order ≡ₚ seq 0 (length (threads s)) ->
      step cap s Other {| s with ingress_open := false; closer := CloseThreads order |}
  | close_thread s i t l : closer s = CloseThreads (i :: l) -> thread_of s i t ->
      step cap s Other {| (set_thread i {| t with open_ := false |} s) with closer := CloseThreads l |}
  | close_waits s : closer s = CloseThreads [] -> step cap s Other {| s with closer := Waiting |}
  | close_returns s : closer s = Waiting -> ended s -> step cap s Other {| s with closer := Returned |}.

(** A run of steps with its labels. *)
Inductive steps (cap : nat) : State -> list Label -> State -> Prop :=
  | steps_nil s : steps cap s [] s
  | steps_cons s a s1 l s2 : step cap s a s1 -> steps cap s1 l s2 -> steps cap s (a :: l) s2.

(** ** What always holds *)
Definition alive (s : State) (t : Thread) : Prop :=
  closing s = false -> reader t <> REnd /\ writer t <> WEnd.
(** The sockets still open are among those [Close] has yet to close. *)
Definition sockets (s : State) : Prop :=
  match closer s with
  | NotCalled | CloseIngress => True
  | CloseThreads l => ingress_open s = false /\ Forall (fun i => (i < length (threads s))%nat) l /\
      forall i t, thread_of s i t -> open_ t = true -> i ∈ l
  | Waiting | Returned => ingress_open s = false /\ forall i t, thread_of s i t -> open_ t = false
  end.
Definition probed (s : State) : Prop :=
  match prober s with
  | PRound l => Forall (fun i => (i < length (threads s))%nat) l
  | PSend i _ l => Forall (fun i => (i < length (threads s))%nat) (i :: l)
  | _ => True
  end.
Record inv (has_ingress : bool) (n : nat) (probing : bool) (cap : nat) (s : State) : Prop := mkInv {
  inv_length : length (threads s) = n;
  inv_closing : closing s = match closer s with NotCalled => false | _ => true end;
  inv_sockets : sockets s;
  inv_probed : probed s;
  inv_ingress : closing s = false -> ingress s = IEnd -> has_ingress = false;
  inv_prober : closing s = false -> prober s = PEnd -> probing = false;
  inv_alive : Forall (alive s) (threads s);
  inv_queued : Forall (fun t => (queued t <= cap)%nat) (threads s);
  inv_returned : closer s = Returned -> ended s;
}.

Section Invariant.
Context (has_ingress : bool) (n : nat) (probing : bool) (cap : nat).
Abbreviation Inv := (inv has_ingress n probing cap).

Lemma inv_start : Inv (start has_ingress n probing).
Proof.
  split; cbn; rewrite ?length_replicate; try done.
  - unfold probed. cbn. by destruct probing.
  - by destruct has_ingress.
  - by destruct probing.
  - apply Forall_replicate. by intros _.
  - apply Forall_replicate. cbn. lia.
Qed.
(** A step of a loop on one thread that leaves its socket alone. *)
Lemma inv_thread s i t t' : Inv s -> thread_of s i t -> open_ t' = open_ t -> (queued t' <= cap)%nat ->
  (closing s = false -> reader t' <> REnd /\ writer t' <> WEnd) ->
  ~ ended s -> Inv (set_thread i t' s).
Proof.
  intros [Hl Hc Hs Hp Hi Hr Ha Hq Hd] Ht Ho Hq' Ha' Hne. unfold set_thread, thread_of in *.
  assert (Hopen : forall j x, (<[i:=t']> (threads s)) !! j = Some x -> exists y, threads s !! j = Some y /\ open_ x = open_ y).
  { intros j x [(-> & <- & _)|[_ Hx]]%list_lookup_insert_Some; eauto. }
  split; cbn [threads closing closer ingress prober ingress_open]; rewrite ?length_insert; try done.
  - unfold sockets, thread_of in *. cbn [threads closer ingress_open]. rewrite length_insert. destruct (closer s); try done.
    + destruct Hs as (? & ? & Hs). split_and!; [done..|]. intros j x Hx. destruct (Hopen j x Hx) as (y & Hy & ->). by apply Hs.
    + destruct Hs as (? & Hs). split; [done|]. intros j x Hx. destruct (Hopen j x Hx) as (y & Hy & ->). by eapply Hs.
    + destruct Hs as (? & Hs). split; [done|]. intros j x Hx. destruct (Hopen j x Hx) as (y & Hy & ->). by eapply Hs.
  - unfold probed in *. cbn [threads prober]. by rewrite length_insert.
  - by apply Forall_insert.
  - by apply Forall_insert.
  - intros E. by destruct (Hne (Hd E)).
Qed.
Lemma busy_thread s i t : thread_of s i t -> ~ (reader t = REnd /\ writer t = WEnd) -> ~ ended s.
Proof. intros Ht Hn (_ & _ & He). rewrite Forall_lookup in He. by apply Hn, (He i). Qed.
Lemma inv_ingress_at s p : Inv s -> ingress s <> IEnd -> (closing s = false -> p <> IEnd) ->
  Inv {| s with ingress := p |}.
Proof.
  intros [Hl Hc Hs Hp Hi Hr Ha Hq Hd] Hne Hn. split; cbn; try done.
  - intros E ->. by destruct Hn.
  - intros E. by destruct (Hd E).
Qed.
Lemma inv_prober_at s p : Inv s -> prober s <> PEnd -> (closing s = false -> p <> PEnd) ->
  probed {| s with prober := p |} -> Inv {| s with prober := p |}.
Proof.
  intros [Hl Hc Hs Hp Hi Hr Ha Hq Hd] Hne Hn Hp'. split; try done.
  - cbn. intros E ->. by destruct Hn.
  - cbn. intros E. by destruct (Hd E) as (_ & ? & _).
Qed.
Lemma in_range s i t : thread_of s i t -> (i < length (threads s))%nat.
Proof. apply lookup_lt_Some. Qed.
Lemma inv_step s lab s' : Inv s -> step cap s lab s' -> Inv s'.
Proof.
  intros HI Hs. pose proof HI as [Hl Hc Hk Hp Hi Hr Ha Hq Hd].
  assert (Hat : forall i t, thread_of s i t -> (queued t <= cap)%nat /\ alive s t).
  { intros i t Ht. split; [by apply (Forall_lookup_1 _ _ _ _ Hq Ht)|by apply (Forall_lookup_1 _ _ _ _ Ha Ht)]. }
  unfold probed in Hp.
  destruct Hs as [s E E2|s E|s E|s E|s i t E Ht Hcap|s i t Ht E E2|s i t Ht E|s i t Ht E|s i t Ht E|s i t Ht E
    |s i t a r Ht E Hsend|s i t Ht E E2|s i t q Ht E E2|s i t a r Ht E Hsend|s E E2|s E|s E|s i l E|s i l E|s i t a l r E Ht Hsend
    |s E|s order E Hperm|s i t l E Ht|s E|s E He].
  (* the loops *)
  1-4: apply inv_ingress_at; [done|by rewrite E|]; unfold read_failed; intros Hcl; by rewrite ?Hcl.
  2-10: destruct (Hat i t Ht) as [Hqt Hal]; unfold alive in Hal;
    (apply (inv_thread _ _ t); cbn; try done; try lia; try (eapply busy_thread; [exact Ht|]; rewrite E; by intros [? ?]);
    try (intros Hcl; destruct (Hal Hcl); unfold read_failed; rewrite ?Hcl, ?E; by destruct r || done)).
  - destruct (Hat i t Ht) as [Hqt Hal]. apply (inv_thread _ _ t); cbn; try done; try lia.
    + apply inv_ingress_at; [done|by rewrite E|done].
    + by intros (? & _).
  - intros Hcl. congruence.
  - apply inv_prober_at; [done|by rewrite E| |done]. intros. congruence.
  - apply inv_prober_at; [done|by rewrite E|done|]. cbn. apply Forall_seq. lia.
  - by apply inv_prober_at; [|rewrite E| |].
  - rewrite E in Hp. apply Forall_cons in Hp as [? ?]. by apply inv_prober_at; [|rewrite E| |].
  - rewrite E in Hp. by apply inv_prober_at; [|rewrite E| |].
  - rewrite E in Hp. apply Forall_cons in Hp as [? ?]. apply inv_prober_at; [done|by rewrite E|by destruct r|].
    destruct r; cbn; [by constructor|done].
  (* the caller of Close *)
  - split; cbn; try done. eapply Forall_impl; [exact Ha|]. by intros t _ ?.
  - split; cbn; try done; try (rewrite Hc, E; done).
    + split; [done|]. rewrite Hperm. split; [apply Forall_seq; lia|]. intros i t Ht _.
      apply in_range in Ht. rewrite Hperm, elem_of_seq. cbn in Ht. lia.
  - assert (Hne : ~ ended s -> True) by done.
    unfold sockets in Hk. rewrite E in Hk. destruct Hk as (Hio & Hr' & Hopen).
    apply Forall_cons in Hr' as [_ Hr']. unfold set_thread, thread_of in *.
    split; cbn; rewrite ?length_insert; try done; try (rewrite Hc, E; done).
    + unfold sockets, thread_of. cbn. rewrite ?length_insert. split; [done|]. split; [done|]. intros j x.
      intros [(-> & <- & _)|[Hj Hx]]%list_lookup_insert_Some Ho; [done|].
      specialize (Hopen j x Hx Ho). set_solver.
    + unfold probed. cbn. by rewrite ?length_insert.
    + apply Forall_insert; [done|]. apply (Hat i t Ht).
    + apply Forall_insert; [done|]. apply (Hat i t Ht).
  - split; cbn; try done; [by rewrite Hc, E|]. unfold sockets in *. rewrite E in Hk. destruct Hk as (? & _ & Ho).
    split; [done|]. intros i t Ht. destruct (open_ t) eqn:Eo; [|done]. specialize (Ho i t Ht Eo). set_solver.
  - split; cbn; try done; [by rewrite Hc, E|]. unfold sockets in *. by rewrite E in Hk.
Qed.
Lemma inv_steps s l s' : Inv s -> steps cap s l s' -> Inv s'.
Proof. intros HI Hs. induction Hs as [|s a s1 l s2 H1 _ IH]; [done|]. apply IH. by eapply inv_step. Qed.

(** ** The way left *)
Local Open Scope nat_scope.
Definition send_weight (a : Sending) : nat := match a with Head | Writing => 1 | Sleeping => 2 end.
Definition ingress_weight (p : IngressPoint) : nat := match p with IEnd => 0 | IRead => 1 | IPause => 2 | IWork => 4 end.
Definition prober_weight (p : ProberPoint) : nat :=
  match p with
  | PEnd => 0 | PSelect => 1 | PRound l => 2 + 2 * length l | PSend _ a l => 2 + 2 * length l + send_weight a
  end.
Definition thread_weight (t : Thread) : nat :=
  match reader t with REnd => 0 | RRead => 1 | RPause => 2 | RWork => 3 | RSend a => 1 + send_weight a end +
  match writer t with WEnd => 0 | WSelect => 1 | WSend a => 1 + send_weight a end + 2 * queued t.
(** How many steps are left at most once [Close] waits, ticks apart. *)
Definition weight (s : State) : nat :=
  ingress_weight (ingress s) + prober_weight (prober s) + sum_list_with thread_weight (threads s) +
  match closer s with Waiting => 1 | _ => 0 end.
Definition ticks (l : list Label) : nat := foldr (fun a k => match a with Tick => S k | Other => k end) 0 l.

Lemma sum_insert {A} (f : A -> nat) l i x y : l !! i = Some x ->
  (sum_list_with f (<[i:=y]> l) + f x = sum_list_with f l + f y)%nat.
Proof.
  revert i. induction l as [|z l IH]; intros [|i]; cbn; try done.
  { intros [= ->]. lia. }
  intros Hi. specialize (IH i Hi). rewrite <- !Nat.add_assoc. f_equal. exact IH.
Qed.
(** A step on one thread changes the weight by the thread's. *)
Lemma weight_thread s i t t' : thread_of s i t ->
  (weight (set_thread i t' s) + thread_weight t = weight s + thread_weight t')%nat.
Proof. intros Ht. unfold weight, set_thread. cbn. pose proof (sum_insert thread_weight _ i t t' Ht). lia. Qed.
Lemma weight_less s i t t' : thread_of s i t -> thread_weight t' < thread_weight t ->
  weight (set_thread i t' s) < weight s + 0.
Proof. intros Ht Hlt. pose proof (weight_thread s i t t' Ht). lia. Qed.
Lemma send_weight_pos a : 1 <= send_weight a.
Proof. destruct a; cbn; lia. Qed.
Lemma send_weight_step a r : send_step false a r ->
  (match r with Some a' => send_weight a' < send_weight a | None => True end)%nat.
Proof. inversion 1; cbn; done || lia. Qed.
Lemma step_weight s lab s' : Inv s -> closer s = Waiting -> step cap s lab s' ->
  closer s' <> NotCalled /\ (closer s' = Waiting \/ closer s' = Returned) /\
  (weight s' < weight s + match lab with Tick => 2 + 2 * n | Other => 0 end)%nat.
Proof.
  intros [Hl Hc Hk _ _ _ _ _ _] Hw Hs. unfold sockets in Hk. rewrite Hw in Hk, Hc. destruct Hk as [Hio Ho].
  assert (Hsend : forall i t a r, thread_of s i t -> send_step (open_ t) a r ->
    (match r with Some a' => send_weight a' < send_weight a | None => True end)%nat).
  { intros i t a r Ht Hst. rewrite (Ho i t Ht) in Hst. by apply send_weight_step. }
  destruct Hs as [s E E2|s E|s E|s E|s i t E Ht Hcap|s i t Ht E E2|s i t Ht E|s i t Ht E|s i t Ht E|s i t Ht E
    |s i t a r Ht E Hst|s i t Ht E E2|s i t q Ht E E2|s i t a r Ht E Hst|s E E2|s E|s E|s i l E|s i l E|s i t a l r E Ht Hst
    |s E|s order E Hperm|s i t l E Ht|s E|s E He]; try congruence.
  all: cbn [closer set_thread]; rewrite ?Hw; (split; [done|split; [by auto|]]).
  all: try specialize (Hsend _ _ _ _ Ht Hst).
  (* a step on a thread *)
  all: lazymatch goal with
       | |- context [set_thread ?i ?t' {| closing := _ |}] => idtac
       | |- context [set_thread _ _ _] =>
           apply (weight_less s i t); [exact Ht|]; unfold thread_weight, read_failed; cbn; rewrite ?E, ?Hc;
             try (specialize (Ho _ _ Ht); congruence);
             try match goal with Eq : queued _ = _ |- _ => rewrite Eq end; try destruct r; cbn in *; try lia
       | |- _ => unfold weight, read_failed; cbn; rewrite ?E, ?Hc, ?Hw, ?length_seq; try destruct r; cbn; try lia
       end.
  2-4: pose proof (send_weight_pos a); lia.
  match goal with |- weight (set_thread i ?t' ?s0) < _ => pose proof (weight_thread s0 i t t' Ht) as Hwt end.
  assert (E2 : weight {| s with ingress := IRead |} + 3 = weight s) by (unfold weight; cbn; rewrite E; cbn; lia).
  rewrite <- Hw in *. unfold thread_weight in Hwt. cbn [reader writer queued] in Hwt. lia.
Qed.
(** Something other than a tick can always happen until [Close] is back. *)
Lemma waiting_moves s : Inv s -> closer s = Waiting -> exists s', step cap s Other s'.
Proof.
  intros [Hl Hc Hk Hp _ _ _ _ _] Hw. unfold sockets in Hk. rewrite Hw in Hk, Hc. destruct Hk as [_ Ho].
  assert (Hsend : forall a, exists r, send_step false a r) by (intros []; eexists; by constructor).
  destruct (ingress s) eqn:Ei.
  1: by eexists; apply ingress_fails.
  1: by eexists; apply ingress_wakes.
  1: by eexists; apply ingress_drops.
  unfold probed in Hp. destruct (prober s) as [|l|i a l|] eqn:Ep.
  1: by eexists; apply prober_ends.
  1: destruct l as [|i l]; [by eexists; apply prober_done|by eexists; eapply prober_skips].
  1: { apply Forall_cons in Hp as [Hi _]. apply lookup_lt_is_Some in Hi as [t Ht]. destruct (Hsend a) as [r Hr].
       eexists. eapply prober_sends; [done|exact Ht|]. by rewrite (Ho i t Ht). }
  destruct (decide (Forall (fun t => reader t = REnd /\ writer t = WEnd) (threads s))) as [He|He].
  { eexists. by apply close_returns. }
  apply not_Forall_Exists in He; [|intros t; apply _]. apply Exists_exists in He as (t & Hin & Hne).
  apply list_elem_of_lookup in Hin as [i Ht].
  assert (Hcl := Ho i t Ht). destruct (reader t) as [| | |a|] eqn:Er.
  - by eexists; eapply reader_fails.
  - by eexists; eapply reader_wakes.
  - by eexists; eapply reader_handles.
  - destruct (Hsend a) as [r Hr]. eexists. eapply reader_sends; [exact Ht|done|by rewrite Hcl].
  - destruct (writer t) as [|a|] eqn:Ewr; [by eexists; eapply writer_ends| |by destruct Hne].
    destruct (Hsend a) as [r Hr]. eexists. eapply writer_sends; [exact Ht|done|by rewrite Hcl].
Qed.
(** Its caller is never stuck before it waits. *)
Lemma closer_moves s : Inv s -> closer s <> Waiting -> closer s <> Returned -> exists s', step cap s Other s' /\ closer s' <> closer s.
Proof.
  intros [Hl Hc Hk _ _ _ _ _ _] H1 H2. unfold sockets in Hk. destruct (closer s) as [| |[|i l]| |] eqn:E; try done.
  - eexists. split; [by apply close_called|done].
  - eexists. split; [by eapply close_ingress|done].
  - eexists. split; [by apply close_waits|done].
  - destruct Hk as (_ & Hr & _). apply Forall_cons in Hr as [Hi _]. apply lookup_lt_is_Some in Hi as [t Ht].
    eexists. split; [by eapply close_thread|]. cbn. intros [= El]. apply (f_equal length) in El. cbn in El. lia.
Qed.
Lemma returned_still s lab s' : Inv s -> closer s = Returned -> ~ step cap s lab s'.
Proof.
  intros [_ Hc _ _ _ _ _ _ Hd] Hr Hs. destruct (Hd Hr) as (Ei & Ep & Et). rewrite Forall_lookup in Et.
  unfold thread_of in *. inversion Hs; subst; unfold thread_of in *; try congruence;
    match goal with H : threads _ !! _ = Some _ |- _ => apply Et in H as [? ?]; congruence end.
Qed.
Lemma waiting_bound s l s' : Inv s -> closer s = Waiting -> steps cap s l s' ->
  length l + weight s' <= weight s + ticks l * (3 + 2 * n).
Proof.
  intros HI Hw Hs. induction Hs as [s|s a s1 l s2 H1 Hs IH]; [cbn; lia|].
  destruct (step_weight s a s1 HI Hw H1) as (_ & [Hw1|Hr1] & Hlt).
  - specialize (IH (inv_step _ _ _ HI H1) Hw1). destruct a; cbn [length ticks foldr] in *; fold (ticks l) in *; lia.
  - inversion Hs as [|? ? ? ? ? H2]; subst; [destruct a; cbn; lia|].
    by destruct (returned_still s1 a0 s3 (inv_step _ _ _ HI H1) Hr1).
Qed.
Lemma waiting_returns s : Inv s -> closer s = Waiting -> exists l s', steps cap s l s' /\ ticks l = 0 /\ closer s' = Returned.
Proof.
  remember (weight s) as k eqn:Ek. revert s Ek. induction k as [k IH] using lt_wf_ind. intros s -> HI Hw.
  destruct (waiting_moves s HI Hw) as [s1 H1]. destruct (step_weight s Other s1 HI Hw H1) as (_ & [Hw1|Hr1] & Hlt).
  - destruct (IH (weight s1) ltac:(lia) s1 eq_refl (inv_step _ _ _ HI H1) Hw1) as (l & s' & Hs & Ht & Hr).
    exists (Other :: l), s'. split; [by econstructor|done].
  - exists [Other], s1. split; [econstructor; [exact H1|constructor]|done].
Qed.
End Invariant.
Local Open Scope nat_scope.

(** C25: [Close] ends a node.  In every state a node can come to, whatever
    datagrams, ticks and capacities its loops meet: before [Close] is called
    every loop that was started runs; the caller of [Close] can always go on
    until it waits; while it waits, a run is no longer than a bound on where
    the loops are and, for each tick that a select prefers to the closed
    channel, a round of probes more, so that [Close] returns, and without such
    ticks it can always get there; when it has returned every loop has ended,
    a writer that slept on its thread's capacity too, and nothing moves. *)
Theorem close_terminates has_ingress n probing cap l0 s : steps cap (start has_ingress n probing) l0 s ->
  (closer s = NotCalled ->
     (ingress s = IEnd -> has_ingress = false) /\ (prober s = PEnd -> probing = false) /\
     Forall (fun t => reader t <> REnd /\ writer t <> WEnd) (threads s)) /\
  (closer s <> Waiting -> closer s <> Returned -> exists s', step cap s Other s' /\ closer s' <> closer s) /\
  (closer s = Waiting ->
     (forall l s', steps cap s l s' -> length l + weight s' <= weight s + ticks l * (3 + 2 * n)) /\
     exists l s', steps cap s l s' /\ ticks l = 0 /\ closer s' = Returned) /\
  (closer s = Returned -> ended s /\ forall lab s', ~ step cap s lab s').
Proof.
  intros Hs. pose proof (inv_steps _ _ _ _ _ _ _ (inv_start has_ingress n probing cap) Hs) as HI.
  split; [|split; [|split]].
  - intros Hc. pose proof (inv_closing _ _ _ _ _ HI) as Hcl. rewrite Hc in Hcl.
    split; [by apply (inv_ingress _ _ _ _ _ HI)|]. split; [by apply (inv_prober _ _ _ _ _ HI)|].
    eapply Forall_impl; [exact (inv_alive _ _ _ _ _ HI)|]. intros t Ht. by apply Ht.
  - eapply closer_moves, HI.
  - intros Hw. split; [intros l s'; by eapply waiting_bound|by eapply waiting_returns].
  - intros Hr. split; [by apply (inv_returned _ _ _ _ _ HI)|]. intros lab s'. by eapply returned_still.
Qed.
(** A node that [Close] meets with a writer asleep and a frame in its queue. *)
Definition asleep : State :=
  mkState true IRead false [mkThread RRead (WSend Sleeping) 1 false] (PSend 0 Head []) Waiting.
Local Tactic Notation "go" open_constr(c) := eapply steps_cons; [eapply c; try reflexivity; try (by constructor); cbn; lia|cbn].
Lemma asleep_reached : exists l, steps 4 (start true 1 true) l asleep.
Proof.
  eexists. unfold start. cbn.
  go ingress_reads. go (ingress_enqueues 4 _ 0). go (writer_takes 4 _ 0). go (writer_sends 4 _ 0 _ Head (Some Sleeping)).
  go ingress_reads. go (ingress_enqueues 4 _ 0). go prober_ticks. go prober_probes.
  go close_called. go close_ingress. go close_thread. go close_waits. apply steps_nil.
Qed.
Lemma close_terminates_witness : weight asleep = 11 /\
  (forall l s', steps 4 asleep l s' -> length l + weight s' <= 11 + ticks l * 5) /\
  exists l s', steps 4 asleep l s' /\ ticks l = 0 /\ closer s' = Returned.
Proof.
  split; [reflexivity|]. destruct asleep_reached as [l0 Hs].
  exact (proj1 (proj2 (proj2 (close_terminates true 1 true 4 l0 asleep Hs))) eq_refl).
Defined.
