(* ===== verification/Encoding.v ===== *)
(** * Encoding: [encoding/hex] and [encoding/base64]

    The text encodings of the standard library the program relies on: keys
    and challenges travel as hex, packages and sealed profiles as base64. *)
From S2P Require Import Prelude.

(** Facts about finitely many integers, by evaluation. *)
(** ** Hexadecimal *)
Definition hex_char (v : Z) : Z := if v <? 10 then 48 + v else 87 + v.
Definition hex_val (c : Z) : option Z :=
  if (48 <=? c) && (c <=? 57) then Some (c - 48)
  else if (97 <=? c) && (c <=? 102) then Some (c - 87)
  else if (65 <=? c) && (c <=? 70) then Some (c - 55)
  else None.
Fixpoint hex_bytes (l : bytes) : bytes :=
  match l with [] => [] | b :: l => hex_char (b / 16) :: hex_char (b mod 16) :: hex_bytes l end.
Fixpoint unhex_bytes (l : bytes) : option bytes :=
  match l with
  | [] => Some []
  | c :: d :: l =>
      hi ← hex_val c; lo ← hex_val d; r ← unhex_bytes l; Some (hi * 16 + lo :: r)
  | [_] => None
  end.
Definition HexEncode (l : bytes) : string := bytes_string (hex_bytes l).
Definition HexDecode (s : string) : option bytes := unhex_bytes (string_bytes s).

Lemma hex_val_char v : 0 <= v < 16 -> hex_val (hex_char v) = Some v.
Proof. revert v. apply (finite_fact _ _). vm_compute. reflexivity. Qed.
Lemma hex_char_byte v : 0 <= v < 16 -> is_byte (hex_char v).
Proof. intros. unfold hex_char, is_byte. case_match; lia. Qed.
Lemma hex_bytes_range l : Forall is_byte l -> Forall is_byte (hex_bytes l).
Proof.
  induction 1 as [|b l Hb Hl IH]; cbn; [constructor|]. unfold is_byte in Hb.
  repeat constructor; try done; apply hex_char_byte; Z.div_mod_to_equations; lia.
Qed.
Lemma zlen_hex_bytes l : zlen (hex_bytes l) = 2 * zlen l.
Proof. induction l as [|b l IH]; [done|]. cbn [hex_bytes]. rewrite !zlen_cons, IH. lia. Qed.
Lemma unhex_hex l : Forall is_byte l -> unhex_bytes (hex_bytes l) = Some l.
Proof.
  induction 1 as [|b l Hb Hl IH]; [done|]. unfold is_byte in Hb. cbn [hex_bytes unhex_bytes].
  rewrite !hex_val_char by (Z.div_mod_to_equations; lia). cbn. rewrite IH. cbn.
  do 2 f_equal. Z.div_mod_to_equations; lia.
Qed.
Lemma HexDecode_Encode l : Forall is_byte l -> HexDecode (HexEncode l) = Some l.
Proof.
  intros Hl. unfold HexDecode, HexEncode.
  rewrite bytes_string_bytes by by apply hex_bytes_range. by apply unhex_hex.
Qed.
Lemma slen_HexEncode l : Forall is_byte l -> slen (HexEncode l) = 2 * zlen l.
Proof.
  intros Hl. unfold slen, HexEncode. rewrite bytes_string_bytes by by apply hex_bytes_range.
  apply zlen_hex_bytes.
Qed.
Lemma HexEncode_empty l : HexEncode l = ""%string -> l = [].
Proof. destruct l as [|b l]; [done|]. unfold HexEncode, bytes_string. cbn. done. Qed.
Lemma hex_val_range c v : hex_val c = Some v -> 0 <= v < 16.
Proof. unfold hex_val. intros. repeat case_match; simplify_eq; zbool; lia. Qed.
Lemma unhex_spec n : forall l r, (length l <= n)%nat -> unhex_bytes l = Some r ->
  Forall is_byte r /\ zlen l = 2 * zlen r.
Proof.
  induction n as [|n IH]; intros [|c [|d l]] r; cbn [length unhex_bytes]; intros Hn E;
    simplify_eq; try lia; try by split; [constructor|].
  destruct (hex_val c) as [hi|] eqn:Ec; [|done]. destruct (hex_val d) as [lo|] eqn:Ed; [|done].
  destruct (unhex_bytes l) as [r'|] eqn:El; [|done]. cbn in E. injection E as <-.
  destruct (IH l r') as [Hr Hz]; [lia|done|]. apply hex_val_range in Ec, Ed.
  rewrite !zlen_cons, Hz. split; [|lia]. constructor; [unfold is_byte; lia|done].
Qed.
Lemma HexDecode_spec s r : HexDecode s = Some r -> Forall is_byte r /\ slen s = 2 * zlen r.
Proof. apply (unhex_spec _ _ _ (le_n _)). Qed.

Lemma filter_id_iff {A} (P : A -> Prop) `{forall x, Decision (P x)} (l : list A) :
  base.filter P l = l <-> Forall P l.
Proof.
  split.
  - intros <-. apply Forall_forall. by intros x [? _]%list_elem_of_filter.
  - induction 1 as [|x l Hx Hl IH]; [done|]. by rewrite filter_cons_True, IH.
Qed.

(** ** Base64, the padded standard alphabet *)
Definition b64_char (v : Z) : Z :=
  if v <? 26 then 65 + v else if v <? 52 then 71 + v else if v <? 62 then v - 4
  else if v =? 62 then 43 else 47.
Definition b64_val (c : Z) : option Z :=
  if (65 <=? c) && (c <=? 90) then Some (c - 65)
  else if (97 <=? c) && (c <=? 122) then Some (c - 71)
  else if (48 <=? c) && (c <=? 57) then Some (c + 4)
  else if c =? 43 then Some 62 else if c =? 47 then Some 63 else None.
Fixpoint b64_bytes (l : bytes) : bytes :=
  match l with
  | [] => []
  | [a] => [b64_char (a / 4); b64_char (a mod 4 * 16); 61; 61]
  | [a; b] => [b64_char (a / 4); b64_char (a mod 4 * 16 + b / 16); b64_char (b mod 16 * 4); 61]
  | a :: b :: c :: l =>
      b64_char (a / 4) :: b64_char (a mod 4 * 16 + b / 16) ::
      b64_char (b mod 16 * 4 + c / 64) :: b64_char (c mod 64) :: b64_bytes l
  end.
Fixpoint unb64_bytes (l : bytes) : option bytes :=
  match l with
  | [] => Some []
  | w :: x :: y :: z :: l =>
      v ← b64_val w; u ← b64_val x;
      let a := v * 4 + u / 16 in
      if z =? 61 then
        match l with
        | _ :: _ => None
        | [] =>
            if y =? 61 then Some [a]
            else t ← b64_val y; Some [a; u mod 16 * 16 + t / 4]
        end
      else
        t ← b64_val y; s ← b64_val z; r ← unb64_bytes l;
        Some (a :: u mod 16 * 16 + t / 4 :: t mod 4 * 64 + s :: r)
  | _ => None
  end.
Definition Base64Encode (l : bytes) : string := bytes_string (b64_bytes l).
(** Line breaks are skipped. *)
Definition Base64Decode (s : string) : option bytes :=
  unb64_bytes (base.filter (fun c => c <> 10 /\ c <> 13) (string_bytes s)).

Lemma b64_val_char v : 0 <= v < 64 -> b64_val (b64_char v) = Some v.
Proof. revert v. apply (finite_fact _ _). vm_compute. reflexivity. Qed.
Lemma b64_char_range v : 0 <= v < 64 -> 43 <= b64_char v <= 122 /\ b64_char v <> 61.
Proof. revert v. apply (finite_fact _ _). vm_compute. reflexivity. Qed.

Lemma triples_ind (P : bytes -> Prop) : P [] -> (forall a, P [a]) -> (forall a b, P [a; b]) ->
  (forall a b c l, P l -> P (a :: b :: c :: l)) -> forall l, P l.
Proof. intros H0 H1 H2 H3. fix IH 1. intros [|a [|b [|c l]]]; [done|apply H1|apply H2|apply H3, IH]. Qed.

Lemma b64_bytes_range l : Forall is_byte l -> Forall (fun c => 43 <= c <= 122) (b64_bytes l).
Proof.
  assert (Hc : forall v, 0 <= v < 64 -> 43 <= b64_char v <= 122) by (intros; by apply b64_char_range).
  induction l as [|a|a b|a b c l IH] using triples_ind; intros Hl; [constructor|..];
    repeat match goal with H : Forall _ (_ :: _) |- _ => apply Forall_cons in H as [? ?] end;
    unfold is_byte in *; cbn [b64_bytes];
    repeat (apply Forall_cons; split); auto;
    try (apply Hc; Z.div_mod_to_equations; lia); lia.
Qed.
Lemma unb64_b64 l : Forall is_byte l -> unb64_bytes (b64_bytes l) = Some l.
Proof.
  assert (Hn : forall v, 0 <= v < 64 -> (b64_char v =? 61) = false).
  { intros v Hv. apply Z.eqb_neq. by apply b64_char_range. }
  induction l as [|a|a b|a b c l IH] using triples_ind; intros Hl; [done|..];
    repeat match goal with H : Forall _ (_ :: _) |- _ => apply Forall_cons in H as [? ?] end;
    unfold is_byte in *; cbn [b64_bytes unb64_bytes];
    rewrite !b64_val_char by (Z.div_mod_to_equations; lia); cbn [mbind option_bind];
    rewrite ?Z.eqb_refl, ?Hn by (Z.div_mod_to_equations; lia);
    rewrite ?b64_val_char by (Z.div_mod_to_equations; lia); cbn [mbind option_bind].
  - do 2 f_equal. Z.div_mod_to_equations; lia.
  - f_equal. f_equal; [|f_equal]; Z.div_mod_to_equations; lia.
  - rewrite IH by done. cbn. f_equal. f_equal; [|f_equal; [|f_equal]]; Z.div_mod_to_equations; lia.
Qed.
Lemma Base64Decode_Encode l : Forall is_byte l -> Base64Decode (Base64Encode l) = Some l.
Proof.
  intros Hl. unfold Base64Decode, Base64Encode. pose proof (b64_bytes_range l Hl) as Hr.
  rewrite bytes_string_bytes.
  - rewrite (proj2 (filter_id_iff _ _)); [by apply unb64_b64|].
    eapply Forall_impl; [exact Hr|]. cbn. lia.
  - eapply Forall_impl; [exact Hr|]. unfold is_byte. cbn. lia.
Qed.
Lemma Base64Encode_empty l : Base64Encode l = ""%string -> l = [].
Proof. destruct l as [|a [|b [|c l]]]; done. Qed.

(** ** Numbers of any size in base 256 *)
Definition number_bytes (p : positive) : bytes := be_put (Z.to_nat (Z.log2 (Z.pos p) / 8 + 1)) (Z.pos p).
Lemma number_bytes_get p : be_get (number_bytes p) = Z.pos p.
Proof.
  unfold number_bytes. rewrite be_get_put. apply Z.mod_small. split; [lia|].
  pose proof (Z.log2_nonneg (Z.pos p)). change 256 with (2 ^ 8). rewrite <- Z.pow_mul_r by lia.
  eapply Z.lt_le_trans; [apply (proj2 (Z.log2_spec (Z.pos p) ltac:(lia)))|].
  apply Z.pow_le_mono_r; [lia|]. rewrite Z2Nat.id; Z.div_mod_to_equations; lia.
Qed.
