(* ===== verification/Activation.v ===== *)
(** * Activation: eSIM activation codes

    [core/esim/activation/activation.go].  Strings are Go strings; the loops
    over their bytes and runes work on [string_bytes].  The QR rendering is a
    third-party encoder and is left out; [rand.Read] is an argument. *)
From S2P Require Import Prelude.

Inductive Error := ErrPrefix | ErrParts | ErrEmpty | ErrChar | ErrTokenLength (n : Z) | ErrRand.

Record Code := mkCode {
  SMDPAddress : string;
  ActivationCode : string;
  ConfirmationCode : string;
}.
#[global] Instance Code_eq_dec : EqDecision Code.
Proof. solve_decision. Defined.

Definition isCodeChar (c : Z) : bool :=
  ((97 <=? c) && (c <=? 122)) || ((65 <=? c) && (c <=? 90)) || ((48 <=? c) && (c <=? 57)).

(** ** What the code uses of [strings] and of the language *)
Fixpoint CutPrefix (l p : bytes) {struct p} : option bytes :=
  match p, l with
  | [], _ => Some l
  | x :: p, y :: l => if x =? y then CutPrefix l p else None
  | _ :: _, [] => None
  end.
Fixpoint Split (sep : Z) (l : bytes) : list bytes :=
  match l with
  | [] => [[]]
  | c :: l =>
      if c =? sep then [] :: Split sep l
      else match Split sep l with
           | x :: xs => (c :: x) :: xs
           | [] => [[c]]
           end
  end.

(** One step of [range] over a string: the rune and the bytes it takes;
    an invalid encoding is U+FFFD and takes one byte. *)
Definition RuneError : Z := 65533.
Definition cont (lo hi c : Z) : bool := (lo <=? c) && (c <=? hi).
Definition decode_rune (l : bytes) : Z * nat :=
  match l with
  | [] => (RuneError, 0%nat)
  | a :: l =>
      if a <? 128 then (a, 1%nat)
      else match l with
      | b :: l =>
          if (194 <=? a) && (a <=? 223) && cont 128 191 b then
            (Z.land a 31 * 64 + Z.land b 63, 2%nat)
          else match l with
          | c :: l =>
              let blo := if a =? 224 then 160 else 128 in
              let bhi := if a =? 237 then 159 else 191 in
              if (224 <=? a) && (a <=? 239) && cont blo bhi b && cont 128 191 c then
                (Z.land a 15 * 4096 + Z.land b 63 * 64 + Z.land c 63, 3%nat)
              else match l with
              | d :: _ =>
                  let blo := if a =? 240 then 144 else 128 in
                  let bhi := if a =? 244 then 143 else 191 in
                  if (240 <=? a) && (a <=? 244) && cont blo bhi b && cont 128 191 c &&
                     cont 128 191 d then
                    (Z.land a 7 * 262144 + Z.land b 63 * 4096 + Z.land c 63 * 64 + Z.land d 63,
                     4%nat)
                  else (RuneError, 1%nat)
              | [] => (RuneError, 1%nat)
              end
          | [] => (RuneError, 1%nat)
          end
      | [] => (RuneError, 1%nat)
      end
  end.
(** Every step takes a byte, so the length is enough fuel. *)
Fixpoint runes (fuel : nat) (l : bytes) : list Z :=
  match fuel, l with
  | S fuel, _ :: _ => let '(r, k) := decode_rune l in r :: runes fuel (drop k l)
  | _, _ => []
  end.

(** ** The operations *)
Definition prefix_LPA : string := "LPA:1$".

Definition Parse (s : string) : res Error Code :=
  match CutPrefix (string_bytes s) (string_bytes prefix_LPA) with
  | None => Err ErrPrefix
  | Some rest =>
      let parts := Split 36 rest in
      if (zlen parts <? 2) || (4 <? zlen parts) then Err ErrParts
      else
        let addr := nth 0 parts [] in
        let code := nth 1 parts [] in
        if bool_decide (addr = []) || bool_decide (code = []) then Err ErrEmpty
        else if negb (forallb (fun c => isCodeChar (u8 c)) (runes (length code) code)) then
          Err ErrChar
        else
          let cc := if zlen parts =? 3 then nth 2 parts []
                    else if zlen parts =? 4 then nth 3 parts [] else [] in
          Ok (mkCode (bytes_string addr) (bytes_string code) (bytes_string cc))
  end.

Definition New (smdpAddress activationCode : string) : Code :=
  mkCode smdpAddress activationCode "".

Definition String (c : Code) : string :=
  let out := prefix_LPA +:+ SMDPAddress c +:+ "$" +:+ ActivationCode c in
  if decide (ConfirmationCode c = "") then out else out +:+ "$$" +:+ ConfirmationCode c.

Definition ValidToken (s : string) : bool :=
  if (slen s <? 8) || (64 <? slen s) then false else forallb isCodeChar (string_bytes s).

(** [base32.StdEncoding] without padding: successive groups of five bits. *)
Definition base32_char (v : Z) : Z := if v <? 26 then 65 + v else 50 + (v - 26).
Definition base32_encode (raw : bytes) : bytes :=
  let bits := 8 * zlen raw in
  let chars := (bits + 4) / 5 in
  let v := be_get raw * 2 ^ (5 * chars - bits) in
  (fun i => base32_char ((v / 32 ^ (chars - 1 - i)) mod 32)) <$> seqZ 0 chars.

(** [rnd n] is what [rand.Read] fills a buffer of [n] bytes with. *)
Definition GenerateToken (n : Z) (rnd : Z -> option bytes) : res Error string :=
  if (n <? 8) || (64 <? n) then Err (ErrTokenLength n)
  else
    let rawLen := (n * 5 + 7) / 8 in
    match rnd rawLen with
    | None => Err ErrRand
    | Some raw => Ok (bytes_string (slice (base32_encode raw) 0 n))
    end.

(** ** Lemmas *)
Lemma CutPrefix_app p l : CutPrefix (p ++ l) p = Some l.
Proof. induction p as [|x p IH]; cbn; [done|]. by rewrite Z.eqb_refl. Qed.
Lemma CutPrefix_Some l p r : CutPrefix l p = Some r -> l = p ++ r.
Proof.
  revert l. induction p as [|x p IH]; intros l; cbn; [by intros [= ->]|].
  destruct l as [|y l]; [done|]. destruct (Z.eqb_spec x y); [|done].
  intros E%IH. by subst.
Qed.
Lemma Split_nosep sep l : sep ∉ l -> Split sep l = [l].
Proof.
  induction l as [|c l IH]; cbn; [done|]. rewrite not_elem_of_cons. intros [Hc Hl].
  rewrite (proj2 (Z.eqb_neq _ _)) by done. by rewrite IH.
Qed.
Lemma Split_cons sep l r : sep ∉ l -> Split sep (l ++ sep :: r) = l :: Split sep r.
Proof.
  induction l as [|c l IH]; cbn; [by rewrite Z.eqb_refl|].
  rewrite not_elem_of_cons. intros [Hc Hl].
  rewrite (proj2 (Z.eqb_neq _ _)) by done. by rewrite IH.
Qed.
(** The parts of a split, joined by the separator, are the original. *)
Fixpoint join (sep : Z) (parts : list bytes) : bytes :=
  match parts with
  | [] => []
  | [x] => x
  | x :: xs => x ++ sep :: join sep xs
  end.
Lemma Split_ne sep l : Split sep l <> [].
Proof. destruct l as [|c l]; cbn; [done|]. destruct (c =? sep); [done|]. by destruct (Split sep l). Qed.
Lemma join_cons sep x xs : xs <> [] -> join sep (x :: xs) = x ++ sep :: join sep xs.
Proof. by destruct xs. Qed.
Lemma join_Split sep l : join sep (Split sep l) = l.
Proof.
  induction l as [|c l IH]; [done|]. cbn [Split]. destruct (Z.eqb_spec c sep) as [->|Hne].
  - rewrite join_cons by apply Split_ne. by rewrite IH.
  - destruct (Split sep l) as [|x xs] eqn:E; [by apply Split_ne in E|].
    destruct xs; cbn [join] in *; rewrite <- IH; done.
Qed.

Abbreviation ascii_code l := (Forall (fun c => isCodeChar c = true) l).
Lemma isCodeChar_range c : isCodeChar c = true -> 48 <= c <= 122 /\ c <> 36.
Proof. unfold isCodeChar. zbool. lia. Qed.
Lemma runes_ascii l : Forall (fun c => 0 <= c < 128) l -> runes (length l) l = l.
Proof.
  induction 1 as [|c l Hc Hl IH]; [done|]. cbn [length runes decode_rune].
  rewrite (proj2 (Z.ltb_lt c 128)) by lia. cbn [drop]. by rewrite drop_0, IH.
Qed.
Lemma code_runes l : ascii_code l ->
  forallb (fun c => isCodeChar (u8 c)) (runes (length l) l) = true.
Proof.
  intros Hl. rewrite runes_ascii.
  - apply forallb_forall. intros c Hc%list_elem_of_In.
    rewrite Forall_forall in Hl. specialize (Hl c Hc). pose proof (isCodeChar_range c Hl).
    unfold u8. rewrite Z.mod_small by lia. done.
  - eapply Forall_impl; [exact Hl|]. intros c Hc%isCodeChar_range. cbn. lia.
Qed.

(** Codes the provider can issue: a non-empty address, a non-empty
    alphanumeric token, and no separator in address or confirmation code. *)
Definition wf_code (c : Code) : Prop :=
  SMDPAddress c <> ""%string /\ 36 ∉ string_bytes (SMDPAddress c) /\
  ActivationCode c <> ""%string /\ ascii_code (string_bytes (ActivationCode c)) /\
  36 ∉ string_bytes (ConfirmationCode c).

Lemma string_bytes_nil s : string_bytes s = [] <-> s = ""%string.
Proof. split; [|by intros ->]. intros E. by apply string_bytes_inj. Qed.

(** rendering an activation code and parsing the result gives the code
    back, with or without a confirmation code. *)
Theorem Parse_String c : wf_code c -> Parse (String c) = Ok c.
Proof.
  intros (Ha & Ha' & Hc & Hc' & Hcc). unfold Parse, String.
  assert (Hcode : 36 ∉ string_bytes (ActivationCode c)).
  { intros Hin. rewrite Forall_forall in Hc'.
    by destruct (isCodeChar_range _ (Hc' _ Hin)). }
  rewrite <- string_bytes_nil in Ha, Hc.
  case_decide as E; rewrite !string_bytes_app, <- ?app_assoc, CutPrefix_app.
  - change (string_bytes "$") with [36]. cbn [app]. rewrite Split_cons, Split_nosep by done.
    cbn [length zlen nth]. rewrite !bool_decide_false by done. cbn [orb].
    rewrite code_runes by done. unfold zlen. cbn -[string_bytes bytes_string]. rewrite !string_bytes_string.
    change (bytes_string []) with ""%string. destruct c; cbn in *. by subst.
  - change (string_bytes "$") with [36]. change (string_bytes "$$") with [36; 36].
    cbn [app]. rewrite Split_cons, Split_cons by done.
    cbn [Split Z.eqb Pos.eqb]. rewrite Split_nosep by done.
    cbn [length zlen nth]. rewrite !bool_decide_false by done. cbn [orb].
    rewrite code_runes by done. unfold zlen. cbn -[string_bytes bytes_string]. rewrite !string_bytes_string. change (Z.of_nat 4) with 4.
    cbn -[string_bytes bytes_string]. rewrite string_bytes_string. by destruct c.
Qed.

(** [Parse] accepts exactly the strings of the documented shapes: prefix,
    non-empty address and code, then nothing, a confirmation code, or an empty
    (in fact arbitrary) field and a confirmation code. *)
Theorem Parse_sound s c : Parse s = Ok c ->
  SMDPAddress c <> ""%string /\ ActivationCode c <> ""%string /\
  exists tail, string_bytes s =
    string_bytes (prefix_LPA +:+ SMDPAddress c +:+ "$" +:+ ActivationCode c) ++ tail /\
    (tail = [] /\ ConfirmationCode c = ""%string \/
     tail = 36 :: string_bytes (ConfirmationCode c) \/
     exists x, tail = 36 :: x ++ 36 :: string_bytes (ConfirmationCode c)).
Proof.
  unfold Parse. destruct (CutPrefix _ _) as [rest|] eqn:Ep; [|done].
  apply CutPrefix_Some in Ep.
  pose proof (string_bytes_range s) as Hb. rewrite Ep in Hb. apply Forall_app in Hb as [_ Hb].
  rewrite Ep. clear Ep s. pose proof (join_Split 36 rest) as Hj.
  set (parts := Split 36 rest) in *. clearbody parts. subst rest.
  destruct (_ || _) eqn:El; [done|]. apply orb_false_iff in El as [E1 E2]. zbool.
  destruct (_ || _) eqn:En; [done|]. apply orb_false_iff in En as [Ea Eb].
  apply bool_decide_eq_false_1 in Ea, Eb. destruct (negb _); [done|]. intros [= <-].
  assert (Hne : forall l : bytes, Forall is_byte l -> l <> [] -> bytes_string l <> ""%string).
  { intros l Hl Hne E. apply Hne. by rewrite <- (bytes_string_bytes l Hl), E. }
  unfold zlen in E1, E2.
  destruct parts as [|a [|b [|x [|y [|z parts]]]]]; cbn [length] in E1, E2; try lia;
    cbn [nth join zlen length Z.of_nat Pos.of_succ_nat Pos.succ Z.eqb Pos.eqb] in *;
    repeat match goal with
    | H : Forall is_byte (_ ++ _) |- _ => apply Forall_app in H as [? H]
    | H : Forall is_byte (_ :: _) |- _ => apply Forall_cons in H as [_ H]
    end;
    cbn [SMDPAddress ActivationCode ConfirmationCode]; (split; [by apply Hne|]);
    (split; [by apply Hne|]); rewrite !string_bytes_app, !bytes_string_bytes by done;
    change (string_bytes "$") with [36].
  - exists []. split; [by rewrite app_nil_r|]. by left.
  - exists (36 :: x). rewrite <- !app_assoc. cbn. auto.
  - exists (36 :: x ++ 36 :: y). rewrite <- !app_assoc. cbn. split; [done|]. eauto.
Qed.

(** A code character outside ASCII: its rune's low byte is what is tested. *)
Example Parse_truncates_runes :
  is_ok (Parse (prefix_LPA +:+ "a$" +:+ bytes_string [197; 129])) = true /\
  ValidToken (bytes_string (mjoin (replicate 8 [197; 129]))) = false.
Proof. by vm_compute. Qed.

(** ** Tokens *)
Lemma base32_char_code v : 0 <= v < 32 -> isCodeChar (base32_char v) = true.
Proof.
  intros Hv. unfold isCodeChar, base32_char. destruct (Z.ltb_spec v 26).
  - apply orb_true_iff. left. apply orb_true_iff. right. zbool. lia.
  - apply orb_true_iff. right. zbool. lia.
Qed.
Lemma base32_encode_code raw : ascii_code (base32_encode raw).
Proof.
  unfold base32_encode. apply Forall_fmap, Forall_forall. intros i _.
  apply base32_char_code, Z.mod_pos_bound. lia.
Qed.
Lemma zlen_base32 raw : zlen (base32_encode raw) = (8 * zlen raw + 4) / 5.
Proof.
  unfold base32_encode, zlen. rewrite length_fmap, length_seqZ, Z2Nat.id; [done|].
  apply Z.div_pos; lia.
Qed.

(** a generated token always has the length asked for and is a valid
    token, whatever the random source returned; lengths outside [8, 64] are
    refused. *)
Theorem GenerateToken_valid n rnd t :
  (forall k raw, rnd k = Some raw -> zlen raw = k) -> GenerateToken n rnd = Ok t ->
  8 <= n <= 64 /\ slen t = n /\ ValidToken t = true.
Proof.
  intros Hrnd. unfold GenerateToken. destruct (_ || _) eqn:En; [done|].
  apply orb_false_iff in En as [E1 E2]. zbool.
  destruct (rnd _) as [raw|] eqn:Er; [|done]. intros [= <-]. apply Hrnd in Er.
  set (tok := slice (base32_encode raw) 0 n).
  assert (Hlen : zlen tok = n).
  { unfold tok. rewrite zlen_slice; [lia|lia|]. rewrite zlen_base32, Er.
    Z.div_mod_to_equations. lia. }
  assert (Hcode : ascii_code tok).
  { apply Forall_take, Forall_drop, base32_encode_code. }
  assert (Hbytes : string_bytes (bytes_string tok) = tok).
  { apply bytes_string_bytes. eapply Forall_impl; [exact Hcode|].
    intros c Hc%isCodeChar_range. unfold is_byte. lia. }
  unfold ValidToken, slen. rewrite Hbytes, Hlen. split_and!; [lia|lia|done|].
  rewrite (proj2 (Z.ltb_ge n 8)), (proj2 (Z.ltb_ge 64 n)) by lia. cbn.
  apply forallb_forall. intros c Hc%list_elem_of_In.
  rewrite Forall_forall in Hcode. by apply Hcode.
Qed.

(** ** Concrete instances *)
Definition demo_code : Code := mkCode "smdp.example.com" "ABC123" "9999".
Lemma Parse_String_witness : Parse (String demo_code) = Ok demo_code.
Proof. apply Parse_String. split_and!; try done; vm_decide. Defined.
Lemma Parse_sound_witness : exists c, Parse (String demo_code) = Ok c /\ SMDPAddress c <> ""%string.
Proof.
  destruct (Parse (String demo_code)) as [c|] eqn:E; [|by vm_compute in E].
  exists c. split; [done|]. by apply (Parse_sound _ _ E).
Defined.
Definition demo_rnd (k : Z) : option bytes :=
  if k <? 0 then None else Some (replicate (Z.to_nat k) 7).
Lemma GenerateToken_valid_witness : exists t,
  GenerateToken 20 demo_rnd = Ok t /\ slen t = 20 /\ ValidToken t = true.
Proof.
  destruct (GenerateToken 20 demo_rnd) as [t|] eqn:E; [|by vm_compute in E].
  exists t. split; [done|].
  destruct (GenerateToken_valid 20 demo_rnd t) as (_ & H1 & H2); [|exact E|by split].
  intros k raw. unfold demo_rnd. destruct (Z.ltb_spec k 0); [done|]. intros [= <-].
  unfold zlen. rewrite length_replicate. lia.
Defined.
