(* ===== verification/Profile.v ===== *)
(** * Profile: eSIM carrier profiles

    [core/esim/profile/profile.go].  Strings are Go strings, digits are their
    bytes; random bytes and the clock are arguments.  JSON serialisation is
    the standard library's and appears only as a parameter of its clients;
    the DER envelope is in [Der]. *)
From S2P Require Import Prelude.
From S2P Require Import Encoding.
From S2P Require Import Activation.

Definition Version : Z := 1.

Record Profile := mkProfile {
  pVersion : Z; ICCID : string; EID : string; ProfileName : string; ProfileOwner : string;
  ServiceProviderName : string; SMDPID : string; Class_ : string; IMSI : string;
  MSISDN : string; APN : string; KI : string; OPc : string; AMF : string; SQN : string;
  UST : bytes; AD : bytes; CreatedAt : Z; ExpiresAt : Z;
}.
#[global] Instance Profile_eq_dec : EqDecision Profile.
Proof. solve_decision. Defined.

(** [simprov.Subscriber], the source of a profile's credentials. *)
Record Subscriber := mkSubscriber {
  sIMSI : string; sMSISDN : string; sKi : string; sOPc : string; sAMF : string; sSQN : string;
  sAPN : string; sClass : string; QoSDLMbps : Z; QoSULMbps : Z;
}.

Inductive Error :=
  | ErrICCID | ErrEID | ErrIMSI | ErrClass | ErrKeys | ErrNotLab | ErrMNO | ErrDigit | ErrOdd
  | ErrLength.

(** ** Luhn *)
(** The loop, over the digits from the last to the first. *)
Fixpoint luhn_loop (double : bool) (l : bytes) (sum : Z) : option Z :=
  match l with
  | [] => Some sum
  | b :: l =>
      let d := u8 (b - 48) in
      if 9 <? d then None
      else
        let d := if double then if 9 <? d * 2 then d * 2 - 9 else d * 2 else d in
        luhn_loop (negb double) l (sum + d)
  end.
Definition luhn_bytes (l : bytes) : Z :=
  match luhn_loop true (reverse l) 0 with
  | None => -1
  | Some sum => (10 - sum mod 10) mod 10
  end.
Definition Luhn (data : string) : Z := luhn_bytes (string_bytes data).

Definition is_digit (c : Z) : bool := (48 <=? c) && (c <=? 57).
Definition ValidLuhn (s : string) : bool :=
  let l := string_bytes s in
  if zlen l <? 2 then false
  else if negb (forallb is_digit (runes (length l) l)) then false
  else luhn_bytes (slice l 0 (zlen l - 1)) =? u8 (at_ l (zlen l - 1) - 48).

(** [fmt.Sprintf("%d", d)] for a value of [Luhn]. *)
Definition fmt_digit (d : Z) : string := if d <? 0 then "-1" else bytes_string [48 + d].

(** [rnd] is what [rand.Read] returned: [None] on failure. *)
Definition randDigits (n : Z) (rnd : option bytes) : string :=
  match rnd with
  | None => bytes_string (replicate (Z.to_nat n) 48)
  | Some raw => bytes_string ((fun b => 48 + b mod 10) <$> raw)
  end.

Definition NewICCID (mno : string) (rnd : Z -> option bytes) : res Error string :=
  if 14 <? slen mno then Err ErrMNO
  else
    let n := 19 - 2 - slen mno in
    let payload := "89" +:+ mno +:+ randDigits n (rnd n) in
    Ok (payload +:+ fmt_digit (Luhn payload)).

Definition NewEID (rnd : Z -> option bytes) : string :=
  let data := "8904" +:+ randDigits 26 (rnd 26) in
  let c := fmt_digit (Luhn data) in
  data +:+ c +:+ fmt_digit (Luhn (data +:+ c)).

(** ** Profiles *)
Definition Validate (p : Profile) : res Error unit :=
  if bool_decide (ICCID p = ""%string) || negb (ValidLuhn (ICCID p)) || (slen (ICCID p) <? 19)
  then Err ErrICCID
  else if bool_decide (EID p <> ""%string) &&
          (negb (slen (EID p) =? 32) || negb (ValidLuhn (EID p))) then Err ErrEID
  else if negb (slen (IMSI p) =? 15) then Err ErrIMSI
  else if bool_decide (Class_ p <> "lab"%string) && bool_decide (Class_ p <> "prod"%string)
  then Err ErrClass
  else if bool_decide (Class_ p = "lab"%string) &&
          (negb (slen (KI p) =? 32) || negb (slen (OPc p) =? 32)) then Err ErrKeys
  else Ok tt.

Definition WithProfileName (name : string) (p : Profile) : Profile := {| p with ProfileName := name |}.
Definition WithExpiry (exp : time) (p : Profile) : Profile := {| p with ExpiresAt := exp |}.
Definition WithEID (eid : string) (p : Profile) : Profile := {| p with EID := eid |}.

(** [t1], [t2] are the two clock readings. *)
Definition NewLabProfile (sub : Subscriber) (smdpID : string) (opts : list (Profile -> Profile))
    (rnd : Z -> option bytes) (t1 t2 : time) : res Error Profile :=
  if bool_decide (sClass sub <> "lab"%string) then Err ErrNotLab
  else match NewICCID "99901" rnd with
  | Err e => Err e
  | Ok iccid =>
      let p := {| pVersion := Version; ICCID := iccid; EID := "";
        ProfileName := "Fairwave Lab " +:+ sMSISDN sub; ProfileOwner := "Fairwave Lab";
        ServiceProviderName := "Fairwave"; SMDPID := smdpID; Class_ := sClass sub;
        IMSI := sIMSI sub; MSISDN := sMSISDN sub; APN := sAPN sub; KI := sKi sub;
        OPc := sOPc sub; AMF := sAMF sub; SQN := sSQN sub; UST := [0; 0; 0; 0; 0]; AD := [0; 0];
        CreatedAt := t1; ExpiresAt := t2 + 365 * 24 * Hour |} in
      let p := foldl (fun p o => o p) p opts in
      match Validate p with Err e => Err e | Ok _ => Ok p end
  end.

(** ** Card files *)
Definition swapped (hi lo : Z) : Z := Z.lor (u8 (Z.shiftl hi 4)) lo.
Fixpoint bcd_pairs (l : bytes) : res Error bytes :=
  match l with
  | lo :: hi :: l =>
      let hi := u8 (hi - 48) in
      let lo := u8 (lo - 48) in
      if (9 <? hi) || (9 <? lo) then Err ErrDigit
      else cons (swapped hi lo) <$> bcd_pairs l
  | _ => Ok []
  end.
Definition bcdEncodeSwapped (digits : string) : res Error bytes :=
  let l := string_bytes digits in
  if negb (zlen l mod 2 =? 0) then Err ErrOdd else bcd_pairs l.

Definition ICCIDFile (p : Profile) : res Error bytes :=
  match bcdEncodeSwapped (ICCID p) with
  | Err e => Err e
  | Ok bcd => if negb (zlen bcd =? 10) then Err ErrLength else Ok bcd
  end.

Fixpoint nibble_pairs (l : list Z) : bytes :=
  match l with
  | lo :: hi :: l => swapped hi lo :: nibble_pairs l
  | _ => []
  end.
Definition IMSIFile (p : Profile) : res Error bytes :=
  let l := string_bytes (IMSI p) in
  if negb (zlen l =? 15) then Err ErrIMSI
  else
    let ds := (fun b => u8 (b - 48)) <$> l in
    if negb (forallb (fun d => d <=? 9) ds) then Err ErrDigit
    else Ok (9 :: nibble_pairs (ds ++ [15])).

(** ** The Luhn check *)
Abbreviation digits l := (Forall (fun c => is_digit c = true) l).
Definition weight (double : bool) (c : Z) : Z :=
  let d := c - 48 in if double then if 9 <? d * 2 then d * 2 - 9 else d * 2 else d.
Fixpoint weights (double : bool) (l : bytes) : Z :=
  match l with [] => 0 | c :: l => weight double c + weights (negb double) l end.
(** The checksum of a number with its check digit. *)
Definition checksum (l : bytes) : Z := weights false (reverse l).

Lemma is_digit_range c : is_digit c = true <-> 48 <= c <= 57.
Proof. unfold is_digit. zbool. lia. Qed.
Lemma luhn_loop_weights b l sum : digits l -> luhn_loop b l sum = Some (sum + weights b l).
Proof.
  intros Hl. revert b sum. induction Hl as [|c l Hc Hl IH]; intros b sum; cbn.
  - f_equal. lia.
  - apply is_digit_range in Hc. unfold u8. rewrite Z.mod_small by lia.
    rewrite (proj2 (Z.ltb_ge 9 _)) by lia. rewrite IH. f_equal. unfold weight. lia.
Qed.
Lemma digits_reverse l : digits l -> digits (reverse l).
Proof. apply Forall_reverse. Qed.
Lemma luhn_bytes_digits l : digits l -> luhn_bytes l = (10 - weights true (reverse l) mod 10) mod 10.
Proof. intros Hl. unfold luhn_bytes. by rewrite luhn_loop_weights by by apply digits_reverse. Qed.
Lemma luhn_range l : digits l -> 0 <= luhn_bytes l < 10.
Proof. intros Hl. rewrite luhn_bytes_digits by done. apply Z.mod_pos_bound. lia. Qed.
Lemma runes_digits l : digits l -> runes (length l) l = l.
Proof.
  intros Hl. apply runes_ascii. eapply Forall_impl; [exact Hl|].
  intros c Hc%is_digit_range. cbn. lia.
Qed.
Lemma checksum_snoc l c : checksum (l ++ [c]) = (c - 48) + weights true (reverse l).
Proof. unfold checksum. by rewrite reverse_app. Qed.

Lemma ValidLuhn_digits s : digits (string_bytes s) -> 2 <= slen s ->
  ValidLuhn s = (checksum (string_bytes s) mod 10 =? 0).
Proof.
  unfold ValidLuhn, slen. intros Hl Hlen. set (l := string_bytes s) in *. clearbody l.
  rewrite (proj2 (Z.ltb_ge _ _)) by lia. rewrite runes_digits by done.
  replace (forallb is_digit l) with true by
    (symmetry; apply forallb_forall; intros c Hc%list_elem_of_In; rewrite Forall_forall in Hl; auto).
  cbn [negb]. destruct l as [|c l' _] using rev_ind; [unfold zlen in Hlen; cbn in Hlen; lia|].
  apply Forall_app in Hl as [Hl Hc]. apply Forall_cons in Hc as [Hc%is_digit_range _].
  assert (Hz : zlen (l' ++ [c]) - 1 = zlen l').
  { rewrite zlen_app. change (zlen [c]) with 1. lia. }
  rewrite Hz, slice_app_l by done. unfold at_, zlen. rewrite Nat2Z.id, app_nth2, Nat.sub_diag by lia.
  cbn [nth]. rewrite checksum_snoc, luhn_bytes_digits by done.
  unfold u8. rewrite (Z.mod_small (c - 48)) by lia.
  set (w := weights true (reverse l')). clearbody w.
  apply eq_true_iff_eq. rewrite !Z.eqb_eq. Z.div_mod_to_equations. lia.
Qed.

(** Appending the Luhn digit makes a number valid. *)
Lemma fmt_digit_bytes d : 0 <= d < 10 -> string_bytes (fmt_digit d) = [48 + d].
Proof.
  intros Hd. unfold fmt_digit. rewrite (proj2 (Z.ltb_ge _ _)) by lia.
  apply bytes_string_bytes. constructor; [unfold is_byte; lia|done].
Qed.
Lemma Luhn_valid s : digits (string_bytes s) -> 1 <= slen s ->
  let t := s +:+ fmt_digit (Luhn s) in
  digits (string_bytes t) /\ slen t = slen s + 1 /\ ValidLuhn t = true.
Proof.
  intros Hs Hlen t. pose proof (luhn_range _ Hs) as Hr.
  assert (Ht : string_bytes t = string_bytes s ++ [48 + Luhn s]).
  { unfold t. by rewrite string_bytes_app, fmt_digit_bytes. }
  assert (Hd : digits (string_bytes t)).
  { rewrite Ht. apply Forall_app. split; [done|]. constructor; [|done].
    apply is_digit_range. unfold Luhn. lia. }
  assert (Hz : slen t = slen s + 1).
  { unfold slen. rewrite Ht, zlen_app. done. }
  split_and!; [done|done|]. rewrite ValidLuhn_digits by (done || lia).
  rewrite Ht, checksum_snoc. unfold Luhn. rewrite luhn_bytes_digits by done.
  apply Z.eqb_eq. set (w := weights true _). clearbody w. clear. Z.div_mod_to_equations. lia.
Qed.

Lemma randDigits_digits n rnd : 0 <= n -> (forall raw, rnd = Some raw -> zlen raw = n) ->
  digits (string_bytes (randDigits n rnd)) /\ slen (randDigits n rnd) = n.
Proof.
  intros Hn Hr. assert (Hgen : forall l : bytes, digits l -> zlen l = n ->
    digits (string_bytes (bytes_string l)) /\ slen (bytes_string l) = n).
  { intros l Hl Hz. unfold slen. rewrite bytes_string_bytes; [done|].
    eapply Forall_impl; [exact Hl|]. intros c Hc%is_digit_range. unfold is_byte. lia. }
  unfold randDigits. destruct rnd as [raw|]; apply Hgen.
  - apply Forall_fmap, Forall_true. intros b. apply is_digit_range.
    pose proof (Z.mod_pos_bound b 10). lia.
  - unfold zlen. rewrite length_fmap. by apply Hr.
  - by apply Forall_replicate.
  - unfold zlen. rewrite length_replicate. lia.
Qed.

Lemma digits_app s t : digits (string_bytes s) -> digits (string_bytes t) ->
  digits (string_bytes (s +:+ t)).
Proof. intros. rewrite string_bytes_app. by apply Forall_app. Qed.

Lemma NewICCID_ok mno rnd : digits (string_bytes mno) -> slen mno <= 14 ->
  (forall n raw, rnd n = Some raw -> zlen raw = n) ->
  exists iccid, NewICCID mno rnd = Ok iccid /\ slen iccid = 20 /\ ValidLuhn iccid = true.
Proof.
  intros Hm Hlen Hr. assert (0 <= slen mno) by apply zlen_nonneg.
  unfold NewICCID. rewrite (proj2 (Z.ltb_ge 14 _)) by lia.
  set (n := 19 - 2 - slen mno).
  destruct (randDigits_digits n (rnd n)) as [Hd Hz]; [lia|intros raw; apply Hr|].
  set (payload := "89" +:+ mno +:+ _).
  assert (Hp : digits (string_bytes payload)) by (repeat apply digits_app; [vm_decide|done|done]).
  assert (Hs : slen payload = 19).
  { unfold payload. rewrite !slen_app, Hz. change (slen "89") with 2. lia. }
  destruct (Luhn_valid payload Hp) as (_ & Hl & Hv); [lia|].
  eexists. split; [done|]. split; [|done]. lia.
Qed.

(** minted identifiers are well formed: an ICCID for an all-digit network
    code of at most 14 digits has 20 digits and a valid check digit, and an EID
    has 32 digits and a valid check digit, whatever the random source does. *)
Theorem minted_identifiers mno rnd : digits (string_bytes mno) -> slen mno <= 14 ->
  (forall n raw, rnd n = Some raw -> zlen raw = n) ->
  (exists iccid, NewICCID mno rnd = Ok iccid /\ slen iccid = 20 /\ ValidLuhn iccid = true) /\
  slen (NewEID rnd) = 32 /\ ValidLuhn (NewEID rnd) = true.
Proof.
  intros Hm Hlen Hr. split; [by apply NewICCID_ok|].
  unfold NewEID. destruct (randDigits_digits 26 (rnd 26)) as [Hd Hz]; [lia|intros raw; apply Hr|].
    set (data := "8904" +:+ _).
    assert (Hp : digits (string_bytes data)) by (apply digits_app; [vm_decide|done]).
    assert (Hs : slen data = 30).
    { unfold data. rewrite slen_app, Hz. done. }
    destruct (Luhn_valid data Hp) as (Hp1 & Hl1 & _); [lia|].
    destruct (Luhn_valid _ Hp1) as (_ & Hl2 & Hv); [lia|]. rewrite string_assoc in *.
    split; [lia|done].
Qed.

(** ** What the check digit detects *)
(** Only the weight of the digit at a position depends on that digit. *)
Lemma weights_middle b l1 l2 : exists b' k, forall c,
  weights b (l1 ++ c :: l2) = k + weight b' c.
Proof.
  revert b. induction l1 as [|x l1 IH]; intros b; cbn.
  - exists b, (weights (negb b) l2). intros c. lia.
  - destruct (IH (negb b)) as (b' & k & Hk). exists b', (weight b x + k). intros c.
    rewrite Hk. lia.
Qed.
Lemma weight_distinct b c d : is_digit c = true -> is_digit d = true -> c <> d ->
  (weight b d - weight b c) mod 10 <> 0.
Proof.
  intros Hc%is_digit_range Hd%is_digit_range Hne. unfold weight.
  destruct b; repeat case_if; zbool; Z.div_mod_to_equations; lia.
Qed.

(** the check digit detects every single-digit error: changing one digit
    of a valid number never gives a valid number. *)
Theorem ValidLuhn_detects s t i c d : digits (string_bytes s) -> ValidLuhn s = true ->
  string_bytes s !! i = Some c -> is_digit d = true -> d <> c ->
  string_bytes t = <[i := d]> (string_bytes s) -> ValidLuhn t = false.
Proof.
  intros Hs Hv Hi Hd Hne Ht.
  assert (Hlen : 2 <= slen s).
  { unfold ValidLuhn in Hv. unfold slen. destruct (Z.ltb_spec (zlen (string_bytes s)) 2); [done|lia]. }
  assert (Hc : is_digit c = true).
  { rewrite Forall_forall in Hs. by eapply Hs, list_elem_of_lookup_2. }
  rewrite ValidLuhn_digits in Hv by done. apply Z.eqb_eq in Hv.
  rewrite ValidLuhn_digits.
  2:{ rewrite Ht. by apply Forall_insert. }
  2:{ unfold slen, zlen in *. rewrite Ht, length_insert. done. }
  apply Z.eqb_neq. rewrite Ht. unfold checksum in *.
  apply lookup_lt_Some in Hi as Hlt. rewrite insert_take_drop by done.
  rewrite <- (take_drop_middle _ _ _ Hi) in Hv. revert Hv.
  rewrite !reverse_app, !reverse_cons, <- !app_assoc.
  destruct (weights_middle false (reverse (drop (S i) (string_bytes s)))
    (reverse (take i (string_bytes s)))) as (b & k & Hk).
  cbn [app]. rewrite !Hk. pose proof (weight_distinct b c d Hc Hd ltac:(done)) as Hw.
  revert Hw. clear. generalize (weight b d), (weight b c). intros.
  Z.div_mod_to_equations. lia.
Qed.

(** ** Reading the card files back *)
Definition nibbles (l : bytes) : list Z := b ← l; [Z.land b 15; Z.shiftr b 4].

Lemma swapped_nibbles hi lo : 0 <= hi < 16 -> 0 <= lo < 16 ->
  Z.land (swapped hi lo) 15 = lo /\ Z.shiftr (swapped hi lo) 4 = hi.
Proof.
  intros Hhi Hlo.
  assert (H : forallb (fun hi => forallb (fun lo =>
    (Z.land (swapped hi lo) 15 =? lo) && (Z.shiftr (swapped hi lo) 4 =? hi))
    (seqZ 0 16)) (seqZ 0 16) = true) by (vm_compute; reflexivity).
  rewrite forallb_forall in H.
  specialize (H hi ltac:(apply list_elem_of_In, elem_of_seqZ; lia)).
  rewrite forallb_forall in H.
  specialize (H lo ltac:(apply list_elem_of_In, elem_of_seqZ; lia)).
  by apply andb_true_iff in H as [?%Z.eqb_eq ?%Z.eqb_eq].
Qed.
Lemma pairs_ind {A} (P : list A -> Prop) : P [] -> (forall x, P [x]) ->
  (forall x y l, P l -> P (x :: y :: l)) -> forall l, P l.
Proof.
  intros H0 H1 H2. fix IH 1. intros [|x [|y l]]; [exact H0|apply H1|]. apply H2, IH.
Qed.

Lemma nibble_pairs_nibbles l : Nat.even (length l) = true -> Forall (fun d => 0 <= d < 16) l ->
  nibbles (nibble_pairs l) = l /\ zlen (nibble_pairs l) * 2 = zlen l.
Proof.
  induction l as [|x|x y l IH] using pairs_ind; [done|done|]. cbn [length Nat.even].
  intros He [Hx [Hy Hl]%Forall_cons]%Forall_cons. destruct (IH He Hl) as [IH1 IH2].
  cbn [nibble_pairs]. rewrite !zlen_cons. split; [|lia].
  unfold nibbles in *. cbn [mbind list_bind app]. rewrite IH1.
  by destruct (swapped_nibbles y x Hy Hx) as [-> ->].
Qed.

Definition digit_values (s : string) : list Z := (fun c => c - 48) <$> string_bytes s.

Lemma bcd_pairs_nibbles l f : Nat.even (length l) = true -> Forall is_byte l ->
  bcd_pairs l = Ok f ->
  digits l /\ nibbles f = (fun c => c - 48) <$> l.
Proof.
  revert f. induction l as [|x|x y l IH] using pairs_ind; intros f; [by intros _ _ [= <-]|done|].
  cbn [length Nat.even bcd_pairs]. intros He [Hx [Hy Hl]%Forall_cons]%Forall_cons.
  unfold is_byte in Hx, Hy. destruct (_ || _) eqn:E; [done|].
  apply orb_false_iff in E as [E1%Z.ltb_ge E2%Z.ltb_ge].
  destruct (bcd_pairs l) as [f'|] eqn:Ef; [|done]. intros [= <-].
  destruct (IH f' He Hl eq_refl) as [Hd Hn].
  assert (Hr : forall c, 0 <= c < 256 -> u8 (c - 48) <= 9 -> u8 (c - 48) = c - 48 /\ 48 <= c <= 57).
  { intros c Hc. unfold u8. Z.div_mod_to_equations. lia. }
  apply Hr in E1 as [E1 ?], E2 as [E2 ?]; [|done|done].
  split; [constructor; [by apply is_digit_range|constructor; [by apply is_digit_range|done]]|].
  unfold nibbles in *. cbn [mbind list_bind app fmap list_fmap]. rewrite Hn, E1, E2.
  by destruct (swapped_nibbles (y - 48) (x - 48)) as [-> ->]; [lia|lia|].
Qed.

(** the card files hold the identifiers: EF.ICCID is ten bytes whose
    nibbles, low before high, are the ICCID's digits; EF.IMSI is nine bytes,
    a length byte and the IMSI's digits closed by 0xF. *)
Theorem card_files p :
  (forall f, ICCIDFile p = Ok f -> zlen f = 10 /\ nibbles f = digit_values (ICCID p)) /\
  (forall f, IMSIFile p = Ok f -> exists body, f = 9 :: body /\ zlen body = 8 /\
     nibbles body = digit_values (IMSI p) ++ [15]).
Proof.
  split; intros f.
  - unfold ICCIDFile, bcdEncodeSwapped. destruct (Z.eqb_spec (zlen (string_bytes (ICCID p)) mod 2) 0) as [He|];
      [|done]. cbn [negb]. destruct (bcd_pairs _) as [bcd|] eqn:E; [|done].
    destruct (Z.eqb_spec (zlen bcd) 10); [|done]. cbn [negb]. intros [= <-]. split; [done|].
    apply bcd_pairs_nibbles in E as [_ E]; [done| |apply string_bytes_range].
    unfold zlen in He. apply Nat.even_spec. exists (length (string_bytes (ICCID p)) / 2)%nat.
    pose proof (Nat.div_mod_eq (length (string_bytes (ICCID p))) 2).
    assert (length (string_bytes (ICCID p)) mod 2 = 0)%nat; [|lia].
    apply Nat2Z.inj. rewrite Nat2Z.inj_mod. done.
  - unfold IMSIFile. destruct (Z.eqb_spec (zlen (string_bytes (IMSI p))) 15) as [Hl|]; [|done].
    cbn [negb]. set (ds := (fun b => u8 (b - 48)) <$> _). destruct (forallb _ ds) eqn:Ed; [|done].
    cbn [negb]. intros [= <-]. eexists. split; [done|].
    assert (Hds : ds = digit_values (IMSI p) /\ Forall (fun d => 0 <= d < 16) ds).
    { pose proof (string_bytes_range (IMSI p)) as Hb. unfold ds, digit_values in *. clear Hl.
      induction Hb as [|c l Hc Hb IH]; [done|]. cbn in Ed |- *.
      apply andb_true_iff in Ed as [E1%Z.leb_le E2]. destruct (IH E2) as [-> Hf].
      assert (u8 (c - 48) = c - 48 /\ 0 <= c - 48 < 16) as [-> ?].
      { unfold is_byte, u8 in *. revert E1. Z.div_mod_to_equations. lia. }
      split; [done|]. by constructor. }
    destruct Hds as [Hds Hr].
    assert (Hlen : length ds = 15%nat).
    { unfold ds. rewrite length_fmap. unfold zlen in Hl. lia. }
    destruct (nibble_pairs_nibbles (ds ++ [15])) as [Hn Hz].
    + by rewrite length_app, Hlen.
    + apply Forall_app. split; [done|]. constructor; [lia|done].
    + split; [|by rewrite Hn, Hds]. unfold zlen in *.
      replace (length (ds ++ [15])) with 16%nat in Hz by (by rewrite length_app, Hlen). lia.
Qed.

(** ** Lab profiles *)
Lemma guard_ok {E} (b : bool) (e : E) (r : res E unit) :
  (if b then Err e else r) = Ok tt <-> b = false /\ r = Ok tt.
Proof. destruct b; split; [done|by intros [? _]|done|by intros [_ ?]]. Qed.
Lemma bool_decide_neq_false `{EqDecision A} (x y : A) : bool_decide (x <> y) = false <-> x = y.
Proof. rewrite bool_decide_eq_false. split; [apply dec_stable|by intros -> ?]. Qed.

Lemma Validate_ok p : Validate p = Ok tt <->
  ValidLuhn (ICCID p) = true /\ 19 <= slen (ICCID p) /\
  (EID p = ""%string \/ slen (EID p) = 32 /\ ValidLuhn (EID p) = true) /\
  slen (IMSI p) = 15 /\ (Class_ p = "lab"%string \/ Class_ p = "prod"%string) /\
  (Class_ p = "lab"%string -> slen (KI p) = 32 /\ slen (OPc p) = 32).
Proof.
  unfold Validate. rewrite !guard_ok, !orb_false_iff, !andb_false_iff, !orb_false_iff,
    !negb_false_iff, !bool_decide_neq_false, !bool_decide_eq_false, Z.ltb_ge, !Z.eqb_eq.
  split.
  - intros (((_ & H1) & H2) & H3 & H4 & H5 & H6 & _). split_and!; try done.
    intros Hc. by destruct H6.
  - intros (H1 & H2 & H3 & H4 & H5 & H6). split_and!; try done.
    + intros E. rewrite E in H2. unfold slen, zlen in H2. cbn in H2. lia.
    + destruct (decide (Class_ p = "lab"%string)); auto.
Qed.

Lemma NewLabProfile_ok sub id opts rnd t1 t2 p :
  NewLabProfile sub id opts rnd t1 t2 = Ok p -> sClass sub = "lab"%string /\ Validate p = Ok tt.
Proof.
  unfold NewLabProfile. case_bool_decide as Hc; [done|].
  destruct (NewICCID _ _) as [iccid|]; [|done]. cbv zeta.
  destruct (Validate _) as [[]|] eqn:E; [|done]. by intros [= <-].
Qed.

(** a profile is minted exactly for lab-class subscribers with a 15-digit
    IMSI and 16-byte hexadecimal keys; it then carries the subscriber's
    credentials, a fresh 20-digit ICCID, and passes validation. *)
Theorem NewLabProfile_spec sub id rnd t1 t2 :
  (forall n raw, rnd n = Some raw -> zlen raw = n) ->
  match NewLabProfile sub id [] rnd t1 t2 with
  | Ok p => sClass sub = "lab"%string /\ Validate p = Ok tt /\ slen (ICCID p) = 20 /\
      IMSI p = sIMSI sub /\ KI p = sKi sub /\ OPc p = sOPc sub /\ EID p = ""%string
  | Err _ => sClass sub <> "lab"%string \/ slen (sIMSI sub) <> 15 \/
      slen (sKi sub) <> 32 \/ slen (sOPc sub) <> 32
  end.
Proof.
  intros Hr. unfold NewLabProfile. case_bool_decide as Hc; [by left|].
  destruct (NewICCID_ok "99901" rnd) as (iccid & -> & Hlen & Hv); [vm_decide|by vm_compute|done|].
  cbn [foldl].
  match goal with |- context [Validate ?x] => set (p := x) end.
  destruct (Validate p) as [[]|e] eqn:E; [by split_and!|].
  destruct (decide (slen (sIMSI sub) = 15)) as [H1|]; [|by auto].
  destruct (decide (slen (sKi sub) = 32)) as [H2|]; [|by auto].
  destruct (decide (slen (sOPc sub) = 32)) as [H3|]; [|by auto].
  assert (Validate p = Ok tt); [|congruence].
  apply Validate_ok. cbn. split_and!; try done; [lia|by left|by left].
Qed.

(** The third lab vector's OPc has 31 hexadecimal digits: no profile. *)
Definition lab_vector_3 : Subscriber :=
  mkSubscriber "999991234567003" "9999003" "3C9E5B7A1D8F2C4E6A0B3D5F7C9E1B2A"
    "7F1D3A5C9B2E4F6A8C0D2E4B6F8A1C3" "8000" "000000000001" "internet" "lab" 0 0.
Example lab_vector_3_rejected :
  NewLabProfile lab_vector_3 "smdp" [] demo_rnd 1 1 = Err ErrKeys.
Proof. vm_compute. reflexivity. Qed.

(** ** Concrete instances *)
Lemma demo_rnd_length n raw : demo_rnd n = Some raw -> zlen raw = n.
Proof.
  unfold demo_rnd. destruct (Z.ltb_spec n 0); [done|]. intros [= <-].
  unfold zlen. rewrite length_replicate. lia.
Qed.
Lemma minted_identifiers_witness :
  (exists iccid, NewICCID "99901" demo_rnd = Ok iccid /\ slen iccid = 20 /\ ValidLuhn iccid = true) /\
  slen (NewEID demo_rnd) = 32 /\ ValidLuhn (NewEID demo_rnd) = true.
Proof.
  apply (minted_identifiers "99901" demo_rnd); [vm_decide|by vm_compute|exact demo_rnd_length].
Defined.
Lemma ValidLuhn_detects_witness :
  ValidLuhn "79927398713" = true /\ ValidLuhn "79927398718" = false.
Proof.
  split; [reflexivity|].
  apply (ValidLuhn_detects "79927398713" "79927398718" 10 51 56); try done. vm_decide.
Defined.
Lemma NewLabProfile_spec_witness :
  slen (sOPc lab_vector_3) <> 32 \/ sClass lab_vector_3 <> "lab"%string \/
  slen (sIMSI lab_vector_3) <> 15 \/ slen (sKi lab_vector_3) <> 32.
Proof.
  pose proof (NewLabProfile_spec lab_vector_3 "smdp" demo_rnd 1 1 demo_rnd_length) as H.
  rewrite lab_vector_3_rejected in H. tauto.
Defined.

(** ** The payload *)
(** [encoding/json] on profiles: what is marshalled is bytes, and profiles
    whose strings are valid UTF-8 and whose years have four digits ([json_ok])
    are unmarshalled as they were. *)
Class JsonProfile := {
  json_marshal : Profile -> bytes;
  json_unmarshal : bytes -> option Profile;
  json_ok : Profile -> Prop;
  json_bytes : forall p, Forall is_byte (json_marshal p);
  json_roundtrip : forall p, json_ok p -> json_unmarshal (json_marshal p) = Some p;
}.
Definition MarshalPayload `{JsonProfile} (p : Profile) : bytes := json_marshal p.
Definition UnmarshalPayload `{JsonProfile} (data : bytes) : option Profile := json_unmarshal data.

(** A serialisation for concrete runs: the fields as numbers, in binary. *)
Definition fields (p : Profile) : list positive :=
  [encode (pVersion p); encode (ICCID p); encode (EID p); encode (ProfileName p);
   encode (ProfileOwner p); encode (ServiceProviderName p); encode (SMDPID p); encode (Class_ p);
   encode (IMSI p); encode (MSISDN p); encode (APN p); encode (KI p); encode (OPc p);
   encode (AMF p); encode (SQN p); encode (UST p); encode (AD p); encode (CreatedAt p);
   encode (ExpiresAt p)].
Definition of_fields (l : list positive) : option Profile :=
  match l with
  | [a; b; c; d; e; f; g; h; i; j; k; l; m; n; o; q; r; s; t] =>
      a ← decode a; b ← decode b; c ← decode c; d ← decode d; e ← decode e; f ← decode f;
      g ← decode g; h ← decode h; i ← decode i; j ← decode j; k ← decode k; l ← decode l;
      m ← decode m; n ← decode n; o ← decode o; q ← decode q; r ← decode r; s ← decode s;
      t ← decode t; Some (mkProfile a b c d e f g h i j k l m n o q r s t)
  | _ => None
  end.
Fixpoint pos_bits (p : positive) : bytes :=
  match p with xH => [] | xO p => 0 :: pos_bits p | xI p => 1 :: pos_bits p end.
Fixpoint bits_pos (l : bytes) : positive :=
  match l with [] => xH | b :: l => if b =? 0 then xO (bits_pos l) else xI (bits_pos l) end.
Lemma bits_pos_bits p : bits_pos (pos_bits p) = p.
Proof. induction p as [p IH|p IH|]; cbn; by rewrite ?IH. Qed.
Lemma pos_bits_range p : Forall is_byte (pos_bits p).
Proof. induction p; cbn; constructor; try done; unfold is_byte; lia. Qed.
Lemma of_fields_fields p : of_fields (fields p) = Some p.
Proof. unfold of_fields, fields. rewrite !decode_encode. by destruct p. Qed.
#[export] Instance bits_json : JsonProfile.
Proof.
  refine {| json_marshal := fun p => pos_bits (positives_flatten (fields p));
    json_unmarshal := fun l => positives_unflatten (bits_pos l) ≫= of_fields; json_ok := fun _ => True |}.
  - intros p. apply pos_bits_range.
  - intros p _. rewrite bits_pos_bits, positives_unflatten_flatten. apply of_fields_fields.
Defined.
