(* ===== verification/EsimCrypto.v ===== *)
(** * EsimCrypto: the SGP.22-shaped primitives

    [core/esim/crypto/crypto.go].  The AES block function is behind the
    interface [BlockCipher], which promises only what [crypto/aes] documents:
    16-byte blocks, and decryption inverts encryption under the same key.  The
    curve of [crypto/ecdh] is behind [P256]: both sides of an exchange agree,
    and a private key survives its serialisation.  The random initialisation
    vector is an argument. *)
From S2P Require Import Prelude.
From S2P Require Import Encoding.

Class BlockCipher := {
  encrypt_block : bytes -> bytes -> bytes;  (* key, block *)
  decrypt_block : bytes -> bytes -> bytes;
  encrypt_length : forall k b, zlen k = 16 -> zlen b = 16 -> zlen (encrypt_block k b) = 16;
  encrypt_bytes : forall k b, Forall is_byte (encrypt_block k b);
  decrypt_encrypt : forall k b, zlen k = 16 -> zlen b = 16 -> Forall is_byte b ->
    decrypt_block k (encrypt_block k b) = b;
}.

(** P-256 as [crypto/ecdh] documents it; [agree] is [NewPublicKey] followed by
    [ECDH], which fails for bytes that are no point of the curve. *)
Class P256 := {
  privkey : Type;
  privkey_eq_dec : EqDecision privkey;
  public : privkey -> bytes;
  agree : privkey -> bytes -> option bytes;
  priv_bytes : privkey -> bytes;
  priv_of : bytes -> option privkey;
  public_bytes : forall k, Forall is_byte (public k) /\ public k <> [];
  agree_length : forall k b s, agree k b = Some s -> zlen s = 32;
  agree_comm : forall a b, exists s, agree a (public b) = Some s /\ agree b (public a) = Some s;
  priv_roundtrip : forall k, priv_bytes k <> [] /\ priv_of (priv_bytes k) = Some k;
}.
#[export] Existing Instance privkey_eq_dec.

Inductive Error := ErrKeyLength (n : Z) | ErrLength (n : Z) | ErrPadding | ErrRand | ErrPeer.

Definition ECDHPublic `{P256} (k : privkey) : bytes := public k.
Definition ECDHShared `{P256} (k : privkey) (peer : bytes) : res Error bytes :=
  match agree k peer with Some s => Ok s | None => Err ErrPeer end.

Definition xor_bytes (a b : bytes) : bytes := zip_with Z.lxor a b.

Section Crypto.
Context `{BlockCipher}.

(** ** CMAC *)
Definition rb : bytes := replicate 15 0 ++ [0x87].

(** The loop of [shiftLeft], from the last byte to the first. *)
Fixpoint shift_loop (carry : Z) (l : bytes) : bytes :=
  match l with
  | [] => []
  | b :: l => Z.lor (u8 (Z.shiftl b 1)) carry :: shift_loop (Z.shiftr b 7) l
  end.
Definition shiftLeft (l : bytes) : bytes := reverse (shift_loop 0 (reverse l)).

Definition subkey (l : bytes) : bytes :=
  let k := shiftLeft l in
  if negb (Z.land (at_ l 0) 0x80 =? 0) then xor_bytes k rb else k.
Definition cmacSubkeys (key : bytes) : bytes * bytes :=
  let l := encrypt_block key (replicate 16 0) in
  let k1 := subkey l in
  (k1, subkey k1).

(** [copy(last[:], tail)]: what is copied into a zeroed 16-byte block. *)
Definition block_of (tail : bytes) : bytes := take 16 tail ++ replicate (16 - length tail) 0.

Fixpoint chain (key msg : bytes) (x : bytes) (i n : nat) : bytes :=
  match n with
  | O => x
  | S n =>
      let m := slice msg (Z.of_nat i * 16) (Z.of_nat i * 16 + 16) in
      chain key msg (encrypt_block key (xor_bytes m x)) (S i) n
  end.

Definition CMAC (key msg : bytes) : res Error bytes :=
  if negb (zlen key =? 16) then Err (ErrKeyLength (zlen key))
  else
    let '(k1, k2) := cmacSubkeys key in
    let blocks := zlen msg / 16 in
    let rem := zlen msg mod 16 in
    let last :=
      if (rem =? 0) && (0 <? blocks) then
        xor_bytes (block_of (drop (Z.to_nat ((blocks - 1) * 16)) msg)) k1
      else
        let l := block_of (drop (Z.to_nat (blocks * 16)) msg) in
        xor_bytes (<[Z.to_nat rem := 0x80]> l) k2 in
    let chainBlocks := if rem =? 0 then blocks - 1 else blocks in
    let x := chain key msg (replicate 16 0) 0 (Z.to_nat chainBlocks) in
    Ok (encrypt_block key (xor_bytes last x)).

(** ** Key derivation *)
Definition cmacKey (key : bytes) : res Error bytes :=
  if zlen key =? 16 then Ok key
  else if zlen key =? 32 then Ok (xor_bytes (slice key 0 16) (slice key 16 32))
  else Err (ErrKeyLength (zlen key)).

(** The loop from counter [i] with [left] bytes to go; 16 per round. *)
Fixpoint kdf_loop (k context : bytes) (i : Z) (rounds : nat) : res Error bytes :=
  match rounds with
  | O => Ok []
  | S rounds =>
      match CMAC k (context ++ be_put 4 i) with
      | Err e => Err e
      | Ok block => app block <$> kdf_loop k context (i + 1) rounds
      end
  end.
Definition KDF (key context : bytes) (length : Z) : res Error bytes :=
  match cmacKey key with
  | Err e => Err e
  | Ok k =>
      if (length <=? 0) || negb (length mod 16 =? 0) then Err (ErrLength length)
      else (fun out => slice out 0 length) <$> kdf_loop k context 1 (Z.to_nat (length / 16))
  end.

Definition DeriveSessionKey (shared : bytes) (label : Z) : res Error bytes :=
  KDF shared (label :: replicate 15 0) 16.

Record SessionKeys := mkKeys { Enc : bytes; Mac : bytes; Kek : bytes; Dek : bytes }.
Definition DeriveSessionKeys (shared : bytes) : res Error SessionKeys :=
  enc ← DeriveSessionKey shared 1;
  mac ← DeriveSessionKey shared 2;
  kek ← DeriveSessionKey shared 3;
  dek ← DeriveSessionKey shared 4;
  Ok (mkKeys enc mac kek dek).

(** ** CBC with PKCS#7 *)
Definition pkcs7Pad (data : bytes) (size : Z) : bytes :=
  let pad := size - zlen data mod size in
  data ++ replicate (Z.to_nat pad) (u8 pad).
Definition pkcs7Unpad (data : bytes) (size : Z) : res Error bytes :=
  if (zlen data =? 0) || negb (zlen data mod size =? 0) then Err ErrPadding
  else
    let pad := at_ data (zlen data - 1) in
    if (pad =? 0) || (size <? pad) || (zlen data <? pad) then Err ErrPadding
    else if negb (forallb (fun b => b =? pad) (drop (Z.to_nat (zlen data - pad)) data)) then
      Err ErrPadding
    else Ok (slice data 0 (zlen data - pad)).

(** [crypto/cipher]'s CBC modes, block by block; [n] counts blocks. *)
Fixpoint cbc_encrypt (key prev data : bytes) (n : nat) : bytes :=
  match n with
  | O => []
  | S n =>
      let c := encrypt_block key (xor_bytes (take 16 data) prev) in
      c ++ cbc_encrypt key c (drop 16 data) n
  end.
Fixpoint cbc_decrypt (key prev data : bytes) (n : nat) : bytes :=
  match n with
  | O => []
  | S n =>
      let c := take 16 data in
      xor_bytes (decrypt_block key c) prev ++ cbc_decrypt key c (drop 16 data) n
  end.

(** [iv] is what [rand.Read] filled the vector with. *)
Definition Encrypt (key : bytes) (iv : option bytes) (pt : bytes) : res Error bytes :=
  if negb (zlen key =? 16) then Err (ErrKeyLength (zlen key))
  else
    let padded := pkcs7Pad pt 16 in
    match iv with
    | None => Err ErrRand
    | Some iv => Ok (iv ++ cbc_encrypt key iv padded (Z.to_nat (zlen padded / 16)))
    end.
Definition Decrypt (key ct : bytes) : res Error bytes :=
  if negb (zlen key =? 16) then Err (ErrKeyLength (zlen key))
  else if (zlen ct <? 32) || negb (zlen ct mod 16 =? 0) then Err (ErrLength (zlen ct))
  else
    let iv := slice ct 0 16 in
    let body := drop 16 ct in
    pkcs7Unpad (cbc_decrypt key iv body (Z.to_nat (zlen body / 16))) 16.

(** [subtle.ConstantTimeCompare] accumulates the differences of all bytes. *)
Definition ConstantTimeCompare (a b : bytes) : Z :=
  if negb (zlen a =? zlen b) then 0
  else if foldl Z.lor 0 (xor_bytes a b) =? 0 then 1 else 0.
Definition VerifyMAC (expected got : bytes) : bool :=
  (zlen expected =? zlen got) && (ConstantTimeCompare expected got =? 1).

(** ** Lemmas: exclusive or *)
Lemma zlen_xor a b : zlen a = zlen b -> zlen (xor_bytes a b) = zlen a.
Proof. unfold zlen, xor_bytes. rewrite length_zip_with. intros. lia. Qed.
Lemma is_byte_lxor a b : is_byte a -> is_byte b -> is_byte (Z.lxor a b).
Proof.
  unfold is_byte. intros Ha Hb.
  assert (Hn : 0 <= Z.lxor a b) by (apply Z.lxor_nonneg; lia). split; [done|].
  destruct (Z.eq_dec (Z.lxor a b) 0) as [E|E]; [lia|].
  apply (Z.log2_lt_pow2 _ 8); [lia|].
  eapply Z.le_lt_trans; [apply Z.log2_lxor; lia|].
  apply Z.max_lub_lt; (destruct (Z.eq_dec a 0) as [->|]; destruct (Z.eq_dec b 0) as [->|]);
    try (cbn; lia); apply Z.log2_lt_pow2; lia.
Qed.
Lemma xor_bytes_range a b : Forall is_byte a -> Forall is_byte b -> Forall is_byte (xor_bytes a b).
Proof.
  intros Ha. revert b. induction Ha as [|x a Hx Ha IH]; intros b Hb; [constructor|].
  destruct Hb as [|y b Hy Hb]; [constructor|]. constructor; [by apply is_byte_lxor|by apply IH].
Qed.
Lemma xor_bytes_cancel a b : zlen a = zlen b -> xor_bytes (xor_bytes a b) b = a.
Proof.
  revert b. induction a as [|x a IH]; intros [|y b]; try done; rewrite !zlen_cons; intros Hl.
  - cbn. f_equal; [|apply IH; lia]. by rewrite Z.lxor_assoc, Z.lxor_nilpotent, Z.lxor_0_r.
Qed.

(** ** VerifyMAC *)
Lemma foldl_lor_0 l z : foldl Z.lor z l = 0 <-> z = 0 /\ Forall (fun x => x = 0) l.
Proof.
  revert z. induction l as [|x l IH]; intros z; cbn.
  - split; [done|by intros []].
  - rewrite IH, Forall_cons, Z.lor_eq_0_iff. tauto.
Qed.
Lemma VerifyMAC_iff a b : VerifyMAC a b = true <-> a = b.
Proof.
  unfold VerifyMAC, ConstantTimeCompare. rewrite andb_true_iff, Z.eqb_eq. split.
  - intros [Hl Hc]. rewrite Hl, Z.eqb_refl in Hc. cbn [negb] in Hc.
    destruct (Z.eqb_spec (foldl Z.lor 0 (xor_bytes a b)) 0) as [E|]; [|done]. clear Hc.
    apply foldl_lor_0 in E as [_ E]. revert b Hl E.
    induction a as [|x a IH]; intros [|y b]; try done; rewrite !zlen_cons; intros Hl.
    + cbn. intros [Hx Hr]%Forall_cons. apply Z.lxor_eq in Hx as ->. f_equal. apply IH; [lia|done].
  - intros ->. split; [done|]. rewrite Z.eqb_refl. cbn [negb].
    replace (foldl Z.lor 0 (xor_bytes b b)) with 0; [done|]. symmetry. apply foldl_lor_0.
    split; [done|]. induction b as [|x b IH]; cbn; constructor; [apply Z.lxor_nilpotent|done].
Qed.

(** ** CBC round trip *)
Lemma zlen_take_drop (l : bytes) : 16 <= zlen l ->
  zlen (take 16 l) = 16 /\ zlen (drop 16 l) = zlen l - 16.
Proof. unfold zlen. rewrite length_take, length_drop. intros. lia. Qed.

Lemma cbc_decrypt_encrypt key prev data n : zlen key = 16 -> zlen prev = 16 ->
  Forall is_byte prev -> Forall is_byte data -> zlen data = 16 * Z.of_nat n ->
  cbc_decrypt key prev (cbc_encrypt key prev data n) n = data /\
  zlen (cbc_encrypt key prev data n) = 16 * Z.of_nat n.
Proof.
  intros Hk. revert prev data. induction n as [|n IH]; intros prev data Hp Hpb Hdb Hd.
  - split; [|done]. unfold zlen in Hd. destruct data; [done|cbn in Hd; lia].
  - destruct (zlen_take_drop data) as [Ht Hr]; [lia|].
    cbn [cbc_encrypt cbc_decrypt]. set (x := xor_bytes (take 16 data) prev).
    assert (Hx : zlen x = 16) by (unfold x; rewrite zlen_xor; lia).
    assert (Hxb : Forall is_byte x).
    { apply xor_bytes_range; [by apply Forall_take|done]. }
    pose proof (encrypt_length key x Hk Hx) as Hc. set (c := encrypt_block key x) in *.
    assert (Hlc : length c = 16%nat) by (unfold zlen in Hc; lia).
    rewrite (take_app_length' _ _ _ (eq_sym Hlc)), (drop_app_length' _ _ _ (eq_sym Hlc)).
    destruct (IH c (drop 16 data)) as [IH1 IH2]; [done|apply encrypt_bytes|by apply Forall_drop|lia|].
    split.
    + unfold c at 1. rewrite decrypt_encrypt by done. unfold x.
      rewrite xor_bytes_cancel by lia. rewrite IH1. apply take_drop.
    + rewrite zlen_app, IH2. lia.
Qed.

Lemma pkcs7Pad_spec data : exists pad, 1 <= pad <= 16 /\
  pkcs7Pad data 16 = data ++ replicate (Z.to_nat pad) pad /\ (zlen data + pad) mod 16 = 0.
Proof.
  pose proof (Z.mod_pos_bound (zlen data) 16 ltac:(lia)) as Hm.
  exists (16 - zlen data mod 16). split; [lia|]. split.
  - unfold pkcs7Pad. cbv zeta. f_equal. f_equal. unfold u8. apply Z.mod_small. lia.
  - pose proof (zlen_nonneg data). Z.div_mod_to_equations. lia.
Qed.
Lemma pkcs7_roundtrip data : pkcs7Unpad (pkcs7Pad data 16) 16 = Ok data.
Proof.
  destruct (pkcs7Pad_spec data) as (pad & Hp & -> & Hmod). unfold pkcs7Unpad.
  assert (Hz : zlen (data ++ replicate (Z.to_nat pad) pad) = zlen data + pad).
  { rewrite zlen_app. unfold zlen at 2. rewrite length_replicate. lia. }
  pose proof (zlen_nonneg data). rewrite Hz.
  rewrite (proj2 (Z.eqb_neq _ 0)), (proj2 (Z.eqb_eq (_ mod 16) 0)) by (done || lia).
  cbn [orb negb].
  assert (Hlast : at_ (data ++ replicate (Z.to_nat pad) pad) (zlen data + pad - 1) = pad).
  { unfold at_, zlen. rewrite app_nth2 by lia. rewrite nth_lookup, lookup_replicate_2 by lia. done. }
  rewrite Hlast. rewrite (proj2 (Z.eqb_neq pad 0)), (proj2 (Z.ltb_ge 16 pad)),
    (proj2 (Z.ltb_ge _ pad)) by lia. cbn [orb].
  replace (zlen data + pad - pad) with (zlen data) by lia.
  rewrite slice_app_l by done. unfold zlen at 1. rewrite Nat2Z.id, drop_app_length.
  replace (forallb _ _) with true; [done|]. symmetry. apply forallb_forall.
  intros b Hb%list_elem_of_In%elem_of_replicate. apply Z.eqb_eq. apply Hb.
Qed.

(** What [Encrypt] makes of a payload: bytes, at most two blocks longer. *)
Lemma cbc_encrypt_bytes key prev data n : Forall is_byte (cbc_encrypt key prev data n).
Proof.
  revert prev data. induction n as [|n IH]; intros prev data; [constructor|]. cbn.
  apply Forall_app. split; [apply encrypt_bytes|apply IH].
Qed.
Lemma Encrypt_ok key iv pt : zlen key = 16 -> zlen iv = 16 -> Forall is_byte iv ->
  Forall is_byte pt ->
  exists ct, Encrypt key (Some iv) pt = Ok ct /\ Decrypt key ct = Ok pt /\ Forall is_byte ct /\
    zlen ct <= zlen pt + 32.
Proof.
  intros Hk Hi Hib Hpb. unfold Encrypt. rewrite (proj2 (Z.eqb_eq _ _) Hk). cbn [negb].
  eexists. split; [done|]. unfold Decrypt. rewrite (proj2 (Z.eqb_eq _ _) Hk). cbn [negb].
  destruct (pkcs7Pad_spec pt) as (pad & Hp & Epad & Hmod).
  assert (Hz : zlen (pkcs7Pad pt 16) = zlen pt + pad).
  { rewrite Epad, zlen_app. unfold zlen at 2. rewrite length_replicate. lia. }
  pose proof (zlen_nonneg pt).
  set (n := Z.to_nat (zlen (pkcs7Pad pt 16) / 16)).
  assert (Hn : zlen (pkcs7Pad pt 16) = 16 * Z.of_nat n).
  { unfold n. rewrite Hz. revert Hmod. Z.div_mod_to_equations. lia. }
  destruct (cbc_decrypt_encrypt key iv (pkcs7Pad pt 16) n Hk Hi Hib) as [Hdec Hlen].
  { rewrite Epad. apply Forall_app. split; [done|]. apply Forall_replicate. unfold is_byte. lia. }
  { done. }
  assert (Hlc : length iv = 16%nat) by (unfold zlen in Hi; lia).
  rewrite zlen_app, Hlen, Hi, (proj2 (Z.ltb_ge _ 32)) by lia.
  replace ((16 + 16 * Z.of_nat n) mod 16) with 0 by (Z.div_mod_to_equations; lia).
  cbn [negb orb Z.eqb]. rewrite slice_app_l by done.
  rewrite (drop_app_length' _ _ _ (eq_sym Hlc)), Hlen.
  replace (Z.to_nat (16 * Z.of_nat n / 16)) with n by (Z.div_mod_to_equations; lia).
  rewrite Hdec, pkcs7_roundtrip. split; [done|]. split; [|lia].
  apply Forall_app. split; [done|apply cbc_encrypt_bytes].
Qed.

(** decryption inverts encryption: for every 16-byte key and vector and
    every payload, what [Encrypt] produces decrypts to the payload. *)
Theorem Decrypt_Encrypt key iv pt : zlen key = 16 -> zlen iv = 16 -> Forall is_byte iv ->
  Forall is_byte pt ->
  exists ct, Encrypt key (Some iv) pt = Ok ct /\ Decrypt key ct = Ok pt.
Proof.
  intros Hk Hi Hib Hp. destruct (Encrypt_ok key iv pt) as (ct & He & Hd & _); eauto.
Qed.

(** ** CMAC against NIST SP 800-38B *)
(** Doubling in GF(2^128). *)
Definition dbl (x : Z) : Z :=
  Z.lxor (2 * x mod 2 ^ 128) (if Z.testbit x 127 then 0x87 else 0).
(** The recursive reference: full blocks are chained; the last one, complete
    or padded with a 1 bit, is masked with K1 or K2. *)
Definition cmac_last (k1 k2 m : bytes) : bytes :=
  if zlen m =? 16 then xor_bytes m k1
  else xor_bytes (m ++ 0x80 :: replicate (15 - length m) 0) k2.
Fixpoint cmac_ref (key k1 k2 x m : bytes) (fuel : nat) : bytes :=
  match fuel with
  | O => []
  | S fuel =>
      if zlen m <=? 16 then encrypt_block key (xor_bytes (cmac_last k1 k2 m) x)
      else cmac_ref key k1 k2 (encrypt_block key (xor_bytes (take 16 m) x)) (drop 16 m) fuel
  end.
Definition CMAC_reference (key m : bytes) : bytes :=
  let l := be_get (encrypt_block key (replicate 16 0)) in
  let k1 := be_put 16 (dbl l) in
  let k2 := be_put 16 (dbl (dbl l)) in
  cmac_ref key k1 k2 (replicate 16 0) m (S (length m)).

Lemma be_put_lxor n x y : xor_bytes (be_put n x) (be_put n y) = be_put n (Z.lxor x y).
Proof.
  induction n as [|n IH]; [done|]. unfold be_put; fold be_put. cbn [xor_bytes zip_with].
  unfold xor_bytes in IH. rewrite IH. f_equal.
  replace (256 ^ Z.of_nat n) with (2 ^ (8 * Z.of_nat n)) by (rewrite Z.pow_mul_r by lia; done).
  change 256 with (2 ^ 8). rewrite <- !Z.shiftr_div_pow2, <- !Z.land_ones by lia.
  rewrite Z.shiftr_lxor. apply Z.bits_inj'. intros i Hi.
  rewrite !Z.lxor_spec, !Z.land_spec, Z.lxor_spec. by destruct (Z.testbit (Z.ones 8) i), (Z.testbit _ i), (Z.testbit _ i).
Qed.

Lemma be_get_snoc l b : be_get (l ++ [b]) = be_get l * 256 + b.
Proof. unfold be_get. by rewrite foldl_app. Qed.
(** Facts about one byte, by evaluation of all 256. *)
Lemma byte_fact (f : Z -> bool) : forallb f (seqZ 0 256) = true ->
  forall b, is_byte b -> f b = true.
Proof.
  rewrite forallb_forall. intros Hf b Hb.
  apply Hf, list_elem_of_In, elem_of_seqZ. unfold is_byte in Hb. lia.
Qed.
Lemma shift_byte b c : is_byte b -> c = 0 \/ c = 1 ->
  Z.lor (u8 (Z.shiftl b 1)) c = (2 * b + c) mod 256 /\ Z.shiftr b 7 = (2 * b + c) / 256 /\
  (Z.shiftr b 7 = 0 \/ Z.shiftr b 7 = 1).
Proof.
  intros Hb Hc.
  pose proof (byte_fact (fun b => forallb (fun c => (Z.lor (u8 (Z.shiftl b 1)) c =? (2 * b + c) mod 256)
    && (Z.shiftr b 7 =? (2 * b + c) / 256) && ((Z.shiftr b 7 =? 0) || (Z.shiftr b 7 =? 1))) [0; 1])
    ltac:(vm_compute; reflexivity) b Hb) as Hf.
  rewrite forallb_forall in Hf. specialize (Hf c ltac:(cbn; intuition)).
  apply andb_true_iff in Hf as [[H1%Z.eqb_eq H2%Z.eqb_eq]%andb_true_iff H3%orb_true_iff].
  rewrite !Z.eqb_eq in H3. auto.
Qed.

(** The carry loop doubles the value. *)
Lemma shift_loop_spec l c : Forall is_byte l -> c = 0 \/ c = 1 ->
  be_get (reverse (shift_loop c l)) = (2 * be_get (reverse l) + c) mod 256 ^ zlen l /\
  Forall is_byte (shift_loop c l) /\ length (shift_loop c l) = length l.
Proof.
  intros Hl. revert c. induction Hl as [|b l Hb Hl IH]; intros c Hc.
  - split; [|done]. change (zlen (@nil Z)) with 0. by rewrite Z.mod_1_r.
  - cbn [shift_loop]. destruct (shift_byte b c Hb Hc) as (E1 & E2 & Hc').
    destruct (IH _ Hc') as (IH1 & IH2 & IH3). split_and!.
    + rewrite !reverse_cons, !be_get_snoc, IH1, E1, E2, zlen_cons, Z.pow_add_r, Z.pow_1_r
        by (try lia; apply zlen_nonneg).
      set (R := be_get (reverse l)). pose proof (zlen_nonneg l).
      assert (Hp : 0 < 256 ^ zlen l) by (apply Z.pow_pos_nonneg; lia).
      set (P := 256 ^ zlen l) in *. clearbody R P.
      replace (2 * (R * 256 + b) + c) with ((2 * b + c) + 256 * (2 * R)) by lia.
      rewrite (Z.rem_mul_r _ 256 P) by lia.
      rewrite (Z.mul_comm 256 (2 * R)), Z.mod_add, Z.div_add by lia.
      rewrite (Z.add_comm (2 * R)). lia.
    + constructor; [|done]. rewrite E1. unfold is_byte. apply Z.mod_pos_bound. lia.
    + cbn. by rewrite IH3.
Qed.

Definition is_block (l : bytes) : Prop := Forall is_byte l /\ length l = 16%nat.
Lemma shiftLeft_spec l : is_block l -> shiftLeft l = be_put 16 (2 * be_get l).
Proof.
  intros [Hb Hl]. unfold shiftLeft.
  destruct (shift_loop_spec (reverse l) 0) as (H1 & H2 & H3); [by apply Forall_reverse|by left|].
  rewrite reverse_involutive, Z.add_0_r in H1.
  rewrite <- (be_put_get_eq 16 (reverse (shift_loop 0 (reverse l)))).
  - rewrite H1. unfold zlen. rewrite length_reverse, Hl. apply (be_put_mod 16).
  - by rewrite length_reverse, H3, length_reverse.
  - by apply Forall_reverse.
Qed.
Lemma top_bit l : is_block l -> negb (Z.land (at_ l 0) 0x80 =? 0) = Z.testbit (be_get l) 127.
Proof.
  intros [Hb Hl]. destruct Hb as [|b l Hb Hbs]; [done|]. cbn in Hl.
  change (at_ (b :: l) 0) with b. rewrite be_get_cons.
  replace (zlen l) with 15 by (unfold zlen; lia).
  pose proof (be_get_bound l Hbs) as Hr. replace (zlen l) with 15 in Hr by (unfold zlen; lia).
  change 127 with (7 + 120). rewrite <- Z.shiftr_spec by lia.
  rewrite Z.shiftr_div_pow2 by lia. change (2 ^ 120) with (256 ^ 15).
  rewrite Z.div_add_l, Z.div_small, Z.add_0_r by lia.
  apply (byte_fact (fun b => eqb (negb (Z.land b 128 =? 0)) (Z.testbit b 7))) in Hb;
    [by apply eqb_prop|vm_compute; reflexivity].
Qed.
Lemma subkey_spec l : is_block l -> subkey l = be_put 16 (dbl (be_get l)).
Proof.
  intros Hl. unfold subkey, dbl. rewrite top_bit, shiftLeft_spec by done.
  change (2 ^ 128) with (256 ^ Z.of_nat 16). destruct (Z.testbit _ 127).
  - change rb with (be_put 16 0x87). rewrite <- (be_put_mod 16 (2 * _)). apply be_put_lxor.
  - by rewrite Z.lxor_0_r, be_put_mod.
Qed.
Lemma be_put_block z : is_block (be_put 16 z).
Proof. split; [apply be_put_bytes|apply length_be_put]. Qed.
Lemma dbl_range x : 0 <= x < 2 ^ 128 -> 0 <= dbl x < 2 ^ 128.
Proof.
  intros Hx. unfold dbl. pose proof (Z.mod_pos_bound (2 * x) (2 ^ 128) ltac:(lia)) as Hm.
  assert (H0 : 0 <= Z.lxor (2 * x mod 2 ^ 128) (if Z.testbit x 127 then 0x87 else 0)).
  { apply Z.lxor_nonneg. destruct (Z.testbit x 127); lia. }
  split; [done|]. destruct (Z.eq_dec (Z.lxor (2 * x mod 2 ^ 128) (if Z.testbit x 127 then 0x87 else 0)) 0)
    as [->|Hne]; [lia|].
  apply Z.log2_lt_pow2; [lia|]. eapply Z.le_lt_trans; [apply Z.log2_lxor; destruct (Z.testbit x 127); lia|].
  apply Z.max_lub_lt.
  - destruct (Z.eq_dec (2 * x mod 2 ^ 128) 0) as [->|]; [done|]. apply Z.log2_lt_pow2; lia.
  - by destruct (Z.testbit x 127).
Qed.
Lemma cmacSubkeys_spec key : zlen key = 16 ->
  let l := be_get (encrypt_block key (replicate 16 0)) in
  cmacSubkeys key = (be_put 16 (dbl l), be_put 16 (dbl (dbl l))).
Proof.
  intros Hk l. unfold cmacSubkeys. cbv zeta.
  assert (Hb : is_block (encrypt_block key (replicate 16 0))).
  { split; [apply encrypt_bytes|].
    pose proof (encrypt_length key (replicate 16 0) Hk eq_refl) as E. unfold zlen in E. lia. }
  rewrite subkey_spec by done. fold l. rewrite subkey_spec by apply be_put_block.
  rewrite be_get_put. change (256 ^ Z.of_nat 16) with (2 ^ 128). rewrite Z.mod_small; [done|].
  apply dbl_range. unfold l. pose proof (be_get_bound _ (encrypt_bytes key (replicate 16 0))) as Hr.
  by rewrite encrypt_length in Hr.
Qed.

(** The block arithmetic of the code: the blocks it chains, and what is left. *)
Lemma chain_ref key k1 k2 msg n : zlen (drop (16 * n) msg) <= 16 ->
  (forall j, (j < n)%nat -> 16 < zlen (drop (16 * j) msg)) ->
  forall d i x fuel, (i + d = n)%nat -> (length (drop (16 * i) msg) < fuel)%nat ->
  cmac_ref key k1 k2 x (drop (16 * i) msg) fuel =
    encrypt_block key (xor_bytes (cmac_last k1 k2 (drop (16 * n) msg)) (chain key msg x i d)).
Proof.
  intros Hlast Hbig. induction d as [|d IH]; intros i x fuel Hi Hf;
    (destruct fuel as [|fuel]; [lia|]); cbn [cmac_ref chain].
  - replace i with n by lia. by rewrite (proj2 (Z.leb_le _ _)).
  - specialize (Hbig i ltac:(lia)) as Hb. rewrite (proj2 (Z.leb_gt _ _)) by done.
    rewrite drop_drop. replace (16 * i + 16)%nat with (16 * S i)%nat by lia.
    rewrite IH; [|lia|].
    + unfold slice. do 3 f_equal.
      replace (Z.of_nat i * 16 + 16 - Z.of_nat i * 16) with 16 by lia.
      by replace (Z.to_nat (Z.of_nat i * 16)) with (16 * i)%nat by lia.
    + unfold zlen in Hb. rewrite length_drop in *. lia.
Qed.

Lemma block_of_full l : length l = 16%nat -> block_of l = l.
Proof.
  intros Hl. unfold block_of. rewrite take_ge, Hl by lia. apply app_nil_r.
Qed.
Lemma block_of_partial l : (length l < 16)%nat ->
  <[length l := 0x80]> (block_of l) = l ++ 0x80 :: replicate (15 - length l) 0.
Proof.
  intros Hl. unfold block_of. rewrite take_ge by lia.
  replace (16 - length l)%nat with (S (15 - length l)) by lia.
  rewrite <- (Nat.add_0_r (length l)) at 1. by rewrite insert_app_r.
Qed.

Lemma CMAC_eq key msg : zlen key = 16 -> CMAC key msg = Ok (CMAC_reference key msg).
Proof.
  intros Hk. unfold CMAC, CMAC_reference. rewrite (proj2 (Z.eqb_eq _ _) Hk). cbn [negb].
  rewrite cmacSubkeys_spec by done. set (k1 := be_put 16 _). set (k2 := be_put 16 _).
  clearbody k1 k2. f_equal. set (L := length msg).
  assert (Hz : zlen msg = Z.of_nat L) by done. rewrite Hz.
  assert (Hcase : exists n, let tail := drop (16 * n) msg in
    zlen tail <= 16 /\ (forall j, (j < n)%nat -> 16 < zlen (drop (16 * j) msg)) /\
    Z.to_nat (if Z.of_nat L mod 16 =? 0 then Z.of_nat L / 16 - 1 else Z.of_nat L / 16) = n /\
    (if (Z.of_nat L mod 16 =? 0) && (0 <? Z.of_nat L / 16)
     then xor_bytes (block_of (drop (Z.to_nat ((Z.of_nat L / 16 - 1) * 16)) msg)) k1
     else xor_bytes (<[Z.to_nat (Z.of_nat L mod 16) := 0x80]>
            (block_of (drop (Z.to_nat (Z.of_nat L / 16 * 16)) msg))) k2) = cmac_last k1 k2 tail).
  { pose proof (Z.div_mod (Z.of_nat L) 16 ltac:(lia)) as Hdm.
    pose proof (Z.mod_pos_bound (Z.of_nat L) 16 ltac:(lia)) as Hmb.
    set (q := Z.of_nat L / 16) in *. set (r := Z.of_nat L mod 16) in *. clearbody q r.
    assert (Hdl : forall k, length (drop k msg) = (L - k)%nat) by (intros; apply length_drop).
    unfold cmac_last, zlen.
    destruct (Z.eqb_spec r 0) as [Hr|Hr], (Z.ltb_spec 0 q) as [Hq|Hq]; cbn [andb];
      [exists (Z.to_nat (q - 1))|exists 0%nat|exists (Z.to_nat q)|exists 0%nat]; cbv zeta;
      (split; [rewrite Hdl; lia|]; split; [intros; rewrite Hdl; lia|]; split; [lia|]).
    - replace (Z.to_nat ((q - 1) * 16)) with (16 * Z.to_nat (q - 1))%nat by lia.
      rewrite block_of_full by (rewrite Hdl; lia). by rewrite (proj2 (Z.eqb_eq _ _)) by (rewrite Hdl; lia).
    - rewrite (proj2 (Z.eqb_neq _ _)) by (rewrite Hdl; lia).
      rewrite <- block_of_partial by (rewrite Hdl; lia). rewrite Hdl.
      do 2 f_equal; [lia|]. do 2 f_equal. lia.
    - rewrite (proj2 (Z.eqb_neq _ _)) by (rewrite Hdl; lia).
      rewrite <- block_of_partial by (rewrite Hdl; lia). rewrite Hdl.
      do 2 f_equal; [lia|]. do 2 f_equal. lia.
    - rewrite (proj2 (Z.eqb_neq _ _)) by (rewrite Hdl; lia).
      rewrite <- block_of_partial by (rewrite Hdl; lia). rewrite Hdl.
      do 2 f_equal; [lia|]. do 2 f_equal. lia. }
  destruct Hcase as (n & Hlast & Hbig & Hn & Htail). rewrite Htail, Hn.
  change msg with (drop (16 * 0) msg) at 3.
  symmetry. apply chain_ref; [done|done|lia|]. rewrite drop_0. lia.
Qed.

(** C33: [CMAC], with its index arithmetic and its carry loops on bytes, is
    AES-CMAC as NIST SP 800-38B specifies it, for every message, the empty
    one and those of whole blocks included; any other key length is refused. *)
Theorem CMAC_correct key msg :
  CMAC key msg = if zlen key =? 16 then Ok (CMAC_reference key msg)
                 else Err (ErrKeyLength (zlen key)).
Proof.
  destruct (Z.eqb_spec (zlen key) 16) as [Hk|Hk]; [by apply CMAC_eq|].
  unfold CMAC. by rewrite (proj2 (Z.eqb_neq _ _) Hk).
Qed.

(** ** The key derivation *)
Lemma cmac_ref_length key k1 k2 x m fuel : zlen key = 16 -> zlen k1 = 16 -> zlen k2 = 16 ->
  zlen x = 16 -> (length m < fuel)%nat -> zlen (cmac_ref key k1 k2 x m fuel) = 16.
Proof.
  intros Hk H1 H2. revert x m. induction fuel as [|fuel IH]; intros x m Hx Hf; [lia|]. cbn.
  destruct (Z.leb_spec (zlen m) 16) as [Hm|Hm].
  - apply encrypt_length; [done|]. assert (Hl : zlen (cmac_last k1 k2 m) = 16).
    { unfold cmac_last. destruct (Z.eqb_spec (zlen m) 16); [by rewrite zlen_xor; lia|].
      assert (zlen (m ++ 0x80 :: replicate (15 - length m) 0) = 16).
      { unfold zlen in *. rewrite length_app. cbn [length]. rewrite length_replicate. lia. }
      rewrite zlen_xor; lia. }
    rewrite zlen_xor; lia.
  - destruct (zlen_take_drop m) as [Ht Hd]; [lia|]. apply IH.
    + apply encrypt_length; [done|]. rewrite zlen_xor; lia.
    + unfold zlen in *. lia.
Qed.
Lemma CMAC_reference_length key m : zlen key = 16 -> zlen (CMAC_reference key m) = 16.
Proof. intros Hk. apply cmac_ref_length; auto using zlen_be_put. Qed.

Lemma cmac_ref_bytes key k1 k2 x m fuel : Forall is_byte (cmac_ref key k1 k2 x m fuel).
Proof.
  revert x m. induction fuel as [|fuel IH]; intros x m; [constructor|]. cbn.
  destruct (zlen m <=? 16); [apply encrypt_bytes|apply IH].
Qed.
Lemma CMAC_reference_bytes key m : Forall is_byte (CMAC_reference key m).
Proof. apply cmac_ref_bytes. Qed.

Definition kdf_blocks (k context : bytes) (i n : Z) : bytes :=
  mjoin ((fun j => CMAC_reference k (context ++ be_put 4 j)) <$> seqZ i n).

Lemma kdf_loop_spec k ctx i n : zlen k = 16 ->
  kdf_loop k ctx i n = Ok (kdf_blocks k ctx i (Z.of_nat n)) /\
  zlen (kdf_blocks k ctx i (Z.of_nat n)) = 16 * Z.of_nat n.
Proof.
  intros Hk. revert i. induction n as [|n IH]; intros i; [done|].
  cbn [kdf_loop]. rewrite CMAC_eq by done. destruct (IH (i + 1)) as [-> Hl].
  assert (E : kdf_blocks k ctx i (Z.of_nat (S n)) =
    CMAC_reference k (ctx ++ be_put 4 i) ++ kdf_blocks k ctx (i + 1) (Z.of_nat n)).
  { unfold kdf_blocks. rewrite seqZ_cons by lia.
    replace (Z.pred (Z.of_nat (S n))) with (Z.of_nat n) by lia. done. }
  rewrite E. split; [done|]. rewrite zlen_app, Hl, CMAC_reference_length by done. lia.
Qed.

(** [KDF] is the SP 800-108 counter construction: for a 16-byte key, or a
    32-byte secret folded onto itself, and a positive multiple of 16, it
    returns exactly the asked number of bytes, the CMACs of the context and
    the counters 1, 2, ...; everything else is an error. *)
Theorem KDF_spec key context n :
  match KDF key context n with
  | Ok out => exists k, cmacKey key = Ok k /\ zlen k = 16 /\ 0 < n /\ n mod 16 = 0 /\
      zlen out = n /\ out = kdf_blocks k context 1 (n / 16)
  | Err _ => zlen key <> 16 /\ zlen key <> 32 \/ n <= 0 \/ n mod 16 <> 0
  end.
Proof.
  assert (Hck : match cmacKey key with
    | Ok k => zlen k = 16 | Err _ => zlen key <> 16 /\ zlen key <> 32 end).
  { unfold cmacKey. destruct (Z.eqb_spec (zlen key) 16); [done|].
    destruct (Z.eqb_spec (zlen key) 32); [|done].
    rewrite zlen_xor; rewrite ?zlen_slice; lia. }
  unfold KDF. destruct (cmacKey key) as [k|e]; [|by left].
  destruct (Z.leb_spec n 0) as [|Hn]; [by right; left|].
  destruct (Z.eqb_spec (n mod 16) 0) as [Hm|]; [|by right; right]. cbn [orb negb].
  destruct (kdf_loop_spec k context 1 (Z.to_nat (n / 16)) Hck) as [-> Hl].
  rewrite Z2Nat.id in * by (apply Z.div_pos; lia).
  assert (Hz : zlen (kdf_blocks k context 1 (n / 16)) = n).
  { rewrite Hl. revert Hm. Z.div_mod_to_equations. lia. }
  exists k. split_and!; try done.
  - rewrite zlen_slice; lia.
  - rewrite <- (app_nil_r (kdf_blocks _ _ _ _)) at 1. by apply slice_app_l.
Qed.

Lemma DeriveSessionKey_ok shared label : zlen shared = 16 \/ zlen shared = 32 ->
  exists k, DeriveSessionKey shared label = Ok k.
Proof.
  intros Hs. unfold DeriveSessionKey, KDF.
  assert (Hk : exists k, cmacKey shared = Ok k /\ zlen k = 16).
  { unfold cmacKey. destruct (Z.eqb_spec (zlen shared) 16) as [E|N]; [by exists shared|].
    destruct (Z.eqb_spec (zlen shared) 32) as [E|]; [|lia]. eexists. split; [done|].
    rewrite zlen_xor; rewrite ?zlen_slice; lia. }
  destruct Hk as (k & -> & Hk). change ((16 <=? 0) || negb (16 mod 16 =? 0)) with false. cbn iota.
  destruct (kdf_loop_spec k (label :: replicate 15 0) 1 (Z.to_nat (16 / 16)) Hk) as [-> _]. by eexists.
Qed.
Lemma DeriveSessionKeys_total shared : zlen shared = 16 \/ zlen shared = 32 ->
  exists keys, DeriveSessionKeys shared = Ok keys.
Proof.
  intros Hs. unfold DeriveSessionKeys.
  destruct (DeriveSessionKey_ok shared 1 Hs) as [? ->], (DeriveSessionKey_ok shared 2 Hs) as [? ->],
    (DeriveSessionKey_ok shared 3 Hs) as [? ->], (DeriveSessionKey_ok shared 4 Hs) as [? ->].
  by eexists.
Qed.

Lemma DeriveSessionKeys_lengths shared keys : DeriveSessionKeys shared = Ok keys ->
  zlen (Enc keys) = 16 /\ zlen (Mac keys) = 16 /\ zlen (Kek keys) = 16 /\ zlen (Dek keys) = 16.
Proof.
  assert (Hd : forall l k, DeriveSessionKey shared l = Ok k -> zlen k = 16).
  { intros l k. unfold DeriveSessionKey, KDF. destruct (cmacKey shared) as [k0|] eqn:E; [|done].
    assert (Hk : zlen k0 = 16).
    { unfold cmacKey in E. destruct (Z.eqb_spec (zlen shared) 16); [by injection E as <-|].
      destruct (Z.eqb_spec (zlen shared) 32); [|done]. injection E as <-.
      rewrite zlen_xor; rewrite ?zlen_slice; lia. }
    change ((16 <=? 0) || negb (16 mod 16 =? 0)) with false. cbn iota.
    destruct (kdf_loop_spec k0 (l :: replicate 15 0) 1 (Z.to_nat (16 / 16)) Hk) as [-> Hl].
    intros E1. injection E1 as <-. rewrite zlen_slice; [done|lia|].
    apply Z.eq_le_incl. symmetry. exact Hl. }
  unfold DeriveSessionKeys.
  destruct (DeriveSessionKey shared 1) eqn:E1; [|done].
  destruct (DeriveSessionKey shared 2) eqn:E2; [|done].
  destruct (DeriveSessionKey shared 3) eqn:E3; [|done].
  destruct (DeriveSessionKey shared 4) eqn:E4; [|done].
  intros [= <-]. cbn. split_and!; by eapply Hd.
Qed.
End Crypto.

(** ** A cipher for concrete runs: the block is masked with the key *)
Definition mask_block (k b : bytes) : bytes := u8 <$> xor_bytes b k.
Lemma mask_length k b : zlen k = 16 -> zlen b = 16 -> zlen (mask_block k b) = 16.
Proof.
  intros Hk Hb. unfold mask_block, zlen. rewrite length_fmap.
  change (zlen (xor_bytes b k) = 16). rewrite zlen_xor; lia.
Qed.
Lemma mask_bytes k b : Forall is_byte (mask_block k b).
Proof. apply Forall_fmap, Forall_true. intros x. apply Z.mod_pos_bound. lia. Qed.
Lemma mask_mask k b : zlen k = 16 -> zlen b = 16 -> Forall is_byte b ->
  mask_block k (mask_block k b) = b.
Proof.
  intros Hk Hb Hbb. assert (Hl : length b = length k) by (unfold zlen in *; lia). clear Hk Hb.
  revert k Hl. induction Hbb as [|x b Hx Hbb IH]; intros [|y k]; try done. intros [= Hl].
  unfold mask_block in *. cbn. f_equal; [|by apply IH].
  unfold u8. rewrite <- !Z.land_ones by lia. apply Z.bits_inj'. intros i Hi.
  rewrite Z.land_spec, Z.lxor_spec, Z.land_spec, Z.lxor_spec.
  destruct (decide (i < 8)) as [|Hge].
  - rewrite Z.ones_spec_low by lia. by destruct (Z.testbit x i), (Z.testbit y i).
  - rewrite Z.ones_spec_high, !andb_false_r by lia. symmetry.
    unfold is_byte in Hx. destruct (Z.eq_dec x 0) as [->|]; [apply Z.bits_0|].
    apply Z.bits_above_log2; [lia|]. apply Z.log2_lt_pow2; [lia|].
    apply Z.lt_le_trans with (2 ^ 8); [lia|]. apply Z.pow_le_mono_r; lia.
Qed.
#[export] Instance mask_cipher : BlockCipher := {
  encrypt_block := mask_block; decrypt_block := mask_block;
  encrypt_length := mask_length; encrypt_bytes := mask_bytes; decrypt_encrypt := mask_mask;
}.
Lemma Decrypt_Encrypt_witness : exists ct,
  Encrypt (replicate 16 3) (Some (replicate 16 9)) [1; 2; 3] = Ok ct /\
  Decrypt (replicate 16 3) ct = Ok [1; 2; 3].
Proof.
  apply (Decrypt_Encrypt (replicate 16 3) (replicate 16 9) [1; 2; 3]); vm_decide || done.
Defined.

(** ** A curve for concrete runs: multiplication modulo [2 ^ 256] *)
#[export] Instance product_curve : P256.
Proof.
  refine {| privkey := positive; privkey_eq_dec := _;
    public := fun k => be_put 32 (Z.pos k);
    agree := fun k b => Some (be_put 32 (Z.pos k * be_get b));
    priv_bytes := number_bytes; priv_of := fun b => Some (Z.to_pos (be_get b)) |}.
  - intros k. split; [apply be_put_bytes|done].
  - intros k b s [= <-]. apply zlen_be_put.
  - intros a b. eexists. split; [reflexivity|]. rewrite !be_get_put. f_equal.
    rewrite <- (be_put_mod 32 (Z.pos b * _)), <- (be_put_mod 32 (Z.pos a * _)).
    f_equal. rewrite !Z.mul_mod_idemp_r by done. by rewrite Z.mul_comm.
  - intros k. split; [|by rewrite number_bytes_get].
    intros E. pose proof (number_bytes_get k) as Hk. by rewrite E in Hk.
Defined.
