(* ===== verification/Der.v ===== *)
(** * Der: the bound profile package envelope

    [EncodeBPP], [EncodeMACInput] and [DecodeBPP] of
    [core/esim/profile/profile.go], over the part of Go's [encoding/asn1] they
    use: INTEGER from and to an [int], OCTET STRING, SEQUENCE.  As in Go,
    [Unmarshal] returns the bytes after the value and ignores extra bytes at
    the end of a SEQUENCE. *)
From S2P Require Import Prelude.

Inductive Error := ErrSyntax | ErrStructure | ErrTrailing (n : Z) | ErrVersion (v : Z).

Record EncryptedProfile := mkEncrypted { SeqCounter : Z; Ciphertext : bytes; MAC : bytes }.

(** ** Encoding *)
(** [lengthLength]: the bytes of a length, at least one. *)
Fixpoint length_size (fuel : nat) (n : Z) : nat :=
  match fuel with
  | O => 1
  | S fuel => if n <=? 255 then 1 else S (length_size fuel (Z.shiftr n 8))
  end.
Definition der_length (n : Z) : bytes :=
  if n <? 128 then [n]
  else let k := length_size 8 n in (128 + Z.of_nat k) :: be_put k n.
Definition tlv (tag : Z) (body : bytes) : bytes := tag :: der_length (zlen body) ++ body.

(** [int64Encoder]: the least two's complement form. *)
Fixpoint int_size (fuel : nat) (i : Z) : nat :=
  match fuel with
  | O => 1
  | S fuel => if (-128 <=? i) && (i <=? 127) then 1 else S (int_size fuel (Z.shiftr i 8))
  end.
Definition der_int (i : Z) : bytes := tlv 2 (be_put (int_size 8 i) i).
Definition der_octets (b : bytes) : bytes := tlv 4 b.
Definition der_seq (parts : list bytes) : bytes := tlv 48 (mjoin parts).

Definition BPPVersion : Z := 1.
Definition EncodeBPP (ep : EncryptedProfile) : bytes :=
  der_seq [der_int BPPVersion;
    der_seq [der_int (SeqCounter ep); der_octets (Ciphertext ep); der_octets (MAC ep)]].
Definition EncodeMACInput (seqCounter : Z) (ciphertext : bytes) : bytes :=
  der_seq [der_int seqCounter; der_octets ciphertext].

(** ** Decoding *)
(** The long form: [n] length bytes. *)
Fixpoint long_length (n : nat) (l : bytes) (acc : Z) : option (Z * bytes) :=
  match n with
  | O => Some (acc, l)
  | S n =>
      match l with
      | [] => None
      | b :: l =>
          if 2 ^ 23 <=? acc then None
          else let acc := acc * 256 + b in
               if acc =? 0 then None else long_length n l acc
      end
  end.
(** The header of the value expected to have this tag, and its content. *)
Definition parse_tlv (tag : Z) (l : bytes) : option (bytes * bytes) :=
  match l with
  | t :: b :: l =>
      if negb (t =? tag) then None
      else
        let len :=
          if b <? 128 then Some (b, l)
          else if b =? 128 then None
          else match long_length (Z.to_nat (b - 128)) l 0 with
               | Some (n, l) => if n <? 128 then None else Some (n, l)
               | None => None
               end in
        match len with
        | Some (n, l) =>
            if zlen l <? n then None else Some (slice l 0 n, drop (Z.to_nat n) l)
        | None => None
        end
  | _ => None
  end.
(** [parseInt64] after [checkInteger]. *)
Definition parse_int64 (l : bytes) : option Z :=
  match l with
  | [] => None
  | b0 :: rest =>
      let minimal :=
        match rest with
        | [] => true
        | b1 :: _ => negb ((b0 =? 0) && (b1 <? 128) || (b0 =? 255) && (128 <=? b1))
        end in
      if negb minimal then None
      else if 8 <? zlen l then None
      else let v := be_get l in Some (if b0 <? 128 then v else v - 256 ^ zlen l)
  end.
Definition parse_int (l : bytes) : option (Z * bytes) :=
  '(body, rest) ← parse_tlv 2 l; v ← parse_int64 body; Some (v, rest).

(** [asn1.Unmarshal] into [bppASN1]: version, profile, and what follows. *)
Definition unmarshal (data : bytes) : option (Z * EncryptedProfile * bytes) :=
  '(body, rest) ← parse_tlv 48 data;
  '(version, body) ← parse_int body;
  '(inner, _) ← parse_tlv 48 body;
  '(seq, inner) ← parse_int inner;
  '(ct, inner) ← parse_tlv 4 inner;
  '(mac, _) ← parse_tlv 4 inner;
  Some (version, mkEncrypted seq ct mac, rest).

Definition DecodeBPP (data : bytes) : res Error EncryptedProfile :=
  match unmarshal data with
  | None => Err ErrSyntax
  | Some (version, ep, rest) =>
      if negb (zlen rest =? 0) then Err (ErrTrailing (zlen rest))
      else if negb (version =? BPPVersion) then Err (ErrVersion version)
      else Ok ep
  end.

(** ** Lengths *)
Lemma pow256_succ k : 256 ^ Z.of_nat (S k) = 256 * 256 ^ Z.of_nat k.
Proof. rewrite Nat2Z.inj_succ. apply Z.pow_succ_r. lia. Qed.

Lemma length_size_spec fuel n : 1 <= n < 256 ^ Z.of_nat (S fuel) ->
  exists k, length_size fuel n = S k /\ (k <= fuel)%nat /\ 256 ^ Z.of_nat k <= n < 256 ^ Z.of_nat (S k).
Proof.
  revert n. induction fuel as [|fuel IH]; intros n Hn; cbn [length_size].
  - exists 0%nat. split_and!; cbn in *; lia.
  - destruct (Z.leb_spec n 255) as [Hs|Hb].
    + exists 0%nat. split_and!; cbn in *; lia.
    + rewrite Z.shiftr_div_pow2 by lia. change (2 ^ 8) with 256.
      rewrite pow256_succ in Hn.
      pose proof (Z.div_mod n 256). pose proof (Z.mod_pos_bound n 256).
      destruct (IH (n / 256)) as (k & -> & Hk & Hlo & Hhi).
      { split; [lia|apply Z.div_lt_upper_bound; lia]. }
      exists (S k). rewrite (pow256_succ (S k)), (pow256_succ k) in *. split_and!; lia.
Qed.

Lemma long_length_ok l rest acc : Forall is_byte l -> 0 <= acc ->
  acc * 256 ^ zlen l + be_get l < 2 ^ 31 -> 0 < acc \/ (exists b l', l = b :: l' /\ 0 < b) ->
  long_length (length l) (l ++ rest) acc = Some (acc * 256 ^ zlen l + be_get l, rest).
Proof.
  intros Hl. revert acc. induction Hl as [|b l Hb Hl IH]; intros acc Ha Hlt Hpos.
  - cbn [length long_length]. change (be_get []) with 0. change (zlen (@nil Z)) with 0.
    rewrite Z.pow_0_r, Z.mul_1_r, Z.add_0_r. done.
  - cbn [length long_length app]. rewrite zlen_cons, be_get_cons in *.
    pose proof (be_get_bound l Hl). pose proof (zlen_nonneg l).
    rewrite Z.pow_add_r in * by lia. change (256 ^ 1) with 256 in *.
    assert (1 <= 256 ^ zlen l) by (apply (Z.pow_le_mono_r 256 0); lia).
    unfold is_byte in Hb. change (2 ^ 31) with 2147483648 in *. change (2 ^ 23) with 8388608.
    rewrite (proj2 (Z.leb_gt _ _)) by nia.
    assert (0 < acc * 256 + b).
    { destruct Hpos as [|(? & ? & [= -> ->] & ?)]; lia. }
    rewrite (proj2 (Z.eqb_neq _ _)) by lia. rewrite IH by (lia || nia). do 2 f_equal. ring.
Qed.

Lemma be_put_head k n : 256 ^ Z.of_nat k <= n < 256 ^ Z.of_nat (S k) ->
  exists b l, be_put (S k) n = b :: l /\ 0 < b.
Proof.
  rewrite pow256_succ. intros Hn. eexists _, _. split; [reflexivity|].
  rewrite Z.mod_small; [apply Z.div_str_pos; lia|].
  split; [apply Z.div_pos; lia|apply Z.div_lt_upper_bound; lia].
Qed.

(** ** One value *)
Lemma parse_tlv_tlv tag body rest : zlen body < 2 ^ 31 ->
  parse_tlv tag (tlv tag body ++ rest) = Some (body, rest).
Proof.
  intros Hb. pose proof (zlen_nonneg body) as H0.
  assert (Hfin : (if zlen (body ++ rest) <? zlen body then None
      else Some (slice (body ++ rest) 0 (zlen body), drop (Z.to_nat (zlen body)) (body ++ rest)))
      = Some (body, rest)).
  { rewrite zlen_app, (proj2 (Z.ltb_ge _ _)) by (pose proof (zlen_nonneg rest); lia).
    rewrite slice_app_l by done. unfold zlen. by rewrite Nat2Z.id, drop_app_length. }
  unfold tlv, der_length. destruct (Z.ltb_spec (zlen body) 128) as [Hs|Hl].
  - cbn [app parse_tlv]. rewrite Z.eqb_refl. cbn [negb].
    rewrite (proj2 (Z.ltb_lt _ _) Hs). exact Hfin.
  - destruct (length_size_spec 8 (zlen body)) as (k & -> & Hk & Hr).
    { split; [lia|]. eapply Z.lt_trans; [exact Hb|vm_compute; reflexivity]. }
    destruct (be_put_head k _ Hr) as (b & l & E & Hpos). cbv zeta.
    cbn [app parse_tlv]. rewrite Z.eqb_refl. cbn [negb].
    rewrite (proj2 (Z.ltb_ge _ 128)), (proj2 (Z.eqb_neq _ 128)) by lia.
    replace (Z.to_nat (128 + Z.of_nat (S k) - 128)) with (length (be_put (S k) (zlen body)))
      by (rewrite length_be_put; lia).
    rewrite <- app_assoc, long_length_ok; [|apply be_put_bytes|lia| |right; eauto].
    + rewrite be_get_put, Z.mul_0_l, Z.add_0_l, Z.mod_small by lia.
      rewrite (proj2 (Z.ltb_ge _ 128)) by lia. exact Hfin.
    + rewrite be_get_put, Z.mul_0_l, Z.add_0_l, Z.mod_small by lia. done.
Qed.

(** ** Integers *)
Lemma int_size_spec fuel i : - 2 ^ (8 * Z.of_nat fuel + 7) <= i < 2 ^ (8 * Z.of_nat fuel + 7) ->
  exists k, int_size fuel i = S k /\ (k <= fuel)%nat /\
    - (128 * 256 ^ Z.of_nat k) <= i < 128 * 256 ^ Z.of_nat k /\
    (k <> 0%nat -> i < - (128 * 256 ^ (Z.of_nat k - 1)) \/ 128 * 256 ^ (Z.of_nat k - 1) <= i).
Proof.
  revert i. induction fuel as [|fuel IH]; intros i Hi; cbn [int_size].
  - exists 0%nat. split_and!; cbn in *; lia.
  - destruct (Z.leb_spec (-128) i), (Z.leb_spec i 127); cbn [andb];
      try (exists 0%nat; split_and!; cbn in *; lia).
    all: rewrite Z.shiftr_div_pow2 by lia; change (2 ^ 8) with 256;
      replace (8 * Z.of_nat (S fuel) + 7) with (8 + (8 * Z.of_nat fuel + 7)) in Hi by lia;
      rewrite Z.pow_add_r in Hi by lia; change (2 ^ 8) with 256 in Hi;
      pose proof (Z.div_mod i 256); pose proof (Z.mod_pos_bound i 256);
      (destruct (IH (i / 256)) as (k & -> & Hk & Hr & Hlo);
        [split; [lia|apply Z.div_lt_upper_bound; lia]|]);
      exists (S k); rewrite pow256_succ;
      replace (Z.of_nat (S k) - 1) with (Z.of_nat k) by lia;
      split_and!; try lia; intros _;
      (destruct k as [|k]; [cbn; lia|]; specialize (Hlo ltac:(lia)); rewrite pow256_succ;
       replace (Z.of_nat (S k) - 1) with (Z.of_nat k) in Hlo by lia; lia).
Qed.

Lemma be_put_cons k z : be_put (S k) z = (z / 256 ^ Z.of_nat k) mod 256 :: be_put k z.
Proof. done. Qed.

Lemma parse_int64_put i : is_i64 i -> parse_int64 (be_put (int_size 8 i) i) = Some i.
Proof.
  unfold is_i64. intros Hi. destruct (int_size_spec 8 i) as (k & -> & Hk8 & Hr & Hmin).
  { change (2 ^ (8 * Z.of_nat 8 + 7)) with (256 * 2 ^ 63). lia. }
  assert (Hk : (k <= 7)%nat).
  { destruct (decide (k = 8%nat)) as [->|]; [|lia]. specialize (Hmin ltac:(lia)).
    change (128 * 256 ^ (Z.of_nat 8 - 1)) with (2 ^ 63) in Hmin. lia. }
  clear Hi Hk8. rewrite be_put_cons.
  set (m := 256 ^ Z.of_nat k) in *. assert (Hm : 0 < m) by (apply Z.pow_pos_nonneg; lia).
  pose proof (Z.div_mod i m ltac:(lia)) as Hd. pose proof (Z.mod_pos_bound i m Hm) as Hmod.
  assert (Hq : -128 <= i / m < 128) by nia.
  assert (Hb0 : (i / m) mod 256 = if decide (0 <= i) then i / m else i / m + 256).
  { case_decide; [|rewrite <- (Z.mod_add _ 1 256) by lia]; apply Z.mod_small; nia. }
  cbn [parse_int64]. unfold parse_int64.
  assert (Hminimal : match be_put k i with [] => true | b1 :: _ =>
    negb (((i / m) mod 256 =? 0) && (b1 <? 128) || ((i / m) mod 256 =? 255) && (128 <=? b1)) end = true).
  { destruct k as [|k]; [done|]. rewrite be_put_cons. specialize (Hmin ltac:(lia)).
    replace (Z.of_nat (S k) - 1) with (Z.of_nat k) in Hmin by lia.
    subst m. rewrite pow256_succ in *. set (m := 256 ^ Z.of_nat k) in *.
    assert (Hm' : 0 < m) by lia.
    assert (Hq2 : i / (256 * m) = i / m / 256) by (rewrite Z.mul_comm, Zdiv_Zdiv by lia; done).
    rewrite Hq2 in *. clear Hd Hmod.
    pose proof (Z.div_mod i m ltac:(lia)) as Hd. pose proof (Z.mod_pos_bound i m Hm') as Hmod.
    pose proof (Z.div_mod (i / m) 256 ltac:(lia)) as Hd2.
    pose proof (Z.mod_pos_bound (i / m) 256 ltac:(lia)) as Hmod2.
    apply negb_true_iff, orb_false_iff. rewrite !andb_false_iff, !Z.eqb_neq, Z.ltb_ge, Z.leb_gt.
    rewrite Hb0. clear Hb0. revert Hmin Hd Hd2. generalize (i / m / 256).
    generalize (i / m). intros q q' Hmin Hd Hd2. case_decide; split; nia. }
  rewrite Hminimal. cbn [negb]. rewrite zlen_cons, zlen_be_put, (proj2 (Z.ltb_ge 8 _)) by lia.
  rewrite be_get_cons, be_get_put, zlen_be_put. fold m. f_equal.
  replace (256 ^ (1 + Z.of_nat k)) with (256 * m) by (rewrite Z.pow_add_r by lia; done).
  rewrite Hb0. case_decide.
  - rewrite (proj2 (Z.ltb_lt _ _)) by lia. lia.
  - rewrite (proj2 (Z.ltb_ge _ _)) by nia. lia.
Qed.

Lemma zlen_der_int_body i : is_i64 i -> zlen (be_put (int_size 8 i) i) <= 9.
Proof.
  intros Hi. rewrite zlen_be_put. destruct (int_size_spec 8 i) as (k & -> & ? & _); [|lia].
  unfold is_i64 in Hi. change (2 ^ (8 * Z.of_nat 8 + 7)) with (256 * 2 ^ 63). lia.
Qed.
Lemma parse_int_der i rest : is_i64 i -> parse_int (der_int i ++ rest) = Some (i, rest).
Proof.
  intros Hi. pose proof (zlen_der_int_body i Hi). unfold parse_int, der_int.
  rewrite parse_tlv_tlv by lia. cbn [mbind option_bind]. by rewrite parse_int64_put.
Qed.

(** ** Sizes *)
Lemma zlen_tlv tag body : zlen body < 2 ^ 31 -> zlen body <= zlen (tlv tag body) <= zlen body + 11.
Proof.
  intros Hb. pose proof (zlen_nonneg body). unfold tlv, der_length.
  rewrite zlen_cons, zlen_app.
  destruct (Z.ltb_spec (zlen body) 128); [change (zlen [zlen body]) with 1; lia|].
  destruct (length_size_spec 8 (zlen body)) as (k & -> & Hk & Hr).
  { split; [lia|]. eapply Z.lt_trans; [exact Hb|vm_compute; reflexivity]. }
  cbv zeta. rewrite zlen_cons, zlen_be_put. lia.
Qed.

(** The package body stays under the length limit of the decoder. *)
Definition fits (ep : EncryptedProfile) : Prop :=
  is_i64 (SeqCounter ep) /\ zlen (Ciphertext ep) + zlen (MAC ep) < 2 ^ 31 - 100.

Definition bpp_body (ep : EncryptedProfile) : bytes :=
  der_int (SeqCounter ep) ++ der_octets (Ciphertext ep) ++ der_octets (MAC ep).
Lemma EncodeBPP_eq ep : EncodeBPP ep = tlv 48 (der_int 1 ++ tlv 48 (bpp_body ep)).
Proof. unfold EncodeBPP, der_seq, bpp_body. cbn [mjoin list_join]. by rewrite !app_nil_r. Qed.
Lemma bpp_body_fits ep : fits ep -> zlen (bpp_body ep) < 2 ^ 31 - 50.
Proof.
  intros [Hs Hl]. pose proof (zlen_der_int_body _ Hs).
  pose proof (zlen_nonneg (Ciphertext ep)). pose proof (zlen_nonneg (MAC ep)).
  unfold bpp_body, der_int, der_octets. rewrite !zlen_app.
  pose proof (zlen_tlv 2 (be_put (int_size 8 (SeqCounter ep)) (SeqCounter ep)) ltac:(lia)).
  pose proof (zlen_tlv 4 (Ciphertext ep) ltac:(lia)).
  pose proof (zlen_tlv 4 (MAC ep) ltac:(lia)). lia.
Qed.
Lemma unmarshal_EncodeBPP ep rest : fits ep -> unmarshal (EncodeBPP ep ++ rest) = Some (1, ep, rest).
Proof.
  intros Hf. pose proof (bpp_body_fits _ Hf) as Hb. destruct Hf as [Hs Hl].
  pose proof (zlen_nonneg (Ciphertext ep)). pose proof (zlen_nonneg (MAC ep)).
  rewrite EncodeBPP_eq. unfold unmarshal.
  pose proof (zlen_tlv 48 (bpp_body ep) ltac:(lia)).
  rewrite parse_tlv_tlv by (rewrite zlen_app; change (zlen (der_int 1)) with 3; lia).
  cbn [mbind option_bind]. rewrite parse_int_der by vm_decide. cbn [mbind option_bind].
  rewrite <- (app_nil_r (tlv 48 _)), parse_tlv_tlv by lia. cbn [mbind option_bind].
  unfold bpp_body, der_octets. rewrite parse_int_der by done. cbn [mbind option_bind].
  rewrite parse_tlv_tlv by lia. cbn [mbind option_bind].
  rewrite <- (app_nil_r (tlv 4 _)), parse_tlv_tlv by lia. cbn [mbind option_bind]. by destruct ep.
Qed.

(** C34: the bound profile package survives its DER envelope: for every
    64-bit sequence counter and contents under two gigabytes [DecodeBPP]
    returns what [EncodeBPP] was given, and an envelope followed by anything
    is refused with the number of extra bytes. *)
Theorem DecodeBPP_EncodeBPP ep rest : fits ep ->
  DecodeBPP (EncodeBPP ep ++ rest) =
    if zlen rest =? 0 then Ok ep else Err (ErrTrailing (zlen rest)).
Proof.
  intros Hf. unfold DecodeBPP. rewrite unmarshal_EncodeBPP by done.
  by destruct (zlen rest =? 0).
Qed.
Lemma DecodeBPP_EncodeBPP_witness :
  let ep := mkEncrypted (-129) (replicate 300 7) (replicate 16 255) in
  fits ep /\ DecodeBPP (EncodeBPP ep ++ [1]) = Err (ErrTrailing 1).
Proof.
  set (ep := mkEncrypted (-129) (replicate 300 7) (replicate 16 255)). cbv zeta.
  assert (Hf : fits ep) by (split; [vm_decide|vm_compute; reflexivity]).
  split; [exact Hf|]. exact (DecodeBPP_EncodeBPP ep [1] Hf).
Defined.

(** What the MAC covers determines the counter and the ciphertext. *)
Lemma EncodeMACInput_inj s1 c1 s2 c2 : is_i64 s1 -> is_i64 s2 ->
  zlen c1 < 2 ^ 31 - 100 -> zlen c2 < 2 ^ 31 - 100 ->
  EncodeMACInput s1 c1 = EncodeMACInput s2 c2 -> s1 = s2 /\ c1 = c2.
Proof.
  assert (Hp : forall s c, is_i64 s -> zlen c < 2 ^ 31 - 100 ->
    ('(body, _) ← parse_tlv 48 (EncodeMACInput s c); '(i, body) ← parse_int body;
     '(b, _) ← parse_tlv 4 body; Some (i, b)) = Some (s, c)).
  { intros s c Hs Hc. pose proof (zlen_der_int_body s Hs).
    pose proof (zlen_nonneg c).
    unfold EncodeMACInput, der_seq. cbn [mjoin list_join]. rewrite app_nil_r.
    pose proof (zlen_tlv 2 (be_put (int_size 8 s) s) ltac:(lia)).
    pose proof (zlen_tlv 4 c ltac:(lia)).
    rewrite <- (app_nil_r (tlv 48 _)), parse_tlv_tlv
      by (unfold der_int, der_octets; rewrite zlen_app; lia).
    cbn [mbind option_bind]. rewrite parse_int_der by done. cbn [mbind option_bind].
    unfold der_octets. rewrite <- (app_nil_r (tlv 4 _)), parse_tlv_tlv by lia. done. }
  intros Hs1 Hs2 Hc1 Hc2 E. pose proof (Hp s1 c1 Hs1 Hc1) as H1. rewrite E, Hp in H1 by done.
  by injection H1 as -> ->.
Qed.

(** An envelope is bytes. *)
Lemma length_size_le fuel n : (length_size fuel n <= S fuel)%nat.
Proof.
  revert n. induction fuel as [|fuel IH]; intros n; cbn; [lia|].
  destruct (n <=? 255); [lia|]. specialize (IH (Z.shiftr n 8)). lia.
Qed.
Lemma tlv_bytes tag body : is_byte tag -> Forall is_byte body -> Forall is_byte (tlv tag body).
Proof.
  intros Ht Hb. unfold tlv, der_length. constructor; [done|]. apply Forall_app. split; [|done].
  pose proof (zlen_nonneg body). destruct (Z.ltb_spec (zlen body) 128).
  - repeat constructor; lia.
  - constructor; [|apply be_put_bytes]. pose proof (length_size_le 8 (zlen body)). unfold is_byte. lia.
Qed.
Lemma EncodeBPP_bytes ep : Forall is_byte (Ciphertext ep) -> Forall is_byte (MAC ep) ->
  Forall is_byte (EncodeBPP ep).
Proof.
  intros Hc Hm. rewrite EncodeBPP_eq. unfold bpp_body, der_int, der_octets.
  repeat first [apply tlv_bytes; [vm_decide|] | apply Forall_app; split | apply be_put_bytes | done].
Qed.
