(* ===== verification/EsimRegistry.v ===== *)
(** * EsimRegistry: activation codes and their profiles

    [core/esim/registry/registry.go].  The registry is a map in memory and a
    file that every change rewrites; the file is the list of its JSON
    documents, so what a document leaves out is lost.  AES-GCM and JSON are
    behind interfaces; the clock, the nonces, the iteration order of the map
    and the outcome of the file operations are an environment. *)
From S2P Require Import Prelude.
From S2P Require Import Encoding.
From S2P Require Import Activation.
From S2P Require Import Profile.

(** AES-GCM as [crypto/cipher] documents it: what was sealed opens again. *)
Class Aead := {
  seal : bytes -> bytes -> bytes -> bytes;               (* key, nonce, plaintext *)
  open : bytes -> bytes -> bytes -> option bytes;        (* key, nonce, body *)
  seal_bytes : forall k n p, Forall is_byte (seal k n p);
  open_seal : forall k n p, zlen n = 12 -> Forall is_byte p -> open k n (seal k n p) = Some p;
}.

Inductive Error :=
  | ErrKey (n : Z) | ErrCorrupt | ErrRead | ErrBase64 | ErrNoKey | ErrShort | ErrDecrypt | ErrJSON
  | ErrRand | ErrRegistered | ErrUnknown | ErrActivationCodeExpired | ErrActivationCodeUsed | ErrIO.

Record Entry := mkEntry {
  Token : string; EProfile : option Profile; ProfileCipher : string;
  ECreatedAt : time; DownloadedAt : option time; EExpiresAt : option time;
}.
#[global] Instance Entry_eq_dec : EqDecision Entry.
Proof. solve_decision. Defined.

(** What [os.ReadFile] and the JSON decoder find at the path. *)
Inductive File := NotExist | Unreadable | Empty | Corrupt | Doc (l : list Entry).
(** The file operations of a save: all succeed, the file was not replaced, or
    it was and the [chmod] failed. *)
Inductive Io := IoOk | IoFail | IoChmodFail.
Record Env := mkEnv {
  now : time;
  iter : list Entry -> list Entry;         (* the map's iteration order *)
  nonce : string -> option bytes;          (* nonces of a save, by token *)
  fresh : option bytes;                    (* the nonce of an add *)
  io : Io;
}.

Record Registry := mkRegistry { key : option bytes; entries : gmap string Entry; file : File }.

Section Registry.
Context `{Aead} `{JsonProfile}.

Definition key_size_ok (key : bytes) : bool :=
  (zlen key =? 16) || (zlen key =? 24) || (zlen key =? 32).
Definition validateKey (key : option bytes) : res Error unit :=
  match key with
  | None => Ok tt
  | Some k => if key_size_ok k then Ok tt else Err (ErrKey (zlen k))
  end.

(** ** Sealing *)
Definition aeadSeal (key : bytes) (nonce : option bytes) (plain : bytes) : res Error bytes :=
  if negb (key_size_ok key) then Err (ErrKey (zlen key))
  else match nonce with
       | None => Err ErrRand
       | Some n => Ok (n ++ seal key n plain)
       end.
Definition aeadOpen (key : option bytes) (sealed : bytes) : res Error bytes :=
  match key with
  | None => Err ErrNoKey
  | Some key =>
      if negb (key_size_ok key) then Err (ErrKey (zlen key))
      else if zlen sealed <? 12 then Err ErrShort
      else match open key (slice sealed 0 12) (drop 12 sealed) with
           | Some plain => Ok plain
           | None => Err ErrDecrypt
           end
  end.

Definition encryptEntry (key : option bytes) (nonce : option bytes) (e : Entry) : res Error Entry :=
  match key, EProfile e with
  | Some k, Some p =>
      match aeadSeal k nonce (json_marshal p) with
      | Err er => Err er
      | Ok ct => Ok {| e with EProfile := None; ProfileCipher := Base64Encode ct |}
      end
  | _, _ => Ok e
  end.
Definition decryptEntry (key : option bytes) (e : Entry) : res Error Entry :=
  if bool_decide (ProfileCipher e = ""%string) then Ok e
  else match Base64Decode (ProfileCipher e) with
  | None => Err ErrBase64
  | Some ct =>
      match aeadOpen key ct with
      | Err er => Err er
      | Ok plain =>
          match json_unmarshal plain with
          | None => Err ErrJSON
          | Some p => Ok {| e with EProfile := Some p |}
          end
      end
  end.

(** ** Saving *)
(** The document of an entry: [encEntry] embeds the copy, but its own nil
    [Profile] has the same JSON name at a lesser depth, so it hides the
    copy's and is omitted. *)
Definition document (e : Entry) : Entry := {| e with EProfile := None |}.
Definition saved (key : option bytes) (env : Env) (e : Entry) : res Error Entry :=
  document <$> encryptEntry key (nonce env (Token e)) e.
Fixpoint saved_all (key : option bytes) (env : Env) (l : list Entry) : res Error (list Entry) :=
  match l with
  | [] => Ok []
  | e :: l => d ← saved key env e; ds ← saved_all key env l; Ok (d :: ds)
  end.
Definition saveLocked (env : Env) (r : Registry) : Registry * res Error unit :=
  match saved_all (key r) env (iter env (values (entries r))) with
  | Err e => (r, Err e)
  | Ok ds =>
      match io env with
      | IoFail => (r, Err ErrIO)
      | IoOk => ({| r with file := Doc ds |}, Ok tt)
      | IoChmodFail => ({| r with file := Doc ds |}, Err ErrIO)
      end
  end.

(** ** Loading *)
Fixpoint load (key : option bytes) (m : gmap string Entry) (l : list Entry) :
    res Error (gmap string Entry) :=
  match l with
  | [] => Ok m
  | d :: l =>
      match decryptEntry key d with
      | Err e => Err e
      | Ok e => load key (<[Token e := e]> m) l
      end
  end.
Definition OpenWithKey (env : Env) (key : option bytes) (f : File) : File * res Error Registry :=
  match validateKey key with
  | Err e => (f, Err e)
  | Ok _ =>
      let r := mkRegistry key ∅ f in
      match f with
      | NotExist =>
          let '(r, x) := saveLocked env r in
          (file r, (fun _ => r) <$> x)
      | Unreadable => (f, Err ErrRead)
      | Empty => (f, Ok r)
      | Corrupt => (f, Err ErrCorrupt)
      | Doc l => (f, (fun m => mkRegistry key m f) <$> load key ∅ l)
      end
  end.
Definition Open (env : Env) (f : File) : File * res Error Registry := OpenWithKey env None f.

(** ** Operations *)
Definition AddWithExpiry (env : Env) (token : string) (p : option Profile) (expiresAt : time)
    (r : Registry) : Registry * res Error unit :=
  match entries r !! token with
  | Some _ => (r, Err ErrRegistered)
  | None =>
      let e := mkEntry token p "" (now env) None
                 (if IsZero expiresAt then None else Some expiresAt) in
      match encryptEntry (key r) (fresh env) e with
      | Err er => (r, Err er)
      | Ok e => saveLocked env {| r with entries := <[token := e]> (entries r) |}
      end
  end.
Definition Add (env : Env) (token : string) (p : option Profile) (r : Registry) :
    Registry * res Error unit := AddWithExpiry env token p 0 r.

Definition getEntry (r : Registry) (token : string) : res Error Entry :=
  match entries r !! token with Some e => Ok e | None => Err ErrUnknown end.
Definition Resolve (r : Registry) (token : string) : res Error (option Profile) :=
  match entries r !! token with Some e => Ok (EProfile e) | None => Err ErrUnknown end.
Definition ResolvePolicy (r : Registry) (token : string) (singleUse : bool) (now : time) :
    res Error (option Profile) :=
  match entries r !! token with
  | None => Err ErrUnknown
  | Some e =>
      if match EExpiresAt e with Some t => t <? now | None => false end then
        Err ErrActivationCodeExpired
      else if singleUse && bool_decide (is_Some (DownloadedAt e)) then Err ErrActivationCodeUsed
      else Ok (EProfile e)
  end.
Definition MarkDownloaded (env : Env) (token : string) (r : Registry) : Registry * res Error unit :=
  match entries r !! token with
  | None => (r, Err ErrUnknown)
  | Some e =>
      saveLocked env
        {| r with entries := <[token := {| e with DownloadedAt := Some (now env) |}]> (entries r) |}
  end.
Definition List_ (env : Env) (r : Registry) : list Entry := iter env (values (entries r)).
Definition Revoke (env : Env) (token : string) (r : Registry) : Registry * res Error unit :=
  match entries r !! token with
  | None => (r, Err ErrUnknown)
  | Some _ => saveLocked env {| r with entries := delete token (entries r) |}
  end.

(** ** Operations as steps of a run, restarts included *)
Inductive Op :=
  | OpAdd (token : string) (p : option Profile) (expiresAt : time)
  | OpMark (token : string)
  | OpRevoke (token : string)
  | OpReopen.
Definition step (r : Registry) (x : Env * Op) : res Error Registry :=
  let '(env, op) := x in
  match op with
  | OpAdd t p exp => Ok (AddWithExpiry env t p exp r).1
  | OpMark t => Ok (MarkDownloaded env t r).1
  | OpRevoke t => Ok (Revoke env t r).1
  | OpReopen => (OpenWithKey env (key r) (file r)).2
  end.
Fixpoint run (r : Registry) (l : list (Env * Op)) : res Error Registry :=
  match l with
  | [] => Ok r
  | x :: l => match step r x with Ok r => run r l | Err e => Err e end
  end.

(** What a registry promises: a map from codes to profiles and dates. *)
Record Code_entry := mkCodeEntry {
  aProfile : option Profile; aCreated : time; aDownloaded : option time; aExpires : option time;
}.
Definition abs_step (a : gmap string Code_entry) (x : Env * Op) : gmap string Code_entry :=
  let '(env, op) := x in
  match op with
  | OpAdd t p exp =>
      match a !! t with
      | Some _ => a
      | None => <[t := mkCodeEntry p (now env) None (if IsZero exp then None else Some exp)]> a
      end
  | OpMark t => alter (fun c => {| c with aDownloaded := Some (now env) |}) t a
  | OpRevoke t => delete t a
  | OpReopen => a
  end.
Definition abs_run := foldl abs_step.
Definition code_entry (e : Entry) : Code_entry :=
  mkCodeEntry (EProfile e) (ECreatedAt e) (DownloadedAt e) (EExpiresAt e).

(** Saves that succeed, with a permutation as iteration order. *)
Definition nonce_ok (n : option bytes) : Prop :=
  exists l, n = Some l /\ zlen l = 12 /\ Forall is_byte l.
Definition env_ok (env : Env) : Prop :=
  io env = IoOk /\ (forall l, iter env l ≡ₚ l) /\ (forall t, nonce_ok (nonce env t)) /\
  nonce_ok (fresh env).
Definition op_ok (op : Op) : Prop :=
  match op with OpAdd _ (Some p) _ => json_ok p | _ => True end.
Definition run_ok (l : list (Env * Op)) : Prop := Forall (fun x => env_ok x.1 /\ op_ok x.2) l.

(** ** Sealing round trip *)
Lemma seal_opens k n p : key_size_ok k = true -> nonce_ok n -> json_ok p ->
  exists ct, aeadSeal k n (json_marshal p) = Ok ct /\ Forall is_byte ct /\ ct <> [] /\
    aeadOpen (Some k) ct = Ok (json_marshal p).
Proof.
  intros Hk (l & -> & Hl & Hb) Hp. unfold aeadSeal, aeadOpen. rewrite Hk. cbn [negb].
  eexists. split; [done|]. split; [apply Forall_app; split; [done|apply seal_bytes]|].
  assert (Hlen : length l = 12%nat) by (unfold zlen in Hl; lia).
  split; [by destruct l|]. rewrite zlen_app, (proj2 (Z.ltb_ge _ _)) by (pose proof (zlen_nonneg (seal k l (json_marshal p))); lia).
  rewrite slice_app_l, drop_app_length' by done. by rewrite open_seal by (done || apply json_bytes).
Qed.

Definition ok_profile (p : option Profile) : Prop :=
  match p with Some p => json_ok p | None => True end.

(** What an entry stands for under the key: its profile in memory, or else
    the sealed one. *)
Definition means (k : bytes) (e : Entry) (c : Code_entry) : Prop :=
  ok_profile (aProfile c) /\ c = {| (code_entry e) with aProfile := aProfile c |} /\
  match EProfile e with
  | Some p => aProfile c = Some p
  | None => exists e', decryptEntry (Some k) e = Ok e' /\ EProfile e' = aProfile c
  end.

Lemma decryptEntry_frame key e e' : decryptEntry key e = Ok e' ->
  Token e' = Token e /\ (e' = e \/ exists p, e' = {| e with EProfile := Some p |}) /\
  (ProfileCipher e = ""%string -> e' = e).
Proof.
  unfold decryptEntry. case_bool_decide; [intros [= <-]; auto|].
  destruct (Base64Decode _); [|done]. destruct (aeadOpen _ _); [|done].
  destruct (json_unmarshal _) as [p|]; [|done]. intros [= <-]. cbn. split_and!; eauto; done.
Qed.

Lemma encryptEntry_means k n e p c : key_size_ok k = true -> nonce_ok n -> EProfile e = Some p ->
  means k e c -> exists e', encryptEntry (Some k) n e = Ok e' /\ EProfile e' = None /\
    Token e' = Token e /\ code_entry e' = {| (code_entry e) with aProfile := None |} /\
    decryptEntry (Some k) e' = Ok {| e' with EProfile := Some p |}.
Proof.
  intros Hk Hn He (Hok & Hc & Hp). rewrite He in Hp. rewrite Hp in Hok.
  unfold encryptEntry. rewrite He.
  destruct (seal_opens k n p Hk Hn Hok) as (ct & -> & Hb & Hne & Hopen).
  eexists. split; [done|]. cbn. split_and!; try done.
  unfold decryptEntry. cbn [ProfileCipher]. rewrite bool_decide_eq_false_2
    by (intros E; by apply Base64Encode_empty in E).
  rewrite Base64Decode_Encode by done. by rewrite Hopen, json_roundtrip.
Qed.

Lemma document_none e : EProfile e = None -> document e = e.
Proof. by destruct e; cbn; intros ->. Qed.

(** A saved entry loads as what it stands for. *)
Lemma saved_means k env e c : key_size_ok k = true -> nonce_ok (nonce env (Token e)) ->
  means k e c -> exists d e', saved (Some k) env e = Ok d /\ decryptEntry (Some k) d = Ok e' /\
    Token e' = Token e /\ code_entry e' = c /\ means k e' c.
Proof.
  intros Hk Hn Hm. destruct (EProfile e) as [p|] eqn:He.
  - destruct (encryptEntry_means k _ e p c Hk Hn He Hm) as (e' & E & Hnone & Ht & Hce & Hd).
    destruct Hm as (Hok & Hc & Hp). rewrite He in Hp.
    unfold saved. rewrite E. cbn. rewrite document_none by done.
    assert (Hcode : code_entry {| e' with EProfile := Some p |} = c).
    { destruct c; unfold code_entry in *; cbn in *; congruence. }
    exists e', {| e' with EProfile := Some p |}. do 4 (split; [done|]).
    split; [done|]. split; [by rewrite <- Hcode|]. by cbn.
  - destruct Hm as (Hok & Hc & Hm). rewrite He in Hm. destruct Hm as (e' & Hd & Hp).
    unfold saved, encryptEntry. rewrite He. cbn. rewrite document_none by done.
    exists e, e'. destruct (decryptEntry_frame _ _ _ Hd) as (Ht & Hor & Hempty).
    assert (Hcode : code_entry e' = c).
    { destruct Hor as [->|[p ->]], c; unfold code_entry in *; cbn in *; congruence. }
    do 4 (split; [done|]). split; [done|].
    split; [by rewrite <- Hcode|]. destruct (EProfile e') as [p|] eqn:Ep; [done|].
    exists e'. split; [|congruence]. by destruct Hor as [->|[p ->]].
Qed.

Definition agrees (k : bytes) (m : gmap string Entry) (a : gmap string Code_entry) : Prop :=
  forall t, option_Forall2 (fun e c => Token e = t /\ means k e c) (m !! t) (a !! t).

(** Saving and loading the same entries, in any order. *)
Lemma saved_loads k env (a : gmap string Code_entry) l m : key_size_ok k = true ->
  (forall t, nonce_ok (nonce env t)) ->
  Forall (fun e => exists c, a !! Token e = Some c /\ means k e c) l ->
  exists ds m', saved_all (Some k) env l = Ok ds /\ load (Some k) m ds = Ok m' /\
    forall t, if decide (t ∈ Token <$> l)
      then exists e c, m' !! t = Some e /\ a !! t = Some c /\ Token e = t /\
             code_entry e = c /\ means k e c
      else m' !! t = m !! t.
Proof.
  intros Hk Hn Hl. revert m. induction Hl as [|e l (c & Ha & Hm) Hl IH]; intros m.
  - exists [], m. split; [done|]. split; [done|]. intros t. by rewrite decide_False by apply not_elem_of_nil.
  - destruct (saved_means k env e c Hk (Hn _) Hm) as (d & e' & Hs & Hd & Ht & Hc & Hm').
    destruct (IH (<[Token e' := e']> m)) as (ds & m' & Hsa & Hlo & Hspec).
    exists (d :: ds), m'. cbn [saved_all load]. rewrite Hs. cbn [mbind res_bind]. rewrite Hsa, Hd. cbn [mbind res_bind].
    split_and!; [done|done|]. intros t. specialize (Hspec t).
    destruct (decide (t ∈ Token <$> l)) as [Hin|Hout].
    + rewrite decide_True by set_solver. done.
    + rewrite Ht in Hspec. destruct (decide (t = Token e)) as [->|Hne].
      * rewrite decide_True by set_solver. rewrite lookup_insert_eq in Hspec. eauto 10.
      * rewrite decide_False by set_solver. by rewrite lookup_insert_ne in Hspec by done.
Qed.

Definition Inv (k : bytes) (r : Registry) (a : gmap string Code_entry) : Prop :=
  key r = Some k /\ agrees k (entries r) a /\
  exists ds m', file r = Doc ds /\ load (Some k) ∅ ds = Ok m' /\ agrees k m' a /\
    code_entry <$> m' = a.

Lemma registry_save k env r a : key_size_ok k = true -> env_ok env -> key r = Some k ->
  agrees k (entries r) a -> Inv k (saveLocked env r).1 a /\ (saveLocked env r).2 = Ok tt.
Proof.
  intros Hk (Hio & Hperm & Hn & _) Hkey Hag. unfold saveLocked. rewrite Hkey.
  set (l := iter env (values (entries r))).
  assert (Hin : forall t, t ∈ Token <$> l <-> is_Some (a !! t)).
  { intros t. unfold l. rewrite (Hperm (values (entries r))), list_elem_of_fmap. split.
    - intros (e & -> & [t' Ht]%elem_of_values). specialize (Hag t'). rewrite Ht in Hag.
      inversion Hag as [? c [<- _] E1 E2|]; simplify_eq. eauto.
    - intros [c Hc]. specialize (Hag t). rewrite Hc in Hag.
      inversion Hag as [e ? [Ht _] E1 E2|]; simplify_eq. exists e.
      split; [done|]. apply elem_of_values. eauto. }
  destruct (saved_loads k env a l ∅ Hk Hn) as (ds & m' & Hs & Hl & Hspec).
  { unfold l. rewrite (Hperm (values (entries r))). apply Forall_forall.
    intros e [t Ht]%elem_of_values. specialize (Hag t). rewrite Ht in Hag.
    inversion Hag as [? c [<- Hm] E1 E2|]; simplify_eq. eauto. }
  rewrite Hs, Hio. cbn. split; [|done]. split_and!; [done|done|].
  exists ds, m'. split_and!; [done|done| |].
  - intros t. specialize (Hspec t). destruct (decide (t ∈ Token <$> l)) as [Hi|Ho].
    + destruct Hspec as (e & c & -> & -> & Ht & _ & Hm). by constructor.
    + rewrite Hin in Ho. rewrite Hspec, lookup_empty.
      destruct (a !! t); [by destruct Ho|constructor].
  - apply map_eq. intros t. rewrite lookup_fmap. specialize (Hspec t).
    destruct (decide (t ∈ Token <$> l)) as [Hi|Ho].
    + destruct Hspec as (e & c & -> & -> & Ht & Hc & Hm). cbn. by rewrite Hc.
    + rewrite Hin in Ho. rewrite Hspec, lookup_empty. by destruct (a !! t); [destruct Ho|].
Qed.

Lemma agrees_lookup k m a t : agrees k m a -> is_Some (m !! t) <-> is_Some (a !! t).
Proof. intros Hag. specialize (Hag t). inversion Hag; split; intros []; try done; eauto. Qed.

Lemma agrees_insert k m a t e c : agrees k m a -> Token e = t -> means k e c ->
  agrees k (<[t := e]> m) (<[t := c]> a).
Proof.
  intros Hag Ht Hm t'. destruct (decide (t = t')) as [<-|];
    [rewrite !lookup_insert_eq; by constructor|]. by rewrite !lookup_insert_ne.
Qed.

Lemma registry_step k r a x : key_size_ok k = true -> env_ok x.1 -> op_ok x.2 -> Inv k r a ->
  exists r', step r x = Ok r' /\ Inv k r' (abs_step a x).
Proof.
  intros Hk He Ho (Hkey & Hag & Hfile). assert (Hinv : Inv k r a) by done.
  destruct x as [env op]. cbn in He, Ho. destruct op as [t p exp|t|t|]; cbn [step abs_step].
  - eexists. split; [done|]. unfold AddWithExpiry. pose proof (Hag t) as Ht.
    destruct (entries r !! t) as [e|] eqn:Em;
      inversion Ht as [? c [Htok Hm] E1 E2|E1 E2]; simplify_eq; [done|].
    set (e := mkEntry t p "" (now env) None (if IsZero exp then None else Some exp)).
    set (c := mkCodeEntry p (now env) None (if IsZero exp then None else Some exp)).
    assert (Hme : means k e c).
    { split; [by destruct p|]. split; [done|]. cbn. destruct p; [done|].
      exists e. by unfold decryptEntry. }
    rewrite Hkey. destruct p as [p|].
    + destruct (encryptEntry_means k (fresh env) e p c Hk) as (e' & -> & Hno & Ht' & Hce & Hd);
        [apply He|done|done|].
      apply registry_save; [done|done|done|]. cbn. apply agrees_insert; [done|by rewrite Ht'|].
      split; [done|]. split; [unfold c, code_entry in *; cbn in *; congruence|].
      rewrite Hno. eauto.
    + unfold e, encryptEntry. cbn. apply registry_save; [done|done|done|]. by apply agrees_insert.
  - eexists. split; [done|]. unfold MarkDownloaded. pose proof (Hag t) as Ht.
    destruct (entries r !! t) as [e|] eqn:Em;
      inversion Ht as [? c [Htok Hm] E1 E2|E1 E2]; simplify_eq.
    + apply registry_save; [done|done|done|]. cbn.
      replace (alter _ (Token e) a) with (<[Token e := {| c with aDownloaded := Some (now env) |}]> a).
      * apply agrees_insert; [done|done|].
        destruct Hm as (Hok & Hc & Hm). split; [done|]. split; [by rewrite Hc|]. cbn.
        destruct (EProfile e) eqn:Ep; [done|]. destruct Hm as (e' & Hd & Hp).
        revert Hd. unfold decryptEntry. cbn [ProfileCipher]. case_bool_decide.
        { intros [= <-]. eexists. split; [done|]. cbn. congruence. }
        destruct (Base64Decode _); [|done]. destruct (aeadOpen _ _); [|done].
        destruct (json_unmarshal _) as [p|]; [|done]. intros [= <-]. cbn in Hp. eauto.
      * apply map_eq. intros t'. destruct (decide (Token e = t')) as [<-|];
          [by rewrite lookup_insert_eq, lookup_alter_eq, <- E2|].
        by rewrite lookup_insert_ne, lookup_alter_ne.
    + cbn. replace (alter _ t a) with a; [done|]. symmetry. apply alter_id. congruence.
  - eexists. split; [done|]. unfold Revoke. pose proof (Hag t) as Ht.
    destruct (entries r !! t) as [e|] eqn:Em;
      inversion Ht as [? c [Htok Hm] E1 E2|E1 E2]; simplify_eq.
    + apply registry_save; [done|done|done|]. cbn. intros t'. destruct (decide (Token e = t')) as [<-|];
        [rewrite !lookup_delete_eq; constructor|]. by rewrite !lookup_delete_ne.
    + cbn. by rewrite delete_id.
  - destruct Hfile as (ds & m' & Hf & Hl & Hag' & Hcode). unfold OpenWithKey.
    rewrite Hkey. cbn [validateKey]. rewrite Hk, Hf, Hl. cbn. eexists. split; [done|].
    split_and!; [done|done|]. exists ds, m'. done.
Qed.

Lemma registry_open k env : key_size_ok k = true -> env_ok env ->
  exists r, (OpenWithKey env (Some k) NotExist).2 = Ok r /\ Inv k r ∅.
Proof.
  intros Hk He. destruct (registry_save k env (mkRegistry (Some k) ∅ NotExist) ∅ Hk He eq_refl) as [Hi Hok].
  { intros t. rewrite !lookup_empty. constructor. }
  unfold OpenWithKey. cbn [validateKey]. rewrite Hk.
  destruct (saveLocked env (mkRegistry (Some k) ∅ NotExist)) as [r x]. cbn in Hi, Hok. subst x.
  by exists r.
Qed.
Lemma registry_run k r a l : key_size_ok k = true -> run_ok l -> Inv k r a ->
  exists r', run r l = Ok r' /\ Inv k r' (abs_run a l).
Proof.
  intros Hk Hl. revert r a. induction Hl as [|x l [He Ho] Hl IH]; intros r a Hi; [by exists r|].
  destruct (registry_step k r a x Hk He Ho Hi) as (r' & Hs & Hi'). cbn [run]. rewrite Hs. by apply IH.
Qed.

(** C10: an encrypted registry never loses or alters a code: after any run of
    additions, downloads, revocations and restarts whose saves succeed,
    opening its file with the same key yields exactly the profiles and dates
    of the abstract map the operations describe. *)
Theorem restarts_preserve_codes k env l : key_size_ok k = true -> env_ok env -> run_ok l ->
  exists r r', (OpenWithKey env (Some k) NotExist).2 = Ok r /\ run r l = Ok r' /\
    forall env', exists r'', (OpenWithKey env' (Some k) (file r')).2 = Ok r'' /\
      code_entry <$> entries r'' = abs_run ∅ l.
Proof.
  intros Hk He Hl. destruct (registry_open k env Hk He) as (r & Hr & Hi).
  destruct (registry_run k r ∅ l Hk Hl Hi) as (r' & Hr' & Hkey & _ & ds & m' & Hf & Hload & _ & Hc).
  exists r, r'. split; [done|]. split; [done|]. intros env'. exists (mkRegistry (Some k) m' (Doc ds)).
  split; [|done]. unfold OpenWithKey. cbn [validateKey]. by rewrite Hk, Hf, Hload.
Qed.

(** ** The plaintext mode *)
Definition plain (r : Registry) : Prop :=
  key r = None /\ keyed Token (entries r) /\
  map_Forall (fun _ e => ProfileCipher e = ""%string) (entries r).

Lemma plain_load l m : Forall (fun e => ProfileCipher e = ""%string) l ->
  load None m (document <$> l) = Ok (foldl (fun m e => <[Token e := document e]> m) m l).
Proof.
  intros Hl. revert m. induction Hl as [|e l He Hl IH]; intros m; [done|].
  cbn [fmap list_fmap load]. unfold decryptEntry. cbn [document ProfileCipher].
  by rewrite bool_decide_eq_true_2, IH.
Qed.
Lemma plain_saved env l : saved_all None env l = Ok (document <$> l).
Proof. induction l as [|e l IH]; [done|]. cbn. by rewrite IH. Qed.

Lemma foldl_insert_spec {B} (f : Entry -> B) l m t :
  (foldl (fun m e => <[Token e := f e]> m) m l : gmap string B) !! t =
  match list_find (fun e => Token e = t) (reverse l) with
  | Some (_, e) => Some (f e) | None => m !! t end.
Proof.
  revert m. induction l as [|e l IH] using rev_ind; intros m; [done|].
  rewrite foldl_app, reverse_snoc. cbn. case_decide as Ht.
  - subst t. by rewrite lookup_insert_eq.
  - rewrite lookup_insert_ne by done. rewrite IH. by destruct (list_find _ _) as [[? ?]|].
Qed.

(** Opening the file of a plaintext registry: the same codes, no profile. *)
Lemma plain_reopen env env' r : plain r -> env_ok env ->
  exists r2, (Open env' (file (saveLocked env r).1)).2 = Ok r2 /\
    entries r2 = document <$> entries r.
Proof.
  intros (Hk & Hkeyed & Hc) (Hio & Hperm & _). unfold saveLocked.
  rewrite Hk, plain_saved, Hio. cbn [fst file]. unfold Open, OpenWithKey. cbn [validateKey].
  set (l := iter env (values (entries r))). rewrite plain_load.
  - eexists. split; [done|]. cbn [entries]. apply map_eq. intros t.
    rewrite foldl_insert_spec, lookup_fmap, lookup_empty.
    destruct (list_find _ (reverse l)) as [[i e]|] eqn:Ef.
    + apply list_find_Some in Ef as (Hi & Ht & _). apply list_elem_of_lookup_2 in Hi.
      unfold l in Hi. rewrite elem_of_reverse, (Hperm (values _)) in Hi.
      apply elem_of_values in Hi as [t' Ht']. pose proof (Hkeyed _ _ Ht') as E. cbn in Ht, E.
      assert (t' = t) as -> by congruence. by rewrite Ht'.
    + destruct (entries r !! t) as [e|] eqn:Em; [|done]. apply list_find_None in Ef.
      rewrite Forall_forall in Ef. destruct (Ef e); [|by apply Hkeyed].
      unfold l. rewrite elem_of_reverse, (Hperm (values _)). apply elem_of_values. eauto.
  - unfold l. rewrite (Hperm (values _)). apply Forall_forall. intros e [t Ht]%elem_of_values.
    by apply Hc in Ht.
Qed.

(** a plaintext registry forgets its profiles when it is reopened: a code
    added to it resolves in the same process, but the file keeps only the
    codes, and after [Open] every one of them resolves to no profile. *)
Theorem plaintext_profiles_lost env env' r token p exp : plain r -> env_ok env ->
  entries r !! token = None ->
  exists r1 r2, AddWithExpiry env token (Some p) exp r = (r1, Ok tt) /\
    Resolve r1 token = Ok (Some p) /\
    (Open env' (file r1)).2 = Ok r2 /\ dom (entries r2) = dom (entries r1) /\
    forall t, is_Some (entries r2 !! t) -> Resolve r2 t = Ok None.
Proof.
  intros Hp He Hn. destruct Hp as (Hk & Hkeyed & Hc). unfold AddWithExpiry. rewrite Hn. cbv zeta.
  set (e := mkEntry token (Some p) "" (now env) None (if IsZero exp then None else Some exp)).
  assert (Henc : encryptEntry (key r) (fresh env) e = Ok e) by by rewrite Hk.
  rewrite Henc. clear Henc.
  set (r0 := {| r with entries := <[token := e]> (entries r) |}).
  assert (Hp0 : plain r0).
  { split; [exact Hk|]. split; [by apply keyed_insert|]. by apply map_Forall_insert_2. }
  destruct (plain_reopen env env' r0 Hp0 He) as (r2 & Ho & Hr2).
  assert (Hsave : saveLocked env r0 = ({| r0 with file := Doc (document <$> iter env (values (entries r0))) |}, Ok tt)).
  { destruct He as (Hio & _). unfold saveLocked. replace (key r0) with (@None bytes) by exact (eq_sym Hk).
    by rewrite plain_saved, Hio. }
  rewrite Hsave in Ho. eexists _, r2. split; [exact Hsave|]. split_and!.
  - unfold Resolve. cbn. by rewrite lookup_insert_eq.
  - exact Ho.
  - rewrite Hr2, dom_fmap_L. done.
  - unfold Resolve. rewrite Hr2. intros t [d Ht]. rewrite lookup_fmap in *.
    by destruct (entries r0 !! t).
Qed.

(** With a key the other way round: the code added resolves to no profile
    until the registry is reopened. *)
Lemma keyed_add_hides_profile k env r token p exp r1 : key r = Some k ->
  AddWithExpiry env token (Some p) exp r = (r1, Ok tt) -> Resolve r1 token = Ok None.
Proof.
  unfold AddWithExpiry, Resolve. intros Hk. destruct (entries r !! token); [done|].
  rewrite Hk. cbn [encryptEntry EProfile]. destruct (aeadSeal _ _ _); [|done].
  intros E. unfold saveLocked in E. destruct (saved_all _ _ _); [|done].
  destruct (io env); simplify_eq; cbn; by rewrite lookup_insert_eq.
Qed.

(** ** Single use *)
Definition used (r : Registry) (token : string) : Prop :=
  exists e, entries r !! token = Some e /\ is_Some (DownloadedAt e).
Lemma saveLocked_entries env r : entries (saveLocked env r).1 = entries r /\
  key (saveLocked env r).1 = key r.
Proof. unfold saveLocked. destruct (saved_all _ _ _); [destruct (io env)|]; done. Qed.
Lemma step_used r x token r' : used r token -> x.2 <> OpRevoke token -> x.2 <> OpReopen ->
  step r x = Ok r' -> used r' token.
Proof.
  intros (e & He & Hd) Hr Ho. unfold used. destruct x as [env [t p exp|t|t|]]; cbn in Hr, Ho |- *; [..|done];
    intros [= <-].
  - unfold AddWithExpiry. destruct (entries r !! t) eqn:Et; [by eauto|].
    destruct (encryptEntry _ _ _); [|by eauto]. rewrite (proj1 (saveLocked_entries _ _)). cbn.
    rewrite lookup_insert_ne by congruence. eauto.
  - unfold MarkDownloaded. destruct (entries r !! t) as [e'|] eqn:Et; [|by eauto].
    rewrite (proj1 (saveLocked_entries _ _)). cbn. destruct (decide (t = token)) as [->|].
    + rewrite lookup_insert_eq. eauto.
    + rewrite lookup_insert_ne by done. eauto.
  - unfold Revoke. destruct (entries r !! t) as [e'|] eqn:Et; [|by eauto].
    rewrite (proj1 (saveLocked_entries _ _)). cbn. rewrite lookup_delete_ne by congruence. eauto.
Qed.

(** once a code is marked downloaded, single-use resolution refuses it,
    at any time and whatever is added, marked or revoked since (and even when
    saves fail), until that very code is revoked. *)
Theorem single_use env token r l r' t : is_Some (entries r !! token) ->
  Forall (fun x => x.2 <> OpRevoke token /\ x.2 <> OpReopen) l ->
  run (MarkDownloaded env token r).1 l = Ok r' ->
  ResolvePolicy r' token true t = Err ErrActivationCodeUsed \/
  ResolvePolicy r' token true t = Err ErrActivationCodeExpired.
Proof.
  intros [e He] Hl. assert (Hu : used (MarkDownloaded env token r).1 token).
  { unfold MarkDownloaded, used. rewrite He, (proj1 (saveLocked_entries _ _)). cbn.
    rewrite lookup_insert_eq. eauto. }
  revert Hu. generalize (MarkDownloaded env token r).1. clear e He. intros r0 Hu.
  revert r0 Hu. induction Hl as [|x l [Hx1 Hx2] Hl IH]; intros r0 Hu; cbn [run].
  - intros [= ->]. destruct Hu as (e & He & Hd). unfold ResolvePolicy. rewrite He.
    rewrite bool_decide_eq_true_2 by done. case_match; [by right|by left].
  - destruct (step r0 x) as [r1|] eqn:Es; [|done]. intros Hrun.
    by eapply IH, Hrun; eapply step_used.
Qed.
End Registry.

(** ** Concrete runs *)
(** The plaintext, and a tag that depends on the key. *)
Definition tag_of (k : bytes) : bytes := be_put 16 (Zsum k).
#[export] Instance tag_aead : Aead.
Proof.
  refine {| seal := fun k _ p => (u8 <$> p) ++ tag_of k;
    open := fun k _ b => let n := (length b - 16)%nat in
      if bool_decide (drop n b = tag_of k) then Some (take n b) else None |}.
  - intros k n p. apply Forall_app. split; [|apply be_put_bytes].
    apply Forall_fmap, Forall_true. intros x. apply Z.mod_pos_bound. lia.
  - intros k n p _ Hp. cbv zeta. rewrite length_app, length_fmap.
    replace (length p + length (tag_of k) - 16)%nat with (length (u8 <$> p))
      by (rewrite length_fmap; unfold tag_of; rewrite length_be_put; lia).
    rewrite drop_app_length, take_app_length, bool_decide_eq_true_2 by done.
    f_equal. induction Hp as [|x p Hx Hp IH]; [done|]. cbn. rewrite IH. f_equal. by apply Z.mod_small.
Defined.

Definition demo_env (t : time) : Env :=
  mkEnv t (fun l => reverse l) (fun _ => Some (replicate 12 7)) (Some (replicate 12 9)) IoOk.
Lemma demo_env_ok t : env_ok (demo_env t).
Proof.
  split; [done|]. split; [intros l; apply reverse_Permutation|].
  split; [intros t0|]; (eexists; split; [reflexivity|]; split; vm_decide).
Qed.
Definition demo_key : bytes := replicate 16 5.
Definition demo_profile : Profile :=
  mkProfile 1 "8999901" "" "demo" "" "" "" "lab" "999991234567001" "" "internet" "k" "o" "" "" [] [] 3 4.

Lemma restarts_preserve_codes_witness :
  let l := [(demo_env 1, OpAdd "AAAA1111" (Some demo_profile) 0); (demo_env 2, OpReopen);
            (demo_env 3, OpMark "AAAA1111")] in
  exists r r', (OpenWithKey (demo_env 0) (Some demo_key) NotExist).2 = Ok r /\ run r l = Ok r' /\
    exists r'', (OpenWithKey (demo_env 4) (Some demo_key) (file r')).2 = Ok r'' /\
      (code_entry <$> entries r'') !! "AAAA1111"%string =
        Some (mkCodeEntry (Some demo_profile) 1 (Some 3) None).
Proof.
  intros l. destruct (restarts_preserve_codes demo_key (demo_env 0) l) as (r & r' & H1 & H2 & H3).
  - reflexivity.
  - apply demo_env_ok.
  - repeat constructor; apply demo_env_ok.
  - exists r, r'. split; [exact H1|]. split; [exact H2|]. destruct (H3 (demo_env 4)) as (r'' & Ho & Hm).
    exists r''. split; [exact Ho|]. rewrite Hm. vm_compute. reflexivity.
Defined.
Lemma plaintext_profiles_lost_witness :
  let r := mkRegistry None ∅ NotExist in
  exists r1 r2, AddWithExpiry (demo_env 1) "AAAA1111" (Some demo_profile) 0 r = (r1, Ok tt) /\
    (Open (demo_env 2) (file r1)).2 = Ok r2 /\ Resolve r2 "AAAA1111" = Ok None.
Proof.
  intros r. destruct (plaintext_profiles_lost (demo_env 1) (demo_env 2) r "AAAA1111" demo_profile 0)
    as (r1 & r2 & H1 & H2 & H3 & H4 & H5).
  - split; [done|]. split; [apply keyed_empty|apply map_Forall_empty].
  - apply demo_env_ok.
  - reflexivity.
  - exists r1, r2. split; [exact H1|]. split; [exact H3|]. apply H5.
    apply elem_of_dom. rewrite H4. vm_compute in H1. injection H1 as <-. vm_decide.
Defined.
Lemma single_use_witness :
  let r := mkRegistry None (<["AAAA1111"%string :=
    mkEntry "AAAA1111" (Some demo_profile) "" 1 None (Some 10)]> ∅) NotExist in
  exists r', run (MarkDownloaded (demo_env 2) "AAAA1111" r).1 [(demo_env 3, OpRevoke "BBBB")] = Ok r' /\
  (ResolvePolicy r' "AAAA1111" true 4 = Err ErrActivationCodeUsed \/
   ResolvePolicy r' "AAAA1111" true 4 = Err ErrActivationCodeExpired).
Proof.
  intros r. eexists. split; [reflexivity|].
  eapply (single_use (demo_env 2) "AAAA1111" r [(demo_env 3, OpRevoke "BBBB")]).
  - eexists. reflexivity.
  - repeat constructor; discriminate.
  - reflexivity.
Defined.
