(* ===== verification/Smdp.v ===== *)
(** * Smdp: the SM-DP+ server

    [core/esim/smdp/smdp.go] and [filestore.go].  The session store and the
    profile source are interfaces, as in the code: the theorems about the
    server are proved against them, and the memory store, the file store (by
    path, as the system it is on takes paths) and the activation-code registry
    are instances.  The clock and the random
    values a handler draws are an environment.  Requests are values, so the
    code's guards against nil requests have no counterpart; handlers run one
    at a time. *)
From stdpp Require Import pretty.
From S2P Require Import Prelude.
From S2P Require Import Paths.
From S2P Require Import Encoding.
From S2P Require Import Activation.
From S2P Require Import Profile.
From S2P Require Import EsimCrypto.
From S2P Require Import Der.
From S2P Require Import EsimRegistry.

Inductive SessionStatus :=
  | StatusPending | StatusAuthenticated | StatusConfirmed | StatusCancelled.
#[global] Instance SessionStatus_eq_dec : EqDecision SessionStatus.
Proof. solve_decision. Defined.

Inductive Error :=
  | ErrUnknownActivationCode | ErrUnknownSession | ErrSessionState (st : SessionStatus)
  | ErrProofFailed | ErrBadRequest | ErrCorrupt | ErrSource (e : EsimRegistry.Error)
  | ErrCrypto (e : EsimCrypto.Error) | ErrRandom | ErrStore | ErrLoadKey
  | ErrPanic.   (* a nil dereference, which aborts the request *)

Definition zero_keys : SessionKeys :=
  mkKeys (replicate 16 0) (replicate 16 0) (replicate 16 0) (replicate 16 0).

Section Sessions.
Context `{P256}.

Record Session := mkSession {
  TransactionID : string; SActivationCode : string; SEID : string; SICCID : string;
  Status : SessionStatus; SeqCounter : Z;
  EuiccChallenge : bytes; EuiccEKPb : bytes; ServerChallenge : bytes;
  ServerEphemeral : option privkey; Keys : SessionKeys; SCreatedAt : time; UpdatedAt : time;
}.

(** ** The store interface *)
(** [view] is what a store holds, by the name it gives a transaction id
    ([name]); where it has no entry, reading fails with [missing].  A write may
    fail, if the disk does not accept it ([wr]) or the store does not take the
    id ([storable]), and then changes nothing. *)
Class Store (T : Type) := {
  create_session : bool -> Session -> T -> T * res Error unit;
  get_session : string -> T -> res Error Session;
  update_session : bool -> Session -> T -> T * res Error unit;
  delete_session : bool -> string -> T -> T * res Error unit;
  name : string -> string;
  storable : string -> bool;
  missing : string -> Error;
  view : T -> gmap string Session;
  store_ok : T -> Prop;
  get_view : forall t id, store_ok t -> get_session id t =
    match view t !! name id with Some s => Ok s | None => Err (missing id) end;
  create_view : forall wr s t, store_ok t ->
    let '(t', r) := create_session wr s t in
    store_ok t' /\ (r = Ok tt \/ r = Err ErrStore) /\
    (wr = true -> storable (TransactionID s) = true -> r = Ok tt) /\
    view t' = if is_ok r then <[name (TransactionID s) := s]> (view t) else view t;
  update_view : forall wr s t, store_ok t ->
    let '(t', r) := update_session wr s t in
    store_ok t' /\ (r = Ok tt \/ r = Err ErrStore) /\
    (wr = true -> storable (TransactionID s) = true -> r = Ok tt) /\
    view t' = if is_ok r then <[name (TransactionID s) := s]> (view t) else view t;
}.

(** ** The memory store *)
Definition MemStore : Type := gmap string Session.
Definition NewMemStore : MemStore := ∅.
Definition CreateSession (s : Session) (m : MemStore) : MemStore * res Error unit :=
  (<[TransactionID s := s]> m, Ok tt).
Definition GetSession (id : string) (m : MemStore) : res Error Session :=
  match (m : gmap string Session) !! id with Some s => Ok s | None => Err ErrUnknownSession end.
Definition UpdateSession (s : Session) (m : MemStore) : MemStore * res Error unit :=
  (<[TransactionID s := s]> m, Ok tt).
Definition DeleteSession (id : string) (m : MemStore) : MemStore * res Error unit :=
  (delete id (m : gmap string Session), Ok tt).
#[export] Instance mem_store : Store MemStore.
Proof.
  refine {| create_session := fun _ => CreateSession; get_session := GetSession;
    update_session := fun _ => UpdateSession; delete_session := fun _ => DeleteSession;
    name := fun id => id; storable := fun _ => true; missing := fun _ => ErrUnknownSession;
    view := fun m => m; store_ok := fun _ => True |}; [done|..];
    intros wr s t _; cbn; auto.
Defined.

(** ** The file store *)
(** One JSON document per transaction; the private key is stored as bytes. *)
Record fileSession := mkFileSession {
  fTransactionID : string; fActivationCode : string; fEID : string; fICCID : string;
  fStatus : SessionStatus; fSeqCounter : Z;
  fEuiccChallenge : bytes; fEuiccEKPb : bytes; fServerChallenge : bytes;
  fServerEphemeral : bytes; fKeys : list bytes; fCreatedAt : time; fUpdatedAt : time;
}.
Definition toSession (f : fileSession) : res Error Session :=
  let keys := mkKeys (nth 0 (fKeys f) []) (nth 1 (fKeys f) []) (nth 2 (fKeys f) [])
                (nth 3 (fKeys f) []) in
  let s := mkSession (fTransactionID f) (fActivationCode f) (fEID f) (fICCID f) (fStatus f)
    (fSeqCounter f) (fEuiccChallenge f) (fEuiccEKPb f) (fServerChallenge f) None keys
    (fCreatedAt f) (fUpdatedAt f) in
  if 0 <? zlen (fServerEphemeral f) then
    match priv_of (fServerEphemeral f) with
    | None => Err ErrLoadKey
    | Some k => Ok {| s with ServerEphemeral := Some k |}
    end
  else Ok s.
Definition fromSession (s : Session) : fileSession :=
  mkFileSession (TransactionID s) (SActivationCode s) (SEID s) (SICCID s) (Status s)
    (SeqCounter s) (EuiccChallenge s) (EuiccEKPb s) (ServerChallenge s)
    (match ServerEphemeral s with Some k => priv_bytes k | None => [] end)
    [Enc (Keys s); Mac (Keys s); Kek (Keys s); Dek (Keys s)] (SCreatedAt s) (UpdatedAt s).

(** What the operating system makes of a path: it can be a file, a directory of
    it is not there, or the path is refused (it holds a NUL, a name in it is too
    long). *)
Inductive Access := Usable | NoDirectory | Refused.
#[global] Instance Access_eq_dec : EqDecision Access.
Proof. solve_decision. Defined.
(** The directory and the system it is on, which takes names of up to 255 bytes
    in it. *)
Definition file_name (n : string) : Prop :=
  ordinary n /\ 0 ∉ string_bytes n /\ slen n <= 255.
Class Disk := {
  session_dir : string;
  access : string -> Access;
  file_name_usable : forall n, file_name n -> access (Join session_dir n) = Usable;
}.
Context `{Disk}.
(** The documents that can be reached, by their paths; [None] is one that does
    not unmarshal ("corrupt session file").  An id with dots and slashes can
    name a JSON object of another program, which unmarshals to a session with
    no status; such objects are not represented.  [writeJSONFile] replaces a
    document as a whole, through a second file beside it. *)
Definition fileStore : Type := gmap string (option fileSession).
Definition path (tx : string) : string := Join session_dir (tx +:+ ".json").
Definition writable (p : string) : bool :=
  bool_decide (access p = Usable) && bool_decide (access (p +:+ ".tmp") = Usable).
Definition writeJSONFile (wr : bool) (p : string) (f : fileSession) (d : fileStore) : fileStore * res Error unit :=
  if wr && writable p then (<[p := Some f]> d, Ok tt) else (d, Err ErrStore).
Definition fileStore_CreateSession (wr : bool) (s : Session) (d : fileStore) :
    fileStore * res Error unit :=
  writeJSONFile wr (path (TransactionID s)) (fromSession s) d.
Definition fileStore_GetSession (id : string) (d : fileStore) : res Error Session :=
  match access (path id) with
  | Refused => Err ErrStore
  | NoDirectory => Err ErrUnknownSession
  | Usable =>
      match (d : gmap string (option fileSession)) !! path id with
      | None => Err ErrUnknownSession
      | Some None => Err ErrCorrupt
      | Some (Some f) => toSession f
      end
  end.
Definition fileStore_UpdateSession := fileStore_CreateSession.
Definition fileStore_DeleteSession (wr : bool) (id : string) (d : fileStore) :
    fileStore * res Error unit :=
  match access (path id) with
  | Refused => (d, Err ErrStore)
  | NoDirectory => (d, Ok tt)
  | Usable =>
      match (d : gmap string (option fileSession)) !! path id with
      | None => (d, Ok tt)
      | Some _ => if wr then (delete (path id) (d : gmap string (option fileSession)), Ok tt) else (d, Err ErrStore)
      end
  end.

Lemma toSession_fromSession s : toSession (fromSession s) = Ok s.
Proof.
  unfold toSession, fromSession. destruct s as [a b c d e f g h i k keys l m]; cbn.
  destruct k as [k|]; [|by destruct keys]. destruct (priv_roundtrip k) as [Hne Hk].
  assert (Hz : 0 <? zlen (priv_bytes k) = true).
  { apply Z.ltb_lt. unfold zlen. destruct (priv_bytes k); [done|cbn; lia]. }
  rewrite Hz, Hk. by destruct keys.
Qed.
Lemma toSession_id f s : toSession f = Ok s -> TransactionID s = fTransactionID f.
Proof. unfold toSession. intros E. repeat case_match; by simplify_eq. Qed.
Definition document_of (f : option fileSession) : option Session :=
  match f with Some f => match toSession f with Ok s => Some s | Err _ => None end | None => None end.
Definition file_view (d : fileStore) : gmap string Session :=
  omap document_of (d : gmap string (option fileSession)).
(** Every document within reach is a session's, under its own transaction. *)
Definition file_ok (d : fileStore) : Prop :=
  map_Forall (fun p f => access p = Usable /\ exists s, document_of f = Some s /\ path (TransactionID s) = p)
    (d : gmap string (option fileSession)).
Lemma document_fromSession s : document_of (Some (fromSession s)) = Some s.
Proof. unfold document_of. by rewrite toSession_fromSession. Qed.
Lemma file_view_insert p s (d : gmap string (option fileSession)) :
  file_view (<[p := Some (fromSession s)]> d) = <[p := s]> (file_view d).
Proof. apply omap_insert_Some, document_fromSession. Qed.
Lemma file_create wr s d : file_ok d ->
  let '(d', r) := fileStore_CreateSession wr s d in
  file_ok d' /\ (r = Ok tt \/ r = Err ErrStore) /\
  (wr = true -> writable (path (TransactionID s)) = true -> r = Ok tt) /\
  file_view d' = if is_ok r then <[path (TransactionID s) := s]> (file_view d) else file_view d.
Proof.
  intros Hok. unfold fileStore_CreateSession, writeJSONFile. destruct (wr && writable _) eqn:E.
  - apply andb_true_iff in E as [-> Hw]. split_and!; [|by left|done|apply file_view_insert].
    apply map_Forall_insert_2; [|done]. split.
    + apply andb_true_iff in Hw as [Hw _]. by apply bool_decide_eq_true in Hw.
    + exists s. split; [apply document_fromSession|done].
  - split_and!; [done|by right| |done]. intros -> Hw. by rewrite Hw in E.
Qed.
#[export] Instance file_store : Store fileStore.
Proof.
  refine {| create_session := fileStore_CreateSession; get_session := fileStore_GetSession;
    update_session := fileStore_UpdateSession; delete_session := fileStore_DeleteSession;
    name := path; storable := fun id => writable (path id);
    missing := fun id => match access (path id) with Refused => ErrStore | _ => ErrUnknownSession end;
    view := file_view; store_ok := file_ok |}.
  - intros t id Hok. unfold fileStore_GetSession, file_view. rewrite lookup_omap.
    destruct ((t : gmap string (option fileSession)) !! path id) as [f|] eqn:E; cbn; [|by destruct (access _)].
    apply Hok in E as (-> & s & E & _). rewrite E. destruct f as [f|]; [|done]. cbn in E.
    by destruct (toSession f); simplify_eq.
  - apply file_create.
  - apply file_create.
Defined.

(** An id that is a name of a file, with what is added to it. *)
Definition short_name (id : string) : Prop :=
  slashless id = true /\ 0 ∉ string_bytes id /\ slen id <= 246.
Lemma slashless_app a b : slashless (a +:+ b) = slashless a && slashless b.
Proof.
  induction a as [|c a IH]; [done|].
  change (negb (bool_decide (c = slash)) && slashless (a +:+ b) = negb (bool_decide (c = slash)) && slashless a && slashless b).
  by rewrite IH, andb_assoc.
Qed.
Lemma short_file id ext : short_name id -> slashless ext = true -> 0 ∉ string_bytes ext -> 3 <= slen ext <= 9 ->
  file_name (id +:+ ext).
Proof.
  intros (Hs & Hz & Hl) Hse Hze Hle. pose proof (slen_app id ext) as El. split; [|split].
  - assert (Hlen : 3 <= slen (id +:+ ext)) by (rewrite El; pose proof (zlen_nonneg (string_bytes id)); unfold slen in *; lia).
    repeat split; [by intros E; rewrite E in Hlen..|by rewrite slashless_app, Hs, Hse].
  - rewrite string_bytes_app. set_solver.
  - lia.
Qed.
Lemma short_path id : short_name id -> access (path id) = Usable /\ writable (path id) = true.
Proof.
  intros Hs. assert (H1 : file_name (id +:+ ".json")) by (apply short_file; [done|done|vm_decide|by vm_compute]).
  assert (H2 : file_name ((id +:+ ".json") +:+ ".tmp")).
  { rewrite string_app_assoc. apply short_file; [done|done|vm_decide|by vm_compute]. }
  pose proof (file_name_usable _ H1) as U1. pose proof (file_name_usable _ H2) as U2.
  unfold writable, path. split; [done|]. destruct (Join_ordinary session_dir) as [pre Hpre].
  rewrite Hpre in U2 by apply H2. rewrite Hpre in U1 |- * by apply H1. rewrite <- string_app_assoc in U2.
  by rewrite U1, U2.
Qed.
Lemma short_path_inj a b : short_name a -> short_name b -> path a = path b -> a = b.
Proof.
  intros Ha Hb E.
  assert (Hf : forall id, short_name id -> ordinary (id +:+ ".json")).
  { intros id Hs. apply (short_file id ".json"); [done|done|vm_decide|by vm_compute]. }
  apply Join_inj in E; [|by apply Hf..]. apply (f_equal string_bytes) in E.
  rewrite !string_bytes_app in E. apply string_bytes_inj. by eapply app_inv_tail.
Qed.
End Sessions.
Arguments Session {_}.
(** The ids the server draws, twelve bytes in hexadecimal, are such names. *)
Lemma slashless_of_bytes s : Forall (fun b => b <> 47) (string_bytes s) -> slashless s = true.
Proof.
  induction s as [|c s IH]; [done|]. intros [Hc Hs]%Forall_cons. cbn. rewrite bool_decide_false, IH by done || (by intros ->).
  done.
Qed.
Lemma short_hex b : Forall is_byte b -> zlen b <= 123 -> short_name (HexEncode b).
Proof.
  intros Hb Hl. unfold short_name, HexEncode, slen. pose proof (hex_bytes_range b Hb) as Hr.
  assert (Hc : Forall (fun c => 48 <= c) (hex_bytes b)).
  { clear Hl Hr. induction Hb as [|x b Hx Hb IH]; [constructor|]. unfold is_byte in Hx. cbn [hex_bytes].
    assert (0 <= x / 16 /\ 0 <= x mod 16) by (Z.div_mod_to_equations; lia).
    repeat constructor; [unfold hex_char; case_match; lia..|done]. }
  rewrite bytes_string_bytes, zlen_hex_bytes by done. split_and!; [|intros Hin|lia].
  - apply slashless_of_bytes. rewrite bytes_string_bytes by done. eapply Forall_impl; [exact Hc|]. cbn. lia.
  - rewrite Forall_forall in Hc. specialize (Hc _ Hin). lia.
Qed.

(** ** The profile source interface *)
(** [Source] and [OnDelivered] of the server, over the state they close over. *)
Class ProfileSource (W : Type) := {
  source : W -> string -> time -> res EsimRegistry.Error (option Profile);
  delivered : EsimRegistry.Env -> string -> W -> W;
}.
(** The wiring of the control plane: [ResolvePolicy], [MarkDownloaded]; a
    failure of the hook is swallowed. *)
Definition registry_source `{Aead} `{JsonProfile} (singleUse : bool) : ProfileSource Registry := {|
  source r token now := ResolvePolicy r token singleUse now;
  delivered env token r := (MarkDownloaded env token r).1;
|}.

Record InitiateAuthRequest := mkInitiate {
  iaActivationCode : string; iaEID : string; iaEuiccChallenge : string; iaEuiccEKPb : string;
}.
Record InitiateAuthResponse := mkInitiateResponse {
  iarTransactionID : string; iarSMDPID : string; iarServerChallenge : string;
  iarServerEphemeral : string;
}.
Record AuthClientRequest := mkAuth { acTransactionID : string; acAuthProof : string }.
Record AuthClientResponse := mkAuthResponse {
  acrICCID : string; acrProfileName : string; acrProfileOwner : string;
  acrServiceProviderName : string; acrClass : string; acrExpiresAt : time;
}.
Record BPPResponse := mkBPP { bppSeqCounter : Z; bppBPP : string }.
Record ConfirmRequest := mkConfirm { coTransactionID : string; coResult : string }.
Record NotificationRequest := mkNotification { noTransactionID : string; noNotification : string }.

Section Server.
Context `{!BlockCipher} `{!P256} `{!JsonProfile} {T} `{!Store T} {W} `{!ProfileSource W}.

(** What a handler draws and reads. *)
Record Env := mkEnv {
  now : time; challenge : option bytes; ephemeral : option privkey;
  tx : option bytes; nanos : Z;           (* the transaction id, and its fallback *)
  iv : option bytes; wr : bool;           (* the vector; whether the disk accepts writes *)
  renv : EsimRegistry.Env;
}.
Record Server := mkServer { ID : string; store : T; world : W }.

Definition mustHex (s : string) : bytes := default [] (HexDecode s).
Definition newTransactionID (env : Env) : string :=
  match tx env with
  | Some b => HexEncode b
  | None => ("tx-" +:+ pretty (nanos env))%string
  end.
Definition normalizeActivationCode (s : string) : res Error string :=
  match CutPrefix (string_bytes s) (string_bytes prefix_LPA) with
  | Some _ =>
      match Parse s with
      | Err _ => Err ErrBadRequest
      | Ok c => Ok (ActivationCode c)
      end
  | None => if ValidToken s then Ok s else Err ErrBadRequest
  end.
Definition Source (s : Server) (env : Env) (token : string) : res Error (option Profile) :=
  match source (world s) token (now env) with Ok p => Ok p | Err e => Err (ErrSource e) end.

(** A store write as the last step of a handler: the response, or the error. *)
Definition put {A} (w : T * res Error unit) (s : Server) (k : Server -> Server * res Error A) :
    Server * res Error A :=
  let '(t, r) := w in
  let s := {| s with store := t |} in
  match r with Err e => (s, Err e) | Ok _ => k s end.

Definition InitiateAuthentication (env : Env) (req : InitiateAuthRequest) (s : Server) :
    Server * res Error InitiateAuthResponse :=
  if bool_decide (iaActivationCode req = ""%string) || bool_decide (iaEID req = ""%string) ||
     bool_decide (iaEuiccChallenge req = ""%string) || bool_decide (iaEuiccEKPb req = ""%string)
  then (s, Err ErrBadRequest)
  else if negb (slen (iaEID req) =? 32) || negb (ValidLuhn (iaEID req)) then (s, Err ErrBadRequest)
  else match normalizeActivationCode (iaActivationCode req) with
  | Err e => (s, Err e)
  | Ok token =>
      match Source s env token with
      | Err e => (s, Err e)
      | Ok None => (s, Err ErrPanic)
      | Ok (Some p) =>
          if bool_decide (EID p <> ""%string) && bool_decide (EID p <> iaEID req) then
            (s, Err ErrBadRequest)
          else match challenge env, ephemeral env with
          | None, _ | _, None => (s, Err ErrRandom)
          | Some challenge, Some ephemeral =>
              let sess := {| TransactionID := newTransactionID env; SActivationCode := token;
                SEID := iaEID req; SICCID := ICCID p; Status := StatusPending; SeqCounter := 0;
                EuiccChallenge := mustHex (iaEuiccChallenge req);
                EuiccEKPb := mustHex (iaEuiccEKPb req); ServerChallenge := challenge;
                ServerEphemeral := Some ephemeral; Keys := zero_keys;
                SCreatedAt := now env; UpdatedAt := now env |} in
              put (create_session (wr env) sess (store s)) s (fun s =>
                (s, Ok (mkInitiateResponse (TransactionID sess) (ID s) (HexEncode challenge)
                          (HexEncode (ECDHPublic ephemeral)))))
          end
      end
  end.

(** The proof the server expects for a session, and the keys it installs. *)
Definition expected_proof (sess : Session) : res Error (SessionKeys * bytes) :=
  match ServerEphemeral sess with
  | None => Err ErrPanic
  | Some k =>
      match ECDHShared k (EuiccEKPb sess) with
      | Err _ => Err ErrProofFailed
      | Ok shared =>
          match DeriveSessionKeys shared with
          | Err e => Err (ErrCrypto e)
          | Ok keys =>
              match CMAC (Enc keys) (ServerChallenge sess ++ EuiccChallenge sess) with
              | Err e => Err (ErrCrypto e)
              | Ok expected => Ok (keys, expected)
              end
          end
      end
  end.
Definition AuthenticateClient (env : Env) (req : AuthClientRequest) (s : Server) :
    Server * res Error AuthClientResponse :=
  if bool_decide (acTransactionID req = ""%string) || bool_decide (acAuthProof req = ""%string)
  then (s, Err ErrBadRequest)
  else match get_session (acTransactionID req) (store s) with
  | Err e => (s, Err e)
  | Ok sess =>
      if negb (bool_decide (Status sess = StatusPending)) then (s, Err (ErrSessionState (Status sess)))
      else match expected_proof sess with
      | Err e => (s, Err e)
      | Ok (keys, expected) =>
          if negb match HexDecode (acAuthProof req) with
                  | Some got => VerifyMAC expected got | None => false end
          then (s, Err ErrProofFailed)
          else
            let sess := {| sess with Keys := keys; Status := StatusAuthenticated;
                             UpdatedAt := now env |} in
            put (update_session (wr env) sess (store s)) s (fun s =>
              match Source s env (SActivationCode sess) with
              | Err e => (s, Err e)
              | Ok None => (s, Err ErrPanic)
              | Ok (Some p) =>
                  (s, Ok (mkAuthResponse (ICCID p) (ProfileName p) (ProfileOwner p)
                            (ServiceProviderName p) (Class_ p) (ExpiresAt p)))
              end)
      end
  end.

(** [json.Marshal] of a nil profile is the document [null]. *)
Definition payload (p : option Profile) : bytes :=
  match p with Some p => MarshalPayload p | None => string_bytes "null" end.
Definition open_for_download (sess : Session) : bool :=
  bool_decide (Status sess = StatusAuthenticated) || bool_decide (Status sess = StatusConfirmed).
(** The package of one session: sealed, counted and authenticated. *)
Definition bound_package (keys : SessionKeys) (seq : Z) (ciphertext : bytes) : res Error bytes :=
  match CMAC (Mac keys) (EncodeMACInput seq ciphertext) with
  | Err e => Err (ErrCrypto e)
  | Ok mac => Ok (EncodeBPP (mkEncrypted seq ciphertext mac))
  end.
Definition GetBoundProfilePackage (env : Env) (transactionID : string) (s : Server) :
    Server * res Error BPPResponse :=
  match get_session transactionID (store s) with
  | Err e => (s, Err e)
  | Ok sess =>
      if negb (open_for_download sess) then (s, Err (ErrSessionState (Status sess)))
      else match Source s env (SActivationCode sess) with
      | Err e => (s, Err e)
      | Ok p =>
          match Encrypt (Dek (Keys sess)) (iv env) (payload p) with
          | Err e => (s, Err (ErrCrypto e))
          | Ok ciphertext =>
              let sess := {| sess with SeqCounter := i64 (SeqCounter sess + 1) |} in
              match bound_package (Keys sess) (SeqCounter sess) ciphertext with
              | Err e => (s, Err e)
              | Ok der =>
                  let sess := {| sess with UpdatedAt := now env |} in
                  put (update_session (wr env) sess (store s)) s (fun s =>
                    ({| s with world := delivered (renv env) (SActivationCode sess) (world s) |},
                     Ok (mkBPP (SeqCounter sess) (Base64Encode der))))
              end
          end
      end
  end.

Definition ConfirmOrder (env : Env) (req : ConfirmRequest) (s : Server) : Server * res Error unit :=
  if bool_decide (coTransactionID req = ""%string) then (s, Err ErrBadRequest)
  else if bool_decide (coResult req <> "success"%string) && bool_decide (coResult req <> "failure"%string)
  then (s, Err ErrBadRequest)
  else match get_session (coTransactionID req) (store s) with
  | Err e => (s, Err e)
  | Ok sess =>
      if negb (open_for_download sess) then (s, Err (ErrSessionState (Status sess)))
      else
        let sess := {| sess with Status := StatusConfirmed; UpdatedAt := now env |} in
        put (update_session (wr env) sess (store s)) s (fun s => (s, Ok tt))
  end.
Definition HandleNotification (env : Env) (req : NotificationRequest) (s : Server) :
    Server * res Error unit :=
  if bool_decide (noTransactionID req = ""%string) || bool_decide (noNotification req = ""%string)
  then (s, Err ErrBadRequest)
  else match get_session (noTransactionID req) (store s) with
  | Err e => (s, Err e)
  | Ok sess =>
      if bool_decide (Status sess = StatusCancelled) then (s, Err (ErrSessionState (Status sess)))
      else
        let sess := {| sess with UpdatedAt := now env |} in
        put (update_session (wr env) sess (store s)) s (fun s => (s, Ok tt))
  end.
Definition CancelSession (env : Env) (transactionID : string) (s : Server) : Server * res Error unit :=
  match get_session transactionID (store s) with
  | Err e => (s, Err e)
  | Ok sess =>
      if bool_decide (Status sess = StatusCancelled) then (s, Err (ErrSessionState (Status sess)))
      else
        let sess := {| sess with Status := StatusCancelled; UpdatedAt := now env |} in
        put (update_session (wr env) sess (store s)) s (fun s => (s, Ok tt))
  end.

(** ** The HTTP mapping *)
Definition httpStatusFor (e : Error) : Z :=
  match e with
  | ErrBadRequest => 400
  | ErrUnknownSession => 404
  | ErrSessionState _ => 409
  | ErrProofFailed => 401
  | ErrUnknownActivationCode => 404
  | ErrSource ErrActivationCodeUsed | ErrSource ErrActivationCodeExpired => 410
  | _ => 500
  end.

Inductive Request :=
  | ReqInitiate (r : InitiateAuthRequest) | ReqAuth (r : AuthClientRequest)
  | ReqBPP (transactionID : string) | ReqConfirm (r : ConfirmRequest)
  | ReqNotify (r : NotificationRequest) | ReqCancel (transactionID : string).
Inductive Body :=
  | BodyInitiate (r : InitiateAuthResponse) | BodyAuth (r : AuthClientResponse)
  | BodyBPP (r : BPPResponse) | BodyOk | BodyError.
(** A reply, or the connection aborted by a panic. *)
Inductive Reply := Replied (status : Z) (body : Body) | Aborted.

Definition reply {A} (wrap : A -> Body) (r : res Error A) : Reply :=
  match r with
  | Ok x => Replied 200 (wrap x)
  | Err ErrPanic => Aborted
  | Err e => Replied (httpStatusFor e) BodyError
  end.
Definition serve (env : Env) (req : Request) (s : Server) : Server * Reply :=
  match req with
  | ReqInitiate r => let '(s, x) := InitiateAuthentication env r s in (s, reply BodyInitiate x)
  | ReqAuth r => let '(s, x) := AuthenticateClient env r s in (s, reply BodyAuth x)
  | ReqBPP id => let '(s, x) := GetBoundProfilePackage env id s in (s, reply BodyBPP x)
  | ReqConfirm r => let '(s, x) := ConfirmOrder env r s in (s, reply (fun _ => BodyOk) x)
  | ReqNotify r => let '(s, x) := HandleNotification env r s in (s, reply (fun _ => BodyOk) x)
  | ReqCancel id => let '(s, x) := CancelSession env id s in (s, reply (fun _ => BodyOk) x)
  end.
(** The routes: the method is checked first, then the document. *)
Definition Handler (env : Env) (post : bool) (req : option Request) (s : Server) : Server * Reply :=
  if negb post then (s, Replied 405 BodyError)
  else match req with
       | None => (s, Replied 400 BodyError)
       | Some req => serve env req s
       end.

(** ** Runs *)
Fixpoint serve_all (l : list (Env * Request)) (s : Server) : Server * list Reply :=
  match l with
  | [] => (s, [])
  | (env, req) :: l =>
      let '(s, r) := serve env req s in
      let '(s, rs) := serve_all l s in (s, r :: rs)
  end.
Definition sessions (s : Server) : gmap string Session := view (store s).
Definition named (x : Session) : string := name (TransactionID x).
Definition server_ok (s : Server) : Prop := store_ok (store s) /\ keyed named (sessions s).
(** No request reopens a transaction that exists: twelve random bytes. *)
Fixpoint fresh_ids (l : list (Env * Request)) (s : Server) : Prop :=
  match l with
  | [] => True
  | (env, req) :: l =>
      match req with
      | ReqInitiate _ => sessions s !! name (newTransactionID env) = None
      | _ => True
      end /\ fresh_ids l (serve env req s).1
  end.

Definition asked_id (req : Request) : option string :=
  match req with
  | ReqInitiate _ => None
  | ReqAuth r => Some (acTransactionID r)
  | ReqBPP id => Some id
  | ReqConfirm r => Some (coTransactionID r)
  | ReqNotify r => Some (noTransactionID r)
  | ReqCancel id => Some id
  end.
(** The session a request is for, by its name in the store. *)
Definition request_id (req : Request) : option string := name <$> asked_id req.
(** What a request may make of its session. *)
Definition changes (now : time) (req : Request) (sess sess' : Session) : Prop :=
  match req with
  | ReqInitiate _ => False
  | ReqAuth r => Status sess = StatusPending /\
      exists keys proof, expected_proof sess = Ok (keys, proof) /\
        HexDecode (acAuthProof r) = Some proof /\
        sess' = {| sess with Keys := keys; Status := StatusAuthenticated; UpdatedAt := now |}
  | ReqBPP _ => open_for_download sess = true /\
      sess' = {| sess with SeqCounter := i64 (SeqCounter sess + 1); UpdatedAt := now |}
  | ReqConfirm _ => open_for_download sess = true /\
      sess' = {| sess with Status := StatusConfirmed; UpdatedAt := now |}
  | ReqNotify _ => Status sess <> StatusCancelled /\ sess' = {| sess with UpdatedAt := now |}
  | ReqCancel _ => Status sess <> StatusCancelled /\
      sess' = {| sess with Status := StatusCancelled; UpdatedAt := now |}
  end.
Definition opens (env : Env) (req : Request) (sess : Session) : Prop :=
  (exists r, req = ReqInitiate r) /\ TransactionID sess = newTransactionID env /\
  Status sess = StatusPending /\ is_Some (ServerEphemeral sess).

(** A write through [put]: refused, or the store with the session. *)
Lemma put_view {A} (upd : bool) b sess s (k : Server -> Server * res Error A) s' r :
  store_ok (store s) ->
  put (if upd then update_session b sess (store s) else create_session b sess (store s)) s k = (s', r) ->
  (store_ok (store s') /\ sessions s' = sessions s /\ world s' = world s /\ r = Err ErrStore) \/
  exists s1, store_ok (store s1) /\ sessions s1 = <[named sess := sess]> (sessions s) /\
    world s1 = world s /\ ID s1 = ID s /\ k s1 = (s', r).
Proof.
  intros Hok. unfold put, sessions.
  pose proof (update_view b sess (store s) Hok) as Hu. pose proof (create_view b sess (store s) Hok) as Hc.
  destruct upd.
  - destruct (update_session b sess (store s)) as [t x]. destruct Hu as (Hok' & [->| ->] & _ & Hv).
    + intros E. right. exists {| s with store := t |}. auto.
    + intros [= <- <-]. left. auto.
  - destruct (create_session b sess (store s)) as [t x]. destruct Hc as (Hok' & [->| ->] & _ & Hv).
    + intros E. right. exists {| s with store := t |}. auto.
    + intros [= <- <-]. left. auto.
Qed.
Definition put_update {A} := @put_view A true.
Definition put_create {A} := @put_view A false.

(** What a request leaves: nothing, a new session, or one session changed. *)
Definition outcome (env : Env) (req : Request) (s s' : Server) : Prop :=
  store_ok (store s') /\
  (sessions s' = sessions s \/
   (exists sess, opens env req sess /\ sessions s' = <[named sess := sess]> (sessions s)) \/
   exists id sess sess', request_id req = Some id /\ sessions s !! id = Some sess /\
     changes (now env) req sess sess' /\ sessions s' = <[id := sess']> (sessions s)).

Lemma outcome_same env req s : server_ok s -> outcome env req s s.
Proof. intros [Hok _]. split; [done|]. by left. Qed.
Lemma get_session_view s id : server_ok s ->
  get_session id (store s) = match sessions s !! name id with Some x => Ok x | None => Err (missing id) end.
Proof. intros [Hok _]. by apply get_view. Qed.

(** One session changed by [put], whatever the handler does afterwards. *)
Lemma put_outcome {A} env req b id sess sess' s (k : Server -> Server * res Error A) s' r :
  server_ok s -> request_id req = Some id -> sessions s !! id = Some sess ->
  changes (now env) req sess sess' -> TransactionID sess' = TransactionID sess ->
  (forall s1 s2 r, k s1 = (s2, r) -> store s2 = store s1) ->
  put (update_session b sess' (store s)) s k = (s', r) -> outcome env req s s'.
Proof.
  intros [Hok Hkey] Hid Hs Hch Ht Hk E.
  pose proof (Hkey _ _ Hs) as Etx. cbn in Etx. unfold named in Etx.
  destruct (put_update b sess' s k s' r Hok E) as [(H1' & H2' & _)|(s1 & Hok1 & Hv & _ & _ & E1)].
  - split; [done|]. by left.
  - apply Hk in E1. unfold outcome, sessions. rewrite E1. split; [done|]. right. right.
    exists id, sess, sess'. split_and!; [done|done|done|]. unfold sessions, named in Hv. by rewrite Hv, Ht, Etx.
Qed.

(** A branch that refuses changes nothing. *)
Ltac refused := intros [= <- <-]; by apply outcome_same.
Lemma InitiateAuthentication_outcome env r s s' x : server_ok s -> InitiateAuthentication env r s = (s', x) ->
  outcome env (ReqInitiate r) s s'.
Proof.
  intros Hok. unfold InitiateAuthentication.
  destruct (_ || _); [refused|].
  destruct (_ || _); [refused|].
  destruct (normalizeActivationCode _) as [token|]; [|refused].
  destruct (Source _ _ _) as [[p|]|]; [|refused..].
  destruct (_ && _); [refused|].
  destruct (challenge env) as [c|]; [|refused].
  destruct (ephemeral env) as [e|]; [|refused]. cbv zeta. intros E.
  destruct (put_create _ _ _ _ _ _ (proj1 Hok) E) as [(H1' & H2' & _)|(s1 & Hok1 & Hv & _ & _ & E1)].
  - split; [done|]. by left.
  - injection E1 as <- <-. split; [done|]. right. left. eexists. split; [|exact Hv].
  split; [by eexists|]. cbn. eauto.
Qed.
Lemma AuthenticateClient_outcome env r s s' x : server_ok s -> AuthenticateClient env r s = (s', x) ->
  outcome env (ReqAuth r) s s'.
Proof.
  intros Hok. unfold AuthenticateClient.
  destruct (_ || _); [refused|].
  rewrite get_session_view by done.
  destruct (sessions s !! name (acTransactionID r)) as [sess|] eqn:Es; [|refused].
  destruct (bool_decide _) eqn:Est; [|refused].
  apply bool_decide_eq_true in Est. cbn [negb].
  destruct (expected_proof sess) as [[keys proof]|] eqn:Ep; [|refused].
  destruct (HexDecode _) as [got|] eqn:Eh; [|refused].
  destruct (VerifyMAC proof got) eqn:Ev; [|refused].
  apply VerifyMAC_iff in Ev as <-. cbn [negb]. cbv zeta. intros E.
  eapply put_outcome; [exact Hok|reflexivity|exact Es| | | |exact E]; [|done|].
  - split; [done|]. eauto 10.
  - intros s1 s2 y. cbn [SActivationCode]. destruct (Source s1 env _) as [[p|]|]; by intros [= <- <-].
Qed.
Lemma GetBoundProfilePackage_outcome env id s s' x : server_ok s -> GetBoundProfilePackage env id s = (s', x) ->
  outcome env (ReqBPP id) s s'.
Proof.
  intros Hok. unfold GetBoundProfilePackage. rewrite get_session_view by done.
  destruct (sessions s !! name id) as [sess|] eqn:Es; [|refused].
  destruct (open_for_download sess) eqn:Eo; [|refused]. cbn [negb].
  destruct (Source _ _ _) as [p|]; [|refused].
  destruct (Encrypt _ _ _) as [ct|]; [|refused]. cbv zeta.
  destruct (bound_package _ _ _) as [der|]; [|refused]. intros E.
  eapply put_outcome; [exact Hok|reflexivity|exact Es| | | |exact E]; [|done|].
  - by split.
  - by intros s1 s2 y [= <- <-].
Qed.
Lemma ConfirmOrder_outcome env r s s' x : server_ok s -> ConfirmOrder env r s = (s', x) ->
  outcome env (ReqConfirm r) s s'.
Proof.
  intros Hok. unfold ConfirmOrder.
  destruct (bool_decide _); [refused|].
  destruct (_ && _); [refused|].
  rewrite get_session_view by done.
  destruct (sessions s !! name (coTransactionID r)) as [sess|] eqn:Es; [|refused].
  destruct (open_for_download sess) eqn:Eo; [|refused]. cbv zeta. intros E.
  eapply put_outcome; [exact Hok|reflexivity|exact Es| | | |exact E]; [|done|].
  - by split.
  - by intros s1 s2 y [= <- <-].
Qed.
Lemma HandleNotification_outcome env r s s' x : server_ok s -> HandleNotification env r s = (s', x) ->
  outcome env (ReqNotify r) s s'.
Proof.
  intros Hok. unfold HandleNotification.
  destruct (_ || _); [refused|].
  rewrite get_session_view by done.
  destruct (sessions s !! name (noTransactionID r)) as [sess|] eqn:Es; [|refused].
  destruct (bool_decide _) eqn:Eo; [refused|].
  apply bool_decide_eq_false in Eo. cbv zeta. intros E.
  eapply put_outcome; [exact Hok|reflexivity|exact Es| | | |exact E]; [|done|].
  - by split.
  - by intros s1 s2 y [= <- <-].
Qed.
Lemma CancelSession_outcome env id s s' x : server_ok s -> CancelSession env id s = (s', x) ->
  outcome env (ReqCancel id) s s'.
Proof.
  intros Hok. unfold CancelSession.
  rewrite get_session_view by done.
  destruct (sessions s !! name id) as [sess|] eqn:Es; [|refused].
  destruct (bool_decide _) eqn:Eo; [refused|].
  apply bool_decide_eq_false in Eo. cbv zeta. intros E.
  eapply put_outcome; [exact Hok|reflexivity|exact Es| | | |exact E]; [|done|].
  - by split.
  - by intros s1 s2 y [= <- <-].
Qed.
Lemma serve_outcome env req s : server_ok s -> outcome env req s (serve env req s).1.
Proof.
  intros Hok. destruct req; cbn [serve].
  - destruct (InitiateAuthentication _ _ _) eqn:E. by eapply InitiateAuthentication_outcome.
  - destruct (AuthenticateClient _ _ _) eqn:E. by eapply AuthenticateClient_outcome.
  - destruct (GetBoundProfilePackage _ _ _) eqn:E. by eapply GetBoundProfilePackage_outcome.
  - destruct (ConfirmOrder _ _ _) eqn:E. by eapply ConfirmOrder_outcome.
  - destruct (HandleNotification _ _ _) eqn:E. by eapply HandleNotification_outcome.
  - destruct (CancelSession _ _ _) eqn:E. by eapply CancelSession_outcome.
Qed.

(** ** The life of a session *)
Definition same_exchange (a b : Session) : Prop :=
  TransactionID a = TransactionID b /\ SActivationCode a = SActivationCode b /\ SEID a = SEID b /\
  SICCID a = SICCID b /\ EuiccChallenge a = EuiccChallenge b /\ EuiccEKPb a = EuiccEKPb b /\
  ServerChallenge a = ServerChallenge b /\ ServerEphemeral a = ServerEphemeral b /\
  SCreatedAt a = SCreatedAt b.
Definition may_become (a b : SessionStatus) : bool :=
  match a, b with
  | StatusPending, _ => true
  | StatusAuthenticated, (StatusAuthenticated | StatusConfirmed | StatusCancelled) => true
  | StatusConfirmed, (StatusConfirmed | StatusCancelled) => true
  | StatusCancelled, StatusCancelled => true
  | _, _ => false
  end.
Definition evolves (a b : Session) : Prop :=
  same_exchange a b /\ may_become (Status a) (Status b) = true /\
  (Status a <> StatusPending -> Keys b = Keys a) /\ (Status a = StatusCancelled -> b = a).

Lemma evolves_refl a : evolves a a.
Proof. repeat split; by destruct (Status a). Qed.
Lemma evolves_trans a b c : evolves a b -> evolves b c -> evolves a c.
Proof.
  intros (Hs1 & Hm1 & Hk1 & Hc1) (Hs2 & Hm2 & Hk2 & Hc2). split_and!.
  - unfold same_exchange in *. intuition congruence.
  - by destruct (Status a), (Status b), (Status c).
  - intros Ha. rewrite Hk2, Hk1; [done|done|]. by destruct (Status a), (Status b).
  - intros Ha. rewrite <- (Hc1 Ha). apply Hc2. by rewrite (Hc1 Ha).
Qed.
Lemma changes_evolves now req a b : changes now req a b -> evolves a b.
Proof.
  destruct req; cbn; [done|..].
  - intros (Hp & keys & proof & _ & _ & ->). repeat split; cbn; congruence || by rewrite Hp.
  - intros (Ho & ->). unfold open_for_download in Ho. repeat split; cbn.
    all: destruct (Status a); done.
  - intros (Ho & ->). unfold open_for_download in Ho. repeat split; cbn.
    all: destruct (Status a); done.
  - intros (Ho & ->). repeat split; cbn. all: destruct (Status a); done.
  - intros (Ho & ->). repeat split; cbn. all: destruct (Status a); done.
Qed.

Lemma serve_ok env req s : server_ok s -> server_ok (serve env req s).1.
Proof.
  intros Hok. destruct (serve_outcome env req s Hok) as (Hst & [E|[(sess & _ & E)|(id & a & b & _ & Ha & Hc & E)]]);
    (split; [done|]); rewrite E; [apply Hok|by apply keyed_insert; [apply Hok|]|].
  apply keyed_insert; [apply Hok|]. apply changes_evolves in Hc as ((Ht & _) & _).
  apply (proj2 Hok) in Ha. cbn in *. unfold named in *. by rewrite <- Ht.
Qed.
Lemma serve_evolves env req s id a : server_ok s ->
  (forall r, req = ReqInitiate r -> sessions s !! name (newTransactionID env) = None) ->
  sessions s !! id = Some a -> exists b, sessions (serve env req s).1 !! id = Some b /\ evolves a b.
Proof.
  intros Hok Hfresh Ha.
  destruct (serve_outcome env req s Hok) as (_ & [->|[(sess & ([r ->] & Ht & _) & ->)|
    (id' & a' & b & _ & Ha' & Hc & ->)]]).
  - exists a. split; [done|apply evolves_refl].
  - exists a. split; [|apply evolves_refl]. rewrite lookup_insert_ne; [done|].
    intros <-. unfold named in Ha. rewrite Ht, (Hfresh r eq_refl) in Ha. done.
  - destruct (decide (id' = id)) as [->|Hne].
    + exists b. rewrite lookup_insert_eq. split; [done|]. simplify_eq. by eapply changes_evolves.
    + exists a. rewrite lookup_insert_ne by done. split; [done|apply evolves_refl].
Qed.

Lemma serve_all_cons env req l s :
  (serve_all ((env, req) :: l) s).1 = (serve_all l (serve env req s).1).1.
Proof. cbn. destruct (serve env req s) as [s1 r]. cbn. by destruct (serve_all l s1). Qed.

(** over any run of requests a session keeps its parties and challenges,
    its status only moves forward (pending, authenticated, confirmed, or
    cancelled from any of them), its keys never change once installed, and a
    cancelled session never changes again. *)
Theorem session_lifecycle l s id sess : server_ok s -> fresh_ids l s ->
  sessions s !! id = Some sess ->
  exists sess', sessions (serve_all l s).1 !! id = Some sess' /\ evolves sess sess'.
Proof.
  revert s sess. induction l as [|[env req] l IH]; intros s sess Hok Hf Hs.
  - exists sess. split; [done|apply evolves_refl].
  - destruct Hf as [Hf Hl]. rewrite serve_all_cons.
    destruct (serve_evolves env req s id sess Hok) as (a & Ha & He); [by intros r ->|done|].
    destruct (IH (serve env req s).1 a) as (b & Hb & He'); [by apply serve_ok|done|done|].
    exists b. split; [done|]. by eapply evolves_trans.
Qed.

(** ** Proof of possession *)
Definition proved (past : list (Env * Request)) (id : string) (sess : Session) : Prop :=
  exists env r proof, (env, ReqAuth r) ∈ past /\ name (acTransactionID r) = id /\
    expected_proof sess = Ok (Keys sess, proof) /\ HexDecode (acAuthProof r) = Some proof.
Definition all_proved (past : list (Env * Request)) (s : Server) : Prop :=
  forall id sess, sessions s !! id = Some sess -> open_for_download sess = true -> proved past id sess.

Lemma expected_proof_same a b : same_exchange a b -> expected_proof a = expected_proof b.
Proof.
  unfold expected_proof. by intros (_ & _ & _ & _ & -> & -> & -> & -> & _).
Qed.
Lemma proved_mono past x id a b : proved past id a -> same_exchange a b -> Keys b = Keys a ->
  proved (past ++ [x]) id b.
Proof.
  intros (env & r & proof & Hin & Hid & He & Hd) Hse Hk. exists env, r, proof.
  rewrite Hk, <- (expected_proof_same a b) by done. split_and!; [set_solver|done..].
Qed.
Lemma serve_proved past env req s : server_ok s -> all_proved past s ->
  all_proved (past ++ [(env, req)]) (serve env req s).1.
Proof.
  intros Hok Hp id sess Hs Ho.
  destruct (serve_outcome env req s Hok) as (_ & [E|[(new & (_ & _ & Hst & _) & E)|
    (id' & a & b & Hid & Ha & Hc & E)]]); rewrite E in Hs.
  - eapply proved_mono; [by apply Hp|repeat split|done].
  - destruct (decide (named new = id)) as [<-|Hne].
    + rewrite lookup_insert_eq in Hs. simplify_eq. unfold open_for_download in Ho. by rewrite Hst in Ho.
    + rewrite lookup_insert_ne in Hs by done. eapply proved_mono; [by apply Hp|repeat split|done].
  - destruct (decide (id' = id)) as [->|Hne].
    + rewrite lookup_insert_eq in Hs. simplify_eq.
      destruct (changes_evolves _ _ _ _ Hc) as (Hse & Hm & Hk & _).
      destruct (decide (Status a = StatusPending)) as [Hpend|Hnp].
      * destruct req; cbn in Hc, Hid; simplify_eq.
        -- destruct Hc as (_ & keys & proof & He & Hd & ->). exists env, r, proof.
           split_and!; [set_solver|done| |done]. cbn [Keys]. by rewrite <- He.
        -- unfold open_for_download in Hc. rewrite Hpend in Hc. by destruct Hc.
        -- unfold open_for_download in Hc. rewrite Hpend in Hc. by destruct Hc.
        -- destruct Hc as [_ ->]. unfold open_for_download in Ho. cbn in Ho. by rewrite Hpend in Ho.
        -- by destruct Hc as [_ ->].
      * eapply proved_mono; [apply Hp; [done|]|done|by apply Hk].
        unfold open_for_download in *. by destruct (Status a), (Status sess).
    + rewrite lookup_insert_ne in Hs by done. eapply proved_mono; [by apply Hp|repeat split|done].
Qed.
Lemma serve_all_proved past l s : server_ok s -> all_proved past s ->
  all_proved (past ++ l) (serve_all l s).1 /\ server_ok (serve_all l s).1.
Proof.
  revert past s. induction l as [|[env req] l IH]; intros past s Hok Hp.
  - by rewrite app_nil_r.
  - rewrite serve_all_cons. replace (past ++ (env, req) :: l) with ((past ++ [(env, req)]) ++ l)
      by by rewrite <- app_assoc.
    apply IH; [by apply serve_ok|by apply serve_proved].
Qed.

(** ** What a package request does *)
Lemma put_world {A} w s (k : Server -> Server * res Error A) s' r :
  (forall s1 s2 y, k s1 = (s2, y) -> world s2 = world s1) -> put w s k = (s', r) -> world s' = world s.
Proof.
  intros Hk. unfold put. destruct w as [t [|]]; [|by intros [= <- <-]]. intros E.
  by apply Hk in E.
Qed.
Definition package_of (r : Reply) : option BPPResponse :=
  match r with Replied 200 (BodyBPP b) => Some b | _ => None end.

Lemma package_inv env id s s' b : server_ok s ->
  GetBoundProfilePackage env id s = (s', Ok b) ->
  exists sess p ct der, sessions s !! name id = Some sess /\ open_for_download sess = true /\
    source (world s) (SActivationCode sess) (now env) = Ok p /\
    Encrypt (Dek (Keys sess)) (iv env) (payload p) = Ok ct /\
    bound_package (Keys sess) (i64 (SeqCounter sess + 1)) ct = Ok der /\
    b = mkBPP (i64 (SeqCounter sess + 1)) (Base64Encode der) /\
    world s' = delivered (renv env) (SActivationCode sess) (world s).
Proof.
  intros Hok. unfold GetBoundProfilePackage. rewrite get_session_view by done.
  destruct (sessions s !! name id) as [sess|] eqn:Es; [|done].
  destruct (open_for_download sess) eqn:Eo; [|done]. cbn [negb].
  destruct (Source s env _) as [p|] eqn:Ep; [|done].
  destruct (Encrypt _ _ _) as [ct|] eqn:Ec; [|done]. cbv zeta.
  destruct (bound_package _ _ _) as [der|] eqn:Ed; [|done]. intros E.
  apply (put_update _ _ _ _ _ _ (proj1 Hok)) in E as [(_ & _ & _ & ?)|(s1 & _ & _ & Hw & _ & E)]; [done|].
  injection E as <- <-. exists sess, p, ct, der. cbn in *. rewrite Hw.
  unfold Source in Ep. destruct (source _ _ _); [|done]. by simplify_eq.
Qed.

Lemma serve_world env req s : server_ok s ->
  (package_of (serve env req s).2 = None /\ world (serve env req s).1 = world s) \/
  exists id sess p b, req = ReqBPP id /\ sessions s !! name id = Some sess /\
    source (world s) (SActivationCode sess) (now env) = Ok p /\
    package_of (serve env req s).2 = Some b /\
    world (serve env req s).1 = delivered (renv env) (SActivationCode sess) (world s).
Proof.
  assert (Hr : forall A (w : A -> Body) x, (forall a, package_of (Replied 200 (w a)) = None) ->
    package_of (reply w x) = None).
  { intros A w [a|[]] Hw; cbn; try done; [apply Hw|]. by destruct e. }
  intros Hok. destruct req as [r|r|id|r|r|id]; cbn [serve].
  - left. destruct (InitiateAuthentication env r s) as [s' x] eqn:E. split; [by apply Hr|]. revert E.
    unfold InitiateAuthentication. repeat (case_match; try by intros [= <- <-]).
    apply put_world. by intros ??? [= <- <-].
  - left. destruct (AuthenticateClient env r s) as [s' x] eqn:E. split; [by apply Hr|]. revert E.
    unfold AuthenticateClient. repeat (case_match; try by intros [= <- <-]).
    all: apply put_world; intros ???; repeat case_match; by intros [= <- <-].
  - destruct (GetBoundProfilePackage env id s) as [s' [b|e]] eqn:E; cbn.
    + right. destruct (package_inv env id s s' b Hok E) as (sess & p & ct & der & Hs & _ & Hp & _ & _ & _ & Hw).
      exists id, sess, p, b. done.
    + left. split; [destruct e; try done; by destruct e|]. revert E.
      unfold GetBoundProfilePackage. repeat (case_match; try by intros [= <- <-]).
      unfold put. destruct (update_session _ _ _) as [t [|]]; by intros [= <- <-].
  - left. destruct (ConfirmOrder env r s) as [s' x] eqn:E. split; [by apply Hr|]. revert E.
    unfold ConfirmOrder. repeat (case_match; try by intros [= <- <-]).
    apply put_world. by intros ??? [= <- <-].
  - left. destruct (HandleNotification env r s) as [s' x] eqn:E. split; [by apply Hr|]. revert E.
    unfold HandleNotification. repeat (case_match; try by intros [= <- <-]).
    apply put_world. by intros ??? [= <- <-].
  - left. destruct (CancelSession env id s) as [s' x] eqn:E. split; [by apply Hr|]. revert E.
    unfold CancelSession. repeat (case_match; try by intros [= <- <-]).
    apply put_world. by intros ??? [= <- <-].
Qed.
End Server.
Arguments Env {_}.
Arguments mkEnv {_}.

(** a session is open for download only after a proof of possession: in
    any run from an empty store there was an [authenticateClient] request for
    it carrying exactly the CMAC, under the session's own transport key, of
    the two challenges, and the session's keys are those of the exchange. *)
Theorem proof_of_possession `{!BlockCipher} `{!P256} `{!JsonProfile} {T} `{!Store T} {W}
    `{!ProfileSource W}
    l (s : Server) id sess :
  store_ok (store s) -> sessions s = ∅ ->
  sessions (serve_all l s).1 !! id = Some sess -> open_for_download sess = true ->
  exists env r proof, (env, ReqAuth r) ∈ l /\ name (acTransactionID r) = id /\
    expected_proof sess = Ok (Keys sess, proof) /\ HexDecode (acAuthProof r) = Some proof.
Proof.
  intros Hok He Hs Ho. eapply (serve_all_proved [] l s); [..|exact Hs|exact Ho].
  - split; [done|]. rewrite He. apply keyed_empty.
  - intros ??. by rewrite He.
Qed.

(** ** Two stores give the same service *)
Section Simulation.
Context `{!BlockCipher} `{!P256} `{!JsonProfile} {T1 T2} `{!Store T1} `{!Store T2} {W}
  `{!ProfileSource W} (P : string -> Prop).

(** Ids a store takes, tells apart, and knows nothing of at first. *)
Definition regular T `{!Store T} : Prop :=
  (forall id, P id -> storable (T := T) id = true /\ missing (T := T) id = ErrUnknownSession) /\
  forall a b, P a -> P b -> name (T := T) a = name (T := T) b -> a = b.
Definition sim (s1 : @Server T1 W) (s2 : @Server T2 W) : Prop :=
  store_ok (store s1) /\ store_ok (store s2) /\
  (forall id, P id -> sessions s1 !! name (T := T1) id = sessions s2 !! name (T := T2) id) /\
  (forall id x, P id -> sessions s1 !! name (T := T1) id = Some x -> TransactionID x = id) /\
  world s1 = world s2 /\ ID s1 = ID s2.
(** The results of two handlers, related. *)
Definition simr {A} (x1 : @Server T1 W * A) (x2 : @Server T2 W * A) : Prop :=
  sim x1.1 x2.1 /\ x1.2 = x2.2.
(** A request whose ids, given or drawn, are among them; its writes succeed. *)
Definition asks (x : Env * Request) : Prop :=
  wr x.1 = true /\
  match asked_id x.2 with Some id => P id | None => P (newTransactionID x.1) end.
End Simulation.

Section Serve_sim.
Context `{!BlockCipher} `{!P256} `{!JsonProfile} {T1 T2} `{!Store T1} `{!Store T2} {W}
  `{!ProfileSource W} (P : string -> Prop) (R1 : regular P T1) (R2 : regular P T2).
Abbreviation sim := (@sim _ T1 T2 _ _ W P).
Abbreviation simr := (@simr _ T1 T2 _ _ W P).

Lemma sim_get s1 s2 id : sim s1 s2 -> P id ->
  get_session id (store s1) = get_session id (store s2) /\
  forall x, get_session id (store s1) = Ok x -> TransactionID x = id.
Proof.
  intros (Ho1 & Ho2 & Hv & Hid & _) HP. specialize (Hv id HP). specialize (Hid id). unfold sessions in *.
  rewrite !get_view, <- Hv by done. destruct (proj1 R1 id HP) as [_ ->]. destruct (proj1 R2 id HP) as [_ ->].
  split; [done|]. intros x. destruct (view _ !! _); [|done]. intros [= ->]. by apply Hid.
Qed.
Lemma sim_source s1 s2 env token : sim s1 s2 -> Source s1 env token = Source s2 env token.
Proof. intros (_ & _ & _ & _ & Hw & _). unfold Source. by rewrite Hw. Qed.
Lemma sim_insert sess (s1 : @Server T1 W) (s2 : @Server T2 W) t1 t2 : sim s1 s2 -> P (TransactionID sess) ->
  store_ok t1 -> store_ok t2 ->
  view t1 = <[name (T := T1) (TransactionID sess) := sess]> (sessions s1) ->
  view t2 = <[name (T := T2) (TransactionID sess) := sess]> (sessions s2) ->
  sim {| s1 with store := t1 |} {| s2 with store := t2 |}.
Proof.
  intros (_ & _ & Hv & Hid & Hw & Hi) HP Ho1 Ho2 E1 E2. unfold Smdp.sim, sessions in *. cbn. rewrite E1, E2.
  split_and!; [done|done| | |done|done].
  - intros id HPi. destruct (decide (TransactionID sess = id)) as [<-|Hne]; [by rewrite !lookup_insert_eq|].
    rewrite !lookup_insert_ne; [by apply Hv| |]; intros E; apply Hne;
      [by apply (proj2 R2)|by apply (proj2 R1)].
  - intros id x HPi [[E <-]|[_ Hx]]%lookup_insert_Some; [by apply (proj2 R1)|by eapply Hid].
Qed.
Lemma sim_update {A} sess s1 s2 (k1 : Server -> Server * res Error A) k2 : sim s1 s2 -> P (TransactionID sess) ->
  (forall t1 t2, sim t1 t2 -> simr (k1 t1) (k2 t2)) ->
  simr (put (update_session true sess (store s1)) s1 k1)
       (put (update_session true sess (store s2)) s2 k2).
Proof.
  intros Hs HP Hk. unfold put.
  pose proof (update_view true sess (store s1) (proj1 Hs)) as Hu1.
  pose proof (update_view true sess (store s2) (proj1 (proj2 Hs))) as Hu2.
  destruct (update_session true sess (store s1)) as [t1 r1], (update_session true sess (store s2)) as [t2 r2].
  destruct Hu1 as (Ho1' & _ & ->%eq_sym%eq_sym & Hv1); [|done|by apply R1].
  destruct Hu2 as (Ho2' & _ & ->%eq_sym%eq_sym & Hv2); [|done|by apply R2].
  apply Hk. by eapply sim_insert.
Qed.
Lemma sim_create {A} sess s1 s2 (k1 : Server -> Server * res Error A) k2 : sim s1 s2 -> P (TransactionID sess) ->
  (forall t1 t2, sim t1 t2 -> simr (k1 t1) (k2 t2)) ->
  simr (put (create_session true sess (store s1)) s1 k1)
       (put (create_session true sess (store s2)) s2 k2).
Proof.
  intros Hs HP Hk. unfold put.
  pose proof (create_view true sess (store s1) (proj1 Hs)) as Hu1.
  pose proof (create_view true sess (store s2) (proj1 (proj2 Hs))) as Hu2.
  destruct (create_session true sess (store s1)) as [t1 r1], (create_session true sess (store s2)) as [t2 r2].
  destruct Hu1 as (Ho1' & _ & ->%eq_sym%eq_sym & Hv1); [|done|by apply R1].
  destruct Hu2 as (Ho2' & _ & ->%eq_sym%eq_sym & Hv2); [|done|by apply R2].
  apply Hk. by eapply sim_insert.
Qed.

(** Handlers branch on the same values. *)
Ltac sim_branches Hsame := repeat (case_match; try by apply Hsame).
Lemma serve_sim env req s1 s2 : sim s1 s2 -> asks P (env, req) ->
  simr (serve env req s1) (serve env req s2).
Proof.
  intros Hs [Hw Ha]. cbn [fst snd] in Hw, Ha.
  assert (Hc : forall A (x1 : @Server T1 W * res Error A) x2 (w : A -> Body), simr x1 x2 ->
    simr (let '(s, x) := x1 in (s, reply w x)) (let '(s, x) := x2 in (s, reply w x))).
  { intros A [a1 b1] [a2 b2] w [Hab Hb]. cbn in *. subst b2. by split. }
  assert (Hsame : forall A t1 t2 (x : A), sim t1 t2 -> simr (t1, x) (t2, x)) by by split.
  destruct req as [r|r|id|r|r|id]; cbn [serve]; cbn [asked_id] in Ha; apply Hc.
  - unfold InitiateAuthentication. do 2 (case_match; [by apply Hsame|]).
    case_match; [|by apply Hsame]. rewrite <- (sim_source s1 s2 env) by done.
    rewrite Hw. sim_branches Hsame.
    apply sim_create; [done|done|]. intros t1 t2 Ht. pose proof Ht as (_ & _ & _ & _ & _ & E).
    rewrite E. by apply Hsame.
  - unfold AuthenticateClient. rewrite Hw.
    case_match; [by apply Hsame|].
    destruct (sim_get s1 s2 _ Hs Ha) as [<- Hid].
    destruct (get_session _ (store s1)) as [sess|] eqn:Eg; [|by apply Hsame]. specialize (Hid _ eq_refl).
    sim_branches Hsame.
    all: apply sim_update; [done|cbn; by rewrite Hid|]; intros t1 t2 Ht;
      rewrite <- (sim_source t1 t2 env) by done; sim_branches Hsame.
  - unfold GetBoundProfilePackage. rewrite Hw.
    destruct (sim_get s1 s2 _ Hs Ha) as [<- Hid].
    destruct (get_session _ (store s1)) as [sess|] eqn:Eg; [|by apply Hsame]. specialize (Hid _ eq_refl).
    case_match; [by apply Hsame|]. rewrite <- (sim_source s1 s2 env) by done. sim_branches Hsame.
    apply sim_update; [done|cbn; by rewrite Hid|]. intros t1 t2 Ht. split; [|done].
    destruct Ht as (?&?&?&?&E&?). cbn. rewrite E. by split_and!.
  - unfold ConfirmOrder. rewrite Hw.
    do 2 (case_match; [by apply Hsame|]).
    destruct (sim_get s1 s2 _ Hs Ha) as [<- Hid].
    destruct (get_session _ (store s1)) as [sess|] eqn:Eg; [|by apply Hsame]. specialize (Hid _ eq_refl).
    sim_branches Hsame. apply sim_update; [done|cbn; by rewrite Hid|]. intros t1 t2 Ht. by apply Hsame.
  - unfold HandleNotification. rewrite Hw.
    case_match; [by apply Hsame|].
    destruct (sim_get s1 s2 _ Hs Ha) as [<- Hid].
    destruct (get_session _ (store s1)) as [sess|] eqn:Eg; [|by apply Hsame]. specialize (Hid _ eq_refl).
    sim_branches Hsame. apply sim_update; [done|cbn; by rewrite Hid|]. intros t1 t2 Ht. by apply Hsame.
  - unfold CancelSession. rewrite Hw.
    destruct (sim_get s1 s2 _ Hs Ha) as [<- Hid].
    destruct (get_session _ (store s1)) as [sess|] eqn:Eg; [|by apply Hsame]. specialize (Hid _ eq_refl).
    sim_branches Hsame. apply sim_update; [done|cbn; by rewrite Hid|]. intros t1 t2 Ht. by apply Hsame.
Qed.
Lemma serve_all_sim l s1 s2 : sim s1 s2 -> Forall (asks P) l -> simr (serve_all l s1) (serve_all l s2).
Proof.
  intros Hs Hl. revert s1 s2 Hs. induction Hl as [|[env req] l Hw Hl IH]; intros s1 s2 Hs; [by split|].
  cbn [serve_all]. destruct (serve_sim env req s1 s2 Hs Hw) as [Hs' Hr].
  destruct (serve env req s1) as [t1 r1], (serve env req s2) as [t2 r2]. cbn in Hs', Hr.
  destruct (IH t1 t2 Hs') as [Hs'' Hrs].
  destruct (serve_all l t1), (serve_all l t2). cbn in *. split; [done|]. cbn. by rewrite Hr, Hrs.
Qed.
End Serve_sim.

(** C32: the memory store and the file store are interchangeable for ids that
    are short names: no slash, no NUL, at most 246 bytes, as every id the
    server draws is ([short_hex]).  From servers with the same sessions under these ids, the
    same profile source and name, requests for such ids get the same replies
    from both and leave the same sessions, as long as the writes succeed.
    (Other ids differ: a path is cleaned, so [./x] is [x] on disk and unknown
    in memory, and a name the system refuses is a 500 where memory says 404;
    [cleaned_id], [other_ids].) *)
Theorem stores_interchangeable `{!BlockCipher} `{!P256} `{!JsonProfile} `{!Disk} {W} `{!ProfileSource W}
    l (s1 : @Server MemStore W) (s2 : @Server fileStore W) :
  sim short_name s1 s2 -> Forall (asks short_name) l ->
  simr short_name (serve_all l s1) (serve_all l s2).
Proof.
  apply serve_all_sim; split.
  - by intros id.
  - by intros a b.
  - intros id Hs. destruct (short_path id Hs) as [Ha Hw]. split; [exact Hw|]. cbn. by rewrite Ha.
  - intros a b. apply short_path_inj.
Qed.

(** ** Single use over the registry *)
Section SingleUse.
Context `{!BlockCipher} `{!P256} `{!JsonProfile} `{!Aead} {T} `{!Store T}.
#[local] Instance single_use_source : ProfileSource Registry := registry_source true.

(** The packages a run hands out for a code. *)
Definition hands_out (token : string) (s : @Server T Registry) (x : Env * Request) : bool :=
  match x.2, package_of (serve x.1 x.2 s).2 with
  | ReqBPP id, Some _ =>
      match get_session id (store s) with
      | Ok sess => bool_decide (SActivationCode sess = token)
      | Err _ => false
      end
  | _, _ => false
  end.
Fixpoint packages (token : string) (l : list (Env * Request)) (s : @Server T Registry) : nat :=
  match l with
  | [] => 0
  | x :: l => (if hands_out token s x then 1 else 0) + packages token l (serve x.1 x.2 s).1
  end.

Lemma delivered_used env token r token' : used r token' \/ token = token' /\ is_Some (entries r !! token) ->
  used (delivered env token r) token'.
Proof.
  cbn. unfold MarkDownloaded, used.
  destruct (entries r !! token) as [e|] eqn:E; rewrite ?(proj1 (saveLocked_entries _ _)); cbn;
    intros [(e' & He & Hd)|[<- [e' He]]]; simplify_eq; eauto.
  - destruct (decide (token = token')) as [<-|]; [rewrite lookup_insert_eq; eauto|].
    rewrite lookup_insert_ne by done. eauto.
  - rewrite lookup_insert_eq. eauto.
Qed.
Lemma hands_out_used token s x : server_ok s ->
  (used (world s) token -> hands_out token s x = false /\ used (world (serve x.1 x.2 s).1) token) /\
  (hands_out token s x = true -> used (world (serve x.1 x.2 s).1) token).
Proof.
  intros Hok. destruct x as [env req]. unfold hands_out. cbn [fst snd].
  destruct (serve_world env req s Hok) as [[Hn Hw]|(id & sess & p & b & -> & Hs & Hp & Hb & Hw)].
  - rewrite Hn, Hw. split; [intros Hu; split; [by destruct req|done]|by destruct req].
  - rewrite Hb, Hw, get_session_view, Hs by done. cbn [source single_use_source registry_source] in Hp.
    unfold ResolvePolicy in Hp.
    destruct (entries (world s) !! SActivationCode sess) as [e|] eqn:Ee; [|done].
    split.
    + intros Hu. split; [|by apply delivered_used; left].
      apply bool_decide_eq_false. intros <-. destruct Hu as (e' & He' & Hd). simplify_eq.
      rewrite (bool_decide_eq_true_2 _ Hd) in Hp. cbn [andb] in Hp.
      revert Hp. by repeat case_match.
    + intros E. apply bool_decide_eq_true in E. apply delivered_used. right. split; [done|]. by rewrite Ee.
Qed.
Lemma packages_used token l s : server_ok s -> used (world s) token -> packages token l s = 0%nat.
Proof.
  revert s. induction l as [|x l IH]; intros s Hok Hu; [done|]. cbn [packages].
  destruct (proj1 (hands_out_used token s x Hok) Hu) as [-> Hu']. apply IH; [|done].
  by apply serve_ok.
Qed.

(** C6: under the single-use policy the server hands out at most one package
    per activation code, over any run of requests of any number of sessions,
    confirmed, cancelled or abandoned: cancelling a session does not make its
    code usable again. *)
Theorem one_package_per_code token l s : server_ok s ->
  (packages token l s <= 1)%nat /\ (used (world s) token -> packages token l s = 0%nat).
Proof.
  intros Hok. split; [|by apply packages_used]. revert s Hok.
  induction l as [|x l IH]; intros s Hok; cbn [packages]; [lia|].
  pose proof (serve_ok x.1 x.2 s Hok) as Hok'.
  destruct (hands_out token s x) eqn:E; [|by apply IH].
  rewrite packages_used; [lia|done|]. by apply (hands_out_used token s x Hok).
Qed.
End SingleUse.

(** ** A concrete exchange *)
Definition demo_eid : string := NewEID demo_rnd.
Definition demo_lab_profile : Profile :=
  mkProfile 1 (match NewICCID "99901" demo_rnd with Ok i => i | Err _ => "" end) "" "demo" "" "" ""
    "lab" "999991234567001" "" "internet" "465B5CE8B199B49FAA5F0A2EE238A6BC"
    "4D9B7A2C5E8F1A3B6C0D2E4F7A9B5C1D" "8000" "000000000001" [] [] 3 4.
Definition demo_token : string := "ABCD1234".
Definition demo_registry : Registry :=
  EsimRegistry.mkRegistry None
    {[ demo_token := mkEntry demo_token (Some demo_lab_profile) "" 1 None None ]} EsimRegistry.NotExist.
Definition demo_senv (t : time) : Env :=
  mkEnv t (Some (replicate 16 1)) (Some 5%positive) (Some (replicate 12 t)) t
    (Some (replicate 16 8)) true (demo_env t).
Definition demo_server : @Server MemStore Registry := mkServer "smdp" NewMemStore demo_registry.
(** A system that has one directory. *)
Definition demo_access (p : string) : Access :=
  if existsb (fun c => c =? 0) (string_bytes p) || existsb (fun c => 255 <? slen c) (components p) then Refused
  else if bool_decide (Paths.join (removelast (components p)) = "/data/esim"%string) then Usable else NoDirectory.
#[local] Instance demo_disk : Disk.
Proof.
  refine {| session_dir := "/data/esim"; access := demo_access |}. intros n (Ho & Hz & Hl).
  assert (E : Join "/data/esim" n = "/data/esim"%string +:+ Strings.String.String Paths.slash n).
  { destruct (Join_ordinary "/data/esim") as [pre Hpre]. rewrite Hpre by done.
    pose proof (Hpre "x"%string ltac:(by repeat split)) as Ex. 
    change (Join "/data/esim" "x") with ("/data/esim"%string +:+ Strings.String.String Paths.slash "x")%string in Ex.
    apply (f_equal string_bytes) in Ex. rewrite !string_bytes_app in Ex.
    change (string_bytes (Strings.String.String Paths.slash "x")) with ([47] ++ string_bytes "x") in Ex.
    rewrite app_assoc in Ex. apply app_inv_tail in Ex. apply string_bytes_inj.
    rewrite !string_bytes_app, <- Ex, <- app_assoc. done. }
  rewrite E. unfold demo_access. rewrite components_snoc by apply Ho.
  rewrite removelast_last.
  rewrite string_bytes_app, (existsb_app _ (string_bytes "/data/esim")), existsb_app.
  change (existsb (fun c => c =? 0) (string_bytes "/data/esim")) with false.
  change (existsb (fun c => 255 <? slen c) (components "/data/esim")) with false.
  replace (existsb (fun c => c =? 0) (string_bytes (Strings.String.String Paths.slash n))) with false.
  2: { symmetry. apply not_true_is_false. intros (x & Hx & E0)%existsb_exists. apply Z.eqb_eq in E0 as ->.
       apply Hz. apply list_elem_of_In in Hx. change (string_bytes (Strings.String.String Paths.slash n)) with (47 :: string_bytes n) in Hx.
       by apply elem_of_cons in Hx as [?|?]. }
  cbn [existsb orb]. rewrite (proj2 (Z.ltb_ge _ _)) by done. reflexivity.
Defined.
Definition demo_file_server : @Server fileStore Registry := mkServer "smdp" ∅ demo_registry.
Definition demo_tx : string := HexEncode (replicate 12 1).
(** The card's side: key 7, challenge of twos. *)
Definition demo_proof : bytes :=
  match DeriveSessionKeys (default [] (agree 7%positive (public 5%positive))) with
  | Ok keys => match CMAC (Enc keys) (replicate 16 1 ++ replicate 16 2) with Ok m => m | Err _ => [] end
  | Err _ => []
  end.
Definition demo_requests : list (Env * Request) :=
  [(demo_senv 1, ReqInitiate (mkInitiate demo_token demo_eid (HexEncode (replicate 16 2))
      (HexEncode (public 7%positive))));
   (demo_senv 2, ReqAuth (mkAuth demo_tx (HexEncode demo_proof)));
   (demo_senv 3, ReqBPP demo_tx);
   (demo_senv 4, ReqConfirm (mkConfirm demo_tx "success"))].
#[local] Instance demo_source : ProfileSource Registry := registry_source true.
Definition statuses (l : list Reply) : list Z :=
  (fun r => match r with Replied st _ => st | Aborted => 0 end) <$> l.

(** The exchange succeeds; the package asked for again is gone (410). *)
Example demo_exchange :
  statuses (serve_all (demo_requests ++ [(demo_senv 5, ReqBPP demo_tx)]) demo_server).2 =
  [200; 200; 200; 200; 410].
Proof. vm_compute. reflexivity. Qed.
(** A plaintext registry after a restart: the first request is aborted. *)
Example demo_restart_aborts :
  let reg := EsimRegistry.mkRegistry None (document <$> entries demo_registry) EsimRegistry.NotExist in
  (serve_all (take 1 demo_requests) (mkServer "smdp" NewMemStore reg : @Server MemStore Registry)).2 = [Aborted].
Proof. vm_compute. reflexivity. Qed.

Lemma demo_server_ok : server_ok demo_server.
Proof. split; [done|apply keyed_empty]. Qed.

Lemma session_lifecycle_witness : exists sess sess',
  sessions (serve_all (take 2 demo_requests) demo_server).1 !! demo_tx = Some sess /\
  sessions (serve_all (drop 2 demo_requests) (serve_all (take 2 demo_requests) demo_server).1).1
    !! demo_tx = Some sess' /\ evolves sess sess'.
Proof.
  set (s := (serve_all (take 2 demo_requests) demo_server).1).
  assert (Hok : server_ok s).
  { unfold s. eapply (serve_all_proved []); [apply demo_server_ok|]. intros ??. done. }
  assert (Hin : bool_decide (is_Some (sessions s !! demo_tx)) = true) by (vm_compute; reflexivity).
  apply bool_decide_eq_true in Hin as [sess E].
  destruct (session_lifecycle (drop 2 demo_requests) s demo_tx sess) as (sess' & H1 & H2).
  - exact Hok.
  - repeat split.
  - exact E.
  - exists sess, sess'. split; [exact E|]. split; [exact H1|exact H2].
Defined.
Definition proof_is (r : res Error (SessionKeys * bytes)) (proof : bytes) : bool :=
  match r with Ok (_, q) => bool_decide (q = proof) | Err _ => false end.
Lemma proof_of_possession_witness : exists env r,
  (env, ReqAuth r) ∈ take 3 demo_requests /\ HexDecode (acAuthProof r) = Some demo_proof.
Proof.
  assert (Hin : match sessions (serve_all (take 3 demo_requests) demo_server).1 !! demo_tx with
    | Some sess => open_for_download sess && proof_is (expected_proof sess) demo_proof
    | None => false end = true) by (vm_compute; reflexivity).
  assert (Hs : exists sess, sessions (serve_all (take 3 demo_requests) demo_server).1 !! demo_tx = Some sess /\
    open_for_download sess = true /\ proof_is (expected_proof sess) demo_proof = true).
  { revert Hin. generalize (sessions (serve_all (take 3 demo_requests) demo_server).1 !! demo_tx).
    intros [sess|]; [|done]. intros [Ho Hp]%andb_true_iff. eauto. }
  destruct Hs as (sess & E & Ho & Hp).
  destruct (proof_of_possession (take 3 demo_requests) demo_server demo_tx sess)
    as (env & r & proof & H1 & H2 & H3 & H4).
  - exact I.
  - reflexivity.
  - exact E.
  - exact Ho.
  - exists env, r. split; [exact H1|]. rewrite H4. rewrite H3 in Hp.
    apply bool_decide_eq_true in Hp. by rewrite Hp.
Defined.
(** One file under two ids, and names that are no session's. *)
Example cleaned_id : path "./x" = path "x" /\ path "../x" = "/data/x.json"%string.
Proof. split; reflexivity. Qed.
Example other_ids :
  let s := (serve_all demo_requests demo_file_server).1 in
  let m := (serve_all demo_requests demo_server).1 in
  let ask id : list (Env * Request) := [(demo_senv 6, ReqCancel id)] in
  statuses (serve_all (ask ("./" +:+ demo_tx)) s).2 = [200] /\
  statuses (serve_all (ask ("./" +:+ demo_tx)) m).2 = [404] /\
  statuses (serve_all (ask (bytes_string (replicate 251 97))) s).2 = [500] /\
  statuses (serve_all (ask (bytes_string (replicate 251 97))) m).2 = [404].
Proof. vm_compute. done. Qed.
Definition shortb (id : string) : bool :=
  slashless id && forallb (fun c => negb (c =? 0)) (string_bytes id) && (slen id <=? 246).
Lemma shortb_short id : shortb id = true -> short_name id.
Proof.
  unfold shortb. intros [[Hs Hz]%andb_true_iff Hl%Z.leb_le]%andb_true_iff. split_and!; try done.
  intros Hin. rewrite forallb_forall in Hz. apply list_elem_of_In in Hin. by apply Hz in Hin.
Qed.
Lemma stores_interchangeable_witness :
  sim short_name demo_server demo_file_server /\ Forall (asks short_name) demo_requests /\
  (serve_all demo_requests demo_server).2 = (serve_all demo_requests demo_file_server).2.
Proof.
  assert (Hs : sim short_name demo_server demo_file_server).
  { split; [exact I|]. split; [apply map_Forall_empty|]. split; [done|]. split; [done|]. split; reflexivity. }
  assert (Ha : Forall (asks short_name) demo_requests).
  { repeat constructor; apply shortb_short; vm_compute; reflexivity. }
  split; [exact Hs|]. split; [exact Ha|].
  exact (proj2 (stores_interchangeable demo_requests demo_server demo_file_server Hs Ha)).
Defined.
Lemma one_package_per_code_witness :
  packages demo_token (demo_requests ++ [(demo_senv 5, ReqBPP demo_tx)]) demo_server = 1%nat /\
  (packages demo_token (demo_requests ++ demo_requests) demo_server <= 1)%nat.
Proof.
  split; [vm_compute; reflexivity|].
  apply (one_package_per_code demo_token (demo_requests ++ demo_requests) demo_server), demo_server_ok.
Defined.
