(* ===== verification/Euicc.v ===== *)
(** * Euicc: the software eUICC

    [core/esim/euicc/euicc.go]: the card's side of a download.  [postJSON] is
    an argument, so the theorems hold against any peer; the SM-DP+ server of
    [Smdp] is one. *)
From S2P Require Import Prelude.
From S2P Require Import Encoding.
From S2P Require Import Activation.
From S2P Require Import Profile.
From S2P Require Import EsimCrypto.
From S2P Require Import Der.
From S2P Require Import EsimRegistry.
From S2P Require Import Smdp.

Record InstalledProfile := mkInstalled { iProfile : Profile; Enabled : bool; InstalledAt : time }.
#[global] Instance InstalledProfile_eq_dec : EqDecision InstalledProfile.
Proof. solve_decision. Defined.
Record EUICC := mkEUICC {
  eEID : string; Profiles : gmap string InstalledProfile; Installed : list string;
}.
Inductive Error :=
  | ErrEntropy | ErrHTTP | ErrStatus (st : Z) | ErrHex | ErrCryptography (e : EsimCrypto.Error)
  | ErrBase64 | ErrEnvelope (e : Der.Error) | ErrSeq | ErrMAC | ErrPayload
  | ErrProfile (e : Profile.Error) | ErrPinned | ErrAlreadyInstalled | ErrNotInstalled.

(** [New]: the random digits of the identifier are an argument. *)
Definition New (rnd : Z -> option bytes) : EUICC := mkEUICC (NewEID rnd) ∅ [].

(** What [postJSON] returns: an error, or a status and the decoded body. *)
Inductive Post := PErr | PReply (status : Z) (body : Body).

Section Euicc.
Context `{!BlockCipher} `{!P256} `{!JsonProfile} {W : Type} (post : Request -> W -> W * Post).

(** The bodies the card decodes; another document is a JSON error. *)
Definition as_initiate (b : Body) : option InitiateAuthResponse :=
  match b with BodyInitiate r => Some r | _ => None end.
Definition as_metadata (b : Body) : option AuthClientResponse :=
  match b with BodyAuth r => Some r | _ => None end.
Definition as_bpp (b : Body) : option BPPResponse :=
  match b with BodyBPP r => Some r | _ => None end.
Definition as_any (b : Body) : option unit := Some tt.

(** A request and its answer, or the error of the step. *)
Definition call {A} (req : Request) (decode : Body -> option A) (w : W) : W * res Error A :=
  let '(w, r) := post req w in
  (w, match r with
      | PErr => Err ErrHTTP
      | PReply st body =>
          if st =? 200 then match decode body with Some x => Ok x | None => Err ErrHTTP end
          else Err (ErrStatus st)
      end).
Definition cancel (transactionID : string) (w : W) : W := (post (ReqCancel transactionID) w).1.

Definition remove (iccid : string) (e : EUICC) : EUICC :=
  {| e with Profiles := delete iccid (Profiles e);
            Installed := match list_find (fun id => id = iccid) (Installed e) with
                         | Some (i, _) => delete i (Installed e)
                         | None => Installed e
                         end |}.

(** The checks on a package, from its text to the profile; each failure
    cancels the session. *)
Definition check_package (e : EUICC) (keys : SessionKeys) (bpp : BPPResponse) : res Error Profile :=
  match Base64Decode (bppBPP bpp) with
  | None => Err ErrBase64
  | Some der =>
      match DecodeBPP der with
      | Err er => Err (ErrEnvelope er)
      | Ok ep =>
          if negb (Der.SeqCounter ep =? bppSeqCounter bpp) then Err ErrSeq
          else match CMAC (Mac keys) (EncodeMACInput (Der.SeqCounter ep) (Ciphertext ep)) with
          | Err er => Err (ErrCryptography er)
          | Ok expectedMAC =>
              if negb (VerifyMAC expectedMAC (MAC ep)) then Err ErrMAC
              else match Decrypt (Dek keys) (Ciphertext ep) with
              | Err er => Err (ErrCryptography er)
              | Ok plaintext =>
                  match UnmarshalPayload plaintext with
                  | None => Err ErrPayload
                  | Some p =>
                      match Validate p with
                      | Err er => Err (ErrProfile er)
                      | Ok _ =>
                          if bool_decide (EID p <> ""%string) && bool_decide (EID p <> eEID e) then
                            Err ErrPinned
                          else if bool_decide (is_Some (Profiles e !! ICCID p)) then
                            Err ErrAlreadyInstalled
                          else Ok p
                      end
                  end
              end
          end
      end
  end.

(** The keys of the exchange and the proof, from the first answer. *)
Definition agree_keys (ephemeral : privkey) (challenge : bytes) (ia : InitiateAuthResponse) :
    res Error (SessionKeys * bytes) :=
  match HexDecode (iarServerEphemeral ia) with
  | None => Err ErrHex
  | Some serverEphemeral =>
      match ECDHShared ephemeral serverEphemeral with
      | Err e => Err (ErrCryptography e)
      | Ok shared =>
          match DeriveSessionKeys shared with
          | Err e => Err (ErrCryptography e)
          | Ok keys =>
              match HexDecode (iarServerChallenge ia) with
              | None => Err ErrHex
              | Some serverChallenge =>
                  match CMAC (Enc keys) (serverChallenge ++ challenge) with
                  | Err e => Err (ErrCryptography e)
                  | Ok proof => Ok (keys, proof)
                  end
              end
          end
      end
  end.

(** The last two requests; a failure takes the profile off again. *)
Definition finish (tx : string) (p : Profile) (installed : InstalledProfile) (e : EUICC) (w : W) :
    W * EUICC * res Error InstalledProfile :=
  match call (ReqConfirm (mkConfirm tx "success")) as_any w with
  | (w, Err er) => (w, remove (ICCID p) e, Err er)
  | (w, Ok _) =>
      match call (ReqNotify (mkNotification tx "install-success")) as_any w with
      | (w, Err er) => (w, remove (ICCID p) e, Err er)
      | (w, Ok _) => (w, e, Ok installed)
      end
  end.

Definition Download (ephemeral : option privkey) (challenge : option bytes) (now : time)
    (activationCode : string) (e : EUICC) (w : W) : W * EUICC * res Error InstalledProfile :=
  match ephemeral, challenge with
  | None, _ | _, None => (w, e, Err ErrEntropy)
  | Some ephemeral, Some challenge =>
  match call (ReqInitiate (mkInitiate activationCode (eEID e) (HexEncode challenge)
                (HexEncode (ECDHPublic ephemeral)))) as_initiate w with
  | (w, Err er) => (w, e, Err er)
  | (w, Ok ia) =>
  match agree_keys ephemeral challenge ia with
  | Err er => (w, e, Err er)
  | Ok (keys, proof) =>
  let tx := iarTransactionID ia in
  match call (ReqAuth (mkAuth tx (HexEncode proof))) as_metadata w with
  | (w, Err (ErrStatus st)) => (cancel tx w, e, Err (ErrStatus st))
  | (w, Err er) => (w, e, Err er)
  | (w, Ok _) =>
  match call (ReqBPP tx) as_bpp w with
  | (w, Err (ErrStatus st)) => (cancel tx w, e, Err (ErrStatus st))
  | (w, Err er) => (w, e, Err er)
  | (w, Ok bpp) =>
  match check_package e keys bpp with
  | Err er => (cancel tx w, e, Err er)
  | Ok p =>
      let installed := mkInstalled p true now in
      let e := {| e with Profiles := <[ICCID p := installed]> (Profiles e);
                         Installed := Installed e ++ [ICCID p] |} in
      finish tx p installed e w
  end end end end end end.
End Euicc.

(** ** The profiles on the card *)
(** The inner loop: the new element moves left past the greater ones; the
    sorted part is kept from its last element. *)
Fixpoint move_left (rev_sorted : list InstalledProfile) (x : InstalledProfile) : list InstalledProfile :=
  match rev_sorted with
  | y :: r => if String.ltb (ICCID (iProfile x)) (ICCID (iProfile y)) then y :: move_left r x
              else x :: rev_sorted
  | [] => [x]
  end.
(** [order] is the order the map is visited in. *)
Definition ListProfiles (order : list InstalledProfile) : list InstalledProfile :=
  reverse (foldl move_left [] order).
Definition set_enabled (b : bool) (iccid : string) (e : EUICC) : EUICC * res Error unit :=
  match Profiles e !! iccid with
  | None => (e, Err ErrNotInstalled)
  | Some p => ({| e with Profiles := <[iccid := {| p with Enabled := b |}]> (Profiles e) |}, Ok tt)
  end.
Definition EnableProfile := set_enabled true.
Definition DisableProfile := set_enabled false.

(** The history lists exactly the installed profiles, each once. *)
Definition euicc_ok (e : EUICC) : Prop :=
  keyed (fun i => ICCID (iProfile i)) (Profiles e) /\ NoDup (Installed e) /\
  forall id, id ∈ Installed e <-> is_Some (Profiles e !! id).

Lemma remove_installed e p i : euicc_ok e -> Profiles e !! ICCID p = None ->
  remove (ICCID p) {| e with Profiles := <[ICCID p := i]> (Profiles e);
                             Installed := Installed e ++ [ICCID p] |} = e.
Proof.
  intros (_ & _ & Hin) Hn. unfold remove. cbn.
  assert (Hout : ICCID p ∉ Installed e) by (rewrite Hin, Hn; by intros []).
  rewrite delete_insert_id by done.
  assert (Hf : list_find (fun id => id = ICCID p) (Installed e ++ [ICCID p]) =
               Some (length (Installed e), ICCID p)).
  { apply list_find_Some. split; [by apply list_lookup_middle|]. split; [done|].
    intros j y Hj Hlt ->. rewrite lookup_app_l in Hj by lia. by apply list_elem_of_lookup_2, Hout in Hj. }
  rewrite Hf, delete_middle, app_nil_r. by destruct e.
Qed.

(** C31: a download is all or nothing, against any peer: if it fails the card
    is exactly as before; if it succeeds the card has one more profile, valid,
    pinned to this card or to none, under an ICCID it did not have. *)
Theorem Download_all_or_nothing `{!BlockCipher} `{!P256} `{!JsonProfile} {W} (post : Request -> W -> W * Post)
    eph ch now code e w : euicc_ok e ->
  let '(_, e', r) := Download post eph ch now code e w in
  euicc_ok e' /\
  match r with
  | Err _ => e' = e
  | Ok i => Validate (iProfile i) = Ok tt /\
      (EID (iProfile i) = ""%string \/ EID (iProfile i) = eEID e) /\ Enabled i = true /\
      Profiles e !! ICCID (iProfile i) = None /\
      e' = mkEUICC (eEID e) (<[ICCID (iProfile i) := i]> (Profiles e)) (Installed e ++ [ICCID (iProfile i)])
  end.
Proof.
  intros Hok. unfold Download. destruct eph as [eph|]; [|done]. destruct ch as [ch|]; [|done].
  destruct (call _ _ _ w) as [w1 [ia|er]]; [|done].
  destruct (agree_keys _ _ _) as [[keys proof]|er]; [|done]. cbv zeta.
  destruct (call _ _ _ w1) as [w2 [m|er]]; [|by destruct er].
  destruct (call _ _ _ w2) as [w3 [bpp|er]]; [|by destruct er].
  destruct (check_package e keys bpp) as [p|er] eqn:Ec; [|done].
  assert (Hc : Validate p = Ok tt /\ (EID p = ""%string \/ EID p = eEID e) /\
               Profiles e !! ICCID p = None).
  { revert Ec. unfold check_package. destruct (Base64Decode _); [|done].
    destruct (DecodeBPP _) as [ep|]; [|done]. destruct (negb _); [done|].
    destruct (CMAC _ _); [|done]. destruct (negb _); [done|].
    destruct (Decrypt _ _); [|done]. destruct (UnmarshalPayload _) as [q|]; [|done].
    destruct (Validate q) as [[]|] eqn:Ev; [|done].
    destruct (_ && _) eqn:Ee; [done|]. destruct (bool_decide (is_Some _)) eqn:Ei; [done|].
    intros [= <-]. split; [done|]. apply bool_decide_eq_false in Ei.
    apply andb_false_iff in Ee. rewrite !bool_decide_eq_false in Ee.
    split; [|by apply eq_None_not_Some].
    destruct Ee as [Ee|Ee]; apply dec_stable in Ee; auto. }
  destruct Hc as (Hv & He & Hn). unfold finish. clear Ec.
  destruct (call _ _ _ w3) as [w4 [[]|er]]; [|by rewrite remove_installed].
  destruct (call _ _ _ w4) as [w5 [[]|er]]; [|by rewrite remove_installed].
  split; [|by cbn].
  destruct Hok as (Hk & Hnd & Hin). split_and!; cbn.
  - by apply keyed_insert.
  - apply NoDup_app. split_and!; [done| |apply NoDup_singleton].
    intros x Hx ->%list_elem_of_singleton. apply Hin in Hx. rewrite Hn in Hx. by destruct Hx.
  - intros id. rewrite elem_of_app, list_elem_of_singleton, Hin, lookup_insert_is_Some'. naive_solver.
Qed.

(** ** Listing *)
Abbreviation iccid_of := (fun i => ICCID (iProfile i)).
Abbreviation descending := (StronglySorted (fun a b => String.ltb (ICCID (iProfile a)) (ICCID (iProfile b)) = false)).
Lemma move_left_perm l x : move_left l x ≡ₚ x :: l.
Proof.
  induction l as [|y l IH]; [done|]. cbn. destruct (String.ltb _ _); [|done]. rewrite IH. constructor.
Qed.
Lemma move_left_sorted l x : descending l -> descending (move_left l x).
Proof.
  induction 1 as [|y l Hl IH Hy]; cbn; [repeat constructor|].
  destruct (String.ltb _ _) eqn:E.
  - constructor; [done|]. rewrite move_left_perm. constructor; [by apply string_ltb_asym|done].
  - constructor; [by constructor|]. constructor; [done|].
    eapply Forall_impl; [exact Hy|]. intros z. cbn. intros Hz. by eapply string_ltb_negtrans.
Qed.
Lemma sorted_reverse {A} (R : A -> A -> Prop) l : StronglySorted R l ->
  StronglySorted (fun a b => R b a) (reverse l).
Proof.
  induction 1 as [|x l Hl IH Hx]; [constructor|]. rewrite reverse_cons.
  apply StronglySorted_app. rewrite Forall_forall in Hx. split_and!; [|done|repeat constructor].
  intros a b. rewrite elem_of_reverse. intros Ha ->%list_elem_of_singleton. by apply Hx.
Qed.
Lemma ListProfiles_sorted order : ListProfiles order ≡ₚ order /\
  StronglySorted (fun a b => String.ltb (iccid_of b) (iccid_of a) = false) (ListProfiles order).
Proof.
  unfold ListProfiles.
  assert (H : forall l, descending l -> foldl move_left l order ≡ₚ order ++ l /\
    descending (foldl move_left l order)).
  { induction order as [|x order IH]; intros l Hl; [done|]. cbn.
    destruct (IH (move_left l x)) as [Hp Hs]; [by apply move_left_sorted|]. split; [|done].
    rewrite Hp, move_left_perm. symmetry. apply Permutation_middle. }
  destruct (H []) as [Hp Hs]; [constructor|]. rewrite app_nil_r in Hp.
  split; [by rewrite reverse_Permutation|]. by apply sorted_reverse in Hs.
Qed.

(** [ListProfiles] is deterministic: whatever order the map is visited
    in, its insertion sort returns the installed profiles, each once, in
    strictly increasing ICCID order. *)
Theorem ListProfiles_spec e order : euicc_ok e -> order ≡ₚ values (Profiles e) ->
  ListProfiles order = sort_by iccid_of (values (Profiles e)) /\
  StronglySorted (fun a b => String.ltb (iccid_of a) (iccid_of b) = true) (ListProfiles order) /\
  forall i, i ∈ ListProfiles order <-> Profiles e !! iccid_of i = Some i.
Proof.
  intros (Hk & _) Hperm. pose proof (keyed_NoDup _ _ Hk) as Hnd.
  destruct (ListProfiles_sorted order) as [Hp Hs].
  assert (Hsort : forall l, l ≡ₚ values (Profiles e) ->
    StronglySorted (fun a b => String.ltb (iccid_of b) (iccid_of a) = false) l ->
    l = sort_by iccid_of (values (Profiles e))).
  { intros l Hl Hls. eapply (StronglySorted_unique_strong (fun a b => key_less iccid_of b a = false)).
    - intros x y Hx Hy H1 H2. rewrite Hl, elem_of_values in Hx. rewrite (elem_of_sort_by iccid_of), elem_of_values in Hy.
      destruct Hx as [k1 Hx], Hy as [k2 Hy].
      pose proof (Hk _ _ Hx) as E1. pose proof (Hk _ _ Hy) as E2. cbn in E1, E2. subst k1 k2.
      destruct (decide (iccid_of x = iccid_of y)) as [E|Hne]; [rewrite E in Hx; congruence|].
      unfold key_less in *. destruct (string_ltb_total _ _ Hne); congruence.
    - exact Hls.
    - apply sort_by_weak.
    - by rewrite sort_by_perm. }
  assert (E : ListProfiles order = sort_by iccid_of (values (Profiles e))).
  { apply Hsort; [by rewrite Hp|done]. }
  rewrite E.
  split; [done|]. split; [by apply sort_by_strict|].
  intros i. rewrite (elem_of_sort_by iccid_of), elem_of_values. split; [|by eauto].
  intros [k Hi]. pose proof (Hk _ _ Hi) as E2. cbn in E2. by rewrite E2.
Qed.

(** ** The whole download against the server *)
Section EndToEnd.
Context `{!BlockCipher} `{!P256} `{!JsonProfile} {T} `{!Store T} {W} `{!ProfileSource W}.

(** The server with the environments of its next requests as the peer. *)
Definition server_post (req : Request) (w : Server * list Env) : (Server * list Env) * Post :=
  match w.2 with
  | [] => (w, PErr)
  | env :: envs =>
      let '(s, r) := serve env req w.1 in
      ((s, envs), match r with Replied st b => PReply st b | Aborted => PErr end)
  end.

Lemma agreed_keys a b c1 c2 : Forall is_byte c1 -> Forall is_byte c2 ->
  exists shared keys proof, agree a (public b) = Some shared /\ agree b (public a) = Some shared /\
    DeriveSessionKeys shared = Ok keys /\ CMAC (Enc keys) (c1 ++ c2) = Ok proof /\
    zlen (Enc keys) = 16 /\ zlen (Mac keys) = 16 /\ zlen (Dek keys) = 16 /\
    zlen proof = 16 /\ Forall is_byte proof.
Proof.
  intros Hc1 Hc2. destruct (agree_comm a b) as (shared & Ha & Hb). exists shared.
  assert (Hk : exists keys, DeriveSessionKeys shared = Ok keys).
  { apply agree_length in Ha. apply DeriveSessionKeys_total. lia. }
  destruct Hk as [keys Hk]. destruct (DeriveSessionKeys_lengths _ _ Hk) as (L1 & L2 & L3 & L4).
  exists keys, (CMAC_reference (Enc keys) (c1 ++ c2)). rewrite CMAC_eq by done.
  split_and!; try done; [by apply CMAC_reference_length|]. apply CMAC_reference_bytes.
Qed.

(** The card accepts what the server seals. *)
Lemma sealed_package_accepted e keys seq p v ct der :
  zlen (Mac keys) = 16 -> zlen (Dek keys) = 16 -> is_i64 seq -> zlen v = 16 -> Forall is_byte v ->
  json_ok p -> zlen (json_marshal p) < 2 ^ 30 -> Validate p = Ok tt ->
  EID p = ""%string \/ EID p = eEID e -> Profiles e !! ICCID p = None ->
  Encrypt (Dek keys) (Some v) (payload (Some p)) = Ok ct -> bound_package keys seq ct = Ok der ->
  check_package e keys (mkBPP seq (Base64Encode der)) = Ok p.
Proof.
  intros Hm Hd Hs Hv Hvb Hj Hz Hval Heid Hnew Henc Hder.
  destruct (Encrypt_ok (Dek keys) v (payload (Some p)) Hd Hv Hvb (json_bytes p))
    as (ct' & Henc' & Hdec & Hctb & Hctz).
  rewrite Henc in Henc'. injection Henc' as <-. cbn [payload] in Hctz.
  unfold bound_package in Hder. rewrite CMAC_eq in Hder by done. injection Hder as <-.
  set (mac := CMAC_reference (Mac keys) (EncodeMACInput seq ct)).
  assert (Hmac : zlen mac = 16) by by apply CMAC_reference_length.
  unfold check_package. cbn [bppBPP bppSeqCounter].
  rewrite Base64Decode_Encode by (apply EncodeBPP_bytes; [done|apply CMAC_reference_bytes]).
  unfold DecodeBPP. rewrite <- (app_nil_r (EncodeBPP _)), unmarshal_EncodeBPP.
  2:{ split; [done|]. cbn [Ciphertext MAC]. unfold MarshalPayload in Hctz. lia. }
  change (negb (zlen (@nil Z) =? 0)) with false. change (negb (1 =? BPPVersion)) with false.
  cbn iota. cbn [Der.SeqCounter Ciphertext MAC]. rewrite Z.eqb_refl. cbn [negb].
  rewrite CMAC_eq by done. fold mac. rewrite (proj2 (VerifyMAC_iff mac mac) eq_refl). cbn [negb].
  rewrite Hdec. cbn [payload]. unfold UnmarshalPayload, MarshalPayload. rewrite json_roundtrip by done.
  rewrite Hval. destruct (bool_decide (EID p <> "")) eqn:E1; cbn [andb].
  - apply bool_decide_eq_true in E1. rewrite bool_decide_eq_false_2 by (destruct Heid; tauto).
    rewrite Hnew. by rewrite bool_decide_eq_false_2 by by intros [].
  - rewrite Hnew. by rewrite bool_decide_eq_false_2 by by intros [].
Qed.

(** ** The server's steps when nothing is refused *)
Lemma updated sess (s : @Server T W) : store_ok (store s) -> storable (T := T) (TransactionID sess) = true ->
  exists t, update_session true sess (store s) = (t, Ok tt) /\ store_ok t /\
    view t = <[named sess := sess]> (sessions s).
Proof.
  intros Hok Hst. pose proof (update_view true sess (store s) Hok) as Hu.
  destruct (update_session true sess (store s)) as [t r]. destruct Hu as (Ho & _ & Hr & Hv).
  rewrite Hr in * by done. by exists t.
Qed.
Definition opened (env : Env) (token : string) (p : Profile) (e : EUICC) (ch c : bytes)
    (k eph : privkey) : Session :=
  mkSession (newTransactionID env) token (eEID e) (ICCID p) StatusPending 0 ch (public eph) c
    (Some k) zero_keys (now env) (now env).

Lemma server_opens env code token (s : @Server T W) p e ch eph c k :
  store_ok (store s) -> wr env = true -> storable (T := T) (newTransactionID env) = true -> challenge env = Some c -> ephemeral env = Some k ->
  code <> ""%string -> normalizeActivationCode code = Ok token ->
  source (world s) token (now env) = Ok (Some p) -> EID p = ""%string \/ EID p = eEID e ->
  slen (eEID e) = 32 -> ValidLuhn (eEID e) = true -> Forall is_byte ch -> ch <> [] ->
  exists s', serve env (ReqInitiate (mkInitiate code (eEID e) (HexEncode ch) (HexEncode (public eph)))) s =
    (s', Replied 200 (BodyInitiate (mkInitiateResponse (newTransactionID env) (ID s) (HexEncode c)
           (HexEncode (public k))))) /\
    store_ok (store s') /\ world s' = world s /\
    sessions s' = <[name (newTransactionID env) := opened env token p e ch c k eph]> (sessions s).
Proof.
  intros Hok Hw Htx Hc Hk Hcode Htok Hp Heid Hlen Hluhn Hchb Hch. cbn [serve].
  unfold InitiateAuthentication. cbn [iaActivationCode iaEID iaEuiccChallenge iaEuiccEKPb].
  destruct (public_bytes eph) as [Hpb Hpn].
  rewrite !bool_decide_eq_false_2; [|by intros E%HexEncode_empty|by intros E%HexEncode_empty| |done].
  2:{ intros E. by rewrite E in Hluhn. }
  rewrite Hlen, Hluhn, Htok. cbn [orb negb Z.eqb]. change (32 =? 32) with true. cbn [orb negb].
  unfold Source. rewrite Hp, Hc, Hk, Hw.
  replace (bool_decide (EID p <> "") && bool_decide (EID p <> eEID e)) with false.
  2:{ symmetry. apply andb_false_iff. rewrite !bool_decide_eq_false. destruct Heid; [left|right]; tauto. }
  cbv zeta. unfold mustHex. rewrite !HexDecode_Encode by done. cbn [default].
  unfold put. set (sess := mkSession _ _ _ _ _ _ _ _ _ _ _ _ _).
  pose proof (create_view true sess (store s) Hok) as Hu.
  destruct (create_session true sess (store s)) as [t r]. destruct Hu as (Ho & _ & Hr & Hv).
  rewrite Hr in * by done. cbn. eexists. split; [done|]. cbn. done.
Qed.

Lemma server_authenticates env id (s : @Server T W) sess keys proof p :
  store_ok (store s) -> wr env = true -> id <> ""%string -> sessions s !! name id = Some sess ->
  storable (T := T) id = true -> TransactionID sess = id -> Status sess = StatusPending ->
  expected_proof sess = Ok (keys, proof) -> Forall is_byte proof -> proof <> [] ->
  source (world s) (SActivationCode sess) (now env) = Ok (Some p) ->
  exists s' m, serve env (ReqAuth (mkAuth id (HexEncode proof))) s = (s', Replied 200 (BodyAuth m)) /\
    store_ok (store s') /\ world s' = world s /\
    sessions s' = <[name id := {| sess with Keys := keys; Status := StatusAuthenticated;
                               UpdatedAt := now env |}]> (sessions s).
Proof.
  intros Hok Hw Hid Hs Htx Ht Hst Hp Hpb Hpn Hsrc. cbn [serve]. unfold AuthenticateClient.
  cbn [acTransactionID acAuthProof].
  rewrite !bool_decide_eq_false_2; [|by intros E%HexEncode_empty|done]. cbn [orb].
  rewrite get_view by done. unfold sessions in Hs. rewrite Hs, Hst. rewrite bool_decide_eq_true_2 by done.
  cbn [negb]. rewrite Hp, HexDecode_Encode, (proj2 (VerifyMAC_iff proof proof) eq_refl) by done.
  cbn [negb]. cbv zeta. rewrite Hw. unfold put.
  set (sess' := mkSession _ _ _ _ _ _ _ _ _ _ _ _ _).
  destruct (updated sess' s Hok) as (t & -> & Ho & Hv); [by rewrite <- Ht in Htx|]. unfold Source. cbn [world SActivationCode].
  unfold sess' at 1. cbn [SActivationCode]. rewrite Hsrc. cbn.
  eexists _, _. split; [done|]. cbn. split_and!; [done|done|]. unfold sessions. cbn. rewrite Hv.
  by rewrite <- Ht.
Qed.

Lemma server_seals env id (s : @Server T W) sess p v :
  store_ok (store s) -> wr env = true -> sessions s !! name id = Some sess ->
  storable (T := T) id = true -> TransactionID sess = id -> Status sess = StatusAuthenticated ->
  zlen (Mac (Keys sess)) = 16 -> zlen (Dek (Keys sess)) = 16 -> iv env = Some v ->
  zlen v = 16 -> Forall is_byte v ->
  source (world s) (SActivationCode sess) (now env) = Ok (Some p) ->
  exists s' ct der, let seq := i64 (SeqCounter sess + 1) in
    Encrypt (Dek (Keys sess)) (Some v) (payload (Some p)) = Ok ct /\
    bound_package (Keys sess) seq ct = Ok der /\
    serve env (ReqBPP id) s = (s', Replied 200 (BodyBPP (mkBPP seq (Base64Encode der)))) /\
    store_ok (store s') /\ world s' = delivered (renv env) (SActivationCode sess) (world s) /\
    sessions s' = <[name id := {| sess with SeqCounter := seq; UpdatedAt := now env |}]> (sessions s).
Proof.
  intros Hok Hw Hs Htx Ht Hst Hm Hd Hiv Hv Hvb Hsrc.
  destruct (Encrypt_ok (Dek (Keys sess)) v (payload (Some p)) Hd Hv Hvb (json_bytes p)) as (ct & Henc & _).
  cbn [serve]. unfold GetBoundProfilePackage. rewrite get_view by done. unfold sessions in Hs.
  rewrite Hs. unfold open_for_download. rewrite Hst.
  rewrite bool_decide_eq_true_2 by done. cbn [orb negb]. unfold Source. rewrite Hsrc, Hiv, Henc. cbv zeta.
  set (seq := i64 (SeqCounter sess + 1)).
  assert (Hbp : exists der, bound_package (Keys sess) seq ct = Ok der).
  { unfold bound_package. rewrite CMAC_eq by done. by eexists. }
  destruct Hbp as [der Hbp]. cbn [Keys SeqCounter]. rewrite Hbp, Hw. unfold put.
  set (sess' := mkSession _ _ _ _ _ _ _ _ _ _ _ _ _).
  destruct (updated sess' s Hok) as (t & Et & Ho & Hview); [by rewrite <- Ht in Htx|]. rewrite Et. cbn [reply].
  eexists _, ct, der. split; [reflexivity|]. split; [exact Hbp|]. split; [reflexivity|].
  split; [exact Ho|]. split; [reflexivity|]. unfold sessions. cbn [store]. rewrite Hview. by rewrite <- Ht.
Qed.

Lemma server_confirms env id (s : @Server T W) sess :
  store_ok (store s) -> wr env = true -> id <> ""%string -> sessions s !! name id = Some sess ->
  storable (T := T) id = true -> TransactionID sess = id -> Status sess = StatusAuthenticated ->
  exists s', serve env (ReqConfirm (mkConfirm id "success")) s = (s', Replied 200 BodyOk) /\
    store_ok (store s') /\ world s' = world s /\
    sessions s' = <[name id := {| sess with Status := StatusConfirmed; UpdatedAt := now env |}]> (sessions s).
Proof.
  intros Hok Hw Hid Hs Htx Ht Hst. cbn [serve]. unfold ConfirmOrder. cbn [coTransactionID coResult].
  rewrite (bool_decide_eq_false_2 (id = "")) by done. cbn [bool_decide andb].
  rewrite (bool_decide_eq_false_2 ("success" <> "success")%string) by tauto. cbn [andb].
  rewrite get_view by done. unfold sessions in Hs. rewrite Hs. unfold open_for_download. rewrite Hst.
  rewrite bool_decide_eq_true_2 by done. cbn [orb negb]. cbv zeta. rewrite Hw. unfold put.
  set (sess' := mkSession _ _ _ _ _ _ _ _ _ _ _ _ _).
  destruct (updated sess' s Hok) as (t & -> & Ho & Hv); [by rewrite <- Ht in Htx|]. cbn. eexists. split; [done|]. cbn.
  split_and!; [done|done|]. unfold sessions. cbn. rewrite Hv. by rewrite <- Ht.
Qed.
Lemma server_notes env id (s : @Server T W) sess :
  store_ok (store s) -> wr env = true -> id <> ""%string -> sessions s !! name id = Some sess ->
  storable (T := T) id = true -> TransactionID sess = id -> Status sess = StatusConfirmed ->
  exists s', serve env (ReqNotify (mkNotification id "install-success")) s = (s', Replied 200 BodyOk) /\
    world s' = world s /\
    sessions s' = <[name id := {| sess with UpdatedAt := now env |}]> (sessions s).
Proof.
  intros Hok Hw Hid Hs Htx Ht Hst. cbn [serve]. unfold HandleNotification.
  cbn [noTransactionID noNotification]. rewrite !bool_decide_eq_false_2 by done. cbn [orb].
  rewrite get_view by done. unfold sessions in Hs. rewrite Hs, Hst.
  rewrite bool_decide_eq_false_2 by done. cbv zeta. rewrite Hw. unfold put.
  set (sess' := mkSession _ _ _ _ _ _ _ _ _ _ _ _ _).
  destruct (updated sess' s Hok) as (t & -> & Ho & Hv); [by rewrite <- Ht in Htx|]. cbn. eexists. split; [done|]. cbn.
  split_and!; [done|]. unfold sessions. cbn. rewrite Hv. by rewrite <- Ht.
Qed.

(** One request of the card answered with status 200. *)
Lemma call_served {A} (decode : Body -> option A) req env envs s s' b x :
  serve env req s = (s', Replied 200 b) -> decode b = Some x ->
  call server_post req decode (s, env :: envs) = ((s', envs), Ok x).
Proof. intros Hs Hd. unfold call, server_post. cbn. rewrite Hs. cbn. by rewrite Hd. Qed.

(** What an undisturbed exchange needs: writes and random values are
    available, the store takes the id drawn, the code is known for its duration, the profile is one this
    card may install. *)
Record fair (e1 e2 e3 e4 e5 : Env) (code token : string) (s : @Server T W) (p : Profile) (e : EUICC)
    (ch c v : bytes) (k : privkey) : Prop := {
  fair_store : store_ok (store s);
  fair_writes : Forall (fun env => wr env = true) [e1; e2; e3; e4; e5];
  fair_challenge : challenge e1 = Some c /\ Forall is_byte c;
  fair_key : ephemeral e1 = Some k;
  fair_iv : iv e3 = Some v /\ zlen v = 16 /\ Forall is_byte v;
  fair_tx : newTransactionID e1 <> ""%string /\ storable (T := T) (newTransactionID e1) = true;
  fair_code : code <> ""%string /\ normalizeActivationCode code = Ok token;
  fair_source : Forall (fun env => source (world s) token (now env) = Ok (Some p)) [e1; e2; e3];
  fair_profile : Validate p = Ok tt /\ json_ok p /\ zlen (json_marshal p) < 2 ^ 30;
  fair_pin : EID p = ""%string \/ EID p = eEID e;
  fair_eid : slen (eEID e) = 32 /\ ValidLuhn (eEID e) = true;
  fair_card : Profiles e !! ICCID p = None;
  fair_ch : Forall is_byte ch /\ ch <> [];
}.

(** C2: the whole flow works end to end: in an undisturbed exchange between
    this card and this server, over any store, source, cipher and curve, the
    card installs exactly the profile the code stands for, enabled, and the
    server ends with the session confirmed after one package, the code
    marked delivered. *)
Theorem Download_installs e1 e2 e3 e4 e5 code token s p e ch c v k eph t :
  fair e1 e2 e3 e4 e5 code token s p e ch c v k ->
  exists s' sess, let i := mkInstalled p true t in
    Download server_post (Some eph) (Some ch) t code e (s, [e1; e2; e3; e4; e5]) =
      ((s', []), mkEUICC (eEID e) (<[ICCID p := i]> (Profiles e)) (Installed e ++ [ICCID p]), Ok i) /\
    sessions s' !! name (newTransactionID e1) = Some sess /\ Status sess = StatusConfirmed /\
    SeqCounter sess = 1 /\ SActivationCode sess = token /\ SEID sess = eEID e /\
    world s' = delivered (renv e3) token (world s).
Proof.
  intros [Hok Hw [Hc Hcb] Hk (Hiv & Hv & Hvb) [Htx Htx'] (Hcode & Htok) Hsrc (Hval & Hj & Hz) Heid
    (Hlen & Hluhn) Hcard (Hchb & Hch)].
  repeat match goal with H : Forall _ (_ :: _) |- _ => apply Forall_cons in H as [? ?] end.
  destruct (agreed_keys k eph c ch Hcb Hchb) as (shared & keys & proof & Hsh1 & Hsh2 & Hkeys & Hproof
    & Henc & Hmac & Hdek & Hpz & Hpb).
  destruct (server_opens e1 code token s p e ch eph c k) as (s1 & Hs1 & Hok1 & Hw1 & Hv1); try done.
  unfold Download, ECDHPublic. rewrite (call_served as_initiate _ _ _ _ _ _ _ Hs1 eq_refl).
  unfold agree_keys. cbn [iarServerEphemeral iarServerChallenge iarTransactionID].
  destruct (public_bytes k) as [Hpkb _].
  rewrite !HexDecode_Encode by done. unfold ECDHShared. rewrite Hsh2, Hkeys, Hproof. cbv zeta.
  set (tx := newTransactionID e1) in *. set (sess1 := opened e1 token p e ch c k eph) in *.
  destruct (server_authenticates e2 tx s1 sess1 keys proof p) as (s2 & m & Hs2 & Hok2 & Hw2 & Hv2); try done.
  { by rewrite Hv1, lookup_insert_eq. }
  { unfold expected_proof. cbn [ServerEphemeral EuiccEKPb ServerChallenge EuiccChallenge sess1 opened].
    unfold ECDHShared. by rewrite Hsh1, Hkeys, Hproof. }
  { by destruct proof. }
  { by rewrite Hw1. }
  rewrite (call_served as_metadata _ _ _ _ _ _ _ Hs2 eq_refl).
  match type of Hv2 with _ = <[_ := ?x]> _ => set (sess2 := x) in * end.
  destruct (server_seals e3 tx s2 sess2 p v) as (s3 & ct & der & Hct & Hder & Hs3 & Hok3 & Hw3 & Hv3); try done.
  { by rewrite Hv2, lookup_insert_eq. }
  { by rewrite Hw2, Hw1. }
  rewrite (call_served as_bpp _ _ _ _ _ _ _ Hs3 eq_refl).
  rewrite (sealed_package_accepted e keys _ p v ct der) by (done || apply i64_range).
  match type of Hv3 with _ = <[_ := ?x]> _ => set (sess3 := x) in * end.
  destruct (server_confirms e4 tx s3 sess3) as (s4 & Hs4 & Hok4 & Hw4 & Hv4); try done.
  { by rewrite Hv3, lookup_insert_eq. }
  match type of Hv4 with _ = <[_ := ?x]> _ => set (sess4 := x) in * end.
  destruct (server_notes e5 tx s4 sess4) as (s5 & Hs5 & Hw5 & Hv5); try done.
  { by rewrite Hv4, lookup_insert_eq. }
  unfold finish. rewrite (call_served as_any _ _ _ _ _ _ tt Hs4 eq_refl).
  rewrite (call_served as_any _ _ _ _ _ _ tt Hs5 eq_refl).
  eexists s5, _. split; [reflexivity|]. split; [by rewrite Hv5, lookup_insert_eq|].
  rewrite Hw5, Hw4, Hw3, Hw2, Hw1. done.
Qed.
End EndToEnd.

(** ** Concrete instances *)
#[local] Existing Instance demo_source.
Definition demo_card : EUICC := mkEUICC demo_eid ∅ [].
Definition demo_installed (n : Z) : InstalledProfile :=
  mkInstalled {| demo_lab_profile with ICCID := bytes_string [48 + n] |} true n.
Lemma demo_card_ok : euicc_ok demo_card.
Proof.
  split; [apply keyed_empty|]. split; [constructor|]. intros id. cbn. rewrite lookup_empty.
  split; [by intros ?%elem_of_nil|by intros []].
Qed.
Lemma demo_fair : fair (demo_senv 1) (demo_senv 2) (demo_senv 3) (demo_senv 4) (demo_senv 5)
  demo_token demo_token demo_server demo_lab_profile demo_card
  (replicate 16 2) (replicate 16 1) (replicate 16 8) 5%positive.
Proof.
  split.
  - exact I.
  - repeat constructor.
  - split; [done|vm_decide].
  - done.
  - split; [done|]. split; [done|vm_decide].
  - by split.
  - split; [done|vm_compute; reflexivity].
  - repeat constructor; vm_compute; reflexivity.
  - split; [vm_compute; reflexivity|]. split; [exact I|vm_compute; reflexivity].
  - by left.
  - split; vm_compute; reflexivity.
  - done.
  - split; [vm_decide|done].
Qed.
Lemma Download_installs_witness : exists s' sess,
  Download (server_post (T := MemStore) (W := Registry)) (Some 7%positive) (Some (replicate 16 2)) 9 demo_token demo_card
    (demo_server, [demo_senv 1; demo_senv 2; demo_senv 3; demo_senv 4; demo_senv 5]) =
  ((s', []), mkEUICC demo_eid {[ ICCID demo_lab_profile := mkInstalled demo_lab_profile true 9 ]}
     [ICCID demo_lab_profile], Ok (mkInstalled demo_lab_profile true 9)) /\
  sessions s' !! name (T := MemStore) demo_tx = Some sess /\ Status sess = StatusConfirmed.
Proof.
  destruct (Download_installs (demo_senv 1) (demo_senv 2) (demo_senv 3) (demo_senv 4) (demo_senv 5)
    demo_token demo_token demo_server demo_lab_profile demo_card (replicate 16 2) (replicate 16 1)
    (replicate 16 8) 5%positive 7%positive 9 demo_fair) as (s' & sess & H1 & H2 & H3 & _).
  exists s', sess. split; [exact H1|]. split; [exact H2|exact H3].
Defined.
(** A peer that answers nothing leaves the card as it was. *)
Lemma Download_all_or_nothing_witness :
  let post := fun (_ : Request) (w : unit) => (w, PErr) in
  let '(_, e', r) := Download post (Some 7%positive) (Some (replicate 16 2)) 9 demo_token demo_card tt in
  euicc_ok e' /\ e' = demo_card /\ r = Err ErrHTTP.
Proof.
  intros post.
  pose proof (Download_all_or_nothing post (Some 7%positive) (Some (replicate 16 2)) 9 demo_token
    demo_card tt demo_card_ok) as H.
  exact (conj (proj1 H) (conj (proj2 H) eq_refl)).
Defined.
Definition demo_profiles : EUICC :=
  mkEUICC demo_eid (<["1"%string := demo_installed 1]> (<["2"%string := demo_installed 2]> ∅)) ["2"; "1"]%string.
Lemma demo_profiles_ok : euicc_ok demo_profiles.
Proof.
  split; [repeat apply keyed_insert; try done; apply keyed_empty|].
  split; [vm_decide|]. intros id. rewrite <- elem_of_dom. cbn [Profiles demo_profiles Installed].
  rewrite !dom_insert_L, dom_empty_L. set_solver.
Qed.
Lemma ListProfiles_spec_witness :
  ListProfiles [demo_installed 2; demo_installed 1] = sort_by iccid_of (values (Profiles demo_profiles)) /\
  ListProfiles [demo_installed 2; demo_installed 1] = [demo_installed 1; demo_installed 2].
Proof.
  assert (Hp : [demo_installed 2; demo_installed 1] ≡ₚ values (Profiles demo_profiles)).
  { apply (bool_decide_unpack _). vm_compute. exact I. }
  split; [apply (ListProfiles_spec demo_profiles _ demo_profiles_ok Hp)|].
  vm_compute. reflexivity.
Defined.
