(* ===== verification/Interleave.v ===== *)
(** * Interleave: calls that overlap

    A handler of a Go server is a goroutine: what it does under one mutex is
    one atomic action on the shared state, and between two actions the other
    goroutines run.  [prog] is such a handler, [play] runs a pool of calls
    under any order of arrivals and actions, and [safe] is a rely-guarantee
    judgement over the calls of the pool.  It is sound ([play_safe]), it can
    be strengthened by what the other calls leave alone ([safe_frame]), and a
    call that is left alone is its sequential run ([finishes]). *)
From S2P Require Import Prelude.

(** ** Programs of atomic actions *)
Section Programs.
Context {S A : Type}.
Inductive prog : Type := Ret (a : A) | Atom {B : Type} (f : S -> S * B) (k : B -> prog).
(** Nobody else runs. *)
Fixpoint run (p : prog) (s : S) : S * A :=
  match p with
  | Ret a => (s, a)
  | Atom f k => let '(s', b) := f s in run (k b) s'
  end.
(** An action that only looks. *)
Definition look {B : Type} (f : S -> B) (k : B -> prog) : prog := Atom (fun s => (s, f s)) k.
End Programs.
Arguments prog : clear implicits.

(** ** Pools *)
Section Pool.
Context {S Q A : Type} (handler : Q -> prog S A).
Record Config := mkConfig { shared : S; calls : list (Q * prog S A) }.
Inductive Event := Arrives (q : Q) | Moves (i : nat).
Definition next (e : Event) (c : Config) : Config :=
  match e with
  | Arrives q => {| c with calls := calls c ++ [(q, handler q)] |}
  | Moves i =>
      match calls c !! i with
      | Some (q, Atom f k) => let '(s, b) := f (shared c) in mkConfig s (<[i := (q, k b)]> (calls c))
      | _ => c
      end
  end.
Fixpoint play (l : list Event) (c : Config) : Config :=
  match l with [] => c | e :: l => play l (next e c) end.
Definition start (s : S) : Config := mkConfig s [].
Definition requests (c : Config) : list Q := (calls c).*1.
Definition answered (c : Config) (i : nat) (q : Q) (a : A) : Prop := calls c !! i = Some (q, Ret a).

Lemma play_app l1 l2 c : play (l1 ++ l2) c = play l2 (play l1 c).
Proof. revert c. by induction l1 as [|e l1 IH]; intros c; [|apply IH]. Qed.
Lemma requests_moves i c : requests (next (Moves i) c) = requests c.
Proof.
  unfold requests, next. destruct (calls c !! i) as [[q [a|B f k]]|] eqn:E; try done.
  destruct (f (shared c)) as [s b]. cbn. rewrite list_fmap_insert. apply list_insert_id.
  by rewrite list_lookup_fmap, E.
Qed.
Definition arrivals (l : list Event) : list Q := omap (fun e => match e with Arrives q => Some q | Moves _ => None end) l.
Lemma requests_play l c : requests (play l c) = requests c ++ arrivals l.
Proof.
  revert c. induction l as [|[q|i] l IH]; intros c; cbn [play]; [by rewrite app_nil_r|..]; rewrite IH.
  - unfold requests. cbn. by rewrite fmap_app, <- app_assoc.
  - by rewrite requests_moves.
Qed.
Definition done_ (c : Config) (i : nat) : bool := match calls c !! i with Some (_, Ret _) => true | _ => false end.
Lemma done_answered l s i q : done_ (play l (start s)) i = true -> arrivals l !! i = Some q ->
  exists a, answered (play l (start s)) i q a.
Proof.
  intros Hd Hq. rewrite <- (app_nil_l (arrivals l)) in Hq. change [] with (requests (start s)) in Hq.
  rewrite <- requests_play in Hq. unfold requests, done_ in *. rewrite list_lookup_fmap in Hq.
  unfold answered. destruct (calls _ !! i) as [[q' [a|B f k]]|]; try done. cbn in Hq. simplify_eq. eauto.
Qed.
(** A call that is left alone answers, as its sequential run does: nothing it
    waits for is held by another. *)
Lemma finishes i q p c : calls c !! i = Some (q, p) ->
  exists k, let c' := play (replicate k (Moves i)) c in
    shared c' = (run p (shared c)).1 /\ answered c' i q (run p (shared c)).2.
Proof.
  revert c. induction p as [a|B f k IH]; intros c Hi; [by exists 0%nat|].
  destruct (f (shared c)) as [s' b] eqn:E.
  assert (Hn : next (Moves i) c = mkConfig s' (<[i := (q, k b)]> (calls c))) by (unfold next; by rewrite Hi, E).
  assert (Hi' : calls (next (Moves i) c) !! i = Some (q, k b)).
  { rewrite Hn. cbn. apply list_lookup_insert_eq. by eapply lookup_lt_Some. }
  destruct (IH b _ Hi') as (m & Hm). exists (Datatypes.S m). cbn [run replicate play]. rewrite E.
  rewrite Hn in *. exact Hm.
Qed.
(** The environment's promise, along a run. *)
Fixpoint play_ok (ok : Q -> S -> Prop) (l : list Event) (c : Config) : Prop :=
  match l with
  | [] => True
  | e :: l =>
      match e with
      | Moves i => match calls c !! i with Some (q, Atom _ _) => ok q (shared c) | _ => True end
      | Arrives _ => True
      end /\ play_ok ok l (next e c)
  end.
Lemma play_ok_app ok l1 l2 c : play_ok ok (l1 ++ l2) c <-> play_ok ok l1 c /\ play_ok ok l2 (play l1 c).
Proof.
  revert c. induction l1 as [|e l1 IH]; intros c; cbn [app play_ok play]; [tauto|]. rewrite IH. tauto.
Qed.

(** The same as a test. *)
Fixpoint play_okb (okb : Q -> S -> bool) (l : list Event) (c : Config) : bool :=
  match l with
  | [] => true
  | e :: l =>
      match e with
      | Moves i => match calls c !! i with Some (q, Atom _ _) => okb q (shared c) | _ => true end
      | Arrives _ => true
      end && play_okb okb l (next e c)
  end.
Lemma play_okb_true ok okb l c : (forall q s, okb q s = true -> ok q s) -> play_okb okb l c = true -> play_ok ok l c.
Proof.
  intros Hok. revert c. induction l as [|e l IH]; intros c; [done|]. cbn [play_okb play_ok].
  intros [H1 H2]%andb_true_iff. split; [|by apply IH]. destruct e as [q|i]; [done|].
  destruct (calls c !! i) as [[q [a|B f k]]|]; try done. by apply Hok.
Qed.
End Pool.
Arguments Config : clear implicits.
Arguments Event : clear implicits.

(** ** Rely and guarantee *)
Section RelyGuarantee.
Context {S Q A : Type} (handler : Q -> prog S A).
(** What holds between any two actions, of the requests that arrived and the
    shared state; what any run of actions keeps; what the environment promises
    a call when it moves; what a call leaves to the others. *)
Notation ghost := (list Q * S)%type.
Context (I : ghost -> Prop) (R : ghost -> ghost -> Prop) `{!PreOrder R}.
Context (ok : Q -> S -> Prop) (G : Q -> S -> S -> Prop).

Fixpoint safe (J : ghost -> Prop) (Post : A -> ghost -> Prop) (q : Q) (p : prog S A) (g : ghost) : Prop :=
  match p with
  | Ret a => forall g', R g g' -> I g' -> J g' -> Post a g'
  | Atom f k => forall g', R g g' -> I g' -> J g' -> ok q g'.2 ->
      let g2 := (g'.1, (f g'.2).1) in
      I g2 /\ J g2 /\ R g' g2 /\ G q g'.2 g2.2 /\ safe J Post q (k (f g'.2).2) g2
  end.
Lemma safe_mono J Post q p g g' : R g g' -> safe J Post q p g -> safe J Post q p g'.
Proof. intros HR. destruct p; intros Hs g2 H2; apply Hs; by transitivity g'. Qed.
Lemma safe_weaken J (Post Post' : A -> ghost -> Prop) q p g :
  (forall a g', I g' -> J g' -> Post a g' -> Post' a g') -> safe J Post q p g -> safe J Post' q p g.
Proof.
  intros HP. revert g. induction p as [a|B f k IH]; intros g Hs.
  - intros g' HR HI HJ. by apply HP, Hs.
  - intros g' HR HI HJ Hok. destruct (Hs g' HR HI HJ Hok) as (? & ? & ? & ? & Hn). split_and!; [done..|].
    by apply IH.
Qed.
(** What the guarantee of a call keeps may be assumed and is kept. *)
Lemma safe_frame (J : ghost -> Prop) Post q p g :
  (forall g' s2, I g' -> J g' -> ok q g'.2 -> R g' (g'.1, s2) -> G q g'.2 s2 -> J (g'.1, s2)) ->
  safe (fun _ => True) Post q p g -> safe J Post q p g.
Proof.
  intros HF. revert g. induction p as [a|B f k IH]; intros g Hs.
  - intros g' HR HI HJ. by apply Hs.
  - intros g' HR HI HJ Hok. destruct (Hs g' HR HI Logic.I Hok) as (HI2 & _ & HR2 & HG & Hn).
    split_and!; [done|by apply HF|done|done|]. by apply IH.
Qed.

Context (J : ghost -> Prop) (Post : nat -> Q -> A -> ghost -> Prop).
Definition ghost_of (c : Config S Q A) : ghost := (requests c, shared c).
Definition pool_safe (c : Config S Q A) : Prop :=
  I (ghost_of c) /\ J (ghost_of c) /\
  forall i q p, calls c !! i = Some (q, p) -> safe J (Post i q) q p (ghost_of c).
(** An arrival disturbs nothing, and the handler of the call is safe. *)
Definition arrivals_safe (n : nat) : Prop := forall past s q, (n <= length past)%nat -> I (past, s) -> J (past, s) ->
  let g := (past ++ [q], s) in
  I g /\ J g /\ R (past, s) g /\ safe J (Post (length past) q) q (handler q) g.

Lemma next_safe n e c : arrivals_safe n -> (n <= length (calls c))%nat -> pool_safe c -> play_ok handler ok [e] c ->
  pool_safe (next handler e c) /\ R (ghost_of c) (ghost_of (next handler e c)).
Proof.
  intros Harr Hn (HI & HJ & Hc) [Hok _]. unfold pool_safe, ghost_of. destruct e as [q|i].
  - destruct (Harr (requests c) (shared c) q) as (HI' & HJ' & HR & Hs); [|done|done|].
    { unfold requests. by rewrite length_fmap. }
    assert (Hg : requests (next handler (Arrives q) c) = requests c ++ [q]) by (unfold requests; cbn; by rewrite fmap_app).
    rewrite Hg. cbn [next shared]. split; [|done]. split_and!; [done..|].
    intros i q' p'. cbn [calls]. intros [Hl|[Hge Hi]]%lookup_app_Some.
    + by eapply safe_mono, Hc.
    + apply list_lookup_singleton_Some in Hi as [Hz [= <- <-]].
      replace i with (length (requests c)); [done|]. unfold requests. rewrite length_fmap. lia.
  - rewrite requests_moves. cbn [next play_ok] in *.
    destruct (calls c !! i) as [[q [a|B f k]]|] eqn:E; try (split; [done|reflexivity]).
    destruct (Hc i q _ E (ghost_of c) ltac:(reflexivity) HI HJ Hok) as (HI2 & HJ2 & HR2 & _ & Hn2).
    cbn [ghost_of fst snd] in *. destruct (f (shared c)) as [s' b]. cbn [shared calls fst snd] in *.
    split; [|done]. split_and!; [done..|]. intros j q' p2.
    intros [(<- & [= <- <-] & _)|[Hne Hj]]%list_lookup_insert_Some; [done|]. by eapply safe_mono, Hc.
Qed.
(** Soundness: what is safe when it arrives stays so under any schedule, and
    every answer is as its postcondition says. *)
Lemma play_safe n l c : arrivals_safe n -> (n <= length (calls c))%nat -> pool_safe c -> play_ok handler ok l c ->
  let c' := play handler l c in
  pool_safe c' /\ R (ghost_of c) (ghost_of c') /\
  forall i q a, answered c' i q a -> Post i q a (ghost_of c').
Proof.
  intros Harr. revert c. induction l as [|e l IH]; intros c Hn Hp Hok.
  - split_and!; [done|reflexivity|]. intros i q a Ha. destruct Hp as (HI & HJ & Hp).
    by apply (Hp i q _ Ha (ghost_of c)).
  - cbn [play play_ok] in *. destruct Hok as [He Hok].
    destruct (next_safe n e c Harr Hn Hp (conj He Logic.I)) as [Hp' HR]. destruct (IH (next handler e c)) as (? & ? & ?); [|done..|].
    { etransitivity; [exact Hn|]. destruct e as [q|i]; cbn [next calls]; [rewrite length_app; lia|].
      destruct (calls c !! i) as [[q [a|B f k]]|]; try done. destruct (f _). cbn [calls]. by rewrite length_insert. }
    split_and!; [done|by etransitivity|done].
Qed.
Lemma pool_safe_start s : I ([], s) -> J ([], s) -> pool_safe (start s).
Proof. intros. split_and!; [done..|]. by intros [|i] q p. Qed.
End RelyGuarantee.
