(* ===== verification/EsimRaces.v ===== *)
(** * EsimRaces: SM-DP+ requests that overlap

    [core/esim/smdp]'s handlers hold no lock of their own: the session store
    locks each of its calls, the registry each of its, and between them other
    requests run.  Each handler is here the [prog] of those calls, and alone
    it is [Smdp.serve].  The store is the file store, whose reads are copies.
    Under any interleaving a package still needs a proof of possession; the
    single-use policy and a cancellation hold for the requests that arrive
    after them, and not for those that overlap them. *)
From S2P Require Import Prelude.
From S2P Require Import Encoding.
From S2P Require Import Activation.
From S2P Require Import Profile.
From S2P Require Import EsimCrypto.
From S2P Require Import Der.
From S2P Require Import EsimRegistry.
From S2P Require Import Smdp.
From S2P Require Import Interleave.

(** The store is the file store: names are its paths. *)
Abbreviation name := (@Smdp.name _ fileStore _).
Abbreviation named := (@Smdp.named _ fileStore _).
Abbreviation request_id := (@Smdp.request_id _ fileStore _).
Abbreviation proved := (@Smdp.proved _ _ fileStore _).

(** ** The handlers, action by action *)
Section Handlers.
Context `{!BlockCipher} `{!P256} `{!JsonProfile} `{!Disk} {W} `{!ProfileSource W}.
Abbreviation Server := (@Smdp.Server fileStore W).
Abbreviation Handler := (prog Server Reply).

Definition refuse (e : Error) : Handler := Ret (reply (fun _ : unit => BodyOk) (Err e)).
Definition get_ (id : string) (k : Session -> Handler) : Handler :=
  look (fun s => get_session id (store s)) (fun r => match r with Ok sess => k sess | Err e => refuse e end).
Definition source_ (env : Env) (token : string) (k : option Profile -> Handler) : Handler :=
  look (fun s => Source s env token) (fun r => match r with Ok p => k p | Err e => refuse e end).
Definition save_ (create : bool) (env : Env) (sess : Session) (k : Handler) : Handler :=
  Atom (fun s =>
    let '(t, r) := (if create then create_session else update_session) (wr env) sess (store s) in
    ({| s with store := t |}, r)) (fun r => match r with Ok _ => k | Err e => refuse e end).
Definition delivered_ (env : Env) (token : string) (k : Handler) : Handler :=
  Atom (fun s => ({| s with world := delivered (renv env) token (world s) |}, tt)) (fun _ => k).

(** The server's name never changes: it is read first. *)
Definition initiate (env : Env) (req : InitiateAuthRequest) : Handler :=
  if bool_decide (iaActivationCode req = ""%string) || bool_decide (iaEID req = ""%string) ||
     bool_decide (iaEuiccChallenge req = ""%string) || bool_decide (iaEuiccEKPb req = ""%string)
  then refuse ErrBadRequest
  else if negb (slen (iaEID req) =? 32) || negb (ValidLuhn (iaEID req)) then refuse ErrBadRequest
  else match normalizeActivationCode (iaActivationCode req) with
  | Err e => refuse e
  | Ok token => look ID (fun id => source_ env token (fun p => match p with
      | None => refuse ErrPanic
      | Some p =>
          if bool_decide (EID p <> ""%string) && bool_decide (EID p <> iaEID req) then refuse ErrBadRequest
          else match challenge env, ephemeral env with
          | None, _ | _, None => refuse ErrRandom
          | Some challenge, Some ephemeral =>
              let sess := {| TransactionID := newTransactionID env; SActivationCode := token;
                SEID := iaEID req; SICCID := ICCID p; Status := StatusPending; SeqCounter := 0;
                EuiccChallenge := mustHex (iaEuiccChallenge req);
                EuiccEKPb := mustHex (iaEuiccEKPb req); ServerChallenge := challenge;
                ServerEphemeral := Some ephemeral; Keys := zero_keys;
                SCreatedAt := now env; UpdatedAt := now env |} in
              save_ true env sess (Ret (Replied 200 (BodyInitiate
                (mkInitiateResponse (TransactionID sess) id (HexEncode challenge) (HexEncode (ECDHPublic ephemeral))))))
          end
      end))
  end.
Definition authenticate (env : Env) (req : AuthClientRequest) : Handler :=
  if bool_decide (acTransactionID req = ""%string) || bool_decide (acAuthProof req = ""%string)
  then refuse ErrBadRequest
  else get_ (acTransactionID req) (fun sess =>
    if negb (bool_decide (Status sess = StatusPending)) then refuse (ErrSessionState (Status sess))
    else match expected_proof sess with
    | Err e => refuse e
    | Ok (keys, expected) =>
        if negb match HexDecode (acAuthProof req) with Some got => VerifyMAC expected got | None => false end
        then refuse ErrProofFailed
        else
          let sess := {| sess with Keys := keys; Status := StatusAuthenticated; UpdatedAt := now env |} in
          save_ false env sess (source_ env (SActivationCode sess) (fun p => match p with
            | None => refuse ErrPanic
            | Some p => Ret (Replied 200 (BodyAuth (mkAuthResponse (ICCID p) (ProfileName p) (ProfileOwner p)
                                (ServiceProviderName p) (Class_ p) (ExpiresAt p))))
            end))
    end).
Definition package (env : Env) (id : string) : Handler :=
  get_ id (fun sess =>
    if negb (open_for_download sess) then refuse (ErrSessionState (Status sess))
    else source_ env (SActivationCode sess) (fun p =>
      match Encrypt (Dek (Keys sess)) (iv env) (payload p) with
      | Err e => refuse (ErrCrypto e)
      | Ok ciphertext =>
          let sess := {| sess with SeqCounter := i64 (SeqCounter sess + 1) |} in
          match bound_package (Keys sess) (SeqCounter sess) ciphertext with
          | Err e => refuse e
          | Ok der =>
              let sess := {| sess with UpdatedAt := now env |} in
              save_ false env sess (delivered_ env (SActivationCode sess)
                (Ret (Replied 200 (BodyBPP (mkBPP (SeqCounter sess) (Base64Encode der))))))
          end
      end)).
(** The three that only change the session. *)
Definition touch (env : Env) (id : string) (allowed : Session -> bool) (f : Session -> Session) : Handler :=
  get_ id (fun sess =>
    if negb (allowed sess) then refuse (ErrSessionState (Status sess))
    else save_ false env (f sess) (Ret (Replied 200 BodyOk))).
Definition not_cancelled (sess : Session) : bool := negb (bool_decide (Status sess = StatusCancelled)).
Definition confirm (env : Env) (req : ConfirmRequest) : Handler :=
  if bool_decide (coTransactionID req = ""%string) then refuse ErrBadRequest
  else if bool_decide (coResult req <> "success"%string) && bool_decide (coResult req <> "failure"%string)
  then refuse ErrBadRequest
  else touch env (coTransactionID req) open_for_download
    (fun sess => {| sess with Status := StatusConfirmed; UpdatedAt := now env |}).
Definition notify (env : Env) (req : NotificationRequest) : Handler :=
  if bool_decide (noTransactionID req = ""%string) || bool_decide (noNotification req = ""%string)
  then refuse ErrBadRequest
  else touch env (noTransactionID req) not_cancelled (fun sess => {| sess with UpdatedAt := now env |}).
Definition cancel (env : Env) (id : string) : Handler :=
  touch env id not_cancelled (fun sess => {| sess with Status := StatusCancelled; UpdatedAt := now env |}).
Definition handler (q : Env * Request) : Handler :=
  match q.2 with
  | ReqInitiate r => initiate q.1 r
  | ReqAuth r => authenticate q.1 r
  | ReqBPP id => package q.1 id
  | ReqConfirm r => confirm q.1 r
  | ReqNotify r => notify q.1 r
  | ReqCancel id => cancel q.1 id
  end.

(** ** Alone, a request is served as [Smdp.serve] does *)
Lemma run_handler q s : run (handler q) s = serve q.1 q.2 s.
Proof.
  destruct q as [env req], s as [ID st w]. destruct req as [r|r|id|r|r|id];
    unfold handler, serve, initiate, authenticate, package, confirm, notify, cancel, touch, not_cancelled,
      InitiateAuthentication, AuthenticateClient, GetBoundProfilePackage, ConfirmOrder, HandleNotification,
      CancelSession, get_, source_, save_, delivered_, look, refuse, put; cbn [fst snd Smdp.store Smdp.ID Smdp.world].
  all: repeat first
    [ done
    | progress cbn [run fst snd Smdp.store Smdp.ID Smdp.world reply negb]
    | case_match; simplify_eq ].
Qed.

(** ** What any interleaving keeps *)
(** [WR]: what the world's own operations keep. *)
Context (WR : W -> W -> Prop) `{!PreOrder WR} (delivered_WR : forall e t w, WR w (delivered e t w)).
Notation Request_ := (Env * Request)%type.
Notation ghost := (list Request_ * Server)%type.
Definition sound (g : ghost) : Prop := server_ok g.2 /\ all_proved g.1 g.2.
Definition later (g g' : ghost) : Prop :=
  g.1 `prefix_of` g'.1 /\ WR (world g.2) (world g'.2) /\
  forall id a, sessions g.2 !! id = Some a -> exists b, sessions g'.2 !! id = Some b /\ same_exchange a b.
(** The transaction id a request draws is not that of a session. *)
Definition fresh (q : Request_) (s : Server) : Prop :=
  match q.2 with ReqInitiate _ => sessions s !! name (newTransactionID q.1) = None | _ => True end.
(** A request changes no session but its own. *)
Definition others_kept (q : Request_) (s s' : Server) : Prop :=
  forall id sess, request_id q.2 <> Some id -> sessions s !! id = Some sess -> sessions s' !! id = Some sess.
(** What a handler knows of the copy it has read. *)
Definition known (g : ghost) (id : string) (sess : Session) : Prop :=
  named sess = id /\ (exists cur, sessions g.2 !! id = Some cur /\ same_exchange sess cur) /\
  (open_for_download sess = true -> proved g.1 id sess).

Lemma same_exchange_refl a : same_exchange a a.
Proof. repeat split. Qed.
Lemma same_exchange_sym a b : same_exchange a b -> same_exchange b a.
Proof. unfold same_exchange. intuition congruence. Qed.
Lemma same_exchange_trans a b c : same_exchange a b -> same_exchange b c -> same_exchange a c.
Proof. unfold same_exchange. intuition congruence. Qed.
#[export] Instance later_preorder : PreOrder later.
Proof.
  split.
  - intros [past s]. split_and!; [done|reflexivity|]. intros id a Ha. eauto using same_exchange_refl.
  - intros g1 g2 g3 (? & ? & Hab1) (? & ? & Hbc1). split_and!; [by etransitivity|by etransitivity|].
    intros id a Ha. destruct (Hab1 id a Ha) as (b & Hb & Hab). destruct (Hbc1 id b Hb) as (c & Hc & Hbc).
    eauto using same_exchange_trans.
Qed.
Lemma proved_later past past' id a b : proved past id a -> past `prefix_of` past' -> same_exchange a b ->
  Keys b = Keys a -> proved past' id b.
Proof.
  intros (env & r & proof & Hin & Hid & He & Hd) [l ->] Hse Hk. exists env, r, proof.
  rewrite Hk, <- (expected_proof_same a b) by done. split_and!; [set_solver|done..].
Qed.
Lemma known_later g g' id sess : later g g' -> known g id sess -> known g' id sess.
Proof.
  intros (Hp & _ & Hs) (Hid & (cur & Hc & Hse) & Hpr). split_and!; [done| |].
  - destruct (Hs id cur Hc) as (b & Hb & Hcb). eauto using same_exchange_trans.
  - intros Ho. eapply proved_later; [by apply Hpr|done|apply same_exchange_refl|done].
Qed.

(** ** The rules *)
Abbreviation safely := (safe sound later fresh others_kept (fun _ => True)).

Lemma safe_refuse Post q e g : (forall r g', package_of r = None -> Post r g') -> safely Post q (refuse e) g.
Proof. intros HP g' _ _ _. apply HP. unfold reply, package_of. by repeat case_match. Qed.
Lemma safe_look {B} Post q (f : Server -> B) (k : B -> Handler) g :
  (forall g', later g g' -> sound g' -> safely Post q (k (f g'.2)) g') -> safely Post q (look f k) g.
Proof.
  intros Hk [past s] Hl Hg _ _. split_and!; [done|done|reflexivity|by intros id sess _ ?|by apply (Hk (past, s))].
Qed.
Lemma safe_get Post q id k g : (forall r g', package_of r = None -> Post r g') ->
  (forall sess g', later g g' -> known g' (name id) sess -> safely Post q (k sess) g') -> safely Post q (get_ id k) g.
Proof.
  intros HP Hk. apply safe_look. intros [past s] Hl [Hok Hpr]. cbn [snd] in *. rewrite get_session_view by done.
  destruct (sessions s !! name id) as [sess|] eqn:E; [|by apply safe_refuse]. apply Hk; [done|]. split_and!.
  - exact (proj2 Hok _ _ E).
  - exists sess. split; [done|apply same_exchange_refl].
  - intros Ho. by apply Hpr.
Qed.
Lemma safe_source Post q env token k g : (forall r g', package_of r = None -> Post r g') ->
  (forall p g', later g g' -> source (world g'.2) token (now env) = Ok p -> safely Post q (k p) g') ->
  safely Post q (source_ env token k) g.
Proof.
  intros HP Hk. apply safe_look. intros g' Hl _. unfold Source.
  destruct (source (world g'.2) token (now env)) as [p|e] eqn:E; [by apply Hk|by apply safe_refuse].
Qed.
Lemma safe_delivered Post q env token k g :
  (forall g0 g', later g g0 -> WR (delivered (renv env) token (world g0.2)) (world g'.2) -> later g g' ->
     safely Post q k g') ->
  safely Post q (delivered_ env token k) g.
Proof.
  intros Hk [past s] Hl Hg _ _. cbn.
  assert (Hl' : later (past, s) (past, {| s with world := delivered (renv env) token (world s) |})).
  { split_and!; [done|apply delivered_WR|]. intros id a Ha. exists a. split; [done|apply same_exchange_refl]. }
  split_and!; [done|done|done|by intros id sess _ ?|]. by apply (Hk (past, s)); [|cbn; reflexivity|etransitivity].
Qed.
(** A write that the disk refuses. *)
Lemma write_refused past s t : store_ok t -> view t = view (store s) -> sound (past, s) ->
  let s' := {| s with store := t |} in sound (past, s') /\ later (past, s) (past, s') /\ forall q, others_kept q s s'.
Proof.
  intros Ht Hv [[Hst Hkey] Hall]. cbn zeta. assert (Hsame : sessions {| s with store := t |} = sessions s) by done.
  split_and!.
  - split; cbn [fst snd]; [split; [done|by rewrite Hsame]|]. intros i a. rewrite Hsame. apply Hall.
  - split_and!; [done|reflexivity|]. cbn [snd]. rewrite Hsame. intros i a Ha. eauto using same_exchange_refl.
  - intros q i a _. by rewrite Hsame.
Qed.
(** Writing back what was read, with the session's part of the exchange as it is. *)
Lemma safe_update Post q env id sess sess' k g : (forall r g', package_of r = None -> Post r g') ->
  request_id q.2 = Some id -> known g id sess -> same_exchange sess sess' ->
  (open_for_download sess' = true -> proved g.1 id sess') ->
  (forall g', later g g' -> safely Post q k g') -> safely Post q (save_ false env sess' k) g.
Proof.
  intros HP Hq Hk Hse Hpr Hn [past s] Hl Hg _ _. pose proof Hg as [[Hst Hkey] Hall]. cbn beta iota zeta delta [fst snd].
  destruct (known_later _ _ _ _ Hl Hk) as (Hid & (cur & Hc & Hcur) & _). cbn [snd] in *.
  pose proof (update_view (wr env) sess' (store s) Hst) as Hu.
  destruct (update_session (wr env) sess' (store s)) as [t r]. destruct Hu as (Hst' & Hr & _ & Hv). cbn.
  destruct Hr as [-> | ->]; cbn [is_ok] in Hv.
  2: { destruct (write_refused past s t) as (? & ? & ?); [done..|]. split_and!; [done..|by auto|by apply safe_refuse]. }
  assert (Hid' : named sess' = id) by (unfold named; destruct Hse as (<- & _); done).
  assert (Hnew : sessions {| s with store := t |} = <[id := sess']> (sessions s)) by (rewrite <- Hid'; exact Hv).
  assert (Hl' : later (past, s) (past, {| s with store := t |})).
  { split_and!; [done|reflexivity|]. cbn [snd]. rewrite Hnew. intros i a Ha.
    destruct (decide (i = id)) as [->|Hne]; [|rewrite lookup_insert_ne by done; eauto using same_exchange_refl].
    rewrite lookup_insert_eq. exists sess'. split; [done|]. simplify_eq.
    eauto using same_exchange_trans, same_exchange_sym. }
  split_and!; [split; [split; [done|]|]|done|done| |apply Hn; by etransitivity].
  - cbn [snd]. rewrite Hnew, <- Hid'. by apply keyed_insert.
  - cbn [fst snd]. intros i a. rewrite Hnew. intros [[<- <-]|[_ Ha]]%lookup_insert_Some Ho; [|by apply Hall].
    eapply proved_later; [by apply Hpr|by apply Hl|apply same_exchange_refl|done].
  - intros i a Hi Ha. rewrite Hnew, lookup_insert_ne; [done|congruence].
Qed.
Lemma safe_create Post q env sess k g : (forall r g', package_of r = None -> Post r g') ->
  q.1 = env -> (exists r, q.2 = ReqInitiate r) -> TransactionID sess = newTransactionID env -> Status sess = StatusPending ->
  (forall g', later g g' -> safely Post q k g') -> safely Post q (save_ true env sess k) g.
Proof.
  intros HP <- [r0 Hq] Hid Hpend Hn [past s] Hl Hg _ Hf. pose proof Hg as [[Hst Hkey] Hall]. cbn beta iota zeta delta [fst snd].
  unfold fresh in Hf. rewrite Hq in Hf. cbn [snd] in *.
  pose proof (create_view (wr q.1) sess (store s) Hst) as Hu.
  destruct (create_session (wr q.1) sess (store s)) as [t r]. destruct Hu as (Hst' & Hr & _ & Hv). cbn.
  destruct Hr as [-> | ->]; cbn [is_ok] in Hv.
  2: { destruct (write_refused past s t) as (? & ? & ?); [done..|]. split_and!; [done..|by auto|by apply safe_refuse]. }
  assert (Hnew : sessions {| s with store := t |} = <[name (newTransactionID q.1) := sess]> (sessions s)).
  { rewrite <- Hid. exact Hv. }
  assert (Hold : forall i a, sessions s !! i = Some a -> sessions {| s with store := t |} !! i = Some a).
  { intros i a Ha. rewrite Hnew, lookup_insert_ne; [done|]. intros <-. by rewrite Hf in Ha. }
  assert (Hl' : later (past, s) (past, {| s with store := t |})).
  { split_and!; [done|reflexivity|]. intros i a Ha. exists a. split; [by apply Hold|apply same_exchange_refl]. }
  split_and!; [split; [split; [done|]|]|done|done|by intros i a _; apply Hold|apply Hn; by etransitivity].
  - cbn [snd]. rewrite Hnew, <- Hid. by apply (keyed_insert named).
  - cbn [fst snd]. intros i a. rewrite Hnew. intros [[<- <-]|[_ Ha]]%lookup_insert_Some Ho; [|by apply Hall].
    unfold open_for_download in Ho. by rewrite Hpend in Ho.
Qed.

(** ** Every handler is safe *)
(** What a package says: it was made for a session whose key exchange was
    proved, of the profile its code had at a moment after the request arrived,
    and the code was marked after that. *)
Definition answers (wa : W) (q : Request_) (r : Reply) (g : ghost) : Prop :=
  match package_of r with
  | None => True
  | Some b => exists id sess w0 w1 p ct der,
      q.2 = ReqBPP id /\ known g (name id) sess /\ open_for_download sess = true /\
      WR wa w0 /\ source w0 (SActivationCode sess) (now q.1) = Ok p /\ WR w0 w1 /\
      WR (delivered (renv q.1) (SActivationCode sess) w1) (world g.2) /\
      Encrypt (Dek (Keys sess)) (iv q.1) (payload p) = Ok ct /\
      bound_package (Keys sess) (bppSeqCounter b) ct = Ok der /\ bppBPP b = Base64Encode der
  end.
Lemma answers_none wa q r g : package_of r = None -> answers wa q r g.
Proof. unfold answers. by intros ->. Qed.
Lemma safe_ret wa q st body g : (forall b, body <> BodyBPP b) -> safely (answers wa q) q (Ret (Replied st body)) g.
Proof.
  intros Hb g' _ _ _. apply answers_none. unfold package_of. repeat case_match; try done. by destruct (Hb r).
Qed.
Lemma touch_safe wa q id allowed f g : asked_id q.2 = Some id ->
  (forall sess, allowed sess = true -> same_exchange sess (f sess) /\
     (open_for_download (f sess) = true -> open_for_download sess = true /\ Keys (f sess) = Keys sess)) ->
  safely (answers wa q) q (touch q.1 id allowed f) g.
Proof.
  intros Hq Hf. apply safe_get; [by apply answers_none|]. intros sess g1 Hl Hk.
  destruct (allowed sess) eqn:Ea; cbn [negb]; [|by apply safe_refuse; apply answers_none].
  destruct (Hf sess Ea) as [Hse Ho].
  eapply safe_update; [by apply answers_none|by unfold request_id; rewrite Hq|exact Hk|done| |intros; by apply safe_ret].
  intros Hop. destruct (Ho Hop) as [Hop' Hkeys]. destruct Hk as (_ & _ & Hp). by eapply proved_later; [apply Hp| | |].
Qed.
Lemma package_safe wa q id g : q.2 = ReqBPP id -> WR wa (world g.2) -> safely (answers wa q) q (package q.1 id) g.
Proof.
  intros Hq Hwa. apply safe_get; [by apply answers_none|]. intros sess g1 Hl1 Hk1.
  destruct (open_for_download sess) eqn:Eo; cbn [negb]; [|by apply safe_refuse; apply answers_none].
  apply safe_source; [by apply answers_none|]. intros p g2 Hl2 Hp.
  destruct (Encrypt _ _ _) as [ct|] eqn:Ect; [|by apply safe_refuse; apply answers_none].
  destruct (bound_package _ _ ct) as [der|] eqn:Ed; [|by apply safe_refuse; apply answers_none].
  eapply safe_update; [by apply answers_none|by rewrite Hq|by eapply known_later| | |].
  - repeat split.
  - intros _. eapply proved_later; [by apply Hk1|by apply Hl2|repeat split|done].
  - intros g3 Hl3. apply safe_delivered. intros g4 g5 Hl4 Hd Hl5 g6 Hl6 _ _. unfold answers. cbn [package_of].
    destruct Hl1 as (_ & Hw1 & _), Hl2 as (Hp2 & Hw2 & Hs2), Hl3 as (Hp3 & Hw3 & Hs3).
    exists id, sess, (world g2.2), (world g4.2), p, ct, der. cbn [bppSeqCounter bppBPP] in *. split_and!; try done.
    + eapply known_later; [|exact Hk1]. etransitivity; [by split_and!|]. etransitivity; [by split_and!|].
      by etransitivity.
    + by etransitivity; [|etransitivity].
    + destruct Hl4 as (_ & Hw4 & _). by etransitivity.
    + destruct Hl6 as (_ & Hw6 & _). by etransitivity.
Qed.
Lemma handler_safe wa q g : WR wa (world g.2) -> q ∈ g.1 -> safely (answers wa q) q (handler q) g.
Proof.
  intros Hwa Hin. destruct (q.2) as [r|r|id|r|r|id] eqn:Eq; unfold handler; rewrite Eq.
  - unfold initiate. do 2 (case_match; [by apply safe_refuse; apply answers_none|]).
    case_match; [|by apply safe_refuse; apply answers_none].
    apply safe_look. intros g0 _ _.
    apply safe_source; [by apply answers_none|]. intros [p|] g1 Hl Hp; [|by apply safe_refuse; apply answers_none].
    do 3 (case_match; try by apply safe_refuse; apply answers_none).
    apply safe_create; [by apply answers_none|done|by exists r|done..|].
    intros g2 Hl2. by apply safe_ret.
  - unfold authenticate. case_match; [by apply safe_refuse; apply answers_none|].
    apply safe_get; [by apply answers_none|]. intros sess g1 Hl Hk.
    case_match; [by apply safe_refuse; apply answers_none|].
    destruct (expected_proof sess) as [[keys expected]|] eqn:Ex; [|by apply safe_refuse; apply answers_none].
    destruct (HexDecode (acAuthProof r)) as [got|] eqn:Eh; [|by apply safe_refuse; apply answers_none].
    destruct (VerifyMAC expected got) eqn:Ev; [|by apply safe_refuse; apply answers_none].
    apply VerifyMAC_iff in Ev as <-. cbn [negb].
    eapply safe_update; [by apply answers_none|by rewrite Eq|exact Hk|repeat split| |].
    + intros _. destruct Hl as (Hp & _). exists q.1, r, expected. split_and!.
      * rewrite <- Eq. destruct q; cbn in *. by eapply elem_of_prefix.
      * by destruct Hk as (<- & _).
      * cbn [Keys]. by rewrite <- Ex.
      * done.
    + intros g2 _. apply safe_source; [by apply answers_none|]. intros [p|] g3 _ _.
      * by apply safe_ret.
      * by apply safe_refuse; apply answers_none.
  - by apply package_safe.
  - unfold confirm. do 2 (case_match; [by apply safe_refuse; apply answers_none|]).
    apply touch_safe; [by rewrite Eq|]. intros sess Ho. by split; [repeat split|].
  - unfold notify. case_match; [by apply safe_refuse; apply answers_none|].
    apply touch_safe; [by rewrite Eq|]. intros sess Ho. by split; [repeat split|].
  - apply touch_safe; [by rewrite Eq|]. intros sess Ho. by split; [repeat split|].
Qed.

(** ** Runs from a server that holds nothing *)
Lemma arrives_sound past s q : sound (past, s) -> sound (past ++ [q], s) /\ later (past, s) (past ++ [q], s).
Proof.
  intros [Hok Hall].
  assert (Hl : later (past, s) (past ++ [q], s)).
  { split_and!; [by apply prefix_app_r|reflexivity|]. intros id a Ha. eauto using same_exchange_refl. }
  split; [|done]. split; [done|]. intros id a Ha Ho. eapply proved_later; [by apply Hall|by apply Hl|repeat split|done].
Qed.
Abbreviation pool := (pool_safe sound later fresh others_kept).

(** The same with the worlds the answers were taken in. *)
Lemma reached_from l s : server_ok s -> sessions s = ∅ -> play_ok handler fresh l (start s) ->
  let c := play handler l (start s) in
  sound (requests c, shared c) /\
  forall i q r, answered c i q r -> exists wa, WR (world s) wa /\ answers wa q r (requests c, shared c).
Proof.
  intros Hok He Hl. destruct (play_safe handler sound later fresh others_kept (fun g => WR (world s) (world g.2))
    (fun _ q r g => exists wa, WR (world s) wa /\ answers wa q r g) 0 l (start s)) as ((Hg & _ & _) & _ & Ha); [..|done|done].
  - intros past s' q _ Hg HJ. destruct (arrives_sound past s' q Hg). split_and!; [done..|].
    apply safe_frame; [intros g' s2 _ ? _ (_ & ? & _) _; by etransitivity|].
    eapply safe_weaken; [|apply (handler_safe (world s')); [reflexivity|set_solver]]. intros r g _ _ Hr. by exists (world s').
  - cbn. lia.
  - apply pool_safe_start; [|reflexivity]. split; cbn [fst snd]; [done|]. intros id a Ha. by rewrite He, lookup_empty in Ha.
Qed.

End Handlers.

(** ** Proof of possession *)
Section Policy.
Context `{!BlockCipher} `{!P256} `{!JsonProfile} `{!Disk} `{!Aead} (singleUse : bool).
#[local] Instance policy_source : ProfileSource Registry := registry_source singleUse.

(** Marking a code never brings a profile back, nor changes it. *)
Definition sources_kept (r r' : Registry) : Prop :=
  forall token t p, ResolvePolicy r' token singleUse t = Ok p -> ResolvePolicy r token singleUse t = Ok p.
#[export] Instance sources_kept_preorder : PreOrder sources_kept.
Proof. split; [by intros r token t p|]. intros r1 r2 r3 Ha Hb token t p Hp. by apply Ha, Hb. Qed.
Lemma delivered_sources e t (r : Registry) : sources_kept r (delivered e t r).
Proof.
  intros token now_ p. cbn. unfold MarkDownloaded. destruct (entries r !! t) as [y|] eqn:E; [|done].
  unfold ResolvePolicy. rewrite (proj1 (saveLocked_entries _ _)). cbn.
  destruct (decide (t = token)) as [<-|]; [|by rewrite lookup_insert_ne].
  rewrite lookup_insert_eq, E. cbn. destruct singleUse; cbn [andb]; [|done]. by repeat case_match.
Qed.

(** C17: a package still needs a proof of possession when requests overlap.
    Whatever the order in which requests arrive and their actions take place,
    from an empty store and with codes marked but none issued or revoked
    meanwhile: a package is handed out only for a session for which an
    [authenticateClient] request has arrived that carried exactly the CMAC the
    session's key exchange asks for; it is the package, sealed and
    authenticated under the keys of that exchange, of the profile the registry
    had for the session's code at the start, which its policy allowed; and a
    session is open for download, authenticated or confirmed, only if such a
    request has arrived for it.  Alone, a request is served as [Smdp.serve]
    does. *)
Theorem package_needs_proof l (s : @Smdp.Server fileStore Registry) :
  server_ok s -> sessions s = ∅ -> play_ok handler fresh l (start s) ->
  let c := play handler l (start s) in
  (forall i env id r b, answered c i (env, ReqBPP id) r -> package_of r = Some b ->
    exists sess p ct der,
      proved (requests c) (name id) sess /\
      (exists cur, sessions (shared c) !! name id = Some cur /\ same_exchange sess cur) /\
      ResolvePolicy (world s) (SActivationCode sess) singleUse (now env) = Ok p /\
      Encrypt (Dek (Keys sess)) (iv env) (payload p) = Ok ct /\
      bound_package (Keys sess) (bppSeqCounter b) ct = Ok der /\ bppBPP b = Base64Encode der) /\
  (forall id sess, sessions (shared c) !! id = Some sess -> open_for_download sess = true ->
    proved (requests c) id sess) /\
  forall q, run (handler q) (shared c) = serve q.1 q.2 (shared c).
Proof.
  intros Hok He Hl c.
  destruct (reached_from sources_kept delivered_sources l s Hok He Hl) as [[_ Hall] Ha].
  split; [|split; [exact Hall|intros q; apply run_handler]]. intros i env id r b Hi Hb.
  destruct (Ha i _ r Hi) as (wa & Hwa & Hr). unfold answers in Hr. rewrite Hb in Hr.
  destruct Hr as (id' & sess & w0 & w1 & p & ct & der & [= <-] & (_ & Hcur & Hp) & Ho & Hw0 & Hsrc & _ & _ & Hct & Hd & Hb').
  exists sess, p, ct, der. split_and!; try done; [by apply Hp|]. by apply Hwa, Hw0.
Qed.
End Policy.

#[local] Instance single_use_source `{!JsonProfile} `{!Aead} : ProfileSource Registry := registry_source true.
Section Registry.
Context `{!BlockCipher} `{!P256} `{!JsonProfile} `{!Disk} `{!Aead}.
Abbreviation Server := (@Smdp.Server fileStore Registry).

(** What marking a code keeps: the other marks, and the codes. *)
Definition marks_kept (r r' : Registry) : Prop :=
  forall t, (used r t -> used r' t) /\ (is_Some (entries r !! t) -> is_Some (entries r' !! t)).
#[export] Instance marks_kept_preorder : PreOrder marks_kept.
Proof.
  split; [by intros r t|]. intros r1 r2 r3 Ha Hb t. destruct (Ha t), (Hb t). tauto.
Qed.
End Registry.


(** ** Requests that overlap *)
#[local] Existing Instance demo_disk.
Abbreviation demo_pool l := (play handler l (start demo_file_server)).
(** The exchange up to the proof, each request on its own. *)
Definition alone (i : nat) (q : Env * Request) : list (Event (Env * Request)) := Arrives q :: replicate 4 (Moves i).
Definition opening : list (Event (Env * Request)) := concat (imap alone (take 2 demo_requests)).
Definition answer (c : Config (@Smdp.Server fileStore Registry) (Env * Request) Reply) (i : nat) : option Z :=
  match calls c !! i with Some (_, Ret (Replied st _)) => Some st | _ => None end.
Definition ask (t : Z) : Event (Env * Request) := Arrives (demo_senv t, ReqBPP demo_tx).

(** Two requests for the package that overlap both get it: the code is looked
    at before either marks it. *)
Example single_use_race :
  let c := demo_pool (opening ++ [ask 3; ask 4; Moves 2; Moves 2; Moves 3; Moves 3;
                                  Moves 2; Moves 2; Moves 3; Moves 3]) in
  answer c 2 = Some 200 /\ answer c 3 = Some 200.
Proof. vm_compute. done. Qed.
(** A cancellation that overlaps a notification is lost: the notification
    writes back the session it had read, and the package is handed out. *)
Example cancellation_lost :
  let c := demo_pool (opening ++ [Arrives (demo_senv 3, ReqNotify (mkNotification demo_tx "install-success")); Moves 2]
                        ++ alone 3 (demo_senv 4, ReqCancel demo_tx) ++ [Moves 2] ++ alone 4 (demo_senv 5, ReqBPP demo_tx)) in
  answer c 3 = Some 200 /\ answer c 2 = Some 200 /\ answer c 4 = Some 200.
Proof. vm_compute. done. Qed.

(** ** Witnesses *)
Definition delivered_once : list (Event (Env * Request)) := opening ++ alone 2 (demo_senv 3, ReqBPP demo_tx).
Definition asked_again : list (Event (Env * Request)) := alone 3 (demo_senv 4, ReqBPP demo_tx).
Definition reply_of (c : Config (@Smdp.Server fileStore Registry) (Env * Request) Reply) (i : nat) : Reply :=
  match calls c !! i with Some (_, Ret r) => r | _ => Aborted end.
Definition freshb (q : Env * Request) (s : @Smdp.Server fileStore Registry) : bool :=
  match q.2, sessions s !! name (newTransactionID q.1) with ReqInitiate _, Some _ => false | _, _ => true end.
Lemma demo_fresh l : play_okb handler freshb l (start demo_file_server) = true ->
  play_ok handler fresh l (start demo_file_server).
Proof.
  apply play_okb_true. intros [env req] s. unfold freshb, fresh. cbn [fst snd]. destruct req; try done.
  by case_match.
Qed.
Lemma demo_file_ok : server_ok demo_file_server.
Proof. split; [apply map_Forall_empty|apply keyed_empty]. Qed.

Lemma reply_of_answered c i q r : answered c i q r -> reply_of c i = r.
Proof. unfold answered, reply_of. by intros ->. Qed.

Lemma package_needs_proof_witness :
  answer (demo_pool delivered_once) 2 = Some 200 /\
  exists sess, proved (requests (demo_pool delivered_once)) (name demo_tx) sess /\
    exists p, ResolvePolicy demo_registry (SActivationCode sess) true 3 = Ok p.
Proof.
  split; [vm_compute; reflexivity|].
  assert (Hb : is_Some (package_of (reply_of (demo_pool delivered_once) 2))) by (vm_compute; eauto).
  destruct Hb as [b Hb].
  destruct (done_answered handler delivered_once demo_file_server 2 (demo_senv 3, ReqBPP demo_tx)) as [r0 Hr0];
    [vm_compute; reflexivity|reflexivity|].
  rewrite (reply_of_answered (demo_pool delivered_once) _ _ _ Hr0) in Hb.
  destruct (package_needs_proof true delivered_once demo_file_server demo_file_ok) as [Hp _].
  - reflexivity.
  - apply demo_fresh. vm_compute. reflexivity.
  - destruct (Hp 2%nat (demo_senv 3) demo_tx r0 b Hr0 Hb) as (sess & p & ct & der & Hpr & _ & Hsrc & _).
    exists sess. split; [exact Hpr|]. exists p. exact Hsrc.
Defined.
(** The second half, at a session that was cancelled while nothing ran. *)
Lemma later_requests_bound_cancelled :
  let l := opening ++ alone 2 (demo_senv 3, ReqCancel demo_tx) in
  exists r st, answered (play handler asked_again (demo_pool l)) 3 (demo_senv 4, ReqBPP demo_tx) r /\ r = Replied st BodyError.
Proof.
  intros l.
  destruct (done_answered handler (l ++ asked_again) demo_file_server 3 (demo_senv 4, ReqBPP demo_tx)) as [r Hr];
    [vm_compute; reflexivity|reflexivity|].
  rewrite play_app in Hr. exists r, 409. split; [exact Hr|].
  rewrite <- (reply_of_answered _ _ _ _ Hr). vm_compute. reflexivity.
Qed.
