(* ===== verification/Simprov.v ===== *)
(** * Simprov: SIM credentials

    [core/sim-ops/simprov/simprov.go]: Milenage key derivation, batches and
    the lab vectors.  [rnd i n] is what the [i]-th random draw of [n] bytes
    returns; AES is behind [BlockCipher].  Writing the files is I/O. *)
From stdpp Require Import pretty.
From S2P Require Import Prelude.
From S2P Require Import Encoding.
From S2P Require Import Activation.
From S2P Require Import Profile.
From S2P Require Import EsimCrypto.

Inductive Error :=
  | ErrKi | ErrOP | ErrSize (ki op : Z) | ErrRead | ErrCount (n : Z) | ErrIMSI (imsi : string)
  | ErrNotFound.

Record BatchSpec := mkSpec {
  Count : Z; bClass : string; IMSIBase : Z; MSISDNBase : Z; bAPN : string;
}.

Section Simprov.
Context `{!BlockCipher}.

(** OPc = AES_Ki(OP xor KC) with KC = AES_Ki(0). *)
Definition opcFromOP (ki op : bytes) : bytes :=
  let kc := encrypt_block ki (replicate 16 0) in
  encrypt_block ki (xor_bytes op kc).
Definition DeriveOPc (kiHex opHex : string) : res Error string :=
  match HexDecode kiHex with
  | None => Err ErrKi
  | Some ki =>
      match HexDecode opHex with
      | None => Err ErrOP
      | Some op =>
          if negb (zlen ki =? 16) || negb (zlen op =? 16) then Err (ErrSize (zlen ki) (zlen op))
          else Ok (HexEncode (opcFromOP ki op))
      end
  end.

Definition randHex (r : option bytes) : res Error string :=
  match r with Some buf => Ok (HexEncode buf) | None => Err ErrRead end.

Definition zero_op : string := "00000000000000000000000000000000".
(** One turn of the loop; it draws three times. *)
Definition generate (spec : BatchSpec) (opHex : string) (rnd : Z -> Z -> option bytes) (i : Z) :
    res Error Subscriber :=
  ki ← randHex (rnd (3 * i) 16);
  opc ← DeriveOPc ki opHex;
  amf ← randHex (rnd (3 * i + 1) 2);
  sqn ← randHex (rnd (3 * i + 2) 6);
  let imsi := pretty (i64 (IMSIBase spec + i)) in
  if negb (slen imsi =? 15) then Err (ErrIMSI imsi)
  else
    let apn := if bool_decide (bAPN spec = ""%string) then "internet"%string else bAPN spec in
    Ok (mkSubscriber imsi (pretty (i64 (MSISDNBase spec + i))) ki opc amf sqn apn (bClass spec) 0 0).
Fixpoint generate_all (spec : BatchSpec) (opHex : string) (rnd : Z -> Z -> option bytes)
    (i : Z) (n : nat) : res Error (list Subscriber) :=
  match n with
  | O => Ok []
  | S n => s ← generate spec opHex rnd i; l ← generate_all spec opHex rnd (i + 1) n; Ok (s :: l)
  end.
Definition GenerateBatch (spec : BatchSpec) (opHex : string) (rnd : Z -> Z -> option bytes) :
    res Error (list Subscriber) :=
  if (Count spec <=? 0) || (100000 <? Count spec) then Err (ErrCount (Count spec))
  else
    let opHex := if bool_decide (opHex = ""%string) then zero_op else opHex in
    generate_all spec opHex rnd 0 (Z.to_nat (Count spec)).

(** [core/fairwave-control/internal/simops]: the bridge, with no operator key. *)
Definition simops_GenerateBatch (spec : BatchSpec) (rnd : Z -> Z -> option bytes) : res Error (list Subscriber) :=
  GenerateBatch spec "" rnd.

(** The dummy vectors of the lab. *)
Definition LabTestVectors : list Subscriber :=
  [mkSubscriber "999991234567001" "9999001" "465B5CE8B199B49FAA5F0A2EE238A6BC"
     "4D9B7A2C5E8F1A3B6C0D2E4F7A9B5C1D" "8000" "000000000001" "internet" "lab" 0 0;
   mkSubscriber "999991234567002" "9999002" "8A1F3C9D5E7B2A4F6C8D0E1F3A5B7C9D"
     "2E6B4A7D9F1C3E5B8A0D2F4C6E8B1A3F" "8000" "000000000001" "internet" "lab" 0 0;
   mkSubscriber "999991234567003" "9999003" "3C9E5B7A1D8F2C4E6A0B3D5F7C9E1B2A"
     "7F1D3A5C9B2E4F6A8C0D2E4B6F8A1C3" "8000" "000000000001" "internet" "lab" 0 0].
Definition LoadTestVector (imsi : string) : res Error Subscriber :=
  match list_find (fun s => sIMSI s = imsi) LabTestVectors with
  | Some (_, s) => Ok s
  | None => Err ErrNotFound
  end.

(** ** Properties *)
Definition draws (rnd : Z -> Z -> option bytes) : Prop :=
  forall i n raw, rnd i n = Some raw -> zlen raw = n /\ Forall is_byte raw.

Lemma DeriveOPc_ok ki op : zlen ki = 16 -> Forall is_byte ki -> zlen op = 16 -> Forall is_byte op ->
  DeriveOPc (HexEncode ki) (HexEncode op) = Ok (HexEncode (opcFromOP ki op)).
Proof.
  intros Hk Hkb Ho Hob. unfold DeriveOPc. rewrite !HexDecode_Encode by done. by rewrite Hk, Ho.
Qed.
Lemma DeriveOPc_length kiHex opHex opc : DeriveOPc kiHex opHex = Ok opc -> slen opc = 32.
Proof.
  unfold DeriveOPc. destruct (HexDecode kiHex) as [ki|] eqn:Ek; [|done].
  destruct (HexDecode opHex) as [op|] eqn:Eo; [|done].
  destruct (Z.eqb_spec (zlen ki) 16), (Z.eqb_spec (zlen op) 16); cbn; try done. intros [= <-].
  rewrite slen_HexEncode by apply encrypt_bytes. unfold opcFromOP.
  assert (Hz : zlen (encrypt_block ki (replicate 16 0)) = 16) by by apply encrypt_length.
  rewrite encrypt_length; [lia|done|]. rewrite zlen_xor; lia.
Qed.

(** What every generated record is. *)
Definition record_ok (spec : BatchSpec) (opHex : string) (i : Z) (s : Subscriber) : Prop :=
  sIMSI s = pretty (i64 (IMSIBase spec + i)) /\ slen (sIMSI s) = 15 /\
  sMSISDN s = pretty (i64 (MSISDNBase spec + i)) /\ slen (sKi s) = 32 /\ slen (sOPc s) = 32 /\
  DeriveOPc (sKi s) opHex = Ok (sOPc s) /\ slen (sAMF s) = 4 /\ slen (sSQN s) = 12 /\
  sAPN s <> ""%string /\ sClass s = bClass spec.

Lemma generate_ok spec opHex rnd i s : draws rnd -> generate spec opHex rnd i = Ok s ->
  record_ok spec opHex i s.
Proof.
  intros Hr. unfold generate, randHex.
  destruct (rnd (3 * i) 16) as [ki|] eqn:E1; [|done]. cbn [mbind res_bind].
  destruct (DeriveOPc _ _) as [opc|] eqn:Eo; [|done]. cbn [mbind res_bind].
  destruct (rnd (3 * i + 1) 2) as [amf|] eqn:E2; [|done]. cbn [mbind res_bind].
  destruct (rnd (3 * i + 2) 6) as [sqn|] eqn:E3; [|done]. cbn [mbind res_bind].
  destruct (Z.eqb_spec (slen (pretty (i64 (IMSIBase spec + i)))) 15) as [El|]; [|done].
  cbn [negb]. cbv zeta. intros [= <-]. apply Hr in E1 as [L1 B1], E2 as [L2 B2], E3 as [L3 B3].
  split; cbn [sIMSI sMSISDN sKi sOPc sAMF sSQN sAPN sClass]; [done|].
  rewrite !slen_HexEncode, L1, L2, L3, (DeriveOPc_length _ _ _ Eo) by done.
  split_and!; try done. by case_bool_decide.
Qed.
Lemma generate_all_ok spec opHex rnd i n l : draws rnd -> generate_all spec opHex rnd i n = Ok l ->
  length l = n /\ forall j s, l !! j = Some s -> record_ok spec opHex (i + Z.of_nat j) s.
Proof.
  intros Hr. revert i l. induction n as [|n IH]; intros i l; cbn [generate_all].
  - intros [= <-]. split; [done|]. intros j s Hj. by rewrite lookup_nil in Hj.
  - destruct (generate spec opHex rnd i) as [s0|] eqn:E; [|done]. cbn [mbind res_bind].
    destruct (generate_all spec opHex rnd (i + 1) n) as [l0|] eqn:El; [|done]. intros [= <-].
    destruct (IH _ _ El) as [Hlen Hl]. split; [by cbn; rewrite Hlen|].
    intros [|j] s; cbn [lookup list_lookup].
    + intros [= <-]. rewrite Z.add_0_r. by eapply generate_ok.
    + intros Hj. apply Hl in Hj. by replace (i + Z.of_nat (S j)) with (i + 1 + Z.of_nat j) by lia.
Qed.

Lemma minted_from_record spec opHex i s id rnd t1 t2 : record_ok spec opHex i s ->
  bClass spec = "lab"%string -> (forall n raw, rnd n = Some raw -> zlen raw = n) ->
  exists p, NewLabProfile s id [] rnd t1 t2 = Ok p.
Proof.
  intros (_ & Himsi & _ & Hki & Hopc & _ & _ & _ & _ & Hc) Hlab Hr.
  destruct (NewLabProfile s id [] rnd t1 t2) as [p|e] eqn:E; [by exists p|].
  exfalso. revert E. unfold NewLabProfile. rewrite Hc, Hlab. cbn [bool_decide].
  rewrite bool_decide_eq_false_2 by tauto.
  destruct (NewICCID_ok "99901" rnd) as (iccid & -> & Hlen & Hl); [vm_decide|by vm_compute|done|].
  cbn [foldl]. cbv zeta.
  rewrite (proj2 (Validate_ok _)); [done|].
  cbn [ICCID EID IMSI Class_ KI OPc]. split_and!; auto; lia.
Qed.

(** a batch is complete or refused: it has exactly the records asked
    for, the [i]-th with IMSI base + i (all distinct), a 16-byte key, the OPc
    of that key under the operator's OP, and, in the lab class, each can mint
    an eSIM profile. *)
Theorem GenerateBatch_spec spec opHex rnd l : draws rnd -> GenerateBatch spec opHex rnd = Ok l ->
  0 < Count spec <= 100000 /\ zlen l = Count spec /\ NoDup (sIMSI <$> l) /\
  (forall j s, l !! j = Some s ->
     record_ok spec (if bool_decide (opHex = ""%string) then zero_op else opHex) (Z.of_nat j) s) /\
  (bClass spec = "lab"%string -> forall s id r t1 t2, s ∈ l ->
     (forall n raw, r n = Some raw -> zlen raw = n) -> exists p, NewLabProfile s id [] r t1 t2 = Ok p).
Proof.
  intros Hr. unfold GenerateBatch. destruct (_ || _) eqn:Ec; [done|].
  apply orb_false_iff in Ec as [E1 E2]. zbool. cbv zeta. intros E.
  destruct (generate_all_ok _ _ _ _ _ _ Hr E) as [Hlen Hl]. split; [lia|].
  split; [unfold zlen; lia|]. split; [|split].
  - apply NoDup_alt. intros a b x. rewrite !list_lookup_fmap.
    destruct (l !! a) as [sa|] eqn:Ea; [|done]. destruct (l !! b) as [sb|] eqn:Eb; [|done].
    intros [= <-] [= Hx]. destruct (Hl _ _ Ea) as [Ia _], (Hl _ _ Eb) as [Ib _].
    rewrite Ia, Ib in Hx. apply (inj pretty) in Hx.
    apply lookup_lt_Some in Ea, Eb. unfold i64 in Hx.
    assert (Hm : (IMSIBase spec + (0 + Z.of_nat a) + 2 ^ 63) mod 2 ^ 64 =
                 (IMSIBase spec + (0 + Z.of_nat b) + 2 ^ 63) mod 2 ^ 64) by lia.
    clear Hx. revert Hm. Z.div_mod_to_equations. lia.
  - intros j s Hj. by apply Hl in Hj.
  - intros Hlab s id r t1 t2 [j Hj]%list_elem_of_lookup Hrr. by eapply minted_from_record; [apply (Hl _ _ Hj)|..].
Qed.
End Simprov.

(** The check on the IMSI counts characters: a negative base passes. *)
Example negative_IMSI :
  match GenerateBatch (mkSpec 1 "lab" (-99999999999999) 1 "") "" (fun _ n => Some (replicate (Z.to_nat n) 7)) with
  | Ok l => map sIMSI l = ["-99999999999999"%string]
  | Err _ => False
  end.
Proof. vm_compute. reflexivity. Qed.
(** A prod batch without an operator key silently uses the lab's zero OP. *)
Lemma prod_without_OP spec rnd `{!BlockCipher} : GenerateBatch spec "" rnd = GenerateBatch spec zero_op rnd.
Proof. unfold GenerateBatch. by destruct (_ || _). Qed.

Definition demo_draws (i n : Z) : option bytes :=
  if n <? 0 then None else Some (replicate (Z.to_nat n) (u8 i)).
Lemma demo_draws_ok : draws demo_draws.
Proof.
  intros i n raw. unfold demo_draws. destruct (Z.ltb_spec n 0); [done|]. intros [= <-].
  split; [unfold zlen; rewrite length_replicate; lia|]. apply Forall_replicate, Z.mod_pos_bound. lia.
Qed.
Lemma GenerateBatch_spec_witness :
  let rnd := demo_draws in
  exists l, GenerateBatch (mkSpec 2 "lab" 999991234567000 9999000 "") "" rnd = Ok l /\
    zlen l = 2 /\ NoDup (sIMSI <$> l).
Proof.
  intros rnd.
  destruct (GenerateBatch (mkSpec 2 "lab" 999991234567000 9999000 "") "" rnd) as [l|] eqn:E;
    [|by vm_compute in E].
  exists l. split; [reflexivity|].
  destruct (GenerateBatch_spec (mkSpec 2 "lab" 999991234567000 9999000 "") "" rnd l) as (_ & H1 & H2 & _).
  - exact demo_draws_ok.
  - exact E.
  - split; [exact H1|exact H2].
Defined.
