(* ===== verification/Sha256.v ===== *)
(** * Sha256: the digest of Go's [crypto/sha256]

    FIPS 180-4 on byte lists.  The control plane uses it for subscriber
    hashes and token verifiers; the theorems that need two digests to differ
    say so for the values concerned. *)
From S2P Require Import Prelude.

Definition rotr (n x : Z) : Z := Z.lor (Z.shiftr x n) (u32 (Z.shiftl x (32 - n))).
Definition bsig0 x := Z.lxor (rotr 2 x) (Z.lxor (rotr 13 x) (rotr 22 x)).
Definition bsig1 x := Z.lxor (rotr 6 x) (Z.lxor (rotr 11 x) (rotr 25 x)).
Definition ssig0 x := Z.lxor (rotr 7 x) (Z.lxor (rotr 18 x) (Z.shiftr x 3)).
Definition ssig1 x := Z.lxor (rotr 17 x) (Z.lxor (rotr 19 x) (Z.shiftr x 10)).
Definition choose x y z := Z.lxor (Z.land x y) (Z.land (Z.lxor x 4294967295) z).
Definition majority x y z := Z.lxor (Z.land x y) (Z.lxor (Z.land x z) (Z.land y z)).

Definition round_constants : list Z :=
 [1116352408; 1899447441; 3049323471; 3921009573; 961987163; 1508970993; 2453635748; 2870763221;
  3624381080; 310598401; 607225278; 1426881987; 1925078388; 2162078206; 2614888103; 3248222580;
  3835390401; 4022224774; 264347078; 604807628; 770255983; 1249150122; 1555081692; 1996064986;
  2554220882; 2821834349; 2952996808; 3210313671; 3336571891; 3584528711; 113926993; 338241895;
  666307205; 773529912; 1294757372; 1396182291; 1695183700; 1986661051; 2177026350; 2456956037;
  2730485921; 2820302411; 3259730800; 3345764771; 3516065817; 3600352804; 4094571909; 275423344;
  430227734; 506948616; 659060556; 883997877; 958139571; 1322822218; 1537002063; 1747873779;
  1955562222; 2024104815; 2227730452; 2361852424; 2428436474; 2756734187; 3204031479; 3329325298].
Definition initial_state : list Z :=
 [1779033703; 3144134277; 1013904242; 2773480762; 1359893119; 2600822924; 528734635; 1541459225].

(** The message schedule: a sliding window of the last sixteen words. *)
Fixpoint schedule (n : nat) (w : list Z) : list Z :=
  match n with
  | O => []
  | S n =>
      let next := u32 (ssig1 (nth 14 w 0) + nth 9 w 0 + ssig0 (nth 1 w 0) + nth 0 w 0) in
      nth 0 w 0 :: schedule n (tail w ++ [next])
  end.
Definition sha_round (st : list Z) (kw : Z * Z) : list Z :=
  match st with
  | [a; b; c; d; e; f; g; h] =>
      let t1 := h + bsig1 e + choose e f g + kw.1 + kw.2 in
      let t2 := bsig0 a + majority a b c in
      [u32 (t1 + t2); a; b; c; u32 (d + t1); e; f; g]
  | _ => st
  end.
Fixpoint be_words (n : nat) (b : bytes) : list Z :=
  match n with O => [] | S n => be_get (take 4 b) :: be_words n (drop 4 b) end.
Definition compress (st : list Z) (block : bytes) : list Z :=
  let w := schedule 64 (be_words 16 block) in
  zip_with (fun x y => u32 (x + y)) st (foldl sha_round st (zip round_constants w)).
Definition sha_pad (m : bytes) : bytes :=
  m ++ [128] ++ replicate (Z.to_nat ((55 - zlen m) mod 64)) 0 ++ be_put 8 (8 * zlen m).
Fixpoint sha_blocks (n : nat) (st : list Z) (b : bytes) : list Z :=
  match n with O => st | S n => sha_blocks n (compress st (take 64 b)) (drop 64 b) end.
Definition Sum256 (m : bytes) : bytes :=
  let p := sha_pad m in
  sha_blocks (Z.to_nat (zlen p / 64)) initial_state p ≫= be_put 4.

Lemma Sum256_bytes m : Forall is_byte (Sum256 m).
Proof.
  unfold Sum256. set (l := sha_blocks _ _ _). clearbody l.
  induction l as [|x l IH]; cbn; [constructor|].
  apply Forall_app. split; [apply be_put_bytes|done].
Qed.

(** The vectors of FIPS 180-4: one block, and two. *)
Example sha256_abc : be_get (Sum256 (string_bytes "abc")) =
  84342368487090800366523834928142263660104883695016514377462985829716817089965.
Proof. vm_compute. reflexivity. Qed.
Example sha256_two_blocks :
  be_get (Sum256 (string_bytes "abcdbcdecdefdefgefghfghighijhijkijkljklmklmnlmnomnopnopq")) =
  16533122207477069341668099752125637525043274373652441057433006174010909329089.
Proof. vm_compute. reflexivity. Qed.
