(* ===== verification/Api.v ===== *)
(** * Api: the types the control plane, its collectors and its store share

    [core/fairwave-control/api/types.go].  Field names carry a prefix of the
    record they belong to; JSON tags are left out. *)
From S2P Require Import Prelude.
From S2P Require Import Float64.
From S2P Require Import Encoding.
From S2P Require Import Sha256.

Definition LifecyclePhase : Type := string.
Definition PhaseProvision : LifecyclePhase := "provision".
Definition PhaseRegister : LifecyclePhase := "register".
Definition PhaseOnAir : LifecyclePhase := "on-air".
Definition PhasePeer : LifecyclePhase := "peer".
Definition PhaseBreakout : LifecyclePhase := "breakout".
Definition AllPhases : list LifecyclePhase :=
  [PhaseProvision; PhaseRegister; PhaseOnAir; PhasePeer; PhaseBreakout].

Record Node := mkNode {
  nID : string; nName : string; nRole : string; nCountry : string; nPhase : LifecyclePhase;
  nTxArmed : bool; nVersion : string; nCreatedAt : time; nUpdatedAt : time;
}.
#[global] Instance Node_eq_dec : EqDecision Node.
Proof. solve_decision. Defined.

Record SIM := mkSIM {
  IMSI : string; MSISDN : string; SProfile : string; SStatus : string; SAPN : string;
  SQN : string; QuotaBytes : Z; SCreatedAt : time; SExpiresAt : time;
}.
#[global] Instance SIM_eq_dec : EqDecision SIM.
Proof. solve_decision. Defined.

Record Peer := mkPeer {
  pID : string; pName : string; Endpoint : string; PubKey : string; AllowedIPs : list string;
  pStatus : string; LastSeen : time;
}.
#[global] Instance Peer_eq_dec : EqDecision Peer.
Proof. solve_decision. Defined.

Record Session := mkSession {
  IMSIHash : string; APN : string; IP : string; Phase : string;
  BytesUp : Z; BytesDn : Z; Created : time;
}.
#[global] Instance Session_eq_dec : EqDecision Session.
Proof. solve_decision. Defined.

(** Only this digest of a subscriber's identity leaves the store. *)
Definition HashIMSI (imsi : string) : string := HexEncode (Sum256 (string_bytes imsi)).

Record NodeHealth := mkHealth {
  hNodeID : string; hTS : time; hMode : string; Load1 : f64; SDRTempC : option f64;
  GPSDO : bool; RFArmed : bool; Watchdog : string; Platform : string; Radio : string;
  FreqCheck : bool; hUp : bool;
}.
#[global] Instance NodeHealth_eq_dec : EqDecision NodeHealth.
Proof. solve_decision. Defined.

Record AuditEntry := mkAudit {
  aID : string; aTS : time; Action : string; Target : string; Detail : string; Principal : string;
}.
#[global] Instance AuditEntry_eq_dec : EqDecision AuditEntry.
Proof. solve_decision. Defined.

(** A role is the string the token was created with. *)
Definition TokenRole : Type := string.
Definition RoleAdmin : TokenRole := "admin".
Definition RoleOperator : TokenRole := "operator".
Definition RoleViewer : TokenRole := "viewer".
Definition Valid (r : TokenRole) : bool :=
  bool_decide (r = RoleAdmin) || bool_decide (r = RoleOperator) || bool_decide (r = RoleViewer).

Record Token := mkToken {
  tID : string; tName : string; tRole : TokenRole; TokenHash : string;
  tCreatedAt : time; tRevoked : bool;
}.
#[global] Instance Token_eq_dec : EqDecision Token.
Proof. solve_decision. Defined.

Inductive AlertSeverity := AlertCritical | AlertWarning | AlertInfo.
#[global] Instance AlertSeverity_eq_dec : EqDecision AlertSeverity.
Proof. solve_decision. Defined.

Record Alert := mkAlert {
  alID : string; alKey : string; Severity : AlertSeverity; alMessage : string; alTarget : string;
  alNode : string; alTS : time; Resolved : bool; ResolvedAt : option time;
}.
#[global] Instance Alert_eq_dec : EqDecision Alert.
Proof. solve_decision. Defined.

Record SimUsage := mkUsage {
  uIMSI : string; uIMSIHash : string; uUp : Z; uDn : Z; uQuota : Z; uUpdatedAt : time;
}.
#[global] Instance SimUsage_eq_dec : EqDecision SimUsage.
Proof. solve_decision. Defined.

Record SimImportItem := mkItem {
  iIMSI : string; iMSISDN : string; iProfile : string; iAPN : string; iStatus : string;
  iExpiresAt : time;
}.

Record EsimIssueRequest := mkEsimIssue { eIMSI : string; eAddress : string; eEID : string }.
Record EsimIssueResponse := mkEsimIssued {
  erIMSI : string; erICCID : string; erCode : string; erAddress : string;
}.
Record EsimCode := mkEsimCode {
  ecCode : string; ecAddress : string; ecIMSI : string; ecICCID : string; ecProfileName : string;
  ecEID : string; ecCreatedAt : time; ecDownloadedAt : option time; ecExpiresAt : time;
}.

Record Policy := mkPolicy {
  LocalBreakout : bool; HubPeer : string; MaxUEs : Z; APNs : list string;
  QoSDLMbps : Z; QoSULMbps : Z;
}.
#[global] Instance Policy_eq_dec : EqDecision Policy.
Proof. solve_decision. Defined.

Record SpectrumCheckRequest := mkSpectrumCheck {
  scCountry : string; scBand : string; scIndoor : bool; scLicenseRef : string;
}.
Record TxArmRequest := mkTxArm {
  taCountry : string; taBand : string; Acknowledgment : string; taLicenseRef : string;
}.
Record SimIssueRequest := mkSimIssue { siProfile : string; siPrefix : string; siCount : Z }.

(** What [/v1/status] answers, the uptime left out. *)
Record Status := mkStatus {
  stVersion : string; stMode : string; stPhase : string; stTxArmed : bool; stCountry : string;
  stNodes : Z; stUEs : Z; stPeers : Z; stHydraThreads : Z; stHydraWeaves : Z; stHydraMbps : f64;
}.
