(* ===== verification/Upf.v ===== *)
(** * Upf: metering the user plane from captured packets

    [core/fairwave-control/internal/collector/upf.go].  [parseUDPGTP],
    [parseGTP] and [walk] read captured packets; the accountant learns which
    subscriber owns a tunnel from the signalling and charges the bytes of the
    user plane to it.  Each operation runs under the accountant's mutex, so
    concurrent packets and polls are a sequence of steps.  [walk]'s loop is
    bounded by the length of its input, which [walk_unfold] shows is enough. *)
From S2P Require Import Prelude.
From S2P Require Import Api.

Definition gtpv1GPDU : Z := 255.
Definition gtpv2CreateSessionReq : Z := 32.
Definition gtpv2CreateSessionResp : Z := 33.
Definition gtpv2ModifyBearerReq : Z := 34.
Definition gtpv2ModifyBearerResp : Z := 35.
Definition gtpv2DeleteSessionReq : Z := 36.
Definition gtpv2DeleteSessionResp : Z := 37.
Definition ieIMSI : Z := 1.
Definition ieFTEID : Z := 87.
Definition ieBearerCtx : Z := 93.
Definition iePDNConn : Z := 96.
Definition ftS1UEnb : Z := 0.
Definition ftS1USGW : Z := 1.
Definition ftS5S8SG : Z := 5.
Definition ftS5S8PG : Z := 6.
Definition dirUL : Z := 1.
Definition dirDL : Z := 2.

(** ** Headers *)
Record gtpFrame := mkFrame {
  version : Z; msgType : Z; teid : Z; payload : bytes; payloadOK : bool }.

Definition parseGTP (data : bytes) : option gtpFrame :=
  if zlen data <? 8 then None else
  let nibble := Z.shiftr (at_ data 0) 4 in
  match (if nibble =? 3 then Some 1 else if nibble =? 2 then Some 2 else None) with
  | None => None
  | Some v =>
      let length := be_get (slice data 2 4) in
      let end_ := 8 + length in
      if (zlen data <? end_) || (end_ <? 8) then None
      else Some (mkFrame v (at_ data 1) (be_get (slice data 4 8)) (slice data 8 end_) true)
  end.

(** The datagram an IP packet carries, its UDP header included. *)
Definition udp_segment (pkt : bytes) : option bytes :=
  if zlen pkt =? 0 then None else
  let v := Z.shiftr (at_ pkt 0) 4 in
  if v =? 4 then
    if zlen pkt <? 20 then None else
    let ihl := Z.land (at_ pkt 0) 15 * 4 in
    if (ihl <? 20) || (zlen pkt <? ihl + 8) || negb (at_ pkt 9 =? 17) then None
    else Some (drop (Z.to_nat ihl) pkt)
  else if v =? 6 then
    if (zlen pkt <? 48) || negb (at_ pkt 6 =? 17) then None
    else Some (drop 40 pkt)
  else None.
Definition parseUDPGTP (pkt : bytes) : option gtpFrame :=
  match udp_segment pkt with
  | None => None
  | Some udp => if zlen udp <? 8 then None else parseGTP (drop 8 udp)
  end.

(** ** Information elements *)
Record fteid := mkFteid { ifaceType : Z; fTeid : Z }.

Definition parseFTEID (v : bytes) : option fteid :=
  if zlen v <? 5 then None
  else Some (mkFteid (Z.land (at_ v 0) 15) (be_get (slice v 1 5))).

Definition digit (n : Z) : bytes := if n <=? 9 then [48 + n] else [].
Definition decodeIMSI (v : bytes) : string :=
  if zlen v =? 0 then ""%string else
  let out := v ≫= fun b => digit (Z.shiftr b 4) ++ digit (Z.land b 15) in
  bytes_string (if 15 <? zlen out then take 15 out else out).

Fixpoint walk_steps (fuel : nat) (ies : bytes) (nested : Z) (acc : string * list fteid)
    : string * list fteid :=
  match fuel with
  | O => acc
  | S fuel =>
      if zlen ies <? 4 then acc else
      let ieType := at_ ies 0 in
      let ieLen := be_get (slice ies 2 4) in
      let value := drop 4 ies in
      if zlen value <? ieLen then acc else
      let value := take (Z.to_nat ieLen) value in
      let acc :=
        if ieType =? ieIMSI then
          if decide (acc.1 = ""%string) then (decodeIMSI value, acc.2) else acc
        else if ieType =? ieFTEID then
          match parseFTEID value with Some t => (acc.1, acc.2 ++ [t]) | None => acc end
        else if (ieType =? ieBearerCtx) || (ieType =? iePDNConn) then
          if nested =? 0 then walk_steps fuel value 1 acc else acc
        else acc in
      walk_steps fuel (drop (4 + Z.to_nat ieLen) ies) nested acc
  end.
Definition walk (ies : bytes) (nested : Z) (acc : string * list fteid) : string * list fteid :=
  walk_steps (length ies) ies nested acc.

Definition parseGTPv2C (f : gtpFrame) : string * list fteid :=
  if negb (version f =? 2) then (""%string, []) else walk (payload f) 0 (""%string, []).

Definition dirFor (t : fteid) : option Z :=
  if (ifaceType t =? ftS1UEnb) || (ifaceType t =? ftS5S8SG) then Some dirUL
  else if (ifaceType t =? ftS1USGW) || (ifaceType t =? ftS5S8PG) then Some dirDL
  else None.

(** ** The accountant *)
Record teidInfo := mkInfo { tiImsi : string; tiDir : Z }.
Record imsiBytes := mkBytes { up : Z; dn : Z }.
Record upfAccountant := mkAccountant {
  byTEID : gmap Z teidInfo; byIMSI : gmap string imsiBytes; unknown : Z }.
#[global] Instance teidInfo_eq_dec : EqDecision teidInfo.
Proof. solve_decision. Defined.
#[global] Instance imsiBytes_eq_dec : EqDecision imsiBytes.
Proof. solve_decision. Defined.

Definition newAccountant : upfAccountant := mkAccountant ∅ ∅ 0.
Definition zero_bytes : imsiBytes := mkBytes 0 0.

Definition count (teid n : Z) (a : upfAccountant) : upfAccountant :=
  if n =? 0 then a else
  match byTEID a !! teid with
  | None => {| a with unknown := u64 (unknown a + n) |}
  | Some info =>
      let ib := default zero_bytes (byIMSI a !! tiImsi info) in
      let ib := if tiDir info =? dirUL then {| ib with up := u64 (up ib + n) |}
                else {| ib with dn := u64 (dn ib + n) |} in
      {| a with byIMSI := <[tiImsi info := ib]> (byIMSI a) |}
  end.

Definition bind_tunnel (imsi : string) (m : gmap Z teidInfo) (t : fteid) : gmap Z teidInfo :=
  match dirFor t with Some dir => <[fTeid t := mkInfo imsi dir]> m | None => m end.
Definition opens_session (m : Z) : bool :=
  (m =? gtpv2CreateSessionReq) || (m =? gtpv2CreateSessionResp)
  || (m =? gtpv2ModifyBearerReq) || (m =? gtpv2ModifyBearerResp).
Definition closes_session (m : Z) : bool :=
  (m =? gtpv2DeleteSessionReq) || (m =? gtpv2DeleteSessionResp).
Definition learn (f : gtpFrame) (a : upfAccountant) : upfAccountant :=
  let '(imsi, teids) := parseGTPv2C f in
  if opens_session (msgType f) then
    if decide (imsi = ""%string) then a else
    let a := match byIMSI a !! imsi with
             | None => {| a with byIMSI := <[imsi := zero_bytes]> (byIMSI a) |}
             | Some _ => a
             end in
    {| a with byTEID := foldl (bind_tunnel imsi) (byTEID a) teids |}
  else if closes_session (msgType f) then
    if decide (imsi = ""%string) then a else
    {| a with byTEID := filter (fun kv => tiImsi kv.2 <> imsi) (byTEID a) |}
  else a.

Definition observe (pkt : bytes) (a : upfAccountant) : upfAccountant :=
  match parseUDPGTP pkt with
  | None => a
  | Some f =>
      if (version f =? 1) && (msgType f =? gtpv1GPDU) then count (teid f) (u64 (zlen (payload f))) a
      else if version f =? 2 then learn f a
      else a
  end.

(** Some tunnel of the subscriber is still open. *)
Definition live (a : upfAccountant) (imsi : string) : bool :=
  bool_decide (imsi ∈ tiImsi <$> values (byTEID a)).
Definition idle (a : upfAccountant) (imsi : string) (ib : imsiBytes) : bool :=
  (up ib =? 0) && (dn ib =? 0) && negb (live a imsi).
Definition session_of (now : time) (imsi : string) (ib : imsiBytes) : Session :=
  mkSession (HashIMSI imsi) "internet" "" "active" (up ib) (dn ib) now.
Definition snapshot (now : time) (a : upfAccountant)
    : upfAccountant * (gmap string Session * Z) :=
  let kept := filter (fun kv => idle a kv.1 kv.2 = false) (byIMSI a) in
  ({| a with byIMSI := kept |}, (map_imap (fun i ib => Some (session_of now i ib)) kept, unknown a)).

(** ** The source *)
Record UPF := mkUPF {
  acc : upfAccountant;
  configured : bool;      (* a packet source was given; otherwise a raw socket is opened *)
  once : bool;            (* [start]'s body has run *)
  src : bool;             (* [u.src] is set *)
  tapping : bool;         (* the tap goroutine runs *)
  stop : bool; warned : bool;
}.
Inductive PollError := ErrRawSocket.
Definition NewUPF (source_given : bool) : UPF :=
  mkUPF newAccountant source_given false false false false false.

(** [raw] is whether the operating system gives out the socket. *)
Definition start (raw : bool) (u : UPF) : UPF * option PollError :=
  if once u then (u, None)
  else if configured u || raw
  then ({| u with once := true; src := true; tapping := true |}, None)
  else ({| u with once := true |}, Some ErrRawSocket).
(** One turn of the tap's loop: the source's next packet, or its end. *)
Definition tap (pkt : option bytes) (u : UPF) : UPF :=
  if negb (tapping u) then u else
  match pkt with
  | None => {| u with tapping := false |}
  | Some pkt => if stop u then {| u with tapping := false |}
                else {| u with acc := observe pkt (acc u) |}
  end.
(** The sessions of a snapshot, in the map's order. *)
Definition Poll (raw : bool) (now : time) (u : UPF) : UPF * res PollError (list Session) :=
  let '(u, e) := start raw u in
  match e with
  | Some e => (u, Err e)
  | None =>
      let '(a, (sessions, unknown)) := snapshot now (acc u) in
      ({| u with acc := a; warned := warned u || (0 <? unknown) |}, Ok (values sessions))
  end.
Definition Close (u : UPF) : UPF := {| u with stop := true |}.

(** ** The walk *)
(** One turn of the loop on the element at the head of the input. *)
Definition turn (inner : bytes -> string * list fteid -> string * list fteid)
    (ty : Z) (value : bytes) (nested : Z) (acc : string * list fteid) : string * list fteid :=
  if ty =? ieIMSI then
    if decide (acc.1 = ""%string) then (decodeIMSI value, acc.2) else acc
  else if ty =? ieFTEID then
    match parseFTEID value with Some t => (acc.1, acc.2 ++ [t]) | None => acc end
  else if (ty =? ieBearerCtx) || (ty =? iePDNConn) then
    if nested =? 0 then inner value acc else acc
  else acc.
Definition ie_length (ies : bytes) : Z := be_get (slice ies 2 4).
Definition ie_value (ies : bytes) : bytes := take (Z.to_nat (ie_length ies)) (drop 4 ies).
Definition ie_ends (ies : bytes) : bool :=
  (zlen ies <? 4) || (zlen (drop 4 ies) <? ie_length ies).

Lemma walk_step fuel ies nested a :
  walk_steps (S fuel) ies nested a =
    if ie_ends ies then a else
    walk_steps fuel (drop (4 + Z.to_nat (ie_length ies)) ies) nested
      (turn (fun v => walk_steps fuel v 1) (at_ ies 0) (ie_value ies) nested a).
Proof. cbn [walk_steps]. unfold ie_ends. by destruct (zlen ies <? 4). Qed.
Lemma turn_ext f g ty v nested a : (forall a, f v a = g v a) ->
  turn f ty v nested a = turn g ty v nested a.
Proof. intros E. unfold turn. by rewrite E. Qed.
Lemma walk_enough f1 : forall f2 ies nested a,
  (length ies <= f1)%nat -> (length ies <= f2)%nat ->
  walk_steps f1 ies nested a = walk_steps f2 ies nested a.
Proof.
  assert (Hz : forall f nested a, walk_steps f [] nested a = a) by (by intros []).
  induction f1 as [|f1 IH]; intros f2 ies nested a H1 H2.
  { destruct ies; [|simpl in H1; lia]. by rewrite !Hz. }
  destruct f2 as [|f2]; [destruct ies; [by rewrite !Hz|simpl in H2; lia]|].
  rewrite !walk_step. destruct (ie_ends ies) eqn:E; [done|].
  unfold ie_ends in E. zbool. destruct E as [E _]. unfold zlen in E.
  rewrite (IH f2) by (rewrite length_drop; lia). f_equal.
  apply turn_ext. intros b. unfold ie_value.
  apply IH; rewrite length_take, length_drop; lia.
Qed.

(** The fuel is never exhausted: [walk] satisfies the source's loop. *)
Lemma walk_unfold ies nested a :
  walk ies nested a =
    if ie_ends ies then a
    else walk (drop (4 + Z.to_nat (ie_length ies)) ies) nested
           (turn (fun v => walk v 1) (at_ ies 0) (ie_value ies) nested a).
Proof.
  unfold walk at 1. destruct (length ies) eqn:El.
  { by destruct ies. }
  rewrite walk_step. destruct (ie_ends ies) eqn:E; [done|].
  unfold walk. rewrite (walk_enough n (length (drop (4 + Z.to_nat (ie_length ies)) ies)))
    by (rewrite ?length_drop; lia).
  f_equal. apply turn_ext. intros b.
  apply walk_enough; unfold ie_value; rewrite length_take, length_drop; lia.
Qed.

(** The layout the loop reads: type, a spare byte, length, value.  (TS 29.274
    has the length in octets 2 and 3, before the spare byte.) *)
Record element := mkElement { elType : Z; elSpare : Z; elValue : bytes }.
Definition encode_element (e : element) : bytes :=
  elType e :: elSpare e :: be_put 2 (zlen (elValue e)) ++ elValue e.


Lemma slice_bytes l lo hi : Forall is_byte l -> Forall is_byte (slice l lo hi).
Proof. intros. by apply Forall_take, Forall_drop. Qed.
Lemma head_element ies : Forall is_byte ies -> ie_ends ies = false ->
  ies = encode_element (mkElement (at_ ies 0) (at_ ies 1) (ie_value ies))
        ++ drop (4 + Z.to_nat (ie_length ies)) ies.
Proof.
  intros Hb [E1 E2]%orb_false_iff. zbool.
  destruct ies as [|b0 [|b1 [|b2 [|b3 v]]]]; try (exfalso; unfold zlen in E1; simpl in E1; lia).
  assert (Hv : zlen (ie_value (b0 :: b1 :: b2 :: b3 :: v)) = ie_length (b0 :: b1 :: b2 :: b3 :: v)).
  { pose proof (be_get_bound _ (slice_bytes _ 2 4 Hb)) as Hn.
    fold (ie_length (b0 :: b1 :: b2 :: b3 :: v)) in Hn.
    unfold ie_value, zlen in *. rewrite length_take. cbn [drop] in *. lia. }
  unfold encode_element. cbn [elType elSpare elValue]. rewrite Hv.
  unfold ie_length at 1. rewrite be_put_get_eq by (done || by apply slice_bytes).
  change (slice (b0 :: b1 :: b2 :: b3 :: v) 2 4) with [b2; b3].
  change (b0 :: b1 :: b2 :: b3 :: v) with ([b0; b1; b2; b3] ++ v) at 1.
  rewrite <- (take_drop (Z.to_nat (ie_length (b0 :: b1 :: b2 :: b3 :: v))) v) at 1. done.
Qed.

(** C35: The walk over the information elements ends on every input: the
    input is a sequence of complete elements, in the layout the loop reads,
    and a tail the loop stops at (too short for a header, or shorter than its
    length field says), and the walk is the fold of the elements' handling,
    one level deep into bearer contexts and PDN connections. *)
Theorem walk_elements ies nested a : Forall is_byte ies ->
  exists es rest, ies = (es ≫= encode_element) ++ rest /\ ie_ends rest = true /\
    walk ies nested a =
      foldl (fun a e => turn (fun v => walk v 1) (elType e) (elValue e) nested a) a es.
Proof.
  remember (length ies) as n eqn:Hn. revert ies a Hn.
  induction (lt_wf n) as [n _ IH]. intros ies a -> Hb.
  destruct (ie_ends ies) eqn:E.
  { exists [], ies. by rewrite walk_unfold, E. }
  set (e := mkElement (at_ ies 0) (at_ ies 1) (ie_value ies)).
  set (tl := drop (4 + Z.to_nat (ie_length ies)) ies).
  destruct (IH (length tl)) with (ies := tl)
    (a := turn (fun v => walk v 1) (elType e) (elValue e) nested a)
    as (es & rest & E1 & E2 & E3); [|done|by apply Forall_drop|].
  { apply orb_false_iff in E as [E _]. unfold tl, zlen in *. rewrite length_drop. zbool. lia. }
  exists (e :: es), rest. split; [|split; [done|]].
  - rewrite (head_element ies) by done. fold e tl. cbn [mbind list_bind].
    by rewrite E1, <- app_assoc.
  - rewrite walk_unfold, E. exact E3.
Qed.
Definition demo_imsi_ie : bytes := encode_element (mkElement 1 0 [153; 153; 16; 50]).
Definition demo_tunnel_ie : bytes :=
  encode_element (mkElement 93 0 (encode_element (mkElement 87 0 [128; 0; 0; 1; 2]))).
Lemma walk_elements_witness :
  Forall is_byte (demo_imsi_ie ++ demo_tunnel_ie ++ [1; 0]) /\
  walk (demo_imsi_ie ++ demo_tunnel_ie ++ [1; 0]) 0 (""%string, []) =
    ("99991032"%string, [mkFteid 0 258]) /\
  exists es rest, demo_imsi_ie ++ demo_tunnel_ie ++ [1; 0] = (es ≫= encode_element) ++ rest
    /\ ie_ends rest = true /\
    ("99991032"%string, [mkFteid 0 258]) =
      foldl (fun a e => turn (fun v => walk v 1) (elType e) (elValue e) 0 a) (""%string, []) es.
Proof.
  assert (H : Forall is_byte (demo_imsi_ie ++ demo_tunnel_ie ++ [1; 0])) by vm_decide.
  split; [exact H|]. split; [vm_compute; reflexivity|].
  exact (walk_elements _ 0 (""%string, []) H).
Defined.

(** ** Billing: the counters are the ledger of the captured traffic *)
Inductive event := Packet (pkt : bytes) | PollAt (now : time).
Definition step (a : upfAccountant) (e : event) : upfAccountant :=
  match e with Packet p => observe p a | PollAt now => (snapshot now a).1 end.
Definition run (es : list event) : upfAccountant := foldl step newAccountant es.
Definition packets (es : list event) : list bytes :=
  omap (fun e => match e with Packet p => Some p | PollAt _ => None end) es.

(** Who owns tunnel [t] after the packets [past], newest first. *)
Fixpoint owner (past : list bytes) (t : Z) : option teidInfo :=
  match past with
  | [] => None
  | p :: past =>
      match parseUDPGTP p with
      | Some f =>
          let '(imsi, teids) := parseGTPv2C f in
          if decide (imsi = ""%string) then owner past t
          else if opens_session (msgType f) then
            match last (omap (fun x => if fTeid x =? t then dirFor x else None) teids) with
            | Some d => Some (mkInfo imsi d)
            | None => owner past t
            end
          else if closes_session (msgType f) then
            match owner past t with
            | Some i => if decide (tiImsi i = imsi) then None else Some i
            | None => None
            end
          else owner past t
      | None => owner past t
      end
  end.
(** What a packet adds: the payload of user data, to the tunnel's owner then. *)
Definition charge (past : list bytes) (p : bytes) : list (option teidInfo * Z) :=
  match parseUDPGTP p with
  | Some f => if (version f =? 1) && (msgType f =? gtpv1GPDU)
              then [(owner past (teid f), zlen (payload f))] else []
  | None => []
  end.
Fixpoint ledger (past pkts : list bytes) : list (option teidInfo * Z) :=
  match pkts with
  | [] => []
  | p :: pkts => charge past p ++ ledger (p :: past) pkts
  end.
Definition billed (sel : option teidInfo -> bool) (l : list (option teidInfo * Z)) : Z :=
  Zsum ((fun c => if sel c.1 then c.2 else 0) <$> l).
Definition uplink_of (imsi : string) (o : option teidInfo) : bool :=
  match o with Some i => bool_decide (tiImsi i = imsi) && (tiDir i =? dirUL) | None => false end.
Definition downlink_of (imsi : string) (o : option teidInfo) : bool :=
  match o with Some i => bool_decide (tiImsi i = imsi) && negb (tiDir i =? dirUL) | None => false end.
Definition unowned (o : option teidInfo) : bool := negb (bool_decide (is_Some o)).
Definition reading (a : upfAccountant) (imsi : string) : imsiBytes :=
  default zero_bytes (byIMSI a !! imsi).

(** The accountant's state against the past and the ledger so far. *)
Record tallies (past : list bytes) (l : list (option teidInfo * Z)) (a : upfAccountant) : Prop := {
  tal_owner : forall t, byTEID a !! t = owner past t;
  tal_unknown : unknown a = u64 (billed unowned l);
  tal_up : forall i, up (reading a i) = u64 (billed (uplink_of i) l);
  tal_dn : forall i, dn (reading a i) = u64 (billed (downlink_of i) l);
}.

Lemma billed_app sel l1 l2 : billed sel (l1 ++ l2) = billed sel l1 + billed sel l2.
Proof. unfold billed. by rewrite fmap_app, Zsum_app. Qed.
Lemma billed_one sel c : billed sel [c] = if sel c.1 then c.2 else 0.
Proof. unfold billed. cbn. lia. Qed.

Lemma binds_lookup imsi teids m t :
  foldl (bind_tunnel imsi) m teids !! t =
    match last (omap (fun x => if fTeid x =? t then dirFor x else None) teids) with
    | Some d => Some (mkInfo imsi d)
    | None => m !! t
    end.
Proof.
  induction teids as [|x teids IH] using rev_ind; [done|].
  rewrite foldl_snoc, omap_app. cbn [omap list_omap]. unfold bind_tunnel at 1.
  destruct (fTeid x =? t) eqn:E; zbool.
  - destruct (dirFor x) as [d|] eqn:Ed.
    + by rewrite last_snoc, E, lookup_insert_eq.
    + by rewrite app_nil_r.
  - rewrite app_nil_r, <- IH. destruct (dirFor x); [|done]. by rewrite lookup_insert_ne.
Qed.

Lemma learn_reading f a i : reading (learn f a) i = reading a i.
Proof.
  unfold learn. destruct (parseGTPv2C f) as [imsi teids].
  case_if; [|by repeat case_if]. case_if; [done|].
  destruct (byIMSI a !! imsi) eqn:E; [done|].
  unfold reading. cbn [byIMSI]. destruct (decide (imsi = i)) as [->|].
  - by rewrite lookup_insert_eq, E.
  - by rewrite lookup_insert_ne.
Qed.
Lemma learn_owner f a t : byTEID (learn f a) !! t =
  let '(imsi, teids) := parseGTPv2C f in
  if decide (imsi = ""%string) then byTEID a !! t
  else if opens_session (msgType f) then
    match last (omap (fun x => if fTeid x =? t then dirFor x else None) teids) with
    | Some d => Some (mkInfo imsi d) | None => byTEID a !! t end
  else if closes_session (msgType f) then
    match byTEID a !! t with
    | Some i => if decide (tiImsi i = imsi) then None else Some i | None => None end
  else byTEID a !! t.
Proof.
  unfold learn. destruct (parseGTPv2C f) as [imsi teids].
  destruct (decide (imsi = ""%string)), (opens_session (msgType f)),
    (closes_session (msgType f)); try done.
  1,2: cbn [byTEID]; rewrite binds_lookup; by destruct (byIMSI a !! imsi).
  cbn [byTEID]. rewrite map_lookup_filter. destruct (byTEID a !! t) as [i|]; cbn; [|done].
  destruct (decide (tiImsi i = imsi)).
  - rewrite option_guard_False; [done|]. intros H. by apply H.
  - by rewrite option_guard_True.
Qed.
Lemma learn_unknown f a : unknown (learn f a) = unknown a.
Proof. unfold learn. destruct (parseGTPv2C f). repeat case_if; try done; by case_match. Qed.

Lemma billed_snoc sel l o n : u64 (billed sel (l ++ [(o, n)])) =
  if sel o then u64 (u64 (billed sel l) + u64 n) else u64 (billed sel l).
Proof.
  rewrite billed_app, billed_one. cbn [fst snd]. destruct (sel o).
  - by rewrite u64_add_l, u64_add_r.
  - by rewrite Z.add_0_r.
Qed.
Lemma count_reading t n a i : n <> 0 -> reading (count t n a) i =
  match byTEID a !! t with
  | Some o => if decide (tiImsi o = i) then
      if tiDir o =? dirUL then mkBytes (u64 (up (reading a i) + n)) (dn (reading a i))
      else mkBytes (up (reading a i)) (u64 (dn (reading a i) + n))
      else reading a i
  | None => reading a i
  end.
Proof.
  intros Hn. unfold count. apply Z.eqb_neq in Hn as ->.
  destruct (byTEID a !! t) as [o|]; [|done]. unfold reading. cbn [byIMSI].
  destruct (decide (tiImsi o = i)) as [->|].
  - rewrite lookup_insert_eq. cbn [default from_option]. by case_if.
  - by rewrite lookup_insert_ne.
Qed.
Lemma count_tallies past l a t n : tallies past l a ->
  tallies past (l ++ [(owner past t, n)]) (count t (u64 n) a).
Proof.
  intros [Ho Hu Hup Hdn]. destruct (decide (u64 n = 0)) as [E|E].
  { unfold count. rewrite E. cbn. split; [done| |intros i|intros i]; rewrite billed_snoc, E;
      rewrite ?Z.add_0_r, ?u64_u64, ?Hu, ?Hup, ?Hdn; by case_if. }
  split.
  - intros t'. rewrite <- Ho. unfold count. case_if; [done|]. by destruct (byTEID a !! t).
  - rewrite billed_snoc, <- Hu, <- Ho. unfold count. apply Z.eqb_neq in E as ->.
    by destruct (byTEID a !! t).
  - intros i. rewrite billed_snoc, <- Hup, count_reading, <- Ho by done.
    destruct (byTEID a !! t) as [o|]; [|done]. cbn [uplink_of].
    destruct (decide (tiImsi o = i)) as [->|]; [|by rewrite bool_decide_false].
    rewrite bool_decide_true by done. by case_if.
  - intros i. rewrite billed_snoc, <- Hdn, count_reading, <- Ho by done.
    destruct (byTEID a !! t) as [o|]; [|done]. cbn [downlink_of].
    destruct (decide (tiImsi o = i)) as [->|]; [|by rewrite bool_decide_false].
    rewrite bool_decide_true by done. by case_if.
Qed.

Lemma observe_tallies past l a p : tallies past l a ->
  tallies (p :: past) (l ++ charge past p) (observe p a).
Proof.
  intros Ht. unfold observe, charge. cbn [owner].
  assert (Hkeep : (forall t, owner (p :: past) t = owner past t) -> forall l a,
    tallies past l a -> tallies (p :: past) l a).
  { intros E l' a' []. split; auto. intros. by rewrite E. }
  destruct (parseUDPGTP p) as [f|] eqn:Ep.
  2: { rewrite app_nil_r. apply Hkeep; [|done]. intros. cbn. by rewrite Ep. }
  destruct (version f =? 2) eqn:E2.
  - apply Z.eqb_eq in E2. rewrite E2. cbn [Z.eqb Pos.eqb andb]. rewrite app_nil_r.
    destruct Ht as [Ho Hu Hup Hdn]. split.
    + intros t. rewrite learn_owner. cbn [owner]. rewrite Ep, Ho. done.
    + by rewrite learn_unknown.
    + intros i. by rewrite learn_reading.
    + intros i. by rewrite learn_reading.
  - assert (Hsame : forall t, owner (p :: past) t = owner past t).
    { intros t. cbn [owner]. rewrite Ep. unfold parseGTPv2C. by rewrite E2. }
    apply Hkeep; [done|]. case_if; [by apply count_tallies|]. by rewrite app_nil_r.
Qed.
Lemma idle_zero a i ib : idle a i ib = true -> ib = zero_bytes.
Proof.
  unfold idle. rewrite !andb_true_iff, !Z.eqb_eq. destruct ib. cbn. by intros [[-> ->] _].
Qed.
Lemma snapshot_tallies past l a now : tallies past l a -> tallies past l (snapshot now a).1.
Proof.
  intros [Ho Hu Hup Hdn].
  assert (E : forall i, reading (snapshot now a).1 i = reading a i).
  { intros i. unfold reading, snapshot. cbn [fst byIMSI]. rewrite map_lookup_filter.
    destruct (byIMSI a !! i) as [ib|]; [|done]. cbn.
    destruct (idle a i ib) eqn:E.
    - rewrite option_guard_False by congruence. cbn.
      apply idle_zero in E. by rewrite E.
    - by rewrite option_guard_True. }
  split; [done..| |]; intros i; rewrite E; auto.
Qed.
Lemma run_tallies es : forall past l a, tallies past l a ->
  tallies (rev (packets es) ++ past) (l ++ ledger past (packets es)) (foldl step a es).
Proof.
  induction es as [|[p|now] es IH]; intros past l a Ht; cbn.
  - by rewrite app_nil_r.
  - rewrite app_assoc, <- (app_assoc _ [p]). exact (IH _ _ _ (observe_tallies _ _ _ p Ht)).
  - exact (IH _ _ _ (snapshot_tallies _ _ _ now Ht)).
Qed.

(** C18: Billing never loses or invents a byte.  Whatever packets are captured
    and however often the counters are polled in between, what a poll reports
    for a subscriber is, modulo 2^64, the user data carried by the tunnels
    the signalling had given that subscriber when each packet passed, uplink
    and downlink apart; a subscriber that is not reported has no bytes; and
    the bytes of tunnels nobody owned are counted as unknown. *)
Theorem billing_is_the_ledger es now :
  let l := ledger [] (packets es) in
  let '(_, (sessions, unattributed)) := snapshot now (run es) in
  unattributed = u64 (billed unowned l) /\
  forall imsi,
    match sessions !! imsi with
    | Some s => s = session_of now imsi
        (mkBytes (u64 (billed (uplink_of imsi) l)) (u64 (billed (downlink_of imsi) l)))
    | None => u64 (billed (uplink_of imsi) l) = 0 /\ u64 (billed (downlink_of imsi) l) = 0
    end.
Proof.
  cbv zeta. assert (H0 : tallies [] [] newAccountant) by done.
  apply (run_tallies es) in H0 as [_ Hu Hup Hdn]. fold (run es) in *.
  cbn [app] in *. unfold snapshot. split; [done|]. intros i.
  rewrite <- Hup, <- Hdn. unfold reading. rewrite map_lookup_imap, map_lookup_filter.
  destruct (byIMSI (run es) !! i) as [ib|]; [|done]. cbn.
  destruct (idle (run es) i ib) eqn:E.
  - rewrite option_guard_False by congruence. cbn. by apply idle_zero in E as ->.
  - rewrite option_guard_True by done. cbn. by destruct ib.
Qed.

(** ** Signalling as TS 29.274 encodes it *)
(** The version field is the top three bits of the first octet; in GTPv1 the
    next bit, the protocol type, tells GTP from GTP'. *)
Definition standard (data : bytes) : bool :=
  (Z.shiftr (at_ data 0) 5 =? 2) || (Z.shiftr (at_ data 0) 4 =? 3).
Definition standard_packet (pkt : bytes) : bool :=
  match udp_segment pkt with Some udp => standard (drop 8 udp) | None => true end.

Lemma parseGTP_version data f : parseGTP data = Some f -> version f = 2 ->
  Z.shiftr (at_ data 0) 4 = 2.
Proof.
  unfold parseGTP. case_if; [done|].
  destruct (Z.shiftr (at_ data 0) 4 =? 3); [case_if; [done|]; by intros [= <-]|].
  destruct (Z.shiftr (at_ data 0) 4 =? 2) eqn:E; [|done]. intros _ _. by apply Z.eqb_eq.
Qed.
Lemma standard_version p f : standard_packet p = true -> parseUDPGTP p = Some f -> version f <> 2.
Proof.
  unfold standard_packet, parseUDPGTP. destruct (udp_segment p) as [udp|]; [|done].
  case_if; [done|]. intros Hs Hp E. apply (parseGTP_version _ _ Hp) in E.
  unfold standard in Hs. rewrite <- (Z.shiftr_shiftr _ 4 1) in Hs by lia.
  rewrite E in Hs. done.
Qed.

Lemma observe_standard past x p : standard_packet p = true ->
  observe p (mkAccountant ∅ ∅ (u64 x)) =
    mkAccountant ∅ ∅ (u64 (x + Zsum (snd <$> charge past p))).
Proof.
  intros Hs. unfold observe, charge. destruct (parseUDPGTP p) as [f|] eqn:Ep.
  2: { cbn. by rewrite Z.add_0_r. }
  apply standard_version in Ep as Hv; [|done]. apply Z.eqb_neq in Hv as ->.
  case_if; cbn; [|by rewrite Z.add_0_r]. unfold count. case_if.
  - zbool. by rewrite Z.add_0_r, <- u64_add_r, Heqb0, Z.add_0_r.
  - cbn. by rewrite lookup_empty, u64_add_l, u64_add_r, Z.add_0_r.
Qed.
Lemma run_standard es : forall past x, Forall (fun p => standard_packet p = true) (packets es) ->
  foldl step (mkAccountant ∅ ∅ (u64 x)) es =
    mkAccountant ∅ ∅ (u64 (x + Zsum (snd <$> ledger past (packets es)))).
Proof.
  induction es as [|[p|now] es IH]; intros past x Hs.
  - cbn. by rewrite Z.add_0_r.
  - apply Forall_cons in Hs as [Hp Hs]. cbn [foldl step packets omap list_omap ledger].
    rewrite (observe_standard past), (IH (p :: past)) by done.
    by rewrite fmap_app, Zsum_app, Z.add_assoc.
  - exact (IH past x Hs).
Qed.

(** No signalling that follows the standard is ever learned: GTPv2-C has
    4 or 5 in its first nibble, and only 2 is read as version 2.  So however
    long it runs on conforming traffic the accountant attributes no byte to
    anyone: every poll is empty and all user data is counted as unknown. *)
Theorem standard_signalling_never_learned es now :
  Forall (fun p => standard_packet p = true) (packets es) ->
  snapshot now (run es) =
    (mkAccountant ∅ ∅ (u64 (Zsum (snd <$> ledger [] (packets es)))),
     (∅, u64 (Zsum (snd <$> ledger [] (packets es))))).
Proof.
  intros Hs. unfold run. change newAccountant with (mkAccountant ∅ ∅ (u64 0)).
  rewrite (run_standard es [] 0) by done. done.
Qed.

(** A Create Session Request as the standard encodes it, and user data on the
    tunnel it announces. *)
Definition udp_packet (data : bytes) : bytes :=
  [69; 0; 0; 0; 0; 0; 0; 0; 64; 17; 0; 0; 10; 0; 0; 1; 10; 0; 0; 2]
  ++ [8; 75; 8; 75; 0; 0; 0; 0] ++ data.
Definition demo_signalling : bytes :=
  udp_packet ([72; 32; 0; 25; 0; 0; 0; 0; 0; 0; 1; 0]
    ++ [1; 0; 8; 0; 153; 153; 33; 67; 101; 135; 9; 241] ++ [87; 0; 5; 0; 128; 0; 0; 1; 2]).
Definition demo_data : bytes := udp_packet ([48; 255; 0; 3; 0; 0; 1; 2] ++ [1; 2; 3]).
(** The same in the layout [parseGTP] and [walk] read. *)
Definition demo_accepted : bytes :=
  udp_packet ([32; 32; 0; 21; 0; 0; 0; 0] ++ demo_imsi_ie ++ demo_tunnel_ie).
Example demo_metered :
  (snapshot 7 (run [Packet demo_accepted; PollAt 1; Packet demo_data; Packet demo_data])).2 =
    ({["99991032"%string := session_of 7 "99991032" (mkBytes 6 0)]}, 0).
Proof. vm_compute. reflexivity. Qed.
Lemma standard_signalling_never_learned_witness :
  Forall (fun p => standard_packet p = true)
    (packets [Packet demo_signalling; Packet demo_data; PollAt 1]) /\
  snapshot 7 (run [Packet demo_signalling; Packet demo_data; PollAt 1]) =
    (mkAccountant ∅ ∅ 3, (∅, 3)).
Proof.
  assert (H : Forall (fun p => standard_packet p = true)
    (packets [Packet demo_signalling; Packet demo_data; PollAt 1])) by vm_decide.
  split; [exact H|].
  exact (standard_signalling_never_learned _ 7 H).
Defined.

(** ** The tap *)
Inductive op := OpTap (pkt : option bytes) | OpPoll (raw : bool) (now : time) | OpClose.
Definition exec (u : UPF) (o : op) : UPF :=
  match o with
  | OpTap p => tap p u
  | OpPoll raw now => (Poll raw now u).1
  | OpClose => Close u
  end.

(** A raw socket that could not be opened is reported once.  After the
    first failing poll no tap ever runs, and every later poll, whatever the
    system would answer by then, succeeds with no sessions: the caller takes
    the failure for an idle network. *)
Theorem failed_start_is_silent now ops raw now' :
  let '(u, r) := Poll false now (NewUPF false) in
  r = Err ErrRawSocket /\
  (Poll raw now' (foldl exec u ops)).2 = Ok [].
Proof.
  split; [done|].
  assert (Hinv : forall u, once u = true /\ tapping u = false /\ acc u = newAccountant ->
    forall o, let u' := exec u o in
      once u' = true /\ tapping u' = false /\ acc u' = newAccountant).
  { intros [a c o s t st w] (Ho & Ht & Ha) []; cbn in *; subst; done. }
  set (u := {| acc := _ |}).
  assert (H : once u = true /\ tapping u = false /\ acc u = newAccountant) by done.
  clearbody u. revert u H. induction ops as [|o ops IH]; intros u H; cbn [foldl].
  - destruct H as (Ho & _ & Ha). unfold Poll, start. by rewrite Ho, Ha.
  - by apply IH, Hinv.
Qed.
