(* ===== verification/Ber.v ===== *)
(** * Ber: the tolerant BER reader of the charging-record collector

    [core/fairwave-control/internal/collector/cdr.go], the section on ASN.1
    BER.  [parseTLV] reads one element, [parseChildren] splits a constructed
    element; its loop is bounded by the length of its input because every
    element takes at least two bytes.  [berTLV] is the encoder the charging
    function uses (the fixture builders of [cdr_test.go]). *)
From S2P Require Import Prelude.

Definition classUniversal : Z := 0.
Definition classContext : Z := 2.

Record tlv := mkTlv { class : Z; constructed : bool; tag : Z; content : bytes }.
#[global] Instance tlv_eq_dec : EqDecision tlv.
Proof. solve_decision. Defined.

Inductive BerError := ErrShort | ErrTruncatedTag | ErrTruncatedLength | ErrLongForm | ErrRange.
#[global] Instance BerError_eq_dec : EqDecision BerError.
Proof. solve_decision. Defined.

(** ** Reading *)
(** The loop of the high tag number form: the tag and the offset after it. *)
Fixpoint high_tag (t off : Z) (rest : bytes) : option (Z * Z) :=
  match rest with
  | [] => None
  | x :: rest =>
      let t := i64 (Z.lor (Z.shiftl t 7) (Z.land x 127)) in
      if Z.land x 128 =? 0 then Some (t, off + 1) else high_tag t (off + 1) rest
  end.
(** The loop [length = length<<8 | int64(b[off+i])]. *)
Definition fold_length (l : bytes) : Z := foldl (fun n x => Z.lor (Z.shiftl n 8) x) 0 l.

Definition parseTLV (b : bytes) : res BerError (tlv * bytes) :=
  if zlen b <? 2 then Err ErrShort else
  let id := at_ b 0 in
  let cls := Z.shiftr id 6 in
  let cons := negb (Z.land id 32 =? 0) in
  let low := Z.land id 31 in
  match (if low =? 31 then high_tag 0 1 (drop 1 b) else Some (low, 1)) with
  | None => Err ErrTruncatedTag
  | Some (tg, off) =>
      if zlen b <=? off then Err ErrTruncatedLength else
      let first := at_ b off in
      let off := off + 1 in
      let n := Z.land first 127 in
      let long := negb (Z.land first 128 =? 0) in
      if long && ((n =? 0) || (4 <? n) || (zlen b <? off + n)) then Err ErrLongForm else
      let length := if long then fold_length (slice b off (off + n)) else first in
      let off := if long then off + n else off in
      if (length <? 0) || (zlen b <? off + length) then Err ErrRange
      else Ok (mkTlv cls cons tg (slice b off (off + length)),
               drop (Z.to_nat (off + length)) b)
  end.

Fixpoint children_steps (fuel : nat) (rest : bytes) : res BerError (list tlv) :=
  match rest with
  | [] => Ok []
  | _ =>
      match fuel with
      | O => Err ErrRange
      | S fuel =>
          match parseTLV rest with
          | Err e => Err e
          | Ok (t, r) => match children_steps fuel r with Err e => Err e | Ok l => Ok (t :: l) end
          end
      end
  end.
Definition parseChildren (content : bytes) : res BerError (list tlv) :=
  children_steps (length content) content.

Fixpoint findTag (tlvs : list tlv) (tg : Z) : option tlv :=
  match tlvs with
  | [] => None
  | t :: tlvs => if (class t =? classContext) && (tag t =? tg) then Some t else findTag tlvs tg
  end.
Definition findChild (t : tlv) (tg : Z) : option tlv :=
  match parseChildren (content t) with Err _ => None | Ok children => findTag children tg end.

Definition uintValue (t : option tlv) : Z :=
  match t with
  | None => 0
  | Some t => foldl (fun v x => Z.lor (u64 (Z.shiftl v 8)) x) 0 (content t)
  end.

(** ** Writing *)
(** The bytes of a length: one below 128, else a count and the big-endian
    digits without leading zeros. *)
Definition length_digits (n : Z) : nat :=
  if n <? 256 then 1 else if n <? 65536 then 2 else if n <? 16777216 then 3 else 4.
Definition berLength (n : Z) : bytes :=
  if n <? 128 then [n]
  else Z.lor (Z.of_nat (length_digits n)) 128 :: be_put (length_digits n) n.
Definition berTLV (id : Z) (content : bytes) : bytes := id :: berLength (zlen content) ++ content.
Definition ctxPrim (tg : Z) (content : bytes) : bytes := berTLV (128 + tg) content.
Definition ctxCons (tg : Z) (content : bytes) : bytes := berTLV (160 + tg) content.
Definition uniSeq (content : bytes) : bytes := berTLV 48 content.
(** The element an identifier octet below the high tag form stands for. *)
Definition element (id : Z) (content : bytes) : tlv :=
  mkTlv (Z.shiftr id 6) (negb (Z.land id 32 =? 0)) (Z.land id 31) content.

(** ** Bit operations as arithmetic *)
Lemma lor_byte a b k : 0 <= k -> 0 <= b < 2 ^ k -> Z.lor (Z.shiftl a k) b = a * 2 ^ k + b.
Proof.
  intros Hk Hb. rewrite <- Z.shiftl_mul_pow2 by done.
  pose proof (Z.add_lor_land (Z.shiftl a k) b) as E.
  replace (Z.land (Z.shiftl a k) b) with 0 in E; [lia|].
  symmetry. apply Z.bits_inj'. intros i Hi. rewrite Z.land_spec, Z.bits_0.
  destruct (decide (i < k)).
  - by rewrite Z.shiftl_spec_low.
  - rewrite <- (Z.mod_small b (2 ^ k)), Z.mod_pow2_bits_high by lia.
    apply andb_false_r.
Qed.
Lemma fold_length_be l : Forall is_byte l -> fold_length l = be_get l.
Proof.
  unfold fold_length, be_get. generalize 0. induction l as [|x l IH]; intros n Hl; [done|].
  apply Forall_cons in Hl as [Hx Hl]. cbn [foldl].
  rewrite lor_byte by (unfold is_byte in Hx; lia). by apply IH.
Qed.
Lemma u64_shift_byte n x : is_byte x -> Z.lor (u64 (Z.shiftl (u64 n) 8)) x = u64 (n * 256 + x).
Proof.
  intros Hx. unfold u64, is_byte in *. rewrite Z.shiftl_mul_pow2 by done.
  rewrite Z.mul_mod_idemp_l by done.
  pose proof (Z.mod_pos_bound n (2 ^ 56) ltac:(done)) as Hr.
  pose proof (Z.div_mod n (2 ^ 56) ltac:(done)) as E.
  set (q := n / 2 ^ 56) in *. set (r := n mod 2 ^ 56) in *. clearbody q r. subst n.
  replace ((2 ^ 56 * q + r) * 2 ^ 8) with (r * 256 + q * 2 ^ 64) by ring.
  replace ((2 ^ 56 * q + r) * 256 + x) with (r * 256 + x + q * 2 ^ 64) by ring.
  rewrite !Z.mod_add by done. rewrite !Z.mod_small by lia.
  change 256 with (2 ^ 8). rewrite <- (lor_byte r x 8) by lia.
  by rewrite Z.shiftl_mul_pow2.
Qed.
Lemma uintValue_be t : Forall is_byte (content t) -> uintValue (Some t) = u64 (be_get (content t)).
Proof.
  intros Hl. unfold uintValue, be_get. set (l := content t) in *. clearbody l.
  change (foldl (fun v x => Z.lor (u64 (Z.shiftl v 8)) x) (u64 0) l
          = u64 (foldl (fun a b => a * 256 + b) 0 l)).
  generalize 0. induction Hl as [|x l Hx Hl IH]; intros n; [done|].
  cbn [foldl]. rewrite <- IH. by rewrite u64_shift_byte.
Qed.

(** ** The reader makes progress, and never leaves its input *)
Lemma high_tag_offset rest : forall t off t' off',
  high_tag t off rest = Some (t', off') -> off < off' <= off + zlen rest.
Proof.
  induction rest as [|x rest IH]; intros t off t' off'; cbn; [done|]. rewrite zlen_cons.
  pose proof (zlen_nonneg rest). case_if; [intros [= <- <-]; lia|]. intros Ht%IH. lia.
Qed.
(** An element takes at least two bytes, the rest is a suffix of the input,
    and the content is the bytes before it. *)
Lemma parseTLV_split b t r : parseTLV b = Ok (t, r) ->
  exists hdr, b = hdr ++ content t ++ r /\ 2 <= zlen hdr.
Proof.
  unfold parseTLV. case_if; [done|].
  destruct (if Z.land (at_ b 0) 31 =? 31 then _ else _) as [[tg off]|] eqn:Et; [|done].
  assert (Hoff : 1 <= off).
  { case_if; [apply high_tag_offset in Et; lia|]. injection Et as <- <-. lia. }
  case_if; [done|]. case_if; [done|].
  set (first := at_ b off) in *.
  set (long := negb (Z.land first 128 =? 0)) in *.
  set (n := Z.land first 127) in *.
  set (len := if long then fold_length (slice b (off + 1) (off + 1 + n)) else first).
  set (off2 := if long then off + 1 + n else off + 1).
  assert (Hoff2 : 2 <= off2).
  { assert (0 <= n) by (apply Z.land_nonneg; lia).
    unfold off2. destruct long; lia. }
  case_if; [done|]. intros [= <- <-]. cbn [content]. zbool.
  exists (take (Z.to_nat off2) b). unfold slice, zlen in *. split; [|rewrite length_take; lia].
  replace (off2 + len - off2) with len by lia.
  rewrite Z2Nat.inj_add by lia. by rewrite <- drop_drop, !take_drop.
Qed.
Lemma parseTLV_rest b t r : parseTLV b = Ok (t, r) -> (length r < length b)%nat.
Proof.
  intros (hdr & -> & Hh)%parseTLV_split. unfold zlen in Hh. rewrite !length_app. lia.
Qed.

Lemma children_enough f1 : forall f2 b, (length b <= f1)%nat -> (length b <= f2)%nat ->
  children_steps f1 b = children_steps f2 b.
Proof.
  induction f1 as [|f1 IH]; intros f2 b H1 H2.
  { destruct b; [|simpl in H1; lia]. by destruct f2. }
  destruct b as [|x b]; [by destruct f2|]. destruct f2 as [|f2]; [simpl in H2; lia|].
  cbn [children_steps]. destruct (parseTLV (x :: b)) as [[t r]|] eqn:E; [|done].
  apply parseTLV_rest in E. simpl in *. by rewrite (IH f2) by lia.
Qed.
(** The loop of [parseChildren], which always ends. *)
Lemma parseChildren_unfold b :
  parseChildren b =
    match b with
    | [] => Ok []
    | _ => match parseTLV b with
           | Err e => Err e
           | Ok (t, r) => match parseChildren r with Err e => Err e | Ok l => Ok (t :: l) end
           end
    end.
Proof.
  destruct b as [|x b]; [done|]. unfold parseChildren at 1. cbn [length children_steps].
  destruct (parseTLV (x :: b)) as [[t r]|] eqn:E; [|done].
  apply parseTLV_rest in E. unfold parseChildren. simpl in E.
  by rewrite (children_enough _ (length r)) by lia.
Qed.

(** ** What the encoder writes is read back *)
Lemma length_digits_bound n : 0 <= n < 2 ^ 32 ->
  n < 256 ^ Z.of_nat (length_digits n) /\ (1 <= length_digits n <= 4)%nat.
Proof. intros H. unfold length_digits. repeat case_if; zbool; cbn; lia. Qed.
Lemma short_length_byte n : 0 <= n < 128 -> Z.land n 128 = 0 /\ Z.land n 127 = n.
Proof. revert n. apply (finite_fact _ _). vm_compute. reflexivity. Qed.
Lemma long_length_byte k : 0 <= k < 5 ->
  Z.land (Z.lor k 128) 128 = 128 /\ Z.land (Z.lor k 128) 127 = k.
Proof. revert k. apply (finite_fact _ _). vm_compute. reflexivity. Qed.
Lemma slice_prefix {A} (l1 l2 l3 : list A) lo hi : lo = zlen l1 -> hi = lo + zlen l2 ->
  slice (l1 ++ l2 ++ l3) lo hi = l2.
Proof.
  intros -> ->. rewrite slice_app_skip by lia. rewrite Z.sub_diag. apply slice_app_l. lia.
Qed.
Lemma drop_prefix {A} (l1 l2 : list A) n : n = zlen l1 -> drop (Z.to_nat n) (l1 ++ l2) = l2.
Proof. intros ->. unfold zlen. rewrite Nat2Z.id. apply drop_app_length. Qed.
(** What [parseTLV] does after the identifier and the length's first byte. *)
Lemma parseTLV_low id first tl : Z.land id 31 <> 31 ->
  let b := id :: first :: tl in
  let n := Z.land first 127 in
  let long := negb (Z.land first 128 =? 0) in
  parseTLV b =
    if long && ((n =? 0) || (4 <? n) || (zlen b <? 2 + n)) then Err ErrLongForm else
    let length := if long then fold_length (slice b 2 (2 + n)) else first in
    let off := if long then 2 + n else 2 in
    if (length <? 0) || (zlen b <? off + length) then Err ErrRange
    else Ok (element id (slice b off (off + length)), drop (Z.to_nat (off + length)) b).
Proof.
  intros Hid. cbv zeta. unfold parseTLV. rewrite !zlen_cons. pose proof (zlen_nonneg tl).
  replace (1 + (1 + zlen tl) <? 2) with false by (symmetry; zbool; lia).
  change (at_ (id :: first :: tl) 0) with id. change (at_ (id :: first :: tl) 1) with first.
  apply Z.eqb_neq in Hid as ->.
  replace (1 + (1 + zlen tl) <=? 1) with false by (symmetry; zbool; lia). done.
Qed.

(** One element, encoded with an identifier below the high tag form. *)
Lemma parseTLV_berTLV id body rest : Z.land id 31 <> 31 -> zlen body < 2 ^ 32 ->
  parseTLV (berTLV id body ++ rest) = Ok (element id body, rest).
Proof.
  intros Hid Hlen. pose proof (zlen_nonneg body) as H0. pose proof (zlen_nonneg rest).
  unfold berTLV, berLength. destruct (zlen body <? 128) eqn:E; zbool.
  - destruct (short_length_byte (zlen body)) as [E1 E2]; [lia|].
    cbn [app]. rewrite parseTLV_low by done. cbv zeta. rewrite E1. cbn [negb Z.eqb andb].
    rewrite !zlen_cons, zlen_app.
    replace (_ || _) with false by (symmetry; zbool; lia).
    change (id :: zlen body :: body ++ rest) with ([id; zlen body] ++ body ++ rest).
    rewrite slice_prefix, (app_assoc _ body rest), drop_prefix by (rewrite ?zlen_app; done).
    done.
  - destruct (length_digits_bound (zlen body)) as [Hd Hk]; [lia|].
    set (k := length_digits (zlen body)) in *. set (D := be_put k (zlen body)).
    destruct (long_length_byte (Z.of_nat k)) as [E1 E2]; [lia|].
    assert (HD : zlen D = Z.of_nat k) by apply zlen_be_put.
    cbn [app]. rewrite parseTLV_low by done. cbv zeta. rewrite E1, E2, <- app_assoc.
    set (first := Z.lor _ _) in *. cbn [negb Z.eqb].
    rewrite !zlen_cons, !zlen_app, HD.
    replace (_ || _) with false by (symmetry; zbool; lia). cbn [andb].
    assert (HL : fold_length (slice (id :: first :: D ++ body ++ rest) 2 (2 + Z.of_nat k))
                 = zlen body).
    { rewrite (slice_prefix [id; first] D (body ++ rest)) by (rewrite ?HD; done).
      rewrite fold_length_be by apply be_put_bytes. unfold D. rewrite be_get_put.
      apply Z.mod_small. lia. }
    rewrite HL. replace (_ || _) with false by (symmetry; zbool; lia).
    change (id :: first :: D ++ body ++ rest) with (([id; first] ++ D) ++ body ++ rest).
    rewrite slice_prefix, (app_assoc _ body rest), drop_prefix
      by (rewrite ?zlen_app, ?HD; unfold zlen; simpl; lia). done.
Qed.
Lemma berTLV_cons id body : berTLV id body = id :: berLength (zlen body) ++ body.
Proof. done. Qed.

(** A sequence of encoded elements, split again. *)
Definition encodable (e : Z * bytes) : Prop := Z.land e.1 31 <> 31 /\ zlen e.2 < 2 ^ 32.
#[global] Instance encodable_dec e : Decision (encodable e).
Proof. unfold encodable. apply _. Defined.
Definition encode_all (es : list (Z * bytes)) : bytes := es ≫= fun e => berTLV e.1 e.2.
Lemma parseChildren_encode es : Forall encodable es ->
  parseChildren (encode_all es) = Ok ((fun e => element e.1 e.2) <$> es).
Proof.
  induction 1 as [|[id body] es [Hid Hlen] Hes IH]; [done|].
  rewrite parseChildren_unfold. cbn [encode_all mbind list_bind fst snd].
  fold (encode_all es). rewrite parseTLV_berTLV by done. rewrite IH.
  by rewrite berTLV_cons.
Qed.
