(* ===== verification/RawTap.v ===== *)
(** * RawTap: the GTP tap on a raw socket

    [core/fairwave-control/internal/collector/upf_raw_linux.go] and the stub
    of other systems, under [upf.go]'s [start], [tap] and [Close].  The system
    calls are a class: what they answer is the kernel's, what they do to the
    table of descriptors is their documented behaviour.  Composed with [Upf]:
    the tap's accounts are those of the packets the kernel delivered, and the
    tap holds one descriptor from its start to its close. *)
From S2P Require Import Prelude.
From S2P Require Import Api.
From S2P Require Import Upf.
From S2P Require Ber.

(** ** The system calls *)
Class Kernel (K : Type) := {
  interface_by_name : K -> string -> option Z;
  socket : K -> Z -> K * option Z;                 (* AF_PACKET, SOCK_DGRAM, a protocol *)
  bind : K -> Z -> Z -> Z -> K * bool;             (* descriptor, protocol, interface *)
  recvfrom : K -> Z -> K * option bytes;           (* the datagram, before it is cut to the buffer *)
  close_fd : K -> Z -> K * bool;
  fds : K -> gset Z;
  socket_fds : forall k p, match socket k p with
    | (k', Some fd) => fd ∉ fds k /\ fds k' = {[fd]} ∪ fds k
    | (k', None) => fds k' = fds k
    end;
  bind_fds : forall k fd p i, fds (bind k fd p i).1 = fds k;
  recvfrom_fds : forall k fd, fds (recvfrom k fd).1 = fds k;
  close_fds : forall k fd, fds (close_fd k fd).1 = fds k ∖ {[fd]};
}.

(** Host to network order of sixteen bits, on a little-endian machine. *)
Definition htons (v : Z) : Z := Z.lor (u16 (Z.shiftl v 8)) (Z.shiftr v 8).
Definition ETH_P_ALL : Z := 3.
Definition buffer : nat := Z.to_nat 65536.

Inductive RawError := ErrNoIface | ErrInterface | ErrSocket | ErrBind | ErrNotLinux | ErrRecv.
Record RawSocket := mkRawSocket { fd : Z; ifi : Z; name : string }.

Section Tap.
Context {K : Type} `{!Kernel K}.

Definition NewRawSocket (iface : string) (k : K) : K * res RawError RawSocket :=
  if decide (iface = ""%string) then (k, Err ErrNoIface)
  else match interface_by_name k iface with
  | None => (k, Err ErrInterface)
  | Some i =>
      match socket k (htons ETH_P_ALL) with
      | (k, None) => (k, Err ErrSocket)
      | (k, Some fd) =>
          match bind k fd (htons ETH_P_ALL) i with
          | (k, false) => ((close_fd k fd).1, Err ErrBind)
          | (k, true) => (k, Ok (mkRawSocket fd i iface))
          end
      end
  end.
(** [n] bounds the reads; what is left of it is returned.  [None]: still in
    the loop, every read so far was empty. *)
Fixpoint Next (n : nat) (r : RawSocket) (k : K) : nat * K * option (res RawError bytes) :=
  match n with
  | O => (O, k, None)
  | S n =>
      match recvfrom k (fd r) with
      | (k, None) => (n, k, Some (Err ErrRecv))
      | (k, Some d) => if decide (d = []) then Next n r k else (n, k, Some (Ok (take buffer d)))
      end
  end.
Definition Close (r : RawSocket) (k : K) : K * bool := close_fd k (fd r).
(** Other systems. *)
Definition NewRawSocket_stub (iface : string) (k : K) : K * res RawError RawSocket := (k, Err ErrNotLinux).

(** ** The source over the kernel *)
Record Tap := mkTap { upf : UPF; sock : option RawSocket }.
(** [start]: the socket is opened on first use, once; [open] is the system's. *)
Definition start (open : string -> K -> K * res RawError RawSocket) (iface : string) (t : Tap) (k : K) :
    Tap * K * option PollError :=
  if once (upf t) || configured (upf t) then
    let '(u, e) := Upf.start false (upf t) in ({| t with upf := u |}, k, e)
  else match open iface k with
  | (k, Err _) => let '(u, e) := Upf.start false (upf t) in ({| t with upf := u |}, k, e)
  | (k, Ok r) => let '(u, e) := Upf.start true (upf t) in (mkTap u (Some r), k, e)
  end.
(** The tap's goroutine for as long as [m] turns and [n] reads last. *)
Fixpoint tap (m n : nat) (r : RawSocket) (k : K) (u : UPF) : K * UPF :=
  match m with
  | O => (k, u)
  | S m =>
      if negb (tapping u) then (k, u)
      else match Next n r k with
      | (n, k, None) => (k, u)
      | (n, k, Some (Err _)) => (k, Upf.tap None u)
      | (n, k, Some (Ok p)) => tap m n r k (Upf.tap (Some p) u)
      end
  end.
Definition Tap_Close (t : Tap) (k : K) : Tap * K :=
  ({| t with upf := Upf.Close (upf t) |}, match sock t with Some r => (Close r k).1 | None => k end).

(** ** What the kernel delivers *)
Fixpoint deliveries (n : nat) (f : Z) (k : K) : list (option bytes) :=
  match n with
  | O => []
  | S n => let '(k, d) := recvfrom k f in d :: deliveries n f k
  end.
(** The packets before the first error, and whether there was one. *)
Fixpoint received (ds : list (option bytes)) : list bytes * bool :=
  match ds with
  | [] => ([], false)
  | None :: _ => ([], true)
  | Some d :: ds => let '(ps, e) := received ds in (if decide (d = []) then ps else take buffer d :: ps, e)
  end.
Lemma buffer_pos : (0 < buffer)%nat.
Proof. unfold buffer. lia. Qed.
Lemma Next_fds n r k : fds (Next n r k).1.2 = fds k.
Proof.
  revert k. induction n as [|n IH]; intros k; cbn [Next]; [done|].
  pose proof (recvfrom_fds k (fd r)) as E. destruct (recvfrom k (fd r)) as [k' [d|]]; [|exact E].
  destruct (decide (d = [])); [by rewrite IH|exact E].
Qed.
(** A call of [Next] on what is delivered. *)
Lemma Next_received n r k : 
  match Next n r k with
  | (_, _, None) => received (deliveries n (fd r) k) = ([], false)
  | (_, _, Some (Err _)) => received (deliveries n (fd r) k) = ([], true)
  | (n', k', Some (Ok p)) => (n' < n)%nat /\ p <> [] /\ (length p <= buffer)%nat /\
      let '(ps, e) := received (deliveries n' (fd r) k') in received (deliveries n (fd r) k) = (p :: ps, e)
  end.
Proof.
  revert k. induction n as [|n IH]; intros k; cbn [Next deliveries]; [done|].
  destruct (recvfrom k (fd r)) as [k1 [d|]]; [|done]. cbn [received].
  destruct (decide (d = [])) as [->|Hd].
  - specialize (IH k1). destruct (Next n r k1) as [[n' k'] [[p|]|]].
    + destruct IH as (? & ? & ? & IH). split_and!; [lia|done|done|].
      destruct (received (deliveries n' (fd r) k')) as [ps e]. by rewrite IH.
    + by rewrite IH.
    + by rewrite IH.
  - split_and!; [lia| |rewrite length_take; lia|].
    + destruct d as [|x d]; [done|]. pose proof buffer_pos as Hb. by destruct buffer; [lia|].
    + by destruct (received (deliveries n (fd r) k1)).
Qed.
Lemma tap_fds m n r k u : fds (tap m n r k u).1 = fds k.
Proof.
  revert n k u. induction m as [|m IH]; intros n k u; cbn [tap]; [done|]. destruct (tapping u); [cbn [negb]|done].
  pose proof (Next_fds n r k) as E. destruct (Next n r k) as [[n' k'] [[p|]|]]; cbn in E; [by rewrite IH|done|done].
Qed.
(** The tap's loop accounts for what was delivered, and ends with the source. *)
Lemma tap_received m n r k u : (n <= m)%nat -> tapping u = true -> stop u = false ->
  let '(ps, e) := received (deliveries n (fd r) k) in
  let u' := (tap m n r k u).2 in
  acc u' = foldl (fun a p => observe p a) (acc u) ps /\ tapping u' = negb e /\ stop u' = false.
Proof.
  revert n k u. induction m as [|m IH]; intros n k u Hn Ht Hs.
  { assert (n = O) as -> by lia. done. }
  cbn [tap]. rewrite Ht. cbn [negb]. pose proof (Next_received n r k) as HN.
  destruct (Next n r k) as [[n' k'] [[p|]|]].
  - destruct HN as (Hlt & _ & _ & HN). assert (Hu : Upf.tap (Some p) u = {| u with acc := observe p (acc u) |}).
    { unfold Upf.tap. by rewrite Ht, Hs. }
    specialize (IH n' k' (Upf.tap (Some p) u) ltac:(lia)). rewrite Hu in *. specialize (IH Ht Hs).
    destruct (received (deliveries n' (fd r) k')) as [ps e]. rewrite HN. exact IH.
  - rewrite HN. unfold Upf.tap. rewrite Ht. by cbn.
  - by rewrite HN.
Qed.
(** Opening leaks nothing: no descriptor on an error, one new one otherwise. *)
Lemma NewRawSocket_fds iface k :
  match NewRawSocket iface k with
  | (k', Ok r) => fd r ∉ fds k /\ fds k' = {[fd r]} ∪ fds k /\ name r = iface /\ interface_by_name k iface = Some (ifi r)
  | (k', Err _) => fds k' = fds k
  end.
Proof.
  unfold NewRawSocket. destruct (decide (iface = ""%string)); [done|].
  destruct (interface_by_name k iface) as [i|] eqn:Ei; [|done].
  pose proof (socket_fds k (htons ETH_P_ALL)) as Hs. destruct (socket k _) as [k1 [f|]]; [|done].
  destruct Hs as [Hf Hs]. pose proof (bind_fds k1 f (htons ETH_P_ALL) i) as Hb.
  destruct (bind k1 f _ i) as [k2 []]; cbn in Hb.
  - cbn. by rewrite Hb.
  - rewrite close_fds, Hb, Hs. set_solver.
Qed.
(** The source over the kernel is [Upf]'s with the kernel's answer. *)
Lemma start_refines open iface t k : let raw := is_ok (open iface k).2 in
  upf (start open iface t k).1.1 = (Upf.start raw (upf t)).1 /\ (start open iface t k).2 = (Upf.start raw (upf t)).2.
Proof.
  unfold start, Upf.start. destruct (open iface k) as [k' [r|e]]; cbn;
    by destruct (once (upf t)), (configured (upf t)).
Qed.
(** Elsewhere than on Linux the first poll fails, whatever the interface. *)
Lemma start_stub iface k : let '(t, k', e) := start NewRawSocket_stub iface (mkTap (NewUPF false) None) k in
  sock t = None /\ k' = k /\ e = Some ErrRawSocket.
Proof. done. Qed.
End Tap.

(** The tap on a raw socket, from its first poll to its close.  The first poll
    opens one descriptor, bound to the interface for every protocol; whatever
    the kernel then delivers, the accounts are those of the packets in the
    order of their delivery, none lost or made up, each cut to the buffer, up
    to the first error, which ends the tap; the close gives the descriptor
    back.  A start that fails holds none. *)
Theorem tap_on_socket {K} `{!Kernel K} iface n (k : K) :
  let '(t, k1, e) := start NewRawSocket iface (mkTap (NewUPF false) None) k in
  match sock t with
  | None => e = Some ErrRawSocket /\ fds k1 = fds k
  | Some r =>
      e = None /\ fd r ∉ fds k /\ fds k1 = {[fd r]} ∪ fds k /\ interface_by_name k iface = Some (ifi r) /\
      let '(k2, u) := tap n n r k1 (upf t) in
      let '(ps, failed) := received (deliveries n (fd r) k1) in
      acc u = foldl (fun a p => observe p a) newAccountant ps /\ tapping u = negb failed /\
      fds (Tap_Close (mkTap u (Some r)) k2).2 = fds k
  end.
Proof.
  unfold start. cbn [once configured upf NewUPF orb]. pose proof (NewRawSocket_fds iface k) as HN.
  destruct (NewRawSocket iface k) as [k1 [r|e]]; cbn; [|done]. destruct HN as (Hf & Hk & _ & Hi).
  split_and!; [done..|]. set (u0 := {| acc := _ |}).
  pose proof (tap_fds n n r k1 u0) as Ht. pose proof (tap_received n n r k1 u0 ltac:(done) eq_refl eq_refl) as Hr.
  destruct (tap n n r k1 u0) as [k2 u], (received (deliveries n (fd r) k1)) as [ps failed]. cbn in Ht, Hr.
  destruct Hr as (? & ? & ?). split_and!; [done..|]. cbn. unfold Close. rewrite close_fds, Ht, Hk. set_solver.
Qed.
(** The bytes are swapped, and swapped back. *)
Lemma htons_swaps a b : 0 <= a < 256 -> 0 <= b < 256 -> htons (256 * a + b) = 256 * b + a.
Proof.
  intros Ha Hb. unfold htons, u16. rewrite Z.shiftl_mul_pow2, Z.shiftr_div_pow2 by lia. change (2 ^ 8) with 256.
  replace ((256 * a + b) / 256) with a by (rewrite (Z.mul_comm 256), Z.div_add_l by lia; rewrite Z.div_small; lia).
  replace (((256 * a + b) * 256) mod 2 ^ 16) with (Z.shiftl b 8).
  2: { rewrite Z.shiftl_mul_pow2 by lia. change (2 ^ 16) with (256 * 256). change (2 ^ 8) with 256.
       rewrite Z.mul_mod_distr_r by lia. by rewrite Z.add_comm, (Z.mul_comm 256 a), Z_mod_plus_full, Z.mod_small by lia. }
  rewrite Ber.lor_byte by lia. lia.
Qed.

(** ** A kernel with one interface and what it will deliver *)
Definition demo_kernel : Type := (gset Z * list (option bytes))%type.
#[export] Instance demo_kernel_ops : Kernel demo_kernel.
Proof.
  refine {| interface_by_name := fun _ n => if decide (n = "fwnet"%string) then Some 4 else None;
    socket := fun k _ => (({[fresh k.1]} ∪ k.1, k.2), Some (fresh k.1));
    bind := fun k _ _ _ => (k, true);
    recvfrom := fun k _ => ((k.1, tail k.2), match k.2 with d :: _ => d | [] => None end);
    close_fd := fun k f => ((k.1 ∖ {[f]}, k.2), true);
    fds := fst |}; cbn; try done.
  intros k _. split; [apply is_fresh|done].
Defined.
Example demo_tap :
  let k : demo_kernel := (∅, [Some demo_signalling; Some []; Some demo_data; None; Some demo_data]) in
  match start NewRawSocket "fwnet" (mkTap (NewUPF false) None) k with
  | (mkTap u (Some r), k1, None) =>
      let '(k2, u) := tap 9 9 r k1 u in
      (tapping u, bool_decide (k2.2 = [Some demo_data]))
  | _ => (true, false)
  end = (false, true).
Proof. vm_compute. done. Qed.
