(* ===== verification/Cdr.v ===== *)
(** * Cdr: metering from the charging function's record files

    [core/fairwave-control/internal/collector/cdr.go], but for its BER reader
    ([Ber]): the record files of TS 32.297, the charging records in them, the
    poll that totals them by subscriber, and the merge of several sources.
    The directory is the list of its entries with what reading each returns;
    a poll's answer is a map, whose order Go does not fix. *)
From S2P Require Import Prelude.
From S2P Require Import Api.
From S2P Require Import Ber.

Record cdrUsage := mkCdr { cImsi : string; cApn : string; cUp : Z; cDn : Z }.
#[global] Instance cdrUsage_eq_dec : EqDecision cdrUsage.
Proof. solve_decision. Defined.
Inductive CdrError :=
  | ErrBer (e : BerError) | ErrWrapper | ErrNoSubscriber | ErrFileShort | ErrPrivateExtension
  | ErrHeaderLength | ErrRecordCount | ErrRecordHeader | ErrRecordBody | ErrNoDir | ErrReadDir.
#[global] Instance CdrError_eq_dec : EqDecision CdrError.
Proof. solve_decision. Defined.

(** ** One record *)
Definition add_container (acc : Z * Z) (uc : tlv) : Z * Z :=
  match parseChildren (content uc) with
  | Err _ => acc
  | Ok f => (u64 (acc.1 + uintValue (findTag f 5)), u64 (acc.2 + uintValue (findTag f 6)))
  end.
Definition add_unit (acc : Z * Z) (muu : tlv) : Z * Z :=
  match parseChildren (content muu) with
  | Err _ => acc
  | Ok mFields =>
      match findTag mFields 1 with
      | None => acc
      | Some containers =>
          match parseChildren (content containers) with
          | Err _ => acc
          | Ok cFields => foldl add_container acc cFields
          end
      end
  end.
(** The text of element [tg] inside the field [t], if both are there. *)
Definition child_text (t : option tlv) (tg : Z) : string :=
  match t with
  | Some t => match findChild t tg with Some d => bytes_string (content d) | None => "" end
  | None => ""
  end.
Definition parseChargingRecord (body : bytes) : res CdrError cdrUsage :=
  match parseChildren body with
  | Err e => Err (ErrBer e)
  | Ok top =>
      let rec := match findTag top 1 with
                 | Some rec => Some rec
                 | None => match top with [t] => Some t | _ => None end
                 end in
      match rec with
      | None => Err ErrWrapper
      | Some rec =>
          match parseChildren (content rec) with
          | Err e => Err (ErrBer e)
          | Ok fields =>
              let imsi := child_text (findTag fields 2) 1 in
              if decide (imsi = ""%string) then Err ErrNoSubscriber else
              let apn := child_text (findTag fields 13) 13 in
              let '(up, dn) :=
                match findTag fields 5 with
                | None => (0, 0)
                | Some list =>
                    match parseChildren (content list) with
                    | Err _ => (0, 0)
                    | Ok muus => foldl add_unit (0, 0) muus
                    end
                end in
              Ok (mkCdr imsi apn up dn)
          end
      end
  end.

(** ** One file *)
Fixpoint parse_records (num : nat) (off : Z) (data : bytes) : res CdrError (list cdrUsage) :=
  match num with
  | O => Ok []
  | S num =>
      if zlen data <? off + 4 then Err ErrRecordHeader else
      let bodyLen := be_get (slice data off (off + 2)) in
      let release := Z.shiftr (at_ data (off + 2)) 5 in
      let recOff := off + 4 in
      let recOff := if release =? 7 then recOff + 1 else recOff in
      if zlen data <? recOff + bodyLen then Err ErrRecordBody else
      match parseChargingRecord (slice data recOff (recOff + bodyLen)) with
      | Err e => Err e
      | Ok u =>
          match parse_records num (recOff + bodyLen) data with
          | Err e => Err e
          | Ok out => Ok (u :: out)
          end
      end
  end.
Definition parseCDRFile (data : bytes) : res CdrError (list cdrUsage) :=
  if zlen data <? 52 then Err ErrFileShort else
  let routingLen := be_get (slice data 48 50) in
  let off := 50 + routingLen in
  if zlen data <? off + 2 then Err ErrPrivateExtension else
  let privLen := be_get (slice data off (off + 2)) in
  let off := off + (2 + privLen) in
  if (off <? 52) || (zlen data <? off) then Err ErrHeaderLength else
  let off := if (off <? zlen data) && (Z.shiftr (at_ data 8) 5 =? 7) then off + 1 else off in
  let off := if (off <? zlen data) && (Z.shiftr (at_ data 9) 5 =? 7) then off + 1 else off in
  let num := be_get (slice data 18 22) in
  if (num =? 0) || (65536 <? num) then Err ErrRecordCount
  else parse_records (Z.to_nat num) off data.

(** ** The directory *)
Record dirEntry := mkEntry { deName : string; deIsDir : bool; deData : option bytes }.
(** One usage record, folded into the sessions. *)
Definition add_usage (now : time) (m : gmap string Session) (u : cdrUsage) : gmap string Session :=
  if decide (cImsi u = ""%string) then m else
  let s := default (mkSession (HashIMSI (cImsi u)) "" "" "metered" 0 0 now) (m !! cImsi u) in
  let s := {| s with BytesUp := u64 (BytesUp s + cUp u) |} in
  let s := {| s with BytesDn := u64 (BytesDn s + cDn u) |} in
  let s := if decide (APN s = ""%string) then {| s with APN := cApn u |} else s in
  <[cImsi u := s]> m.
(** The usage records a directory entry contributes. *)
Definition entry_usages (e : dirEntry) : list cdrUsage :=
  if deIsDir e || negb (HasSuffix (deName e) ".cdr") then [] else
  match deData e with
  | None => []
  | Some data => match parseCDRFile data with Err _ => [] | Ok usages => usages end
  end.
Definition Poll (dir : string) (read : option (list dirEntry)) (now : time)
    : res CdrError (gmap string Session) :=
  if decide (dir = ""%string) then Err ErrNoDir else
  match read with
  | None => Err ErrReadDir
  | Some entries =>
      Ok (foldl (fun m e => foldl (add_usage now) m (entry_usages e)) ∅ entries)
  end.

(** ** Several sources *)
Definition merge_into (cur s : Session) : Session :=
  let cur := if BytesUp cur <? BytesUp s then {| cur with BytesUp := BytesUp s |} else cur in
  let cur := if BytesDn cur <? BytesDn s then {| cur with BytesDn := BytesDn s |} else cur in
  let cur := if decide (APN cur = ""%string) then {| cur with APN := APN s |} else cur in
  let cur := if decide (IP cur = ""%string) then {| cur with IP := IP s |} else cur in
  if decide (Phase cur = ""%string \/ Phase cur = "metered"%string)
  then {| cur with Phase := Phase s |} else cur.
Definition merge_one (byHash : gmap string Session) (s : Session) : gmap string Session :=
  match byHash !! IMSIHash s with
  | None => <[IMSIHash s := s]> byHash
  | Some cur => <[IMSIHash s := merge_into cur s]> byHash
  end.
Definition mergeSessions (l : list Session) : gmap string Session := foldl merge_one ∅ l.
(** [Multi.Poll] on what its sources answer, in their order. *)
Fixpoint poll_all {E} (sources : list (res E (list Session))) (all : list Session)
    : res E (list Session) :=
  match sources with
  | [] => Ok all
  | Err e :: _ => Err e
  | Ok sessions :: sources => poll_all sources (all ++ sessions)
  end.
Definition MultiPoll {E} (sources : list (res E (list Session))) : res E (gmap string Session) :=
  match poll_all sources [] with Err e => Err e | Ok all => Ok (mergeSessions all) end.

(** ** What the charging function writes

    The encoder of free5GC's CHF, as the fixture builders of [cdr_test.go]
    replicate it.  A unit is its uplink, downlink and total volume. *)
Record volume := mkVolume { vUp : Z; vDn : Z; vTotal : Z }.
Record charging := mkCharging {
  chImsi : string; chApn : string; chUnits : list (Z * list volume) }.

(** [berInt]'s loop, with the nine octets a 64-bit value may need. *)
Fixpoint berInt_loop (fuel : nat) (n : Z) (out : bytes) : bytes :=
  match fuel with
  | O => n :: out
  | S fuel => if 127 <? n then berInt_loop fuel (Z.shiftr n 8) (Z.land n 255 :: out) else n :: out
  end.
Definition berInt (n : Z) : bytes := berInt_loop 9 n [].
Definition usedUnit (v : volume) : bytes :=
  encode_all [(132, berInt (vTotal v)); (133, berInt (vUp v)); (134, berInt (vDn v))].
Definition multiUnit (m : Z * list volume) : bytes :=
  encode_all [(128, berInt m.1); (161, encode_all ((fun v => (48, usedUnit v)) <$> m.2))].
Definition chargingSet (c : charging) : bytes :=
  encode_all ([(128, berInt 200); (129, string_bytes "SMF");
               (162, encode_all [(128, berInt 1); (129, string_bytes (chImsi c))]);
               (163, encode_all [(128, berInt 7)])]
    ++ (if decide (chApn c = ""%string) then []
        else [(173, encode_all [(128, berInt 1); (134, berInt 1);
                                (141, string_bytes (chApn c))])])
    ++ [(165, encode_all ((fun m => (48, multiUnit m)) <$> chUnits c))]).
Definition chargingRecord (c : charging) : bytes := encode_all [(161, chargingSet c)].
Definition record_bytes (rec : bytes) : bytes := be_put 2 (zlen rec) ++ [0; 32] ++ rec.
Definition cdrFile (records : list bytes) : bytes :=
  let body := records ≫= record_bytes in
  be_put 4 (52 + zlen body) ++ be_put 4 52 ++ replicate 10 0 ++ be_put 4 (zlen records)
    ++ replicate 30 0 ++ body.

Definition volumes (c : charging) : list volume := chUnits c ≫= snd.
(** The usage a record stands for. *)
Definition usage_of (c : charging) : cdrUsage :=
  mkCdr (chImsi c) (chApn c) (u64 (Zsum (vUp <$> volumes c))) (u64 (Zsum (vDn <$> volumes c))).
Definition volume_ok (v : volume) : Prop := 0 <= vUp v < 2 ^ 63 /\ 0 <= vDn v < 2 ^ 63.
(** The identifier is there, volumes are non-negative [int64]s, and the record
    fits its 16-bit length field. *)
Definition charging_ok (c : charging) : Prop :=
  chImsi c <> ""%string /\ Forall volume_ok (volumes c) /\ zlen (chargingRecord c) < 65536.
#[global] Instance volume_ok_dec v : Decision (volume_ok v).
Proof. unfold volume_ok. apply _. Defined.
#[global] Instance charging_ok_dec c : Decision (charging_ok c).
Proof. unfold charging_ok. apply _. Defined.

Lemma berInt_loop_spec f : forall n out, 0 <= n < 128 * 256 ^ Z.of_nat f -> Forall is_byte out ->
  Forall is_byte (berInt_loop f n out) /\
  be_get (berInt_loop f n out) = n * 256 ^ zlen out + be_get out.
Proof.
  assert (Hleaf : forall n out, 0 <= n < 128 -> Forall is_byte out ->
    Forall is_byte (n :: out) /\ be_get (n :: out) = n * 256 ^ zlen out + be_get out).
  { intros n out Hn Ho. split; [constructor; [unfold is_byte; lia|done]|]. apply be_get_cons. }
  induction f as [|f IH]; intros n out Hn Ho; cbn [berInt_loop].
  { apply Hleaf; [|done]. cbn in Hn. lia. }
  case_if; zbool; [|apply Hleaf; [lia|done]].
  rewrite Nat2Z.inj_succ, Z.pow_succ_r in Hn by lia.
  change 255 with (Z.ones 8). rewrite Z.shiftr_div_pow2, Z.land_ones by lia.
  change (2 ^ 8) with 256.
  pose proof (Z.mod_pos_bound n 256 ltac:(lia)).
  destruct (IH (n / 256) (n mod 256 :: out)) as [H1 H2].
  { Z.div_mod_to_equations. nia. }
  { constructor; [unfold is_byte; lia|done]. }
  split; [done|]. rewrite H2, be_get_cons, zlen_cons, Z.pow_add_r by (try lia; apply zlen_nonneg).
  rewrite (Z.div_mod n 256) at 3 by lia. ring.
Qed.
Lemma berInt_spec n : 0 <= n < 2 ^ 63 -> Forall is_byte (berInt n) /\ be_get (berInt n) = n.
Proof.
  intros Hn. destruct (berInt_loop_spec 9 n []) as [H1 H2]; [cbn; lia|done|].
  split; [done|]. unfold berInt. rewrite H2. change (n * 1 + 0 = n). lia.
Qed.
Lemma zlen_berInt n : zlen (berInt n) <= 10.
Proof.
  unfold berInt. assert (H : forall f n out, zlen (berInt_loop f n out) <= Z.of_nat f + 1 + zlen out).
  { induction f as [|f IH]; intros m out; cbn [berInt_loop]; [rewrite zlen_cons; lia|].
    case_if; [|rewrite zlen_cons; lia]. etrans; [apply IH|]. rewrite zlen_cons. lia. }
  etrans; [apply H|]. done.
Qed.
Lemma zlen_berTLV id b : zlen b < zlen (berTLV id b).
Proof.
  unfold berTLV. rewrite zlen_cons, zlen_app. pose proof (zlen_nonneg (berLength (zlen b))). lia.
Qed.
Lemma zlen_encode_all es e : e ∈ es -> zlen e.2 < zlen (encode_all es).
Proof.
  induction es as [|x es IH]; [by intros ?%not_elem_of_nil|].
  cbn [encode_all mbind list_bind]. fold (encode_all es). rewrite zlen_app.
  pose proof (zlen_nonneg (encode_all es)). pose proof (zlen_nonneg (berTLV x.1 x.2)).
  intros [->|H2%IH]%elem_of_cons; [|lia]. pose proof (zlen_berTLV x.1 x.2). lia.
Qed.
(** Elements of something that fits are themselves encodable. *)
Lemma encode_all_ok es n : zlen (encode_all es) <= n -> n < 2 ^ 32 ->
  Forall (fun e => Z.land e.1 31 <> 31) es ->
  Forall encodable es /\ Forall (fun e => zlen e.2 <= n) es.
Proof.
  rewrite !Forall_forall. intros Hn Hm Hid.
  assert (H : forall e, e ∈ es -> zlen e.2 <= n).
  { intros e He%zlen_encode_all. lia. }
  split; intros e He; [split; [by apply Hid|]|by apply H]. specialize (H e He). lia.
Qed.
Lemma parse_written es n : zlen (encode_all es) <= n -> n < 2 ^ 32 ->
  Forall (fun e => Z.land e.1 31 <> 31) es ->
  parseChildren (encode_all es) = Ok ((fun e => element e.1 e.2) <$> es) /\
  Forall (fun e => zlen e.2 <= n) es.
Proof.
  intros H1 H2 H3. destruct (encode_all_ok es n) as [H4 H5]; [done..|].
  split; [by apply parseChildren_encode|done].
Qed.

Lemma Forall_ids {A} (f : A -> Z * bytes) l : (forall x, Z.land (f x).1 31 <> 31) ->
  Forall (fun e => Z.land e.1 31 <> 31) (f <$> l).
Proof. intros H. apply Forall_fmap, Forall_true. intros x. apply H. Qed.

Lemma add_container_written acc v n : volume_ok v -> zlen (usedUnit v) <= n -> n < 2 ^ 32 ->
  add_container acc (element 48 (usedUnit v)) = (u64 (acc.1 + vUp v), u64 (acc.2 + vDn v)).
Proof.
  intros [Hu Hd] H1 H2. unfold add_container. cbn [element content]. unfold usedUnit.
  destruct (parse_written _ n H1 H2) as [-> _]; [by repeat constructor|].
  cbn [fmap list_fmap fst snd].
  change (findTag _ 5) with (Some (element 133 (berInt (vUp v)))).
  change (findTag _ 6) with (Some (element 134 (berInt (vDn v)))).
  destruct (berInt_spec (vUp v)) as [Bu Eu]; [done|].
  destruct (berInt_spec (vDn v)) as [Bd Ed]; [done|].
  rewrite !uintValue_be by done. cbn [element content].
  by rewrite Eu, Ed, !u64_add_r.
Qed.
Lemma add_containers_written vs n : forall acc, Forall volume_ok vs ->
  Forall (fun v => zlen (usedUnit v) <= n) vs -> n < 2 ^ 32 ->
  foldl add_container (u64 acc.1, u64 acc.2) ((fun v => element 48 (usedUnit v)) <$> vs) =
    (u64 (acc.1 + Zsum (vUp <$> vs)), u64 (acc.2 + Zsum (vDn <$> vs))).
Proof.
  intros [a b] Hok Hlen Hn. cbn [fst snd]. revert a b Hlen.
  induction Hok as [|v vs Hv Hvs IH]; intros a b Hlen.
  { cbn. by rewrite !Z.add_0_r. }
  cbn [foldl fmap list_fmap]. rewrite !Zsum_cons.
  apply Forall_cons in Hlen as [Hl Hls].
  rewrite (add_container_written _ _ n) by done. cbn [fst snd].
  rewrite !u64_add_l, (IH (a + vUp v) (b + vDn v)) by done. by rewrite !Z.add_assoc.
Qed.
Lemma add_unit_written m n acc : Forall volume_ok m.2 -> zlen (multiUnit m) <= n -> n < 2 ^ 32 ->
  add_unit (u64 acc.1, u64 acc.2) (element 48 (multiUnit m)) =
    (u64 (acc.1 + Zsum (vUp <$> m.2)), u64 (acc.2 + Zsum (vDn <$> m.2))).
Proof.
  intros Hok H1 H2. unfold add_unit. cbn [element content]. unfold multiUnit in *.
  destruct (parse_written _ n H1 H2) as [-> Hl]; [by repeat constructor|].
  set (cs := encode_all ((fun v => (48, usedUnit v)) <$> m.2)) in *.
  change (findTag _ 1) with (Some (element 161 cs)). cbn [element content].
  apply Forall_cons in Hl as [_ Hl]. apply Forall_cons in Hl as [Hl _]. cbn [snd] in Hl.
  unfold cs in *. destruct (parse_written _ n Hl H2) as [-> Hl2]; [by apply Forall_ids|].
  rewrite <- list_fmap_compose. unfold compose. cbn [fst snd].
  rewrite Forall_fmap in Hl2. by apply add_containers_written with n.
Qed.
Lemma add_units_written ms n : forall acc, Forall (fun m => Forall volume_ok m.2) ms ->
  Forall (fun m => zlen (multiUnit m) <= n) ms -> n < 2 ^ 32 ->
  foldl add_unit (u64 acc.1, u64 acc.2) ((fun m => element 48 (multiUnit m)) <$> ms) =
    (u64 (acc.1 + Zsum (vUp <$> (ms ≫= snd))), u64 (acc.2 + Zsum (vDn <$> (ms ≫= snd)))).
Proof.
  intros [a b] Hok Hlen Hn. cbn [fst snd]. revert a b Hlen.
  induction Hok as [|m ms Hm Hms IH]; intros a b Hlen.
  { cbn. by rewrite !Z.add_0_r. }
  apply Forall_cons in Hlen as [Hl Hls]. cbn [foldl fmap list_fmap mbind list_bind].
  pose proof (add_unit_written m n (a, b) Hm Hl Hn) as E. cbn [fst snd] in E. rewrite E.
  fold (ms ≫= snd). rewrite !fmap_app, !Zsum_app.
  rewrite (IH (a + Zsum (vUp <$> m.2)) (b + Zsum (vDn <$> m.2))) by done.
  by rewrite !Z.add_assoc.
Qed.

Lemma child_text_written id es tg body s : zlen (encode_all es) <= 65535 ->
  Forall (fun e => Z.land e.1 31 <> 31) es ->
  findTag ((fun e => element e.1 e.2) <$> es) tg = Some (element body (string_bytes s)) ->
  child_text (Some (element id (encode_all es))) tg = s.
Proof.
  intros Hl Hid E. unfold child_text, findChild. cbn [element content].
  destruct (parse_written _ _ Hl ltac:(done)) as [-> _]; [done|].
  rewrite E. apply string_bytes_string.
Qed.
Lemma units_written c : charging_ok c -> zlen (encode_all ((fun m => (48, multiUnit m)) <$> chUnits c)) <= 65535 ->
  match parseChildren (encode_all ((fun m => (48, multiUnit m)) <$> chUnits c)) with
  | Err _ => (0, 0)
  | Ok muus => foldl add_unit (0, 0) muus
  end = (u64 (Zsum (vUp <$> volumes c)), u64 (Zsum (vDn <$> volumes c))).
Proof.
  intros (_ & Hvol & _) Hl.
  destruct (parse_written _ _ Hl ltac:(done)) as [-> Hl2]; [by apply Forall_ids|].
  rewrite <- list_fmap_compose. unfold compose. cbn [fst snd]. rewrite Forall_fmap in Hl2.
  apply (add_units_written _ 65535 (0, 0)); [|done|done].
  unfold volumes in Hvol. rewrite Forall_bind in Hvol. done.
Qed.

(** Parsing a record the charging function encodes yields its usage. *)
Lemma parseChargingRecord_written c : charging_ok c ->
  parseChargingRecord (chargingRecord c) = Ok (usage_of c).
Proof.
  intros Hc. pose proof Hc as (Himsi & Hvol & Hlen). unfold parseChargingRecord, chargingRecord in *.
  destruct (parse_written [(161, chargingSet c)] 65535) as [-> Hl]; [lia|done|by repeat constructor|].
  cbn [fmap list_fmap fst snd].
  change (findTag [element 161 (chargingSet c)] 1) with (Some (element 161 (chargingSet c))).
  cbn [element content]. apply Forall_cons in Hl as [Hl _]. cbn [snd] in Hl. unfold chargingSet in *.
  set (sub := [(128, berInt 1); (129, string_bytes (chImsi c))]) in *.
  set (psi := [(128, berInt 1); (134, berInt 1); (141, string_bytes (chApn c))]) in *.
  set (units := encode_all ((fun m => (48, multiUnit m)) <$> chUnits c)) in *.
  destruct (parse_written _ _ Hl ltac:(done)) as [-> Hl2].
  { destruct (decide (chApn c = ""%string)); by repeat constructor. }
  rewrite !Forall_app, !Forall_cons in Hl2. cbn [snd] in Hl2.
  destruct Hl2 as ((_ & _ & Hsub & _) & Hpsi & Hunits & _).
  rewrite !fmap_app. set (fields := _ ++ _ ++ _).
  assert (E5 : findTag fields 5 = Some (element 165 units))
    by (unfold fields; by destruct (decide (chApn c = ""%string))).
  assert (E2 : child_text (findTag fields 2) 1 = chImsi c)
    by (by apply (child_text_written 162 sub 1 129); [|repeat constructor|]).
  assert (E13 : child_text (findTag fields 13) 13 = chApn c).
  { unfold fields. destruct (decide (chApn c = ""%string)) as [->|]; [done|].
    apply Forall_cons in Hpsi as [Hpsi _].
    by apply (child_text_written 173 psi 13 141); [|repeat constructor|]. }
  rewrite E2, E13, E5. clearbody fields. rewrite decide_False by done.
  cbn [element content]. unfold units in *. by rewrite units_written.
Qed.

Lemma zlen_record rec : zlen (record_bytes rec) = 4 + zlen rec.
Proof.
  unfold record_bytes. rewrite !zlen_app, zlen_be_put. change (zlen [0; 32]) with 2. lia.
Qed.
Lemma at_app_skip (l1 l2 : bytes) i : 0 <= i -> at_ (l1 ++ l2) (zlen l1 + i) = at_ l2 i.
Proof.
  intros Hi. unfold at_, zlen. rewrite Z2Nat.inj_add, Nat2Z.id by lia.
  rewrite app_nth2 by lia. f_equal. lia.
Qed.
(** One turn of the record loop on an encoded record. *)
Lemma parse_records_cons n pre c rest : charging_ok c ->
  let data := pre ++ record_bytes (chargingRecord c) ++ rest in
  parse_records (S n) (zlen pre) data =
    match parse_records n (zlen (pre ++ record_bytes (chargingRecord c))) data with
    | Err e => Err e
    | Ok out => Ok (usage_of c :: out)
    end.
Proof.
  intros Hc. cbv zeta. cbn [parse_records]. set (rec := chargingRecord c).
  assert (Hlen : 0 <= zlen rec < 65536) by (split; [apply zlen_nonneg|apply Hc]).
  pose proof (zlen_nonneg pre). pose proof (zlen_nonneg rest).
  set (data := pre ++ record_bytes rec ++ rest).
  assert (Hd : zlen data = zlen pre + (4 + zlen rec) + zlen rest).
  { unfold data. rewrite !zlen_app, zlen_record. lia. }
  replace (slice data (zlen pre) (zlen pre + 2)) with (be_put 2 (zlen rec)).
  2: { symmetry. unfold data, record_bytes. rewrite <- !app_assoc. by apply slice_prefix. }
  rewrite be_get_put, Z.mod_small by (change (256 ^ Z.of_nat 2) with 65536; lia).
  replace (at_ data (zlen pre + 2)) with 0.
  2: { unfold data. by rewrite at_app_skip. }
  change (Z.shiftr 0 5 =? 7) with false. cbv iota.
  replace (zlen data <? zlen pre + 4) with false by (symmetry; zbool; lia).
  replace (zlen data <? zlen pre + 4 + zlen rec) with false by (symmetry; zbool; lia).
  replace (slice data (zlen pre + 4) (zlen pre + 4 + zlen rec)) with rec.
  2: { symmetry. unfold data, record_bytes. rewrite <- !app_assoc.
       rewrite (app_assoc pre), (app_assoc (pre ++ _)).
       apply slice_prefix; rewrite ?zlen_app, ?zlen_be_put; change (zlen [0; 32]) with 2; lia. }
  pose proof (parseChargingRecord_written c Hc) as Er. fold rec in Er. rewrite Er.
  by rewrite zlen_app, zlen_record, Z.add_assoc.
Qed.
Lemma parse_records_written cs : Forall charging_ok cs -> forall pre,
  parse_records (length cs) (zlen pre) (pre ++ ((chargingRecord <$> cs) ≫= record_bytes)) =
    Ok (usage_of <$> cs).
Proof.
  induction 1 as [|c cs Hc Hcs IH]; intros pre; [done|].
  cbn [fmap list_fmap mbind list_bind length]. rewrite parse_records_cons by done.
  by rewrite app_assoc, IH.
Qed.

(** C21: The record files are a round trip: a file the charging function
    writes, with one to 65536 records, parses to exactly the usage of its
    records, in order: the subscriber, the data network if the record names
    one, and the 64-bit sums of the volumes of all its used units. *)
Theorem parseCDRFile_written cs : Forall charging_ok cs -> 0 < zlen cs <= 65536 ->
  parseCDRFile (cdrFile (chargingRecord <$> cs)) = Ok (usage_of <$> cs).
Proof.
  intros Hok Hn. unfold parseCDRFile, cdrFile.
  set (body := _ ≫= record_bytes). pose proof (zlen_nonneg body).
  assert (Hz : zlen (chargingRecord <$> cs) = zlen cs) by (unfold zlen; by rewrite length_fmap).
  rewrite Hz. set (hd := be_put 4 (52 + zlen body) ++ be_put 4 52 ++ replicate 10 0).
  set (file := _ ++ _ ++ _ ++ _ ++ _ ++ body).
  assert (E : file = (hd ++ be_put 4 (zlen cs) ++ replicate 30 0) ++ body)
    by (unfold file, hd; by rewrite <- !app_assoc).
  assert (Hh : zlen (hd ++ be_put 4 (zlen cs) ++ replicate 30 0) = 52) by done.
  clearbody file. subst file. set (header := hd ++ _ ++ _) in *.
  assert (Hf : zlen (header ++ body) = 52 + zlen body) by (rewrite zlen_app; lia).
  replace (slice (header ++ body) 48 50) with [0; 0] by done.
  change (50 + be_get [0; 0]) with 50.
  replace (slice (header ++ body) 50 (50 + 2)) with [0; 0] by done.
  change (50 + (2 + be_get [0; 0])) with 52.
  replace (slice (header ++ body) 18 22) with (be_put 4 (zlen cs)).
  2: { symmetry. unfold header. rewrite <- !app_assoc. by apply slice_prefix. }
  rewrite be_get_put, Z.mod_small by (change (256 ^ Z.of_nat 4) with 4294967296; lia).
  replace (at_ (header ++ body) 8) with 0 by done.
  replace (at_ (header ++ body) 9) with 0 by done.
  change (Z.shiftr 0 5 =? 7) with false. rewrite !andb_false_r, Hf. cbv iota.
  replace (_ <? 52) with false by (symmetry; zbool; lia).
  replace (_ <? 50 + 2) with false by (symmetry; zbool; lia).
  replace (52 + zlen body <? 52) with false by (symmetry; zbool; lia).
  replace ((zlen cs =? 0) || (65536 <? zlen cs)) with false by (symmetry; zbool; lia).
  cbn [Z.ltb Z.compare Pos.compare Pos.compare_cont orb].
  rewrite <- Hh. unfold zlen at 1. rewrite Nat2Z.id. by apply parse_records_written.
Qed.
Definition demo_charging : list charging :=
  [mkCharging "999991234567001" "internet" [(1, [mkVolume 150 250 400; mkVolume 50 50 100])];
   mkCharging "999991234567002" "" [(2, [mkVolume 1000 2000 3000])]].
Lemma parseCDRFile_written_witness :
  Forall charging_ok demo_charging /\ 0 < zlen demo_charging <= 65536 /\
  parseCDRFile (cdrFile (chargingRecord <$> demo_charging)) =
    Ok [mkCdr "999991234567001" "internet" 200 300; mkCdr "999991234567002" "" 1000 2000].
Proof.
  assert (H : Forall charging_ok demo_charging) by vm_decide.
  assert (H2 : 0 < zlen demo_charging <= 65536) by (split; done).
  split; [exact H|]. split; [exact H2|].
  exact (parseCDRFile_written demo_charging H H2).
Defined.

(** ** The poll's totals *)
Definition about (imsi : string) (u : cdrUsage) : bool := bool_decide (cImsi u = imsi).
Definition first_text (l : list string) : string :=
  foldr (fun s r => if decide (s = ""%string) then r else s) ""%string l.
(** The session a subscriber's usage records make. *)
Definition metered (now : time) (imsi : string) (us : list cdrUsage) : Session :=
  mkSession (HashIMSI imsi) (first_text (cApn <$> us)) "" "metered"
    (u64 (Zsum (cUp <$> us))) (u64 (Zsum (cDn <$> us))) now.

Lemma first_text_snoc l s : first_text (l ++ [s]) =
  if decide (first_text l = ""%string) then s else first_text l.
Proof.
  induction l as [|x l IH]; cbn; [by destruct (decide (s = ""%string))|].
  destruct (decide (x = ""%string)); [done|]. by rewrite decide_False.
Qed.
Lemma add_usages_spec now us : Forall (fun u => cImsi u <> ""%string) us -> forall imsi,
  foldl (add_usage now) ∅ us !! imsi =
    match filter (fun u => about imsi u) us with
    | [] => None
    | l => Some (metered now imsi l)
    end.
Proof.
  induction us as [|u us IH] using rev_ind; intros Hus imsi; [done|].
  apply Forall_app in Hus as [Hus [Hu _]%Forall_cons]. specialize (IH Hus).
  rewrite foldl_snoc, filter_app. unfold add_usage at 1. rewrite decide_False by done.
  destruct (decide (cImsi u = imsi)) as [<-|Hne].
  - rewrite lookup_insert_eq, filter_cons_True, filter_nil by (by apply bool_decide_pack).
    rewrite IH. set (l := filter _ us). clearbody l.
    destruct (l ++ [u]) as [|x r] eqn:E; [by destruct l|]. rewrite <- E. clear E x r.
    unfold metered. rewrite !fmap_app. cbn [fmap list_fmap].
    rewrite first_text_snoc, !Zsum_app, !Zsum_cons. cbn [Zsum foldr].
    rewrite !Z.add_0_r. f_equal.
    destruct l as [|v l]; cbn [default from_option id]; cbn [BytesUp BytesDn APN].
    + by case_decide.
    + unfold metered. cbn [BytesUp BytesDn APN]. rewrite !u64_add_l.
      case_decide as E; [rewrite decide_True by exact E|rewrite decide_False by exact E]; done.
  - rewrite lookup_insert_ne, filter_cons_False, filter_nil, app_nil_r; [apply IH| |done].
    intros H%bool_decide_unpack. done.
Qed.

(** Every parsed record has a subscriber. *)
Lemma parsed_subscriber b u : parseChargingRecord b = Ok u -> cImsi u <> ""%string.
Proof.
  unfold parseChargingRecord. destruct (parseChildren b) as [top|]; [|done].
  destruct (match findTag top 1 with Some rec => Some rec | None => _ end) as [rec|]; [|done].
  destruct (parseChildren (content rec)) as [fields|]; [|done]. case_decide; [done|].
  destruct (match findTag fields 5 with None => (0, 0) | Some _ => _ end). by intros [= <-].
Qed.
Lemma parse_records_subscriber n : forall off data us, parse_records n off data = Ok us ->
  Forall (fun u => cImsi u <> ""%string) us.
Proof.
  induction n as [|n IH]; intros off data us; cbn [parse_records]; [by intros [= <-]|].
  destruct (zlen data <? off + 4); [done|]. case_if; [done|].
  destruct (parseChargingRecord _) as [u|] eqn:E; [|done].
  destruct (parse_records n _ data) as [out|] eqn:Eo; [|done]. intros [= <-].
  constructor; [by eapply parsed_subscriber|by eapply IH].
Qed.
Lemma entry_subscriber e : Forall (fun u => cImsi u <> ""%string) (entry_usages e).
Proof.
  unfold entry_usages. case_if; [done|]. destruct (deData e) as [data|]; [|done].
  destruct (parseCDRFile data) as [us|] eqn:E; [|done]. unfold parseCDRFile in E.
  repeat (case_if; [done|]). by eapply parse_records_subscriber.
Qed.

(** A poll of a readable directory reports exactly the subscribers that
    some record of some parseable [.cdr] file is about, each with the 64-bit
    totals of all its records over all the files, and the first data network
    named; files that are directories, unreadable, truncated or foreign only
    drop out.  A missing directory is an error, so the caller keeps what it
    had. *)
Theorem Poll_totals dir read now :
  match Poll dir read now with
  | Ok sessions =>
      exists entries, read = Some entries /\ forall imsi,
        sessions !! imsi =
          match filter (fun u => about imsi u) (entries ≫= entry_usages) with
          | [] => None
          | us => Some (metered now imsi us)
          end
  | Err e => (dir = ""%string /\ e = ErrNoDir) \/ (read = None /\ e = ErrReadDir)
  end.
Proof.
  unfold Poll. case_decide; [by left|]. destruct read as [entries|]; [|by right].
  exists entries. split; [done|]. intros imsi.
  assert (E : forall m, foldl (fun m e => foldl (add_usage now) m (entry_usages e)) m entries =
              foldl (add_usage now) m (entries ≫= entry_usages)).
  { induction entries as [|e es IH]; intros m; [done|].
    cbn [mbind list_bind foldl]. by rewrite IH, foldl_app. }
  rewrite E. apply add_usages_spec. apply Forall_bind, Forall_true, entry_subscriber.
Qed.

(** ** The merge *)
Definition of_hash (h : string) (s : Session) : bool := bool_decide (IMSIHash s = h).
(** A live phase wins over a metered one: the first that is neither empty nor
    "metered", and the last one if there is none. *)
Definition placeholder (p : string) : bool := bool_decide (p = ""%string \/ p = "metered"%string).
Definition first_phase (p : string) (l : list string) : string :=
  foldl (fun cur p => if placeholder cur then p else cur) p l.
(** The richest session of a group. *)
Definition richest (s : Session) (l : list Session) : Session :=
  mkSession (IMSIHash s) (first_text (APN <$> s :: l)) (first_text (IP <$> s :: l))
    (first_phase (Phase s) (Phase <$> l))
    (foldl Z.max (BytesUp s) (BytesUp <$> l)) (foldl Z.max (BytesDn s) (BytesDn <$> l)) (Created s).

Lemma placeholder_decide {A} p (x y : A) : (if placeholder p then x else y) =
  if decide (p = ""%string \/ p = "metered"%string) then x else y.
Proof.
  unfold placeholder. destruct (decide _) as [E|E];
    [by rewrite bool_decide_true|by rewrite bool_decide_false].
Qed.
Lemma merge_into_fields cur s : merge_into cur s =
  mkSession (IMSIHash cur) (if decide (APN cur = ""%string) then APN s else APN cur)
    (if decide (IP cur = ""%string) then IP s else IP cur)
    (if placeholder (Phase cur) then Phase s else Phase cur)
    (Z.max (BytesUp cur) (BytesUp s)) (Z.max (BytesDn cur) (BytesDn s)) (Created cur).
Proof.
  assert (Hmax : forall a b, Z.max a b = if a <? b then b else a)
    by (intros a b; case_if; zbool; lia).
  rewrite !Hmax, placeholder_decide. destruct cur as [h a i p u d c], s as [h' a' i' p' u' d' c'].
  unfold merge_into.
  cbn [IMSIHash APN IP Phase BytesUp BytesDn Created].
  destruct (u <? u'); cbn [IMSIHash APN IP Phase BytesUp BytesDn Created];
    destruct (d <? d'); cbn [IMSIHash APN IP Phase BytesUp BytesDn Created];
    destruct (decide (a = ""%string)); cbn [IMSIHash APN IP Phase BytesUp BytesDn Created];
    destruct (decide (i = ""%string)); cbn [IMSIHash APN IP Phase BytesUp BytesDn Created];
    destruct (decide (p = ""%string \/ p = "metered"%string)); done.
Qed.
Lemma merge_into_richest s l x : merge_into (richest s l) x = richest s (l ++ [x]).
Proof.
  rewrite merge_into_fields. unfold richest. cbn [IMSIHash APN IP Phase BytesUp BytesDn Created].
  rewrite !app_comm_cons, !(fmap_app APN (s :: l)), !(fmap_app IP (s :: l)), !fmap_app.
  cbn [fmap list_fmap]. change (APN s :: (APN <$> l)) with (APN <$> s :: l).
  change (IP s :: (IP <$> l)) with (IP <$> s :: l).
  rewrite !first_text_snoc. unfold first_phase. by rewrite !foldl_app.
Qed.

(** Merging several sources yields one session per subscriber hash, and
    it is the richest one: the largest byte counters any source gave, the
    first non-empty access point and address, a live phase rather than the
    metered placeholder, and nothing for a hash no source named. *)
Theorem mergeSessions_spec l h :
  mergeSessions l !! h = match filter (fun s => of_hash h s) l with
                         | [] => None
                         | s :: g => Some (richest s g)
                         end.
Proof.
  induction l as [|x l IH] using rev_ind; [done|].
  unfold mergeSessions in *. rewrite foldl_snoc, filter_app. set (m := foldl _ ∅ l) in *.
  assert (E : merge_one m x = <[IMSIHash x :=
    match m !! IMSIHash x with None => x | Some cur => merge_into cur x end]> m)
    by (unfold merge_one; by destruct (m !! IMSIHash x)).
  rewrite E. destruct (decide (IMSIHash x = h)) as [<-|Hne].
  - rewrite lookup_insert_eq, filter_cons_True, filter_nil by (by apply bool_decide_pack).
    rewrite IH. destruct (filter _ l) as [|s g]; cbn [app].
    + destruct x as [hx a i p u d c]. unfold richest.
      cbn [fmap list_fmap first_text foldr APN IP Phase BytesUp BytesDn IMSIHash Created].
      destruct (decide (a = ""%string)), (decide (i = ""%string)); by subst.
    + by rewrite merge_into_richest.
  - rewrite lookup_insert_ne, filter_cons_False, filter_nil, app_nil_r; [done| |done].
    intros H%bool_decide_unpack. done.
Qed.

(** [Multi] answers with the merge of all its sources' sessions, in their
    order, or with the first error. *)
Lemma poll_all_spec {E} (sources : list (res E (list Session))) : forall all,
  poll_all sources all = match mapM (M := res E) id sources with
                         | Ok l => Ok (all ++ mjoin l)
                         | Err e => Err e
                         end.
Proof.
  induction sources as [|[s|e] l IH]; intros all; cbn.
  - by rewrite app_nil_r.
  - rewrite IH. destruct (mapM id l); [|done]. cbn. by rewrite app_assoc.
  - done.
Qed.
