(* ===== verification/Collector.v ===== *)
(** * Collector: session sources over the cores' HTTP interfaces

    [core/fairwave-control/internal/collector/collector.go] and [free5gc.go].
    Fetching a URL and unmarshalling its JSON are parameters; what the code
    does with the decoded documents is here. *)
From S2P Require Import Prelude.
From S2P Require Import Api.

Definition or_ (a b : string) : string := if decide (a = ""%string) then b else a.

(** ** Open5GS *)
Record Pdn := mkPdn { pdnAPN : string; pdnIPV4 : string; pdnState : string }.
Record MmeUE := mkMmeUE { mSUPI : string; CMState : string; mPDN : list Pdn }.
Record Pdu := mkPdu { pduDNN : string; pduIPV4 : string }.
Record SmfUE := mkSmfUE { sSUPI : string; sPDU : list Pdu }.

Inductive Error := ErrMmeURL | ErrGet | ErrJSON | ErrOamURL.
#[global] Instance Error_eq_dec : EqDecision Error.
Proof. solve_decision. Defined.

Section Open5GS.
(** The body a GET of a base URL and path returns, if it answers 200. *)
Context (get : string -> string -> option bytes).
Context (decode_mme : bytes -> option (list MmeUE)) (decode_smf : bytes -> option (list SmfUE)).

Definition ue_sessions (now : time) (ue : MmeUE) : list Session :=
  let imsi := TrimPrefix (mSUPI ue) "imsi-" in
  if decide (imsi = ""%string) then [] else
  let hash := HashIMSI imsi in
  match mPDN ue with
  | [] => [mkSession hash "" "" (or_ (CMState ue) "connected") 0 0 now]
  | pdns => (fun p => mkSession hash (pdnAPN p) (pdnIPV4 p)
               (or_ (pdnState p) (or_ (CMState ue) "connected")) 0 0 now) <$> pdns
  end.
Definition pollMME (url : string) (now : time) : res Error (list Session) :=
  match get url "/ue-info" with
  | None => Err ErrGet
  | Some raw => match decode_mme raw with
                | None => Err ErrJSON
                | Some items => Ok (items ≫= ue_sessions now)
                end
  end.
(** The first PDU session with an address. *)
Fixpoint first_ip (pdus : list Pdu) : option string :=
  match pdus with
  | [] => None
  | p :: pdus => if decide (pduIPV4 p = ""%string) then first_ip pdus else Some (pduIPV4 p)
  end.
Definition add_ips (ips : gmap string string) (ue : SmfUE) : gmap string string :=
  let imsi := TrimPrefix (sSUPI ue) "imsi-" in
  if decide (imsi = ""%string) then ips else
  match first_ip (sPDU ue) with
  | None => ips
  | Some ip => <[HashIMSI imsi := ip]> ips
  end.
Definition pollSMFIPs (url : string) : res Error (gmap string string) :=
  match get url "/pdu-info" with
  | None => Err ErrGet
  | Some raw => match decode_smf raw with
                | None => Err ErrJSON
                | Some items => Ok (foldl add_ips ∅ items)
                end
  end.

Definition with_ip (ips : gmap string string) (s : Session) : Session :=
  if decide (IP s = ""%string) then {| s with IP := default ""%string (ips !! IMSIHash s) |} else s.
Definition key_of (s : Session) : string := IMSIHash s +:+ "|" +:+ APN s +:+ "|" +:+ IP s.
(** The loop over the sessions: [seen] are the keys so far. *)
Fixpoint dedupe (now : time) (ips : gmap string string) (seen : gset string) (l : list Session)
    : list Session :=
  match l with
  | [] => []
  | s :: l =>
      let s := with_ip ips s in
      if decide (key_of s ∈ seen) then dedupe now ips seen l
      else {| s with Created := now |} :: dedupe now ips ({[key_of s]} ∪ seen) l
  end.
Definition Open5GS_Poll (mme smf : string) (now : time) : res Error (list Session) :=
  if decide (mme = ""%string) then Err ErrMmeURL else
  match pollMME mme now with
  | Err e => Err e
  | Ok mmeSessions =>
      match (if decide (smf = ""%string) then Ok ∅ else pollSMFIPs smf) with
      | Err e => Err e
      | Ok ips => Ok (dedupe now ips ∅ mmeSessions)
      end
  end.
End Open5GS.

(** ** free5GC *)
(** A JSON object, as far as the parser looks into it: the string under a key
    (none if it is absent or no string), and the array of objects under one. *)
Inductive Item := mkItem (str : string -> option string) (arr : string -> option (list Item)).
Definition item_str (i : Item) : string -> option string := let 'mkItem s _ := i in s.
Definition item_arr (i : Item) : string -> option (list Item) := let 'mkItem _ a := i in a.

Fixpoint jsonString (i : Item) (keys : list string) : string :=
  match keys with
  | [] => ""
  | k :: keys =>
      match item_str i k with
      | Some s => if decide (s = ""%string) then jsonString i keys else s
      | None => jsonString i keys
      end
  end.
Fixpoint dnn_under (i : Item) (keys : list string) : string :=
  match keys with
  | [] => ""
  | k :: keys =>
      match item_arr i k with
      | Some (s :: _) => let dnn := jsonString s ["Dnn"; "dnn"]%string in
                         if decide (dnn = ""%string) then dnn_under i keys else dnn
      | _ => dnn_under i keys
      end
  end.
Definition firstDNN (i : Item) : string := dnn_under i ["PduSessions"; "pduSessions"]%string.
Definition item_session (now : time) (i : Item) : option Session :=
  let supi := jsonString i ["Supi"; "supi"]%string in
  if decide (supi = ""%string) then None else
  let imsi := TrimPrefix supi "imsi-" in
  if decide (imsi = ""%string) then None else
  let phase := jsonString i ["CmState"; "cmState"]%string in
  let phase := if decide (phase = ""%string) then "connected"%string else phase in
  Some (mkSession (HashIMSI imsi) (firstDNN i) "" (ToLower phase) 0 0 now).
Section Free5GC.
Context (get : string -> string -> option bytes) (decode : bytes -> option (list Item)).
Definition parse (raw : bytes) (now : time) : res Error (list Session) :=
  match decode raw with
  | None => Err ErrJSON
  | Some items => Ok (omap (item_session now) items)
  end.
(** [url] is the base URL, whose trailing slashes [get] takes off. *)
Definition Free5GC_Poll (url : string) (now : time) : res Error (list Session) :=
  if decide (url = ""%string) then Err ErrOamURL else
  match get url "/namf-oam/v1/registered-ue-context" with
  | None => Err ErrGet
  | Some raw => parse raw now
  end.
End Free5GC.

(** ** The poll never reports a UE's session twice *)
Lemma dedupe_keys now ips l : forall seen,
  NoDup (key_of <$> dedupe now ips seen l) /\
  (forall s, s ∈ dedupe now ips seen l -> key_of s ∉ seen /\ Created s = now) /\
  (forall s, s ∈ l -> key_of (with_ip ips s) ∉ seen ->
     exists s', s' ∈ dedupe now ips seen l /\ key_of s' = key_of (with_ip ips s)).
Proof.
  induction l as [|s l IH]; intros seen; cbn [dedupe].
  { split; [constructor|split; [by intros s ?%not_elem_of_nil|by intros s ?%not_elem_of_nil]]. }
  destruct (decide (key_of (with_ip ips s) ∈ seen)) as [Hin|Hin].
  - destruct (IH seen) as (H1 & H2 & H3). split; [done|]. split; [done|].
    intros s' [->|Hs']%elem_of_cons Hn; [done|by apply H3].
  - set (s0 := {| (with_ip ips s) with Created := now |}).
    destruct (IH ({[key_of (with_ip ips s)]} ∪ seen)) as (H1 & H2 & H3).
    assert (Ek : key_of s0 = key_of (with_ip ips s)) by done. split; [|split].
    + rewrite fmap_cons. constructor; [|done]. intros (s' & E & Hs')%list_elem_of_fmap.
      apply H2 in Hs' as [Hk _]. set_solver.
    + intros s' [->|Hs']%elem_of_cons; [by rewrite Ek|]. apply H2 in Hs' as [Hk ?]. set_solver.
    + intros s' [->|Hs']%elem_of_cons Hn; [exists s0; split; [left|done]|].
      destruct (decide (key_of (with_ip ips s') = key_of (with_ip ips s))) as [E|Hne].
      * exists s0. split; [left|by rewrite Ek].
      * destruct (H3 s' Hs') as (s2 & Hs2 & E2); [set_solver|]. exists s2. split; [by right|done].
Qed.

(** A successful Open5GS poll reports every attached UE's session (with
    the SMF's address where the MME gave none) under its hash, access point
    and address, and reports none of these combinations twice. *)
Theorem Open5GS_Poll_unique get decode_mme decode_smf mme smf now out :
  Open5GS_Poll get decode_mme decode_smf mme smf now = Ok out ->
  NoDup (key_of <$> out) /\
  exists sessions ips, pollMME get decode_mme mme now = Ok sessions /\
    forall k, k ∈ key_of <$> out <-> exists s, s ∈ sessions /\ k = key_of (with_ip ips s).
Proof.
  unfold Open5GS_Poll. case_decide; [done|].
  destruct (pollMME _ _ _ _) as [sessions|]; [|done].
  destruct (if decide (smf = ""%string) then _ else _) as [ips|]; [|done]. intros [= <-].
  destruct (dedupe_keys now ips sessions ∅) as (H1 & H2 & H3). split; [done|].
  exists sessions, ips. split; [done|]. intros k. split.
  - intros (s & -> & Hs)%list_elem_of_fmap.
    clear H1 H2 H3. revert Hs. generalize (∅ : gset string).
    induction sessions as [|x l IH]; intros seen; cbn [dedupe]; [by intros ?%not_elem_of_nil|].
    case_decide.
    + intros (s' & ? & ?)%IH. exists s'. split; [by right|done].
    + intros [->|(s' & ? & ?)%IH]%elem_of_cons; [exists x|exists s'; split; [by right|done]].
      split; [left|done].
  - intros (s & Hs & ->). destruct (H3 s Hs) as (s' & Hs' & <-); [set_solver|].
    by apply list_elem_of_fmap_2.
Qed.
