(* ===== verification/Spectrum.v ===== *)
(** * Spectrum: what may transmit where

    [core/policy/policy.go]: the curated country profiles, the operator's
    overlay, and the check that decides whether a band may be used.  Reasons
    are a type with the values their messages quote.  Reading and decoding
    the overlay file is a parameter. *)
From S2P Require Import Prelude.

Definition GateAckPhrase : string := "I hold authorization for this transmission".

Record Band := mkBand {
  EarfcnMin : Z; EarfcnMax : Z; IndoorOnly : bool; MaxEIRPDBM : Z; LicenseType : string;
}.
Record Profile := mkProfile { Country : string; MCC : string; Bands : gmap string Band }.
#[global] Instance Band_eq_dec : EqDecision Band.
Proof. solve_decision. Defined.
#[global] Instance Profile_eq_dec : EqDecision Profile.
Proof. solve_decision. Defined.

Inductive Reason :=
  | NoProfile (country : string) | NotListed (band country : string)
  | IndoorBand (band : string) | NoLicense (band : string).
#[global] Instance Reason_eq_dec : EqDecision Reason.
Proof. solve_decision. Defined.
Record Verdict := mkVerdict { Allowed : bool; Reasons : list Reason }.
#[global] Instance Verdict_eq_dec : EqDecision Verdict.
Proof. solve_decision. Defined.

Abbreviation Registry := (gmap string Profile).

Local Open Scope string_scope.
Definition builtinProfiles : Registry := list_to_map [
  ("LAB", mkProfile "999" "999" (list_to_map [
     ("zmq", mkBand 0 65534 true (-100) "lab")]));
  ("US", mkProfile "US" "310" (list_to_map [
     ("n48", mkBand 55240 56739 false 40 "cbrs");
     ("n46", mkBand 246 636 true 36 "shared")]));
  ("GB", mkProfile "GB" "234" (list_to_map [
     ("b1", mkBand 300 599 false 40 "local");
     ("b3", mkBand 1200 1949 false 40 "local");
     ("b7", mkBand 2750 3449 false 37 "local");
     ("b38", mkBand 37750 38249 false 37 "local")]));
  ("DE", mkProfile "DE" "262" (list_to_map [
     ("b3", mkBand 1200 1949 false 36 "local");
     ("b7", mkBand 2750 3449 false 33 "local");
     ("b40", mkBand 38650 39649 false 33 "local")]));
  ("FR", mkProfile "FR" "208" (list_to_map [
     ("b3", mkBand 1200 1949 false 36 "local");
     ("b7", mkBand 2750 3449 false 33 "local");
     ("b38", mkBand 37750 38249 false 33 "local")]));
  ("IN", mkProfile "IN" "405" (list_to_map [
     ("b3", mkBand 1200 1949 false 33 "local");
     ("b40", mkBand 38650 39649 false 33 "local")]));
  ("AU", mkProfile "AU" "505" (list_to_map [
     ("b28", mkBand 9210 9659 false 33 "local");
     ("b3", mkBand 1200 1949 false 33 "local")]));
  ("CA", mkProfile "CA" "302" (list_to_map [
     ("b7", mkBand 2750 3449 false 33 "local");
     ("n48", mkBand 55240 56739 false 40 "shared")]))].
Local Close Scope string_scope.

Inductive OverlayError := ErrReadOverlay | ErrParseOverlay.
(** What the overlay path holds: nothing readable, no JSON, or profiles. *)
Inductive Overlay := Missing | Malformed | Profiles (m : Registry).
Definition DefaultRegistry (path : string) (read : Overlay) : res OverlayError Registry :=
  if decide (path = ""%string) then Ok builtinProfiles else
  match read with
  | Missing => Err ErrReadOverlay
  | Malformed => Err ErrParseOverlay
  | Profiles m => Ok (m ∪ builtinProfiles)
  end.

Definition allow (ok : bool) (why : Reason) (reasons : list Reason) : list Reason :=
  if ok then reasons else reasons ++ [why].
Definition Check_ (r : Registry) (country band : string) (indoor : bool) (licenseRef : string)
    : Verdict :=
  match r !! country with
  | None => mkVerdict false (allow false (NoProfile country) [])
  | Some p =>
      match Bands p !! band with
      | None => mkVerdict false (allow false (NotListed band country) [])
      | Some b =>
          let reasons := allow (Bool.eqb (IndoorOnly b) indoor || negb (IndoorOnly b))
                           (IndoorBand band) [] in
          let reasons := if decide (LicenseType b = "lab"%string) then reasons
                         else allow (negb (bool_decide (licenseRef = ""%string)))
                                (NoLicense band) reasons in
          mkVerdict (zlen reasons =? 0) reasons
      end
  end.
Definition MaxEIRP (r : Registry) (country band : string) : Z :=
  match r !! country with
  | None => 0
  | Some p => match Bands p !! band with None => 0 | Some b => MaxEIRPDBM b end
  end.
Definition Countries (r : Registry) : list string := (map_to_list r).*1.

(** The contract of the gate: the band is listed, an indoor-only band is used
    indoors, and any band but a lab one has a license reference. *)
Definition permitted (r : Registry) (country band : string) (indoor : bool) (licenseRef : string)
    : Prop :=
  exists p b, r !! country = Some p /\ Bands p !! band = Some b /\
    (IndoorOnly b = true -> indoor = true) /\
    (LicenseType b <> "lab"%string -> licenseRef <> ""%string).

(** The gate allows exactly what its contract permits, and gives at least one
    reason for every refusal and none otherwise. *)
Lemma Check_permitted r country band indoor licenseRef :
  let v := Check_ r country band indoor licenseRef in
  (Allowed v = true <-> permitted r country band indoor licenseRef) /\
  (Allowed v = true <-> Reasons v = []).
Proof.
  cbv zeta. unfold Check_, permitted. destruct (r !! country) as [p|] eqn:Ep.
  2: { cbn. split; split; try done. intros (p & b & ? & _). congruence. }
  destruct (Bands p !! band) as [b|] eqn:Eb.
  2: { cbn. split; split; try done. intros (p' & b' & [= <-] & ? & _). congruence. }
  assert (Hb : forall (Q : Band -> Prop), (exists p0 b0, Some p = Some p0 /\
            Bands p0 !! band = Some b0 /\ Q b0) <-> Q b).
  { intros Q. split; [intros (p0 & b0 & [= <-] & ? & ?); congruence|intros; by exists p, b]. }
  rewrite (Hb (fun b => (IndoorOnly b = true -> indoor = true) /\
    (LicenseType b <> "lab"%string -> licenseRef <> ""%string))).
  cbn [Allowed Reasons].
  destruct (IndoorOnly b), indoor, (decide (LicenseType b = "lab"%string)),
    (decide (licenseRef = ""%string)); cbn; rewrite ?bool_decide_true, ?bool_decide_false by done;
    cbn; naive_solver.
Qed.

(** The gate allows a transmission exactly when the country has a profile
    that lists the band, an indoor-only band is used indoors, and a band that
    is not a lab band comes with a license reference; a refusal always states
    a reason.  In particular no built-in profile lets a radio transmit
    without a license reference: the exception is the virtual lab band. *)
Theorem Check_spec r country band indoor licenseRef :
  let v := Check_ r country band indoor licenseRef in
  (Allowed v = true <-> permitted r country band indoor licenseRef) /\
  (Allowed v = true <-> Reasons v = []) /\
  (r = builtinProfiles -> licenseRef = ""%string -> Allowed v = true ->
     country = "LAB"%string /\ band = "zmq"%string).
Proof.
  cbv zeta. destruct (Check_permitted r country band indoor licenseRef) as [H1 H2].
  split; [done|]. split; [done|]. intros -> -> (p & b & Hp & Hb & _ & Hl)%H1.
  assert (Hlab : map_Forall (fun c p => map_Forall (fun n b =>
            LicenseType b = "lab"%string -> c = "LAB"%string /\ n = "zmq"%string) (Bands p))
            builtinProfiles) by vm_decide.
  apply (Hlab _ _ Hp _ _ Hb). destruct (decide (LicenseType b = "lab"%string)); [done|].
  by destruct Hl.
Qed.

(** An overlay replaces the countries it names and keeps the others: a
    band the built-in profile lists and the overlay's does not is no longer
    listed.  An overlay path that cannot be read or parsed is an error, not
    the built-in registry. *)
Theorem overlay_replaces path read country band indoor licenseRef r :
  path <> ""%string -> DefaultRegistry path read = Ok r ->
  exists overlay, read = Profiles overlay /\
    r !! country = match overlay !! country with
                   | Some p => Some p
                   | None => builtinProfiles !! country
                   end /\
    forall p, overlay !! country = Some p -> Bands p !! band = None ->
      Allowed (Check_ r country band indoor licenseRef) = false.
Proof.
  unfold DefaultRegistry. intros Hp. rewrite decide_False by done.
  destruct read as [| |m]; [done..|]. intros [= <-]. exists m. split; [done|].
  assert (E : (m ∪ builtinProfiles) !! country = match m !! country with
     | Some p => Some p | None => builtinProfiles !! country end)
    by (rewrite lookup_union; destruct (m !! country), (builtinProfiles !! country); done).
  split; [exact E|]. intros p Hm Hb. unfold Check_. by rewrite E, Hm, Hb.
Qed.
Definition demo_overlay : Registry :=
  {["US"%string := mkProfile "US" "310" {["n48"%string := mkBand 55240 56739 false 30 "cbrs"]}]}.
Lemma overlay_replaces_witness :
  "/etc/overlay.json"%string <> ""%string /\
  DefaultRegistry "/etc/overlay.json" (Profiles demo_overlay) = Ok (demo_overlay ∪ builtinProfiles) /\
  exists overlay, Profiles demo_overlay = Profiles overlay /\
    (demo_overlay ∪ builtinProfiles) !! "US"%string =
      match overlay !! "US"%string with
      | Some p => Some p | None => builtinProfiles !! "US"%string end /\
    forall p, overlay !! "US"%string = Some p -> Bands p !! "n46"%string = None ->
      Allowed (Check_ (demo_overlay ∪ builtinProfiles) "US" "n46" true "ref") = false.
Proof.
  split; [done|]. split; [reflexivity|].
  exact (overlay_replaces "/etc/overlay.json" (Profiles demo_overlay) "US" "n46" true "ref" _
    ltac:(done) eq_refl).
Defined.
