(* ===== verification/Mesh.v ===== *)
(** * Mesh: the node lifecycle and the neighbourhood

    [core/fairwave-control/internal/lifecycle/lifecycle.go] and
    [internal/peering/peering.go]: the phase machine, the peer a discovered
    mDNS entry becomes, and the WireGuard configuration text. *)
From stdpp Require Import pretty.
From S2P Require Import Prelude.
From S2P Require Import Api.

(** ** The lifecycle *)
(** The messages, with the phases they name. *)
Inductive TransitionError :=
  | InvalidPhase (current next : LifecyclePhase)
  | CannotFollow (phase current through : LifecyclePhase).

(** The index the loop leaves: the last match, -1 if there is none. *)
Definition index_of (p : LifecyclePhase) : Z :=
  (foldl (fun '(i, found) q => (i + 1, if decide (q = p) then i else found)) (0, -1) AllPhases).2.
Definition Transition (current next : LifecyclePhase) : option TransitionError :=
  if decide (current = next) then None else
  let curIdx := index_of current in
  let nextIdx := index_of next in
  if (curIdx =? -1) || (nextIdx =? -1) then Some (InvalidPhase current next) else
  if negb (nextIdx =? curIdx + 1) then
    let next := if curIdx + 1 <? zlen AllPhases
                then nth (Z.to_nat (curIdx + 1)) AllPhases ""%string else "<terminal>"%string in
    Some (CannotFollow next current next)
  else None.

(** The order the package comment gives. *)
Definition follows (current next : LifecyclePhase) : Prop :=
  exists l1 l2, AllPhases = l1 ++ current :: next :: l2.

Lemma index_cases p : (p ∉ AllPhases /\ index_of p = -1) \/
  exists i, index_of p = i /\ 0 <= i < 5 /\ AllPhases !! Z.to_nat i = Some p.
Proof.
  destruct (decide (p ∈ AllPhases)) as [Hin|Hin].
  - right. unfold AllPhases in Hin. rewrite !elem_of_cons in Hin.
    destruct Hin as [->|[->|[->|[->|[->|?%not_elem_of_nil]]]]]; [| | | | |done];
      eexists; (split; [vm_compute; reflexivity|split; [done|reflexivity]]).
  - left. split; [done|]. unfold AllPhases in Hin. rewrite !not_elem_of_cons in Hin.
    destruct Hin as (H1 & H2 & H3 & H4 & H5 & _). unfold index_of, AllPhases. cbn [foldl].
    by rewrite !decide_False by congruence.
Qed.

(** A transition is accepted exactly when it stays in the phase or moves
    to the next one of the documented order; nothing is skipped, nothing goes
    back, and no unknown phase is entered from a known one. *)
Theorem Transition_spec current next :
  Transition current next = None <-> current = next \/ follows current next.
Proof.
  unfold Transition. case_decide as E; [split; [by left|done]|].
  destruct (index_cases current) as [[Hc ->]|(i & -> & Hi & Hci)].
  { split; [done|]. intros [|(l1 & l2 & El)]; [done|]. destruct Hc. rewrite El. set_solver. }
  destruct (index_cases next) as [[Hn ->]|(j & -> & Hj & Hnj)].
  { rewrite orb_true_r. split; [done|]. intros [|(l1 & l2 & El)]; [done|].
    destruct Hn. rewrite El. set_solver. }
  replace ((i =? -1) || (j =? -1)) with false by (symmetry; zbool; lia).
  destruct (decide (j = i + 1)) as [->|Hne].
  - rewrite Z.eqb_refl. cbn [negb]. split; [|done]. intros _. right.
    exists (take (Z.to_nat i) AllPhases), (drop (S (S (Z.to_nat i))) AllPhases).
    rewrite <- (take_drop_middle AllPhases (Z.to_nat i) current) at 1 by done. do 2 f_equal.
    apply drop_S. rewrite <- Hnj. f_equal. lia.
  - replace (j =? i + 1) with false by (symmetry; zbool; lia). cbn [negb].
    split; [done|]. intros [|(l1 & l2 & El)]; [done|]. exfalso.
    assert (Hnd : NoDup AllPhases) by vm_decide.
    assert (E1 : AllPhases !! length l1 = Some current)
      by (rewrite El; by apply list_lookup_middle).
    assert (E2 : AllPhases !! S (length l1) = Some next).
    { rewrite El, cons_middle, app_assoc. apply list_lookup_middle. rewrite length_app. cbn. lia. }
    pose proof (NoDup_lookup _ _ _ _ Hnd E1 Hci). pose proof (NoDup_lookup _ _ _ _ Hnd E2 Hnj). lia.
Qed.

(** The refusal of a known phase names the phase that would be next, never
    the one that was asked for: the inner [next] shadows the argument. *)
Lemma refusal_names_wrong_phase current next p c t :
  Transition current next = Some (CannotFollow p c t) -> p = t /\ p <> next.
Proof.
  unfold Transition. case_decide as E; [done|].
  destruct (index_cases current) as [[Hc ->]|(i & -> & Hi & Hci)]; [done|].
  destruct (index_cases next) as [[Hn ->]|(j & -> & Hj & Hnj)]; [by rewrite orb_true_r|].
  replace ((i =? -1) || (j =? -1)) with false by (symmetry; zbool; lia).
  case_if; [|done]. intros [= <- _ <-]. split; [done|]. zbool.
  case_if.
  - intros En. rewrite <- En in Hnj. assert (Hnd : NoDup AllPhases) by vm_decide.
    assert (H2 : AllPhases !! Z.to_nat (i + 1) = Some (nth (Z.to_nat (i + 1)) AllPhases ""%string)).
    { destruct (lookup_lt_is_Some_2 AllPhases (Z.to_nat (i + 1))) as [x Hx].
      - zbool. unfold zlen in *. lia.
      - by rewrite nth_lookup, Hx. }
    pose proof (NoDup_lookup _ _ _ _ Hnd H2 Hnj). lia.
  - intros <-. apply list_elem_of_lookup_2 in Hnj.
    assert (Ht : ("<terminal>"%string : LifecyclePhase) ∉ AllPhases) by vm_decide. done.
Qed.

(** ** Discovery *)
Record ServiceEntry := mkService {
  Instance_ : string; AddrIPv4 : list string; Port : Z; Text : list string }.
Definition ServiceType : string := "_fairwave._tcp".
Definition ServiceName : string := "fairwave".

(** [txt[:8] == "pubkey="] and [txt[8:]]. *)
Definition read_txt (peer : Peer) (txt : string) : Peer :=
  if (8 <? slen txt) && bool_decide (bytes_string (slice (string_bytes txt) 0 8) = "pubkey="%string)
  then {| peer with PubKey := bytes_string (drop 8 (string_bytes txt)) |} else peer.
(** The peer handed to the callback for an entry, if any.  [JoinHostPort] of
    an IPv4 address. *)
Definition browse_entry (now : time) (e : ServiceEntry) : option Peer :=
  match AddrIPv4 e with
  | [] => None
  | a :: _ =>
      let peer := mkPeer "" (Instance_ e) (a +:+ ":" +:+ pretty (Port e)) "" [] "up" now in
      Some (foldl read_txt peer (Text e))
  end.

(** One browse: the peers of the entries that arrived, and the error; none
    when the context is done. *)
Record Browse := mkBrowse {
  resolver_ok : bool; arrived : list ServiceEntry; at_time : time; browse_ok : bool; ctx_done : bool }.
Definition browseOnce (b : Browse) : list Peer * bool :=
  if negb (resolver_ok b) then ([], false)
  else (omap (browse_entry (at_time b)) (arrived b), ctx_done b || browse_ok b).
(** [Run]: the peers handed to the callback, browse after browse until the
    context is done; an error of a browse is only logged.  [None] when the
    service is to be advertised and cannot be. *)
Fixpoint browse_all (l : list Browse) : list Peer :=
  match l with
  | [] => []
  | b :: l => (browseOnce b).1 ++ if ctx_done b then [] else browse_all l
  end.
Definition Discoverer_Run (advertise registered : bool) (l : list Browse) : option (list Peer) :=
  if advertise && negb registered then None else Some (browse_all l).

Lemma browse_no_key now e peer : browse_entry now e = Some peer ->
  PubKey peer = ""%string /\ pName peer = Instance_ e /\ pStatus peer = "up"%string /\ LastSeen peer = now.
Proof.
  unfold browse_entry. destruct (AddrIPv4 e) as [|a l]; [done|]. intros [= <-].
  assert (H : forall txt p, read_txt p txt = p).
  { intros txt p. unfold read_txt. destruct (8 <? slen txt) eqn:E; [|done].
    rewrite bool_decide_false; [done|]. intros Ht. apply (f_equal slen) in Ht.
    unfold slen in Ht. rewrite bytes_string_bytes in Ht.
    - rewrite zlen_slice in Ht by (unfold slen in *; zbool; lia). done.
    - apply Forall_take, Forall_drop, string_bytes_range. }
  assert (Hf : forall ts p, foldl read_txt p ts = p)
    by (induction ts as [|t ts IH]; intros p; [done|]; cbn [foldl]; by rewrite H, IH).
  by rewrite Hf.
Qed.
(** Discovery never learns a neighbour's key: the code compares the
    first eight bytes of a TXT record with a literal of seven, so whatever
    records a neighbour publishes, the peer handed on has no public key. *)
Theorem discovered_peer_has_no_key now e peer : browse_entry now e = Some peer ->
  PubKey peer = ""%string /\ pName peer = Instance_ e /\ pStatus peer = "up"%string.
Proof. intros E. destruct (browse_no_key now e peer E) as (? & ? & ? & _). done. Qed.
(** Whatever a network announces, and however browses fail, every peer handed
    on is an announced one, up, without a key. *)
Lemma discovered_peers advertise registered l ps p : Discoverer_Run advertise registered l = Some ps -> p ∈ ps ->
  PubKey p = ""%string /\ pStatus p = "up"%string /\
  exists b e, b ∈ l /\ e ∈ arrived b /\ pName p = Instance_ e /\ LastSeen p = at_time b.
Proof.
  unfold Discoverer_Run. destruct (advertise && negb registered); [done|]. intros [= <-].
  induction l as [|b l IH]; cbn [browse_all]; [set_solver|]. rewrite elem_of_app. intros [Hp|Hp].
  - unfold browseOnce in Hp. destruct (resolver_ok b); [|set_solver]. cbn in Hp.
    apply list_elem_of_omap in Hp as (e & He & E). destruct (browse_no_key _ _ _ E) as (? & ? & ? & ?).
    split_and!; [done..|]. exists b, e. set_solver.
  - destruct (ctx_done b); [set_solver|]. destruct (IH Hp) as (? & ? & b' & e & ? & ?).
    split_and!; [done..|]. exists b', e. set_solver.
Qed.
Definition demo_service : ServiceEntry :=
  mkService "box-2" ["10.0.0.2"%string] 8443 ["fairwave=1"; "pubkey=QUJDREVGR0g="]%string.
Lemma discovered_peer_has_no_key_witness :
  browse_entry 9 demo_service =
    Some (mkPeer "" "box-2" "10.0.0.2:8443" "" [] "up" 9) /\
  PubKey (mkPeer "" "box-2" "10.0.0.2:8443" "" [] "up" 9) = ""%string /\
  pName (mkPeer "" "box-2" "10.0.0.2:8443" "" [] "up" 9) = Instance_ demo_service /\
  pStatus (mkPeer "" "box-2" "10.0.0.2:8443" "" [] "up" 9) = "up"%string.
Proof.
  assert (H : browse_entry 9 demo_service = Some (mkPeer "" "box-2" "10.0.0.2:8443" "" [] "up" 9))
    by (vm_compute; reflexivity).
  split; [exact H|]. exact (discovered_peer_has_no_key 9 demo_service _ H).
Defined.

(** ** WireGuard configuration *)
Definition newline : string := bytes_string [10].
Record WgPeer := mkWgPeer {
  wPubKey : string; wEndpoint : string; wAllowedIPs : list string; PersistentKeepalive : Z }.
Record WGConfig := mkWG {
  Iface : string; ListenPort : Z; PrivKey : string; Addresses : list string; wPeers : list WgPeer }.

Fixpoint join_ips (i : Z) (ips : string) (l : list string) : string :=
  match l with
  | [] => ips
  | ip :: l => join_ips (i + 1) ((if 0 <? i then ips +:+ ", " else ips) +:+ ip) l
  end.
Definition render_peer (p : WgPeer) (out : string) : string :=
  let out := out +:+ newline +:+ "[Peer]" +:+ newline in
  let out := out +:+ "PublicKey = " +:+ wPubKey p +:+ newline in
  let out := if decide (wEndpoint p = ""%string) then out
             else out +:+ "Endpoint = " +:+ wEndpoint p +:+ newline in
  let out := match wAllowedIPs p with
             | [] => out
             | l => out +:+ "AllowedIPs = " +:+ join_ips 0 "" l +:+ newline
             end in
  if 0 <? PersistentKeepalive p
  then out +:+ "PersistentKeepalive = " +:+ pretty (PersistentKeepalive p) +:+ newline else out.
Definition Render (w : WGConfig) : string :=
  let out := "[Interface]" +:+ newline +:+ "PrivateKey = " +:+ PrivKey w +:+ newline
             +:+ "ListenPort = " +:+ pretty (ListenPort w) +:+ newline in
  let out := foldl (fun out a => out +:+ "Address = " +:+ a +:+ newline) out (Addresses w) in
  foldl (fun out p => render_peer p out) out (wPeers w).
