(* ===== verification/Store.v ===== *)
(** * Store: the control plane's tables and their files

    [core/fairwave-control/internal/store/store.go].  The store keeps every
    table in memory and rewrites a table's file on each change, through a
    temporary file and a rename: a save either replaces the file as a whole
    or leaves it alone.  [ok] is whether a save succeeds; it returns what the
    Go method does, an error or none.  The records behind the maps' pointers
    are in no other structure, so a handler's write through a pointer it got
    from the store is an update of the table in memory ([set_sim] and the
    like), which the file follows at the next save.  JSON is taken to give
    back what was written. *)
From S2P Require Import Prelude.
From S2P Require Import Float64.
From S2P Require Import Bearer.
From S2P Require Import Fabric.
From S2P Require Import Api.

Record Tables := mkTables {
  nodes : gmap string Node; sims : gmap string SIM; peers : gmap string Peer;
  sessions : list Session; health : gmap string NodeHealth; audit : list AuditEntry;
  tokens : gmap string Token; usage : gmap string SimUsage; alerts : list Alert;
  txArmed : bool; policy : Policy;
  hydraThreads : gmap string Bearer.Thread; hydraWeaves : gmap string Fabric.Weave;
}.
(** The files of the directory: none where there is no readable document. *)
Record Files := mkFiles {
  f_nodes : option (gmap string Node); f_sims : option (gmap string SIM);
  f_peers : option (gmap string Peer); f_sessions : option (list Session);
  f_health : option (gmap string NodeHealth); f_audit : option (list AuditEntry);
  f_tokens : option (gmap string Token); f_usage : option (gmap string SimUsage);
  f_alerts : option (list Alert); f_tx : option bool; f_policy : option Policy;
  f_threads : option (gmap string Bearer.Thread); f_weaves : option (gmap string Fabric.Weave);
}.
Record Store := mkStore { mem : Tables; disk : Files }.
Definition no_files : Files :=
  mkFiles None None None None None None None None None None None None None.

Definition default_policy : Policy := mkPolicy true "" 128 ["internet"; "ims"]%string 0 0.
(** A document that is missing or does not parse leaves the fresh value. *)
Definition loadJSON {A} (file : option A) (fresh : A) : A := default fresh file.
Definition load (d : Files) : Tables :=
  mkTables (loadJSON (f_nodes d) ∅) (loadJSON (f_sims d) ∅) (loadJSON (f_peers d) ∅)
    (loadJSON (f_sessions d) []) (loadJSON (f_health d) ∅) (loadJSON (f_audit d) [])
    (loadJSON (f_tokens d) ∅) (loadJSON (f_usage d) ∅) (loadJSON (f_alerts d) [])
    (loadJSON (f_tx d) false) (loadJSON (f_policy d) default_policy)
    (loadJSON (f_threads d) ∅) (loadJSON (f_weaves d) ∅).
(** [mkdir] is whether the directory could be made. *)
Definition Open (mkdir : bool) (d : Files) : option Store :=
  if mkdir then Some (mkStore (load d) d) else None.

(** ** Tables in memory *)
Definition set_nodes (f : gmap string Node -> gmap string Node) (s : Store) : Store :=
  {| s with mem := {| (mem s) with nodes := f (nodes (mem s)) |} |}.
Definition set_sims (f : gmap string SIM -> gmap string SIM) (s : Store) : Store :=
  {| s with mem := {| (mem s) with sims := f (sims (mem s)) |} |}.
Definition set_peers (f : gmap string Peer -> gmap string Peer) (s : Store) : Store :=
  {| s with mem := {| (mem s) with peers := f (peers (mem s)) |} |}.
Definition set_sessions (l : list Session) (s : Store) : Store :=
  {| s with mem := {| (mem s) with sessions := l |} |}.
Definition set_health (f : gmap string NodeHealth -> gmap string NodeHealth) (s : Store) : Store :=
  {| s with mem := {| (mem s) with health := f (health (mem s)) |} |}.
Definition set_audit (l : list AuditEntry) (s : Store) : Store :=
  {| s with mem := {| (mem s) with audit := l |} |}.
Definition set_tokens (f : gmap string Token -> gmap string Token) (s : Store) : Store :=
  {| s with mem := {| (mem s) with tokens := f (tokens (mem s)) |} |}.
Definition set_usage (f : gmap string SimUsage -> gmap string SimUsage) (s : Store) : Store :=
  {| s with mem := {| (mem s) with usage := f (usage (mem s)) |} |}.
Definition set_alerts (l : list Alert) (s : Store) : Store :=
  {| s with mem := {| (mem s) with alerts := l |} |}.
Definition set_tx (b : bool) (s : Store) : Store :=
  {| s with mem := {| (mem s) with txArmed := b |} |}.
Definition set_policy (p : Policy) (s : Store) : Store :=
  {| s with mem := {| (mem s) with policy := p |} |}.
Definition set_threads (f : gmap string Bearer.Thread -> gmap string Bearer.Thread) (s : Store) :
    Store := {| s with mem := {| (mem s) with hydraThreads := f (hydraThreads (mem s)) |} |}.
Definition set_weaves (f : gmap string Fabric.Weave -> gmap string Fabric.Weave) (s : Store) :
    Store := {| s with mem := {| (mem s) with hydraWeaves := f (hydraWeaves (mem s)) |} |}.

(** ** Saving: [save] with the table and its file *)
Inductive Table :=
  | TNodes | TSims | TPeers | TSessions | THealth | TAudit | TTokens | TUsage | TAlerts | TTx
  | TPolicy | TThreads | TWeaves.
Definition write_file (t : Table) (m : Tables) (d : Files) : Files :=
  match t with
  | TNodes => {| d with f_nodes := Some (nodes m) |}
  | TSims => {| d with f_sims := Some (sims m) |}
  | TPeers => {| d with f_peers := Some (peers m) |}
  | TSessions => {| d with f_sessions := Some (sessions m) |}
  | THealth => {| d with f_health := Some (health m) |}
  | TAudit => {| d with f_audit := Some (audit m) |}
  | TTokens => {| d with f_tokens := Some (tokens m) |}
  | TUsage => {| d with f_usage := Some (usage m) |}
  | TAlerts => {| d with f_alerts := Some (alerts m) |}
  | TTx => {| d with f_tx := Some (txArmed m) |}
  | TPolicy => {| d with f_policy := Some (policy m) |}
  | TThreads => {| d with f_threads := Some (hydraThreads m) |}
  | TWeaves => {| d with f_weaves := Some (hydraWeaves m) |}
  end.
Definition save (ok : bool) (t : Table) (s : Store) : Store * bool :=
  if ok then ({| s with disk := write_file t (mem s) (disk s) |}, true) else (s, false).

(** ** Operations: the new store, and whether there was no error *)
Definition UpsertNode (ok : bool) (n : Node) (s : Store) : Store * bool :=
  save ok TNodes (set_nodes (insert (nID n) n) s).
Definition GetNode (id : string) (s : Store) : option Node := nodes (mem s) !! id.
Definition DeleteNode (ok : bool) (id : string) (s : Store) : Store * bool :=
  save ok TNodes (set_nodes (delete id) s).
Definition UpsertSIM (ok : bool) (sim : SIM) (s : Store) : Store * bool :=
  save ok TSims (set_sims (insert (IMSI sim) sim) s).
Definition GetSIM (imsi : string) (s : Store) : option SIM := sims (mem s) !! imsi.
Definition UpsertPeer (ok : bool) (p : Peer) (s : Store) : Store * bool :=
  save ok TPeers (set_peers (insert (pID p) p) s).
Definition GetPeer (id : string) (s : Store) : option Peer := peers (mem s) !! id.
Definition DeletePeer (ok : bool) (id : string) (s : Store) : Store * bool :=
  save ok TPeers (set_peers (delete id) s).
Definition AddSession (ok : bool) (x : Session) (s : Store) : Store * bool :=
  save ok TSessions (set_sessions (sessions (mem s) ++ [x]) s).
Definition ReplaceSessions (ok : bool) (l : list Session) (s : Store) : Store * bool :=
  save ok TSessions (set_sessions l s).
Definition ListSessions (s : Store) : list Session := sessions (mem s).
Definition UpsertHealth (ok : bool) (h : NodeHealth) (s : Store) : Store * bool :=
  save ok THealth (set_health (insert (hNodeID h) h) s).
Definition GetHealth (id : string) (s : Store) : option NodeHealth := health (mem s) !! id.
Definition AppendAudit (ok : bool) (e : AuditEntry) (s : Store) : Store * bool :=
  save ok TAudit (set_audit (audit (mem s) ++ [e]) s).
Definition ListAudit (s : Store) : list AuditEntry := reverse (audit (mem s)).
Definition GetTxArmed (s : Store) : bool := txArmed (mem s).
Definition SetTxArmed (ok : bool) (armed : bool) (s : Store) : Store * bool :=
  save ok TTx (set_tx armed s).
Definition UpsertToken (ok : bool) (t : Token) (s : Store) : Store * bool :=
  save ok TTokens (set_tokens (insert (tID t) t) s).
Definition GetToken (id : string) (s : Store) : option Token := tokens (mem s) !! id.
(** The loop over the map, in its order. *)
Definition TokenByHash (order : list Token -> list Token) (hash : string) (s : Store) : option Token :=
  snd <$> list_find (fun t => TokenHash t = hash /\ tRevoked t = false) (order (values (tokens (mem s)))).
Definition RevokeToken (ok : bool) (id : string) (s : Store) : Store * bool :=
  match tokens (mem s) !! id with
  | None => (s, false)
  | Some t => save ok TTokens (set_tokens (insert id {| t with tRevoked := true |}) s)
  end.
Definition UpsertUsage (ok : bool) (u : SimUsage) (s : Store) : Store * bool :=
  save ok TUsage (set_usage (insert (uIMSI u) u) s).
Definition GetUsage (imsi : string) (s : Store) : option SimUsage := usage (mem s) !! imsi.
Definition AppendAlert (ok : bool) (a : Alert) (s : Store) : Store * bool :=
  save ok TAlerts (set_alerts (alerts (mem s) ++ [a]) s).
Fixpoint resolve_first (id : string) (at_ : time) (l : list Alert) : list Alert :=
  match l with
  | [] => []
  | a :: l => if decide (alID a = id)
              then {| a with Resolved := true; ResolvedAt := Some at_ |} :: l
              else a :: resolve_first id at_ l
  end.
Definition ResolveAlert (ok : bool) (id : string) (at_ : time) (s : Store) : Store * bool :=
  save ok TAlerts (set_alerts (resolve_first id at_ (alerts (mem s))) s).
Definition ListAlerts (s : Store) : list Alert := reverse (alerts (mem s)).
Definition ActiveAlerts (s : Store) : list Alert :=
  filter (fun a => Resolved a = false) (alerts (mem s)).
Definition GetPolicy (s : Store) : Policy := policy (mem s).
Definition SetPolicy (ok : bool) (p : Policy) (s : Store) : Store * bool :=
  save ok TPolicy (set_policy p s).
Definition UpsertHydraThread (ok : bool) (t : Bearer.Thread) (s : Store) : Store * bool :=
  save ok TThreads (set_threads (insert (Bearer.ID t) t) s).
Definition ListHydraThreads (s : Store) : list Bearer.Thread :=
  sort_by Bearer.ID (values (hydraThreads (mem s))).
Definition DeleteHydraThread (ok : bool) (id : string) (s : Store) : Store * bool :=
  save ok TThreads (set_threads (delete id) s).
Definition UpsertHydraWeave (ok : bool) (w : Fabric.Weave) (s : Store) : Store * bool :=
  save ok TWeaves (set_weaves (insert (wID w) w) s).
Definition ListHydraWeaves (s : Store) : list Fabric.Weave :=
  sort_by wID (values (hydraWeaves (mem s))).
Definition DeleteHydraWeave (ok : bool) (id : string) (s : Store) : Store * bool :=
  save ok TWeaves (set_weaves (delete id) s).

(** ** Runs of operations *)
Inductive Op :=
  | OpNode (n : Node) | OpDropNode (id : string) | OpSIM (x : SIM) | OpPeer (p : Peer)
  | OpDropPeer (id : string) | OpSession (x : Session) | OpSessions (l : list Session)
  | OpHealth (h : NodeHealth) | OpAudit (e : AuditEntry) | OpTx (b : bool) | OpToken (t : Token)
  | OpRevokeToken (id : string) | OpUsage (u : SimUsage) | OpAlert (a : Alert)
  | OpResolve (id : string) (at_ : time) | OpPolicy (p : Policy) | OpThread (t : Bearer.Thread)
  | OpDropThread (id : string) | OpWeave (w : Fabric.Weave) | OpDropWeave (id : string).
Definition apply (ok : bool) (o : Op) (s : Store) : Store * bool :=
  match o with
  | OpNode n => UpsertNode ok n s | OpDropNode id => DeleteNode ok id s
  | OpSIM x => UpsertSIM ok x s | OpPeer p => UpsertPeer ok p s
  | OpDropPeer id => DeletePeer ok id s | OpSession x => AddSession ok x s
  | OpSessions l => ReplaceSessions ok l s | OpHealth h => UpsertHealth ok h s
  | OpAudit e => AppendAudit ok e s | OpTx b => SetTxArmed ok b s
  | OpToken t => UpsertToken ok t s | OpRevokeToken id => RevokeToken ok id s
  | OpUsage u => UpsertUsage ok u s | OpAlert a => AppendAlert ok a s
  | OpResolve id t => ResolveAlert ok id t s | OpPolicy p => SetPolicy ok p s
  | OpThread t => UpsertHydraThread ok t s | OpDropThread id => DeleteHydraThread ok id s
  | OpWeave w => UpsertHydraWeave ok w s | OpDropWeave id => DeleteHydraWeave ok id s
  end.
Definition table_of (o : Op) : Table :=
  match o with
  | OpNode _ | OpDropNode _ => TNodes | OpSIM _ => TSims | OpPeer _ | OpDropPeer _ => TPeers
  | OpSession _ | OpSessions _ => TSessions | OpHealth _ => THealth | OpAudit _ => TAudit
  | OpTx _ => TTx | OpToken _ | OpRevokeToken _ => TTokens | OpUsage _ => TUsage
  | OpAlert _ | OpResolve _ _ => TAlerts | OpPolicy _ => TPolicy
  | OpThread _ | OpDropThread _ => TThreads | OpWeave _ | OpDropWeave _ => TWeaves
  end.
Definition same_table (t : Table) (m m' : Tables) : Prop :=
  match t with
  | TNodes => nodes m = nodes m' | TSims => sims m = sims m' | TPeers => peers m = peers m'
  | TSessions => sessions m = sessions m' | THealth => health m = health m'
  | TAudit => audit m = audit m' | TTokens => tokens m = tokens m' | TUsage => usage m = usage m'
  | TAlerts => alerts m = alerts m' | TTx => txArmed m = txArmed m'
  | TPolicy => policy m = policy m' | TThreads => hydraThreads m = hydraThreads m'
  | TWeaves => hydraWeaves m = hydraWeaves m'
  end.
Definition same_file (t : Table) (d d' : Files) : Prop :=
  match t with
  | TNodes => f_nodes d = f_nodes d' | TSims => f_sims d = f_sims d' | TPeers => f_peers d = f_peers d'
  | TSessions => f_sessions d = f_sessions d' | THealth => f_health d = f_health d'
  | TAudit => f_audit d = f_audit d' | TTokens => f_tokens d = f_tokens d'
  | TUsage => f_usage d = f_usage d' | TAlerts => f_alerts d = f_alerts d' | TTx => f_tx d = f_tx d'
  | TPolicy => f_policy d = f_policy d' | TThreads => f_threads d = f_threads d'
  | TWeaves => f_weaves d = f_weaves d'
  end.
(** The file of table [t] is the document of that table of [m]. *)
Definition file_holds (t : Table) (m : Tables) (d : Files) : Prop :=
  same_file t d (write_file t m d).

(** An operation touches one table; its save writes that file or nothing. *)
Lemma apply_shape ok o s : exists m,
  mem (apply ok o s).1 = m /\
  (forall t, t <> table_of o -> same_table t m (mem s)) /\
  (disk (apply ok o s).1 = disk s \/ disk (apply ok o s).1 = write_file (table_of o) m (disk s)) /\
  (ok = true -> m = mem s \/ disk (apply ok o s).1 = write_file (table_of o) m (disk s)).
Proof.
  eexists. split; [reflexivity|].
  destruct o; try (destruct ok; (split; [by intros []|split; [by auto|by auto]])).
  cbn [apply]. unfold RevokeToken. destruct (tokens (mem s) !! id); cbn [table_of].
  - destruct ok; (split; [by intros []|split; [by auto|by auto]]).
  - split; [by intros []|]. split; [by left|]. by left.
Qed.
Lemma same_file_write t t' m d : t <> t' -> same_file t (write_file t' m d) d.
Proof. by destruct t, t'. Qed.
Lemma file_holds_write t m d : file_holds t m (write_file t m d).
Proof. by destruct t. Qed.
Lemma file_holds_same t m d d' : same_file t d d' -> file_holds t m d' -> file_holds t m d.
Proof. unfold file_holds. destruct t; cbn; congruence. Qed.
Lemma same_file_refl t d : same_file t d d.
Proof. by destruct t. Qed.
Lemma same_file_trans t d1 d2 d3 : same_file t d1 d2 -> same_file t d2 d3 -> same_file t d1 d3.
Proof. destruct t; cbn; congruence. Qed.
#[global] Instance Table_eq_dec : EqDecision Table.
Proof. solve_decision. Defined.

(** The states of a run, the last one first. *)
Fixpoint states (s : Store) (l : list (bool * Op)) : list Store :=
  match l with
  | [] => [s]
  | (ok, o) :: l => states (apply ok o s).1 l ++ [s]
  end.
Definition run (s : Store) (l : list (bool * Op)) : Store :=
  foldl (fun s x => (apply x.1 x.2 s).1) s l.

Lemma file_is_some_state t l : forall s,
  same_file t (disk (run s l)) (disk s) \/
  exists k, k ∈ states s l /\ file_holds t (mem k) (disk (run s l)).
Proof.
  induction l as [|[ok o] l IH]; intros s; [left; apply same_file_refl|].
  cbn [run foldl states fst snd]. destruct (IH (apply ok o s).1) as [Hs|(k & Hk & Hf)].
  2: { right. exists k. split; [by apply elem_of_app; left|done]. }
  destruct (apply_shape ok o s) as (m & Hm & _ & Hd & _).
  fold (run (apply ok o s).1 l) in *. set (r := run _ l) in *.
  destruct Hd as [Hd|Hd]; [left; by rewrite Hd in Hs|].
  destruct (decide (t = table_of o)) as [->|Hne].
  - right. exists (apply ok o s).1. split.
    + apply elem_of_app. left. clear. destruct l as [|[ok' o'] l]; [left|].
      cbn [states]. apply elem_of_app. right. left.
    + rewrite Hm. eapply file_holds_same; [exact Hs|]. rewrite Hd. apply file_holds_write.
  - left. rewrite Hd in Hs. eapply same_file_trans; [done|]. by apply same_file_write.
Qed.

Lemma load_write t m d : same_table t m (load (write_file t m d)).
Proof. by destruct t. Qed.
Lemma load_other t t' m d : t <> t' -> same_table t (load (write_file t' m d)) (load d).
Proof. by destruct t, t'. Qed.
Lemma tables_ext m m' : (forall t, same_table t m m') -> m = m'.
Proof.
  intros H. pose proof (H TNodes). pose proof (H TSims). pose proof (H TPeers).
  pose proof (H TSessions). pose proof (H THealth). pose proof (H TAudit). pose proof (H TTokens).
  pose proof (H TUsage). pose proof (H TAlerts). pose proof (H TTx). pose proof (H TPolicy).
  pose proof (H TThreads). pose proof (H TWeaves). destruct m, m'. cbn in *. by subst.
Qed.
Lemma apply_loads o s : load (disk s) = mem s ->
  load (disk (apply true o s).1) = mem (apply true o s).1.
Proof.
  intros Hs. destruct (apply_shape true o s) as (m & Hm & Hother & Hd & Hok).
  rewrite Hm. destruct (Hok eq_refl) as [E|E].
  - destruct Hd as [Hd|Hd]; [by rewrite Hd, Hs|].
    rewrite Hd, E, <- Hs. apply tables_ext. intros t.
    destruct (decide (t = table_of o)) as [->|]; [|by apply load_other].
    pose proof (load_write (table_of o) (load (disk s)) (disk s)). by destruct (table_of o).
  - rewrite E. apply tables_ext. intros t. destruct (decide (t = table_of o)) as [->|Hne].
    + pose proof (load_write (table_of o) m (disk s)). by destruct (table_of o).
    + pose proof (load_other t (table_of o) m (disk s) Hne) as H1. rewrite Hs in H1.
      specialize (Hother t Hne). destruct t; cbn in *; congruence.
Qed.

(** C20: The store survives restarts.  However operations and failing saves
    follow each other, every file is whole: it is untouched, or it is the
    document of its table in some state the run went through.  And if no save
    failed, opening the directory again gives the store as it was. *)
Theorem restart_restores d l s : Open true d = Some s ->
  (forall t, same_file t (disk (run s l)) d \/
     exists k, k ∈ states s l /\ file_holds t (mem k) (disk (run s l))) /\
  (Forall (fun x => x.1 = true) l -> Open true (disk (run s l)) = Some (run s l)).
Proof.
  intros [= <-]. split; [intros t; apply file_is_some_state|]. intros Hok. unfold Open. f_equal.
  assert (H : load (disk (run (mkStore (load d) d) l)) = mem (run (mkStore (load d) d) l)).
  { assert (H0 : load (disk (mkStore (load d) d)) = mem (mkStore (load d) d)) by done.
    revert H0. generalize (mkStore (load d) d). induction Hok as [|[ok o] l Hx Hl IH]; intros s H0;
      [done|]. cbn in Hx. subst ok. apply IH, apply_loads, H0. }
  rewrite H. by destruct (run _ l).
Qed.
Definition demo_sim : SIM := mkSIM "999991234567001" "9999001" "lab" "issued" "internet" "" 0 1 9.
Lemma restart_restores_witness :
  Open true no_files = Some (mkStore (load no_files) no_files) /\
  Forall (fun x => x.1 = true) [(true, OpSIM demo_sim); (true, OpTx true)] /\
  let s := run (mkStore (load no_files) no_files) [(true, OpSIM demo_sim); (true, OpTx true)] in
  GetTxArmed s = true /\ Open true (disk s) = Some s.
Proof.
  assert (H : Open true no_files = Some (mkStore (load no_files) no_files)) by reflexivity.
  assert (Hok : Forall (fun x => x.1 = true) [(true, OpSIM demo_sim); (true, OpTx true)])
    by (repeat constructor).
  split; [exact H|]. split; [exact Hok|]. cbv zeta. split; [reflexivity|].
  exact (proj2 (restart_restores no_files _ _ H) Hok).
Defined.
