(* ===== verification/Config.v ===== *)
(** * Config: the control plane's configuration

    [core/fairwave-control/config/config.go].  The nested structs are one
    record.  YAML and the embedded JSON schema are parameters of [Load]; the
    environment is the list of variables in the order Go's map iteration
    visits the mapping. *)
From S2P Require Import Prelude.
From S2P Require Import Float64.

Record ControlConfig := mkConfig {
  Core : string;
  Listen : string; DataDir : string; UIDir : string; Mode : string; Country : string;
  LogLevel : string; LogFormat : string; Shutdown : Z;
  MCC : string; MNC : string; TAC : Z; APNs : list string;
  OverlayPath : string;
  BootstrapTokenTTL : Z; AdminTokenEnv : string;
  Open5GSConfigDir : string; SrsranConfigDir : string; SouthboundDriver : string;
  HSSDriver : string; HSSContainer : string;
  PeeringEnabled : bool; MDNS : bool; Rendezvous : string; WGIface : string; WGPort : Z;
  AllowedIPs : list string;
  PolLocalBreakout : bool; PolHubPeer : string; PolMaxUEs : Z; PolAPNs : list string;
  PolQoSDL : Z; PolQoSUL : Z;
  TelMetrics : bool; OTLPEndpoint : string; StaleAfter : Z;
  CollectorEnabled : bool; CollectorInterval : Z; MMEURL : string; SMFURL : string;
  UPFEnabled : bool; UPFIface : string;
  AMFOAMURL : string; CDRDir : string;
  ESIMEnabled : bool; RegistryPath : string; SMDPAddress : string; SMDPID : string;
  SingleUse : bool; CodeTTL : Z;
  AlertsEnabled : bool; Webhooks : list string; TempHighC : f64; SimExpiryWarnDays : Z;
  UesCapacityPct : Z;
  FairUseEnabled : bool; UsageInterval : Z;
}.

Local Open Scope string_scope.
Definition Default : ControlConfig := {|
  Core := "open5gs";
  Listen := ":8080"; DataDir := "./data"; UIDir := "apps/fairwave-ui"; Mode := "lab";
  Country := "LAB"; LogLevel := "info"; LogFormat := "json"; Shutdown := (10 * Second)%Z;
  MCC := "999"; MNC := "99"; TAC := 7; APNs := ["internet"; "ims"];
  OverlayPath := "";
  BootstrapTokenTTL := (5 * Minute)%Z; AdminTokenEnv := "FAIRWAVE_ADMIN_TOKEN";
  Open5GSConfigDir := "./data/open5gs"; SrsranConfigDir := "./data/srsran";
  SouthboundDriver := "none"; HSSDriver := "none"; HSSContainer := "mongo";
  PeeringEnabled := true; MDNS := true; Rendezvous := ""; WGIface := "fw-mesh"; WGPort := 51820;
  AllowedIPs := ["10.99.0.0/16"];
  PolLocalBreakout := true; PolHubPeer := ""; PolMaxUEs := 128; PolAPNs := ["internet"; "ims"];
  PolQoSDL := 50; PolQoSUL := 25;
  TelMetrics := true; OTLPEndpoint := ""; StaleAfter := (90 * Second)%Z;
  CollectorEnabled := false; CollectorInterval := (15 * Second)%Z;
  MMEURL := "http://127.0.0.2:9090"; SMFURL := "http://127.0.0.4:9090";
  UPFEnabled := false; UPFIface := "";
  AMFOAMURL := "http://amf:8000"; CDRDir := "";
  ESIMEnabled := true; RegistryPath := ""; SMDPAddress := "fairwave.local:8443";
  SMDPID := "fairwave-esim"; SingleUse := true; CodeTTL := (7 * 24 * Hour)%Z;
  AlertsEnabled := true; Webhooks := []; TempHighC := f64_of_Z 85; SimExpiryWarnDays := 14;
  UesCapacityPct := 90;
  FairUseEnabled := false; UsageInterval := (60 * Second)%Z |}.

(** ** [strconv] *)
Definition ParseBool (v : string) : option bool :=
  if decide (v ∈ ["1"; "t"; "T"; "TRUE"; "true"; "True"]) then Some true
  else if decide (v ∈ ["0"; "f"; "F"; "FALSE"; "false"; "False"]) then Some false
  else None.
(** The value [Atoi] returns, its error ignored: 0 for a malformed number, the
    nearest limit for one that is out of range. *)
Definition Atoi (v : string) : Z :=
  let b := string_bytes v in
  let '(neg, digits) := match b with
                        | 45 :: l => (true, l)
                        | 43 :: l => (false, l)
                        | _ => (false, b)
                        end%Z in
  if (zlen digits =? 0)%Z || negb (forallb (fun c => (48 <=? c)%Z && (c <=? 57)%Z) digits) then 0%Z
  else
    let n := foldl (fun n c => n * 10 + (c - 48))%Z 0%Z digits in
    Z.max (- 2 ^ 63) (Z.min (2 ^ 63 - 1) (if neg then - n else n)%Z).

(** ** Environment overrides *)
Definition set_bool (set : bool -> ControlConfig -> ControlConfig) (v : string) (c : ControlConfig)
    : ControlConfig := match ParseBool v with Some b => set b c | None => c end.
Definition mapping : list (string * (string -> ControlConfig -> ControlConfig)) := [
  ("FAIRWAVE_SERVER_LISTEN", fun v c => {| c with Listen := v |});
  ("FAIRWAVE_SERVER_DATADIR", fun v c => {| c with DataDir := v |});
  ("FAIRWAVE_SERVER_UIDIR", fun v c => {| c with UIDir := v |});
  ("FAIRWAVE_SERVER_MODE", fun v c => {| c with Mode := v |});
  ("FAIRWAVE_SERVER_COUNTRY", fun v c => {| c with Country := v |});
  ("FAIRWAVE_SERVER_LOGLEVEL", fun v c => {| c with LogLevel := v |});
  ("FAIRWAVE_PLMN_MCC", fun v c => {| c with MCC := v |});
  ("FAIRWAVE_PLMN_MNC", fun v c => {| c with MNC := v |});
  ("FAIRWAVE_TAC", fun v c => {| c with TAC := Atoi v |});
  ("FAIRWAVE_MODE", fun v c => {| c with Mode := v |});
  ("FAIRWAVE_COUNTRY", fun v c => {| c with Country := v |});
  ("FAIRWAVE_ADMIN_TOKEN", fun _ c => c);
  ("FAIRWAVE_SOUTHBOUND_DRIVER", fun v c => {| c with SouthboundDriver := v |});
  ("FAIRWAVE_HSS_DRIVER", fun v c => {| c with HSSDriver := v |});
  ("FAIRWAVE_HSS_CONTAINER", fun v c => {| c with HSSContainer := v |});
  ("FAIRWAVE_PEERING_DISABLED", set_bool (fun b c => {| c with PeeringEnabled := negb b |}));
  ("FAIRWAVE_POLICY_LOCAL_BREAKOUT", set_bool (fun b c => {| c with PolLocalBreakout := b |}));
  ("FAIRWAVE_COLLECTOR_ENABLED", set_bool (fun b c => {| c with CollectorEnabled := b |}));
  ("FAIRWAVE_COLLECTOR_MME_URL", fun v c => {| c with MMEURL := v |});
  ("FAIRWAVE_COLLECTOR_SMF_URL", fun v c => {| c with SMFURL := v |});
  ("FAIRWAVE_COLLECTOR_UPF_ENABLED", set_bool (fun b c => {| c with UPFEnabled := b |}));
  ("FAIRWAVE_COLLECTOR_UPF_IFACE", fun v c => {| c with UPFIface := v |});
  ("FAIRWAVE_CORE", fun v c => {| c with Core := v |});
  ("FAIRWAVE_FREE5GC_AMF_OAM_URL", fun v c => {| c with AMFOAMURL := v |});
  ("FAIRWAVE_FREE5GC_CDR_DIR", fun v c => {| c with CDRDir := v |});
  ("FAIRWAVE_ESIM_ENABLED", set_bool (fun b c => {| c with ESIMEnabled := b |}));
  ("FAIRWAVE_ESIM_SMDP_ADDRESS", fun v c => {| c with SMDPAddress := v |});
  ("FAIRWAVE_ESIM_SINGLE_USE", set_bool (fun b c => {| c with SingleUse := b |}));
  ("FAIRWAVE_ALERTS_ENABLED", set_bool (fun b c => {| c with AlertsEnabled := b |}));
  ("FAIRWAVE_FAIRUSE_ENABLED", set_bool (fun b c => {| c with FairUseEnabled := b |}))].
(** [order] is the mapping in the order the loop meets it. *)
Definition applyEnv (order : list (string * (string -> ControlConfig -> ControlConfig)))
    (getenv : string -> option string) (c : ControlConfig) : ControlConfig :=
  foldl (fun c kf => match getenv kf.1 with Some v => kf.2 v c | None => c end) c order.

(** ** Validation *)
Inductive ConfigError :=
  | ErrMode | ErrMCC | ErrMNC | ErrCountry | ErrRFCountry | ErrTAC | ErrCore | ErrHSSDriver
  | ErrHSSContainer | ErrAMF | ErrCDRCore | ErrCDRCollector | ErrMMEURL | ErrUPFIface
  | ErrSMDPAddress | ErrCapacity | ErrUsageInterval | ErrReadFile | ErrParseFile | ErrSchema.
#[global] Instance ConfigError_eq_dec : EqDecision ConfigError.
Proof. solve_decision. Defined.
Definition is_ (s t : string) : bool := bool_decide (s = t).
Definition Validate (c : ControlConfig) : option ConfigError :=
  if negb (is_ (Mode c) "lab") && negb (is_ (Mode c) "rf") then Some ErrMode else
  if is_ (MCC c) "" || negb (slen (MCC c) =? 3)%Z then Some ErrMCC else
  if is_ (MNC c) "" || (negb (slen (MNC c) =? 2)%Z && negb (slen (MNC c) =? 3)%Z) then Some ErrMNC else
  if is_ (Country c) "" then Some ErrCountry else
  if is_ (Mode c) "rf" && is_ (Country c) "LAB" then Some ErrRFCountry else
  if (TAC c <=? 0)%Z || (65535 <? TAC c)%Z then Some ErrTAC else
  if negb (is_ (Core c) "open5gs" || is_ (Core c) "free5gc") then Some ErrCore else
  if negb (is_ (HSSDriver c) "none" || is_ (HSSDriver c) "mongosh" || is_ (HSSDriver c) "dbctl"
           || is_ (HSSDriver c) "free5gc") then Some ErrHSSDriver else
  if negb (is_ (HSSDriver c) "none") && is_ (HSSContainer c) "" then Some ErrHSSContainer else
  if is_ (Core c) "free5gc" && CollectorEnabled c && is_ (AMFOAMURL c) "" then Some ErrAMF else
  if negb (is_ (CDRDir c) "") && negb (is_ (Core c) "free5gc") then Some ErrCDRCore else
  if negb (is_ (CDRDir c) "") && negb (CollectorEnabled c) then Some ErrCDRCollector else
  if CollectorEnabled c && negb (is_ (Core c) "free5gc") && is_ (MMEURL c) "" then Some ErrMMEURL else
  if UPFEnabled c && is_ (UPFIface c) "" then Some ErrUPFIface else
  if ESIMEnabled c && is_ (SMDPAddress c) "" then Some ErrSMDPAddress else
  if (UesCapacityPct c <=? 0)%Z || (100 <? UesCapacityPct c)%Z then Some ErrCapacity else
  if FairUseEnabled c && (UsageInterval c <=? 0)%Z then Some ErrUsageInterval else None.
Local Close Scope string_scope.

Section Load.
(** [yaml] overlays a document on a configuration; [schema_file] and
    [schema_config] are the schema's verdicts on a document and on a
    configuration written out. *)
Context (yaml : bytes -> ControlConfig -> option ControlConfig).
Context (schema_file : bytes -> bool) (schema_config : ControlConfig -> bool).
Definition Load (order : list (string * (string -> ControlConfig -> ControlConfig)))
    (getenv : string -> option string) (path : string) (read : option bytes)
    : res ConfigError ControlConfig :=
  match (if decide (path = ""%string) then Ok Default
         else match read with
              | None => Err ErrReadFile
              | Some data => match yaml data Default with
                             | None => Err ErrParseFile | Some c => Ok c end
              end) with
  | Err e => Err e
  | Ok c =>
      let c := applyEnv order getenv c in
      let valid := if decide (path = ""%string) then schema_config c
                   else match read with Some data => schema_file data | None => false end in
      if negb valid then Err ErrSchema else
      match Validate c with Some e => Err e | None => Ok c end
  end.
End Load.

(** ** Safety of the mode *)
Lemma mode_kept order getenv c :
  (forall kf, kf ∈ order -> getenv kf.1 <> None ->
     kf.1 <> "FAIRWAVE_MODE"%string /\ kf.1 <> "FAIRWAVE_SERVER_MODE"%string) ->
  order ⊆ mapping -> Mode (applyEnv order getenv c) = Mode c.
Proof.
  unfold applyEnv. revert c. induction order as [|[k f] order IH]; intros c Hk Hsub; [done|].
  cbn [foldl fst snd]. rewrite IH; [|intros kf ?; apply Hk; by right|set_solver].
  destruct (getenv k) as [v|] eqn:Ev; [|done].
  destruct (Hk (k, f)) as [H1 H2]; [left|cbn; congruence|]. cbn in H1, H2.
  assert (Hin : (k, f) ∈ mapping) by (apply Hsub; left).
  unfold mapping in Hin. rewrite !elem_of_cons, elem_of_nil in Hin.
  repeat (destruct Hin as [[= -> ->]|Hin]; [try done; unfold set_bool; by repeat case_match|]). done.
Qed.
Lemma Validate_mode c : Validate c = None ->
  (Mode c = "lab"%string \/ Mode c = "rf"%string) /\
  (Mode c = "rf"%string -> Country c <> "LAB"%string) /\ 1 <= TAC c <= 65535 /\
  1 <= UesCapacityPct c <= 100.
Proof.
  unfold Validate. repeat (case_if; [done|]). intros _.
  clear - Heqb Heqb3 Heqb4 Heqb14. unfold is_ in *. split; [|split; [|split]].
  - destruct (decide (Mode c = "lab"%string)); [by left|].
    destruct (decide (Mode c = "rf"%string)); [by right|]. by rewrite !bool_decide_false in Heqb.
  - intros E E2. by rewrite !bool_decide_true in Heqb3.
  - clear - Heqb4. zbool. lia.
  - clear - Heqb14. zbool. lia.
Qed.

(** No configuration that loads can put a lab box on the air.  A loaded
    configuration is in lab or rf mode, rf only with a real country, its TAC
    and capacity threshold in range; and it is in rf mode only if the file,
    or one of the two mode variables of the environment, said so: without a
    file and those variables the mode is lab, whatever else is set. *)
Theorem Load_mode yaml schema_file schema_config order getenv path read c :
  order ⊆ mapping ->
  Load yaml schema_file schema_config order getenv path read = Ok c ->
  ((Mode c = "lab"%string \/ Mode c = "rf"%string) /\
   (Mode c = "rf"%string -> Country c <> "LAB"%string) /\ 1 <= TAC c <= 65535 /\
   1 <= UesCapacityPct c <= 100) /\
  (path = ""%string -> getenv "FAIRWAVE_MODE" = None -> getenv "FAIRWAVE_SERVER_MODE" = None ->
   Mode c = "lab"%string).
Proof.
  intros Hsub. unfold Load.
  destruct (if decide (path = ""%string) then Ok Default else _) as [c0|] eqn:E0; [|done].
  case_if; [done|]. destruct (Validate _) eqn:Ev; [done|]. intros [= <-].
  split; [by apply Validate_mode|]. intros -> H1 H2. cbn in E0. injection E0 as <-.
  rewrite mode_kept; [done| |done]. intros [k f] _ Hk. cbn in *. split; congruence.
Qed.
Lemma Load_mode_witness :
  mapping ⊆ mapping /\
  Load (fun _ _ => None) (fun _ => true) (fun _ => true) mapping
    (fun k => if decide (k = "FAIRWAVE_TAC"%string) then Some "9"%string else None) "" None =
      Ok {| Default with TAC := 9 |} /\
  Mode {| Default with TAC := 9 |} = "lab"%string.
Proof.
  assert (H : mapping ⊆ mapping) by done.
  assert (HL : Load (fun _ _ => None) (fun _ => true) (fun _ => true) mapping
    (fun k => if decide (k = "FAIRWAVE_TAC"%string) then Some "9"%string else None) "" None =
      Ok {| Default with TAC := 9 |}) by (vm_compute; reflexivity).
  split; [exact H|]. split; [exact HL|].
  exact (proj2 (Load_mode _ _ _ _ _ _ _ _ H HL) eq_refl eq_refl eq_refl).
Defined.

(** Two variables set the mode, and the mapping is a Go map: with both set the
    iteration order decides which one counts. *)
Example mode_depends_on_map_order :
  let env k := if decide (k = "FAIRWAVE_MODE"%string) then Some "lab"%string
               else if decide (k = "FAIRWAVE_SERVER_MODE"%string) then Some "rf"%string else None in
  Mode (applyEnv mapping env Default) = "lab"%string /\
  Mode (applyEnv (reverse mapping) env Default) = "rf"%string.
Proof. vm_compute. done. Qed.
