(* ===== verification/Control.v ===== *)
(** * Control: the control plane's server and its background jobs

    [core/fairwave-control/internal/api/server.go].  An operation is a state
    passing function on the [World]: the store with its files, the server's
    own fields, the HSS behind its [Writer] interface, the webhooks delivered
    and a counter of effects.  What the outside answers (the clock, random
    bytes, whether a save succeeds, the order Go ranges over a map in, what
    the collector polls) is the environment [Env], a function of the counter,
    so a run can meet any sequence of answers.  Handlers and jobs run one
    after the other.  Metrics and log lines are left out. *)
From stdpp Require Import pretty.
From S2P Require Import Prelude.
From S2P Require Import Float64.
From S2P Require Import Encoding.
From S2P Require Import Sha256.
From S2P Require Import Anchor.
From S2P Require Import Bearer.
From S2P Require Import Fabric.
From S2P Require Import Profile.
From S2P Require Import EsimCrypto.
From S2P Require Import Simprov.
From S2P Require Import EsimRegistry.
From S2P Require Import Spectrum.
From S2P Require Import Config.
From S2P Require Import Api.
From S2P Require Import Store.

(** ** The HSS writer *)
(** [core/sim-ops/hsswrite]'s [Writer].  [subscribers] are the IMSIs the core
    accepts.  An [Add] admits no other subscriber, whether it succeeds or not;
    the drivers of several statements can fail half way, with the subscriber
    admitted ([Hss.partial_add_authenticates]). *)
Class Writer (H : Type) := {
  hss_add : H -> Subscriber -> H * bool;
  hss_remove : H -> string -> H * bool;
  subscribers : H -> gset string;
  add_only : forall h s, subscribers (hss_add h s).1 ⊆ {[sIMSI s]} ∪ subscribers h;
  remove_shrinks : forall h i, subscribers (hss_remove h i).1 ⊆ subscribers h;
  remove_ok : forall h i, (hss_remove h i).2 = true -> i ∉ subscribers (hss_remove h i).1;
}.
(** A driver whose failed additions admit nobody. *)
Definition atomic_adds (H : Type) `{!Writer H} : Prop :=
  forall (h : H) s, (hss_add h s).2 = false -> subscribers (hss_add h s).1 ⊆ subscribers h.
(** The default writer, which does nothing. *)
Inductive NoHSS := None_.
#[export] Instance none_writer : Writer NoHSS.
Proof.
  refine {| hss_add := fun h _ => (h, true); hss_remove := fun h _ => (h, true);
            subscribers := fun _ => ∅ |}; set_solver.
Defined.
(** A set of IMSIs with a flag: whether commands to the core succeed. *)
#[export] Instance set_writer : Writer (gset string * bool).
Proof.
  refine {| hss_add := fun (h : gset string * bool) s => if h.2 then (({[sIMSI s]} ∪ h.1, h.2), true) else (h, false);
            hss_remove := fun (h : gset string * bool) i => if h.2 then ((h.1 ∖ {[i]}, h.2), true) else (h, false);
            subscribers := fst |}; intros [h []]; cbn; set_solver.
Defined.

(** What the texts take from [fmt] and [time]: a float with one or two
    decimals, a quoted string, an RFC 3339 timestamp. *)
Class Format := {
  fmt1 : f64 -> string; fmt2 : f64 -> string; quote : string -> string; rfc3339 : time -> string;
}.

Record usagePoint := mkPoint { pt_up : Z; pt_dn : Z }.
#[global] Instance usagePoint_eq_dec : EqDecision usagePoint.
Proof. solve_decision. Defined.

Record Env := mkEnv {
  clock : nat -> time;
  save_ok : nat -> bool;
  draw : nat -> Z -> option bytes;
  order : nat -> forall A : Type, list A -> list A;
  poll : nat -> option (list Session);
  esim_env : nat -> EsimRegistry.Env;
  batch : nat -> Z -> Z -> option bytes;
  order_perm : forall n A (l : list A), order n A l ≡ₚ l;
}.
(** The eSIM service: the registry and the options it was built with. *)
Record EsimSvc := mkEsim {
  reg_ : EsimRegistry.Registry; address : string; smdpID : string; codeTTL : Z;
}.

(** ** The world and its monad *)
Record World (H : Type) := mkWorld {
  store : Store; armed : bool; fired : gset string; lastUsage : gmap string usagePoint;
  hss : H; webhooks : list (Alert * bool); hydra : Fabric.Engine Sink; esim : option EsimSvc;
  ticks : nat;
}.
Arguments mkWorld {H}. Arguments store {H}. Arguments armed {H}. Arguments fired {H}.
Arguments lastUsage {H}. Arguments hss {H}. Arguments webhooks {H}. Arguments hydra {H}.
Arguments esim {H}. Arguments ticks {H}.

(** An operation stops at the first error it returns; what it did stays. *)
Definition M (H E A : Type) : Type := World H -> World H * res E A.
#[global] Instance M_ret {H E} : MRet (M H E) := fun A a w => (w, Ok a).
#[global] Instance M_bind {H E} : MBind (M H E) := fun A B f m w =>
  match m w with
  | (w, Ok a) => f a w
  | (w, Err e) => (w, Err e)
  end.
Definition fail {H E A} (e : E) : M H E A := fun w => (w, Err e).
Definition gets {H E A} (f : World H -> A) : M H E A := fun w => (w, Ok (f w)).
Definition act {H E A} (f : World H -> World H * A) : M H E A :=
  fun w => let '(w, a) := f w in (w, Ok a).
Definition modify {H E} (f : World H -> World H) : M H E unit := fun w => (f w, Ok tt).
(** Run to its end, and go on whatever it returned. *)
Definition try_ {H E E' A} (m : M H E' A) : M H E unit := fun w => ((m w).1, Ok tt).
(** Whatever error, the caller answers with [e]. *)
Definition or_else {H E E' A} (e : E') (m : M H E A) : M H E' A :=
  fun w => match m w with (w, Ok a) => (w, Ok a) | (w, Err _) => (w, Err e) end.
Definition when {H E} (b : bool) (m : M H E unit) : M H E unit := if b then m else mret tt.
Fixpoint for_each {H E A} (f : A -> M H E unit) (l : list A) : M H E unit :=
  match l with [] => mret tt | x :: l => f x ≫= fun _ => for_each f l end.
Fixpoint fold_each {H E A S} (f : S -> A -> M H E S) (s : S) (l : list A) : M H E S :=
  match l with [] => mret s | x :: l => f s x ≫= fun s => fold_each f s l end.

Definition next {H E} : M H E nat := fun w => ({| w with ticks := S (ticks w) |}, Ok (ticks w)).

Section Server.
Context {H : Type} `{!Writer H}.
Context (env : Env) (cfg : ControlConfig).
Context `{!Format}.

Definition now_ {E} : M H E time := k ← next; mret (clock env k).
Definition randBytes {E} (n : Z) : M H E bytes :=
  k ← next; mret (match draw env k n with Some b => b | None => seqZ 0 n end).
(** A list in the order a range over the map it came from takes. *)
Definition ranged {E A} (f : World H -> list A) : M H E (list A) :=
  k ← next; gets (fun w => order env k A (f w)).
(** A store operation: whether it returned no error. *)
Definition stored {E} (f : bool -> Store -> Store * bool) : M H E bool :=
  k ← next;
  act (fun w => let '(s, ok) := f (save_ok env k) (store w) in ({| w with store := s |}, ok)).
Definition hss_Add {E} (sub : Subscriber) : M H E bool :=
  act (fun w => let '(h, ok) := hss_add (hss w) sub in ({| w with hss := h |}, ok)).
Definition hss_Remove {E} (imsi : string) : M H E bool :=
  act (fun w => let '(h, ok) := hss_remove (hss w) imsi in ({| w with hss := h |}, ok)).
Definition nodes_of (w : World H) : list Node := values (nodes (mem (store w))).
Definition sims_of (w : World H) : list SIM := values (sims (mem (store w))).
Definition peers_of (w : World H) : list Peer := values (peers (mem (store w))).
Definition tokens_of (w : World H) : list Token := values (tokens (mem (store w))).
Definition health_of (w : World H) : list NodeHealth := values (health (mem (store w))).

(** ** Audit and tokens *)
Definition audit {E} (principal action target detail : string) : M H E unit :=
  k ← next;
  let id := match draw env k 4 with Some b => b | None => string_bytes "audit" end in
  t ← now_;
  _ ← stored (fun ok => AppendAudit ok (mkAudit (HexEncode id) t action target detail principal));
  mret tt.

Inductive TokenError := ErrRole | ErrTokenRand | ErrTokenSave.
Definition token_id (secret : string) : string :=
  "tok-" +:+ HexEncode (slice (string_bytes secret) 0 3).
(** The token's record and the secret. *)
Definition createToken (name : string) (role : TokenRole) : M H TokenError (Token * string) :=
  if negb (Valid role) then fail ErrRole else
  k ← next;
  match draw env k 24 with
  | None => fail ErrTokenRand
  | Some raw =>
      let secret := HexEncode raw in
      t ← now_;
      let tok := mkToken (token_id secret) name role
                   (HexEncode (Sum256 (string_bytes secret))) t false in
      ok ← stored (fun ok => UpsertToken ok tok);
      if negb ok then fail ErrTokenSave else mret (tok, secret)
  end.
Definition revokeToken {E} (id : string) : M H E bool := stored (fun ok => RevokeToken ok id).

(** ** Alerts *)
Definition deliverWebhook {E} (a : Alert) (resolved : bool) : M H E unit :=
  match Webhooks cfg with
  | [] => mret tt
  | _ => modify (fun w => {| w with webhooks := webhooks w ++ [(a, resolved)] |})
  end.
Definition fireAlertLocked {E} (sev : AlertSeverity) (key message target node : string) :
    M H E unit :=
  already ← gets (fun w => bool_decide (key ∈ fired w));
  if (already : bool) then mret tt else
  _ ← modify (fun w => {| w with fired := {[key]} ∪ fired w |});
  id ← randBytes 4;
  t ← now_;
  let a := mkAlert ("al-" +:+ HexEncode id) key sev message target node t false None in
  _ ← stored (fun ok => AppendAlert ok a);
  deliverWebhook a false.
Definition resolveAlertLocked {E} (key : string) (now : time) : M H E unit :=
  _ ← modify (fun w => {| w with fired := fired w ∖ {[key]} |});
  a ← gets (fun w => list_find (fun a => alKey a = key) (ActiveAlerts (store w)));
  match a with
  | None => mret tt
  | Some (_, a) => _ ← stored (fun ok => ResolveAlert ok (alID a) now); deliverWebhook a true
  end.

(** Fire when the condition holds, and remember the key as seen. *)
Definition check_alert {E} (cond : bool) (sev : AlertSeverity) (key message target node : string)
    (seen : gset string) : M H E (gset string) :=
  if cond then _ ← fireAlertLocked sev key message target node; mret ({[key]} ∪ seen)
  else mret seen.
Definition stale_after : Z := if StaleAfter cfg <=? 0 then 90 * Second else StaleAfter cfg.
Definition check_health {E} (now : time) (seen : gset string) (h : NodeHealth) : M H E (gset string) :=
  let id := hNodeID h in
  seen ← check_alert (negb (time_sub now (hTS h) <=? stale_after)) AlertCritical
           ("node-down:" +:+ id) "node stopped reporting heartbeats" id id seen;
  seen ← check_alert (match SDRTempC h with Some t => flt (TempHighC cfg) t | None => false end)
           AlertWarning ("sdr-temp:" +:+ id)
           ("SDR temperature " +:+ fmt1 (default f64_zero (SDRTempC h)) +:+ "C above threshold "
             +:+ fmt1 (TempHighC cfg) +:+ "C") id id seen;
  seen ← check_alert (negb (bool_decide (Watchdog h = ""%string))
                      && negb (bool_decide (Watchdog h = "ok"%string)))
           AlertWarning ("watchdog:" +:+ id) ("watchdog reports: " +:+ Watchdog h) id id seen;
  check_alert (negb (FreqCheck h)) AlertCritical ("freq:" +:+ id)
    "frequency plan check failed" id id seen.
Definition warn_window : Z := i64 (SimExpiryWarnDays cfg * 24 * Hour).
Definition check_expiry {E} (now : time) (seen : gset string) (sim : SIM) : M H E (gset string) :=
  if bool_decide (SStatus sim = "revoked"%string) || bool_decide (SStatus sim = "expired"%string)
     || IsZero (SExpiresAt sim) then mret seen
  else check_alert ((now <? SExpiresAt sim) && (time_sub (SExpiresAt sim) now <=? warn_window))
         AlertWarning ("sim-expiry:" +:+ IMSI sim)
         ("SIM expires " +:+ rfc3339 (SExpiresAt sim)) (IMSI sim) "" seen.
Definition capacity_pct : Z := if UesCapacityPct cfg <=? 0 then 90 else UesCapacityPct cfg.
Definition check_capacity {E} (p : Policy) (ueCount : Z) (seen : gset string) : M H E (gset string) :=
  if 0 <? MaxUEs p then
    check_alert (i64 (MaxUEs p * capacity_pct) <=? i64 (ueCount * 100)) AlertWarning "ues-capacity"
      ("UE count " +:+ pretty ueCount +:+ " reached " +:+ pretty capacity_pct
        +:+ "% of capacity " +:+ pretty (MaxUEs p)) "" "" seen
  else mret seen.
Definition EvaluateAlerts {E} : M H E unit :=
  now ← now_;
  hs ← ranged health_of;
  seen ← fold_each (check_health now) ∅ hs;
  seen ← (if 0 <? warn_window then sims ← ranged sims_of; fold_each (check_expiry now) seen sims
          else mret seen);
  p ← gets (fun w => GetPolicy (store w));
  n ← gets (fun w => zlen (ListSessions (store w)));
  seen ← check_capacity p n seen;
  keys ← ranged (fun w => elements (fired w));
  for_each (fun key => if decide (key ∈ seen) then mret tt else resolveAlertLocked key now) keys.

(** ** Sessions and expiry *)
Inductive JobError := ErrPoll | ErrSave.
Definition promote {E} (active : gset string) (sim : SIM) : M H E unit :=
  if negb (bool_decide (SStatus sim = "issued"%string)) then mret tt
  else if decide (HashIMSI (IMSI sim) ∈ active) then
    _ ← stored (fun ok => UpsertSIM ok {| sim with SStatus := "active" |}); mret tt
  else mret tt.
Definition CollectOnce : M H JobError unit :=
  k ← next;
  match poll env k with
  | None => fail ErrPoll
  | Some sessions =>
      ok ← stored (fun ok => ReplaceSessions ok sessions);
      if negb ok then fail ErrSave else
      match sessions with
      | [] => mret tt
      | _ =>
          let active : gset string :=
            list_to_set (filter (fun h => h <> ""%string) (IMSIHash <$> sessions)) in
          if decide (active = ∅) then mret tt
          else sims ← ranged sims_of; for_each (promote active) sims
      end
  end.

Definition usable (sim : SIM) : bool :=
  negb (bool_decide (SStatus sim = "revoked"%string) || bool_decide (SStatus sim = "expired"%string)).
Definition expire {E} (now : time) (sim : SIM) : M H E unit :=
  if negb (usable sim) then mret tt else
  if IsZero (SExpiresAt sim) || (now <? SExpiresAt sim) then mret tt else
  ok ← stored (fun ok => UpsertSIM ok {| sim with SStatus := "expired" |});
  if negb ok then mret tt else
  _ ← hss_Remove (IMSI sim);
  audit "system" "sim_expired" (IMSI sim) "auto-revoked at expiry".
Definition ExpireOnce {E} : M H E unit :=
  now ← now_;
  sims ← ranged sims_of;
  for_each (expire now) sims.

(** ** Usage *)
Definition quotaFor (s : Store) (imsi : string) : Z :=
  match GetSIM imsi s with Some sim => QuotaBytes sim | None => 0 end.
Definition enforceQuota (imsi : string) (u : SimUsage) : M H JobError unit :=
  if uQuota u =? 0 then mret tt else
  let total := u64 (uUp u + uDn u) in
  sim ← gets (fun w => GetSIM imsi (store w));
  match sim with
  | None => mret tt
  | Some sim =>
      if negb (bool_decide (SStatus sim = "active"%string) || bool_decide (SStatus sim = "issued"%string))
      then mret tt else
      if total <? uQuota u then mret tt else
      ok ← stored (fun ok => UpsertSIM ok {| sim with SStatus := "suspended" |});
      if negb ok then fail ErrSave else
      _ ← audit "system" "sim_suspend" imsi "data quota reached";
      fireAlertLocked AlertWarning ("quota:" +:+ imsi)
        "SIM reached its data quota and was suspended" imsi ""
  end.
Definition add_point (cur : gmap string usagePoint) (s : Session) : gmap string usagePoint :=
  let p := default (mkPoint 0 0) (cur !! IMSIHash s) in
  <[IMSIHash s := mkPoint (u64 (pt_up p + BytesUp s)) (u64 (pt_dn p + BytesDn s))]> cur.
Definition delta (cur prev : Z) : Z := if prev <? cur then u64 (cur - prev) else 0.
(** The subscriber with this hash, if any: the loop over the SIMs. *)
Definition imsi_of_hash {E} (hash : string) : M H E (option string) :=
  sims ← ranged sims_of;
  mret ((fun x => IMSI x.2) <$> list_find (fun sim => HashIMSI (IMSI sim) = hash) sims).
Definition fold_usage (now : time) (hc : string * usagePoint) : M H JobError unit :=
  let '(hash, c) := hc in
  prev ← gets (fun w => default (mkPoint 0 0) (lastUsage w !! hash));
  let dUp := delta (pt_up c) (pt_up prev) in
  let dDn := delta (pt_dn c) (pt_dn prev) in
  _ ← modify (fun w => {| w with lastUsage := <[hash := c]> (lastUsage w) |});
  if (dUp =? 0) && (dDn =? 0) then mret tt else
  imsi ← imsi_of_hash hash;
  match imsi with
  | None => mret tt
  | Some imsi =>
      if decide (imsi = ""%string) then mret tt else
      u ← gets (fun w => default (mkUsage imsi hash 0 0 0 0) (GetUsage imsi (store w)));
      quota ← gets (fun w => quotaFor (store w) imsi);
      let u := mkUsage (uIMSI u) (uIMSIHash u) (u64 (uUp u + dUp)) (u64 (uDn u + dDn)) quota now in
      ok ← stored (fun ok => UpsertUsage ok u);
      if negb ok then fail ErrSave else
      when (FairUseEnabled cfg) (try_ (enforceQuota imsi u))
  end.
Definition AccumulateUsage : M H JobError unit :=
  sessions ← gets (fun w => ListSessions (store w));
  match sessions with
  | [] => mret tt
  | _ =>
      now ← now_;
      let cur := foldl add_point ∅ sessions in
      k ← next;
      for_each (fold_usage now) (order env k _ (map_to_list cur))
  end.

(** ** The background loop and the start *)
(** What a tick of one of [RunBackground]'s tickers does; errors are logged. *)
Inductive Tick := TickSweep | TickUsage | TickAlerts | TickCollect.
Definition background {E} (t : Tick) : M H E unit :=
  match t with
  | TickSweep => ExpireOnce
  | TickUsage => try_ AccumulateUsage
  | TickAlerts => when (AlertsEnabled cfg) EvaluateAlerts
  | TickCollect => try_ CollectOnce
  end.
(** Seconds between ticks, where the configuration gives none. *)
Definition coll_interval : Z :=
  if CollectorInterval cfg <=? 0 then 15 * Second else CollectorInterval cfg.
Definition usage_interval : Z := if UsageInterval cfg <=? 0 then Minute else UsageInterval cfg.

(** [NewWithOptions] on a store: the server's fields are fresh but for the
    armed flag and the weaves.  The outside (HSS, webhooks, the effect
    counter) goes on. *)
Definition NewWithOptions (anchor : string) (now : time) (st : Store) (h : H)
    (wh : list (Alert * bool)) (svc : option EsimSvc) (k : nat) : World H :=
  let name := TrimSpace anchor in
  let name := if decide (name = ""%string) then "local"%string else name in
  let e := Fabric.NewEngine NewSink name in
  let e := (Fabric.Restore e ((fun t => (now, t)) <$> ListHydraThreads st)
              (ListHydraWeaves st)).1 in
  mkWorld st (GetTxArmed st) ∅ ∅ h wh e svc k.
(** The admin token: the variable, else the file, else one made and written. *)
Definition admin_token (getenv : string) (file : option string) (rnd : option bytes) : string :=
  let tok := TrimSpace getenv in
  if negb (bool_decide (tok = ""%string)) then tok
  else match file with
       | Some data => TrimSpace data
       | None => match rnd with Some buf => HexEncode buf | None => "" end
       end.
End Server.
