(* ===== verification/Routes.v ===== *)
(** * Routes: the northbound API

    [core/fairwave-control/internal/api/routes.go], [ops.go], [esim.go] and
    [hydra.go]: authentication and the role matrix, and the handlers.  A
    request is its route with the path values and the decoded body ([None]
    where the body is no JSON of the expected shape); a reply is the status
    code with the error code or the value sent.  A handler is an operation of
    [Control]'s monad whose errors are early replies.  What an
    archive is and what a restore makes of it is in [Backup]; the event stream,
    the gauges and the compliance export, which only read, are in [Reports],
    the paths of the SM-DP+ in [Smdp]; the dashboard is left out. *)
From stdpp Require Import pretty.
From S2P Require Import Prelude.
From S2P Require Import Float64.
From S2P Require Import Encoding.
From S2P Require Import Sha256.
From S2P Require Import Anchor.
From S2P Require Import Bearer.
From S2P Require Import Fabric.
From S2P Require Import Activation.
From S2P Require Import Profile.
From S2P Require Import EsimCrypto.
From S2P Require Import Simprov.
From S2P Require Import EsimRegistry.
From S2P Require Import Spectrum.
From S2P Require Import Mesh.
From S2P Require Import Config.
From S2P Require Import Api.
From S2P Require Import Store.
From S2P Require Import Control.

(** ** Replies *)
Inductive Payload :=
  | PErr (code : string) | PEmpty | POk
  | PNode (n : Node) | PNodes (l : list Node) | PSIM (s : SIM) | PSIMs (l : list SIM)
  | PPeer (p : Peer) | PPeers (l : list Peer) | PSessions (l : list Session) | PPolicy (p : Policy)
  | PSpectrum (v : Verdict) | PTx (armed : bool) (reasons : list TxReason)
  | PHealth (l : list NodeHealth) | PAudit (l : list AuditEntry) | PAlerts (l : list Alert)
  | PToken (t : Token) (secret : string) | PTokens (l : list Token)
  | PImport (imported updated : Z) (skipped : list string) | PUsage (u : SimUsage)
  | PStatus (s : Api.Status) | PVersion (version mode country id : string)
  | PThread (t : Bearer.Thread) | PThreads (l : list Bearer.Thread)
  | PWeave (w : Weave) | PWeaves (l : list Weave) | PWeaveStats (s : WeaveStats)
  | PHydra (s : Fabric.Status) | PThreadHealth (id : string) (up : bool)
  | PStrip (r : StripResult) | PDelivered (n : Z) | PBench (b : BenchResult)
  | PIssued (r : EsimIssueResponse) | PCodes (l : list EsimCode) | PQR (c : Code)
  | PArchive | PRestored
with TxReason := LabMode | WrongPhrase | SpectrumReason (r : Reason).
Record Response := mkResponse { status_ : Z; payload_ : Payload }.
(** The floats and the times in a payload. *)
Definition thread_floats (t : Bearer.Thread) : list f64 := [Bearer.Mbps t; Bearer.RTTms t; Bearer.LossPct t].
Definition health_floats (h : NodeHealth) : list f64 :=
  Load1 h :: match SDRTempC h with Some c => [c] | None => [] end.
Definition floats (p : Payload) : list f64 :=
  match p with
  | PHealth l => l ≫= health_floats
  | PStatus s => [stHydraMbps s] | PHydra s => [stAggregate s]
  | PThread t => thread_floats t | PThreads l => l ≫= thread_floats
  | PWeaveStats s => [wsAggregate s] | PBench b => [brAggregate b; brSingle b; brSpeedup b; brElapsedMs b]
  | _ => []
  end.
Definition code_times (c : EsimCode) : list time :=
  [ecCreatedAt c; ecExpiresAt c] ++ match ecDownloadedAt c with Some t => [t] | None => [] end.
Definition alert_times (a : Alert) : list time := alTS a :: match ResolvedAt a with Some t => [t] | None => [] end.
Definition times (p : Payload) : list time :=
  match p with
  | PNode n => [nCreatedAt n; nUpdatedAt n] | PNodes l => l ≫= fun n => [nCreatedAt n; nUpdatedAt n]
  | PSIM s => [SCreatedAt s; SExpiresAt s] | PSIMs l => l ≫= fun s => [SCreatedAt s; SExpiresAt s]
  | PPeer p => [Api.LastSeen p] | PPeers l => Api.LastSeen <$> l | PSessions l => Created <$> l
  | PHealth l => hTS <$> l | PAudit l => aTS <$> l | PAlerts l => l ≫= alert_times
  | PToken t _ => [tCreatedAt t] | PTokens l => tCreatedAt <$> l | PUsage u => [uUpdatedAt u]
  | PThread t => [Bearer.LastSeen t] | PThreads l => Bearer.LastSeen <$> l
  | PWeave w => [Fabric.CreatedAt w] | PWeaves l => Fabric.CreatedAt <$> l | PWeaveStats s => [Fabric.CreatedAt (wsWeave s)]
  | PCodes l => l ≫= code_times
  | _ => []
  end.
(** [time.Time.MarshalJSON]: the years 0 to 9999. *)
Definition json_time (t : time) : bool := (- (366 * 24 * Hour) <=? t) && (t <? 3652059 * 24 * Hour).
(** [writeJSON]'s body: none at all where a value has no JSON text, since the
    status is already sent. *)
Definition encodable (p : Payload) : bool := forallb finite (floats p) && forallb json_time (times p).
Definition writeJSON (p : Payload) : option Payload := if encodable p then Some p else None.
Definition err (status : Z) (code : string) : Response := mkResponse status (PErr code).
Definition bad_request : Response := err 400 "bad_request".
Definition persist_error : Response := err 500 "persist".

(** ** Requests *)
Record ImportRequest := mkImport { Sims : list SimImportItem }.
Record HydraThreadRequest := mkHydraThread {
  htID : string; htBox : string; htSIM : string; htMbps : f64; htRTTms : f64; htLossPct : f64;
  htUp : bool }.
Record HydraThreadHealth := mkHydraHealth {
  hhMbps : f64; hhRTTms : f64; hhLossPct : f64; hhUp : bool }.
Record HydraWeaveRequest := mkHydraWeave { hwID : string; hwAnchor : string; hwThreads : list string }.

(** A backup carries whether the archive could be made.  A restore carries what
    its archive comes to: [None] for a body that is empty or cannot be read;
    else nothing where the archive is refused before the directory is touched,
    or the tables of the directory after it, and whether the swap ended
    well ([Backup.restore_body]).  The event stream and the compliance export
    ([Reports]) only read; the paths of the SM-DP+ are [Smdp]'s. *)
Inductive Request :=
  | Healthz | Version_ | GetStatus | Lifecycle (body : option LifecyclePhase)
  | ListNodes | CreateNode (body : option Node) | GetNode_ (id : string)
  | EnrollNode (id : string) (body : option string) | LeaveNode (id : string)
  | ListSIMs | GetSIM_ (imsi : string) | IssueSIMs (body : option SimIssueRequest)
  | RevokeSIM (imsi : string) | SuspendSIM (imsi : string) | ResumeSIM (imsi : string)
  | ImportSIMs (body : option ImportRequest) | SetQuota (imsi : string) (body : option Z)
  | GetUsage_ (imsi : string) | ReconcileUsage (imsi : string) (body : option (Z * Z))
  | ListPeers | AddPeer (body : option Peer) | DeletePeer_ (id : string)
  | ListSessions_ | GetPolicy_ | PutPolicy (body : option Policy)
  | SpectrumCheck (body : option SpectrumCheckRequest) | TxArm (body : option TxArmRequest)
  | TxDisarm | Telemetry (body : option NodeHealth) | ListHealth | Audit | ListAlerts_
  | CreateToken (body : option (string * TokenRole)) | ListTokens | RevokeToken_ (id : string)
  | EsimIssue (body : option EsimIssueRequest) | EsimList | EsimQR (token : string)
  | EsimRevoke (body : option string)
  | HydraStatus | HydraListThreads | HydraAddThread (body : option HydraThreadRequest)
  | HydraDeleteThread (id : string) | HydraHealth (id : string) (body : option HydraThreadHealth)
  | HydraListWeaves | HydraCreateWeave (body : option HydraWeaveRequest)
  | HydraGetWeave (id : string) | HydraDeleteWeave (id : string) | HydraWeaveStats (id : string)
  | HydraStrip (id : string) (payload : option string) | HydraIngest (id : string) (frame : option string)
  | HydraBench (id : string) (body : option (Z * Z))
  | Backup_ (made : bool) | Restore_ (body : option (option (Files * bool))).

(** The route of a request: its method and path. *)
Local Open Scope string_scope.
Definition GET := "GET".
Definition POST := "POST".
Definition route (r : Request) : string * string :=
  match r with
  | Healthz => (GET, "/v1/healthz") | Version_ => (GET, "/v1/version")
  | GetStatus => (GET, "/v1/status") | Lifecycle _ => (POST, "/v1/lifecycle/transition")
  | ListNodes => (GET, "/v1/nodes") | CreateNode _ => (POST, "/v1/nodes")
  | GetNode_ id => (GET, "/v1/nodes/" +:+ id)
  | EnrollNode id _ => (POST, "/v1/nodes/" +:+ id +:+ "/enroll")
  | LeaveNode id => (POST, "/v1/nodes/" +:+ id +:+ "/leave")
  | ListSIMs => (GET, "/v1/sims") | GetSIM_ i => (GET, "/v1/sims/" +:+ i)
  | IssueSIMs _ => (POST, "/v1/sims") | RevokeSIM i => (POST, "/v1/sims/" +:+ i +:+ "/revoke")
  | SuspendSIM i => (POST, "/v1/sims/" +:+ i +:+ "/suspend")
  | ResumeSIM i => (POST, "/v1/sims/" +:+ i +:+ "/resume")
  | ImportSIMs _ => (POST, "/v1/sims/import")
  | SetQuota i _ => (POST, "/v1/sims/" +:+ i +:+ "/quota")
  | GetUsage_ i => (GET, "/v1/sims/" +:+ i +:+ "/usage")
  | ReconcileUsage i _ => (POST, "/v1/sims/" +:+ i +:+ "/usage")
  | ListPeers => (GET, "/v1/peers") | AddPeer _ => (POST, "/v1/peers")
  | DeletePeer_ id => ("DELETE", "/v1/peers/" +:+ id)
  | ListSessions_ => (GET, "/v1/sessions") | GetPolicy_ => (GET, "/v1/policy")
  | PutPolicy _ => ("PUT", "/v1/policy") | SpectrumCheck _ => (POST, "/v1/spectrum/check")
  | TxArm _ => (POST, "/v1/tx/arm") | TxDisarm => (POST, "/v1/tx/disarm")
  | Telemetry _ => (POST, "/v1/telemetry") | ListHealth => (GET, "/v1/health")
  | Audit => (GET, "/v1/audit") | ListAlerts_ => (GET, "/v1/alerts")
  | CreateToken _ => (POST, "/v1/tokens") | ListTokens => (GET, "/v1/tokens")
  | RevokeToken_ id => ("DELETE", "/v1/tokens/" +:+ id)
  | EsimIssue _ => (POST, "/v1/esim/issue") | EsimList => (GET, "/v1/esim/codes")
  | EsimQR t => (GET, "/v1/esim/codes/" +:+ t +:+ "/qr") | EsimRevoke _ => (POST, "/v1/esim/revoke")
  | HydraStatus => (GET, "/v1/hydra/status") | HydraListThreads => (GET, "/v1/hydra/threads")
  | HydraAddThread _ => (POST, "/v1/hydra/threads")
  | HydraDeleteThread id => ("DELETE", "/v1/hydra/threads/" +:+ id)
  | HydraHealth id _ => (POST, "/v1/hydra/threads/" +:+ id +:+ "/health")
  | HydraListWeaves => (GET, "/v1/hydra/weaves") | HydraCreateWeave _ => (POST, "/v1/hydra/weaves")
  | HydraGetWeave id => (GET, "/v1/hydra/weaves/" +:+ id)
  | HydraDeleteWeave id => ("DELETE", "/v1/hydra/weaves/" +:+ id)
  | HydraWeaveStats id => (GET, "/v1/hydra/weaves/" +:+ id +:+ "/stats")
  | HydraStrip id _ => (POST, "/v1/hydra/weaves/" +:+ id +:+ "/strip")
  | HydraIngest id _ => (POST, "/v1/hydra/weaves/" +:+ id +:+ "/ingest")
  | HydraBench id _ => (POST, "/v1/hydra/weaves/" +:+ id +:+ "/bench")
  | Backup_ _ => (GET, "/v1/backup") | Restore_ _ => (POST, "/v1/restore")
  end.
Local Close Scope string_scope.

(** ** Authorization *)
Definition adminOnly (path : string) : bool :=
  HasPrefix path "/v1/tokens" || HasPrefix path "/v1/backup" || HasPrefix path "/v1/restore"
  || HasPrefix path "/v1/tx/arm" || HasPrefix path "/v1/tx/disarm"
  || HasPrefix path "/v1/compliance" || bool_decide (path = "/v1/audit"%string).
Inductive Denial := AdminOnly | ReadOnly.
Definition authorize (role : TokenRole) (method path : string) : option Denial :=
  if decide (role = RoleAdmin) then None
  else if adminOnly path then Some AdminOnly
  else if decide (method = GET) then None
  else if decide (role = RoleViewer) then Some ReadOnly
  else None.

Section Routes.
Context {H : Type} `{!Writer H} `{!BlockCipher} `{!Aead} `{!JsonProfile}.
Context `{!Format} (env : Env) (cfg : ControlConfig).
Context (adminTok : string) (node_id version : string).
Context (spectrum : option (string -> string -> bool -> string -> Verdict)).
(** The subscriber a SIM's eSIM is minted from: the lab vectors by default. *)
Context (profileSource : string -> option Subscriber).

Abbreviation Handler := (M H Response Response).
Definition reply (status : Z) (p : Payload) : Handler := mret (mkResponse status p).
(** A store operation whose failure is answered with 500. *)
Definition persist (f : bool -> Store -> Store * bool) : M H Response unit :=
  ok ← stored env f; if (ok : bool) then mret tt else fail persist_error.
(** The decoded body, or 400. *)
Definition readJSON {A} (body : option A) : M H Response A :=
  match body with Some a => mret a | None => fail bad_request end.
Definition found {A} (x : option A) : M H Response A :=
  match x with Some a => mret a | None => fail (err 404 "not_found") end.
Definition require (b : bool) (r : Response) : M H Response unit :=
  if b then mret tt else fail r.
Definition now' : M H Response time := now_ env.
(** [time.Time.UnixNano]. *)
Definition UnixNano (t : time) : Z := t - 62135596800 * Second.
Definition year : Z := 365 * 24 * Hour.

(** ** Status, lifecycle, nodes *)
Definition handleHealthz : Handler := reply 200 POk.
Definition handleVersion : Handler := reply 200 (PVersion version (Mode cfg) (Country cfg) node_id).
Definition handleStatus : Handler :=
  ns ← ranged env nodes_of;
  let phase := match ns with n :: _ => nPhase n | [] => PhaseProvision end in
  ts ← ranged env (fun w => values (reg (hydra w)));
  wo ← ranged env (fun w => values (weaves (hydra w)));
  w ← gets id;
  let hst := Fabric.status (hydra w) ts wo in
  let on := (0 <? Fabric.stThreads hst) || (0 <? Fabric.stWeaves hst) in
  reply 200 (PStatus (Api.mkStatus version (Mode cfg) phase (armed w) (Country cfg)
    (zlen (nodes_of w)) (zlen (ListSessions (store w))) (zlen (values (peers (mem (store w)))))
    (if on then Fabric.stThreads hst else 0) (if on then Fabric.stWeaves hst else 0)
    (if on then stAggregate hst else f64_zero))).
Definition handleLifecycle (principal : string) (body : option LifecyclePhase) : Handler :=
  phase ← readJSON body;
  ns ← ranged env nodes_of;
  match ns with
  | [] => fail (err 409 "no_node")
  | n :: _ =>
      match Transition (nPhase n) phase with
      | Some _ => fail (err 409 "bad_transition")
      | None =>
          t ← now';
          let n := {| n with nPhase := phase; nUpdatedAt := t |} in
          _ ← persist (fun ok => UpsertNode ok n);
          _ ← audit env principal "lifecycle_transition" (nID n) (nPhase n +:+ " -> " +:+ phase);
          reply 200 (PNode n)
      end
  end.
Definition handleListNodes : Handler := ns ← ranged env nodes_of; reply 200 (PNodes ns).
Definition handleCreateNode (body : option Node) : Handler :=
  n ← readJSON body;
  t0 ← now';
  let n := if decide (nID n = ""%string) then {| n with nID := "node-" +:+ pretty (UnixNano t0) |} else n in
  let n := if decide (nCountry n = ""%string) then {| n with nCountry := Country cfg |} else n in
  t1 ← now';
  t2 ← now';
  let n := {| n with nPhase := PhaseProvision; nCreatedAt := t1; nUpdatedAt := t2 |} in
  _ ← persist (fun ok => UpsertNode ok n);
  reply 201 (PNode n).
Definition handleGetNode (id : string) : Handler :=
  n ← gets (fun w => GetNode id (store w)); n ← found n; reply 200 (PNode n).
Definition handleEnrollNode (principal id : string) (body : option string) : Handler :=
  n ← gets (fun w => GetNode id (store w)); n ← found n;
  token ← readJSON body;
  _ ← require (negb (bool_decide (token = ""%string))) bad_request;
  t ← now';
  let n := {| n with nPhase := PhaseRegister; nUpdatedAt := t |} in
  _ ← persist (fun ok => UpsertNode ok n);
  _ ← audit env principal "node_enroll" id "";
  reply 200 (PNode n).
Definition handleLeaveNode (principal id : string) : Handler :=
  n ← gets (fun w => GetNode id (store w)); _ ← found n;
  _ ← persist (fun ok => DeleteNode ok id);
  _ ← audit env principal "node_leave" id "";
  reply 204 PEmpty.

(** ** SIMs *)
Definition handleListSIMs : Handler := l ← ranged env sims_of; reply 200 (PSIMs l).
Definition find_sim (imsi : string) : M H Response SIM :=
  s ← gets (fun w => GetSIM imsi (store w)); found s.
Definition handleGetSIM (imsi : string) : Handler := sim ← find_sim imsi; reply 200 (PSIM sim).
Definition handleSuspendSIM (principal imsi : string) : Handler :=
  sim ← find_sim imsi;
  _ ← require (bool_decide (SStatus sim = "active"%string) || bool_decide (SStatus sim = "issued"%string))
        (err 409 "bad_state");
  let sim := {| sim with SStatus := "suspended" |} in
  _ ← persist (fun ok => UpsertSIM ok sim);
  _ ← audit env principal "sim_suspend" imsi "";
  reply 200 (PSIM sim).
Definition handleResumeSIM (principal imsi : string) : Handler :=
  sim ← find_sim imsi;
  _ ← require (bool_decide (SStatus sim = "suspended"%string)) (err 409 "bad_state");
  let sim := {| sim with SStatus := "active" |} in
  _ ← persist (fun ok => UpsertSIM ok sim);
  _ ← audit env principal "sim_resume" imsi "";
  reply 200 (PSIM sim).
Definition issue_one (profile : string) (sub : Subscriber) : M H Response unit :=
  ok ← hss_Add sub;
  _ ← require ok (err 502 "hss_writeback");
  t1 ← now';
  t2 ← now';
  let sim := mkSIM (sIMSI sub) (sMSISDN sub) profile "issued" (sAPN sub) (sSQN sub) 0 t1 (t2 + year) in
  ok ← stored env (fun ok => UpsertSIM ok sim);
  if (ok : bool) then mret tt else _ ← hss_Remove (sIMSI sub); fail persist_error.
Definition handleIssueSIMs (principal : string) (body : option SimIssueRequest) : Handler :=
  req ← readJSON body;
  _ ← require (negb ((siCount req <=? 0) || (1000 <? siCount req))) bad_request;
  let profile := if decide (siProfile req = ""%string) then "lab"%string else siProfile req in
  k ← next;
  match simops_GenerateBatch (mkSpec (siCount req) profile 999991234567001 0 "") (batch env k) with
  | Err _ => fail bad_request
  | Ok subs =>
      pol ← gets (fun w => GetPolicy (store w));
      let subs := (fun s => {| s with Profile.QoSDLMbps := QoSDLMbps pol;
                                      Profile.QoSULMbps := QoSULMbps pol |}) <$> subs in
      _ ← for_each (issue_one profile) subs;
      _ ← audit env principal "sim_issue" ("x" +:+ pretty (siCount req)) profile;
      l ← ranged env sims_of;
      reply 201 (PSIMs l)
  end.
Definition handleRevokeSIM (principal imsi : string) : Handler :=
  sim ← find_sim imsi;
  ok ← hss_Remove imsi;
  _ ← require ok (err 502 "hss_writeback");
  let sim := {| sim with SStatus := "revoked" |} in
  _ ← persist (fun ok => UpsertSIM ok sim);
  _ ← audit env principal "sim_revoke" imsi "removed from HSS";
  reply 200 (PSIM sim).

(** The import's counters: imported, updated, skipped. *)
Definition tally : Type := Z * Z * list string.
Definition import_one (pol : Policy) (acc : tally) (item : SimImportItem) : M H Response tally :=
  let '(imported, updated, skipped) := acc in
  if negb (slen (iIMSI item) =? 15) then
    mret (imported, updated, skipped ++ [iIMSI item +:+ " (bad IMSI length)"]) else
  let or_ s d := if decide (s = ""%string) then d else s in
  let status := or_ (iStatus item) "issued"%string in
  let profile := or_ (iProfile item) "lab"%string in
  let apn := or_ (iAPN item) "internet"%string in
  t ← now';
  let expires := if IsZero (iExpiresAt item) then t + year else iExpiresAt item in
  existing ← gets (fun w => GetSIM (iIMSI item) (store w));
  match existing with
  | Some sim =>
      let sim := {| sim with SStatus := status; SAPN := apn; SExpiresAt := expires;
        MSISDN := if decide (iMSISDN item = ""%string) then MSISDN sim else iMSISDN item |} in
      _ ← persist (fun ok => UpsertSIM ok sim);
      mret (imported, updated + 1, skipped)
  | None =>
      t ← now';
      let sim := mkSIM (iIMSI item) (iMSISDN item) profile status apn "" 0 t expires in
      _ ← persist (fun ok => UpsertSIM ok sim);
      match LoadTestVector (iIMSI item) with
      | Err _ => mret (imported + 1, updated, skipped)
      | Ok sub =>
          _ ← hss_Add {| sub with Profile.QoSDLMbps := QoSDLMbps pol; Profile.QoSULMbps := QoSULMbps pol |};
          mret (imported + 1, updated, skipped)
      end
  end.
Definition handleImportSIMs (principal : string) (body : option ImportRequest) : Handler :=
  req ← readJSON body;
  _ ← require (0 <? zlen (Sims req)) bad_request;
  pol ← gets (fun w => GetPolicy (store w));
  acc ← fold_each (import_one pol) (0, 0, []) (Sims req);
  let '(imported, updated, skipped) := acc : tally in
  _ ← audit env principal "sim_import" ("x" +:+ pretty (zlen (Sims req)))
        ("imported=" +:+ pretty imported +:+ " updated=" +:+ pretty updated
         +:+ " skipped=" +:+ pretty (zlen skipped));
  reply 200 (PImport imported updated skipped).

Definition handleSetQuota (principal imsi : string) (body : option Z) : Handler :=
  sim ← find_sim imsi;
  quota ← readJSON body;
  let sim := {| sim with QuotaBytes := quota |} in
  _ ← persist (fun ok => UpsertSIM ok sim);
  u ← gets (fun w => GetUsage imsi (store w));
  _ ← match u with
      | Some u => _ ← stored env (fun ok => UpsertUsage ok {| u with uQuota := quota |}); mret tt
      | None => mret tt
      end;
  _ ← audit env principal "sim_quota" imsi ("quota=" +:+ pretty quota);
  reply 200 (PSIM sim).
Definition handleGetUsage (imsi : string) : Handler :=
  u ← gets (fun w => GetUsage imsi (store w));
  match u with
  | Some u => reply 200 (PUsage u)
  | None =>
      sim ← find_sim imsi;
      reply 200 (PUsage (mkUsage imsi (HashIMSI imsi) 0 0 (QuotaBytes sim) 0))
  end.
Definition handleReconcileUsage (principal imsi : string) (body : option (Z * Z)) : Handler :=
  sim ← find_sim imsi;
  req ← readJSON body;
  u ← gets (fun w => default (mkUsage imsi (HashIMSI imsi) 0 0 0 0) (GetUsage imsi (store w)));
  t ← now';
  let u := mkUsage (uIMSI u) (uIMSIHash u) (u64 (uUp u + req.1)) (u64 (uDn u + req.2)) (QuotaBytes sim) t in
  _ ← persist (fun ok => UpsertUsage ok u);
  _ ← audit env principal "sim_usage_reconcile" imsi
        ("+" +:+ pretty req.1 +:+ " up +" +:+ pretty req.2 +:+ " dn");
  reply 200 (PUsage u).

(** ** Peers, sessions, policy *)
Definition handleListPeers : Handler :=
  l ← ranged env peers_of; reply 200 (PPeers l).
Definition handleAddPeer (principal : string) (body : option Peer) : Handler :=
  p ← readJSON body;
  t0 ← now';
  let p := if decide (pID p = ""%string) then {| p with pID := "peer-" +:+ pretty (UnixNano t0) |} else p in
  t ← now';
  let p := {| p with pStatus := "pending"; LastSeen := t |} in
  _ ← persist (fun ok => UpsertPeer ok p);
  _ ← audit env principal "peer_add" (pID p) (Endpoint p);
  reply 201 (PPeer p).
Definition handleDeletePeer (principal id : string) : Handler :=
  _ ← persist (fun ok => DeletePeer ok id);
  _ ← audit env principal "peer_delete" id "";
  reply 204 PEmpty.
Definition handleListSessions : Handler :=
  l ← gets (fun w => ListSessions (store w)); reply 200 (PSessions l).
Definition handleGetPolicy : Handler := p ← gets (fun w => GetPolicy (store w)); reply 200 (PPolicy p).
Definition fmt_bool (b : bool) : string := if b then "true" else "false".
Definition handlePutPolicy (principal : string) (body : option Policy) : Handler :=
  p ← readJSON body;
  let p := if MaxUEs p <=? 0 then {| p with MaxUEs := 128 |} else p in
  let p := match Api.APNs p with [] => {| p with Api.APNs := ["internet"%string] |} | _ => p end in
  _ ← persist (fun ok => SetPolicy ok p);
  _ ← audit env principal "policy_update" ""
        ("breakout=" +:+ fmt_bool (LocalBreakout p) +:+ " max_ues=" +:+ pretty (MaxUEs p)
         +:+ " qos=" +:+ pretty (QoSDLMbps p) +:+ "/" +:+ pretty (QoSULMbps p));
  q ← gets (fun w => GetPolicy (store w));
  reply 200 (PPolicy q).

(** ** Spectrum and TX *)
Definition no_registry : Verdict := mkVerdict false [].
Definition handleSpectrumCheck (body : option SpectrumCheckRequest) : Handler :=
  req ← readJSON body;
  reply 200 (PSpectrum match spectrum with
                       | Some check => check (scCountry req) (scBand req) (scIndoor req) (scLicenseRef req)
                       | None => no_registry
                       end).
(** The verdict of the arming gate: every reason against it. *)
Definition arm_reasons (req : TxArmRequest) : list TxReason :=
  (if decide (Mode cfg = "lab"%string) then [LabMode] else []) ++
  (if decide (Acknowledgment req = GateAckPhrase) then [] else [WrongPhrase]) ++
  match spectrum with
  | None => []
  | Some check =>
      let v := check (taCountry req) (taBand req) true (taLicenseRef req) in
      if Allowed v then [] else SpectrumReason <$> Reasons v
  end.
Definition arm_allowed (req : TxArmRequest) : bool :=
  negb (bool_decide (Mode cfg = "lab"%string)) && bool_decide (Acknowledgment req = GateAckPhrase)
  && match spectrum with
     | None => true
     | Some check => Allowed (check (taCountry req) (taBand req) true (taLicenseRef req))
     end.
Definition mark_nodes (b : bool) : M H Response unit :=
  ns ← ranged env nodes_of;
  for_each (fun n => _ ← stored env (fun ok => UpsertNode ok {| n with nTxArmed := b |}); mret tt) ns.
Definition handleTxArm (principal : string) (body : option TxArmRequest) : Handler :=
  req ← readJSON body;
  let allowed := arm_allowed req in
  _ ← when allowed (
        _ ← modify (fun w => {| w with armed := true |});
        _ ← persist (fun ok => SetTxArmed ok true);
        mark_nodes true);
  _ ← audit env principal "tx_arm" (taCountry req +:+ "/" +:+ taBand req)
        ("allowed=" +:+ fmt_bool allowed +:+ " indoor=true license=" +:+ quote (taLicenseRef req));
  reply 200 (PTx allowed (arm_reasons req)).
Definition handleTxDisarm (principal : string) : Handler :=
  on ← gets armed;
  if negb on then reply 200 (PTx false []) else
  _ ← modify (fun w => {| w with armed := false |});
  _ ← persist (fun ok => SetTxArmed ok false);
  _ ← mark_nodes false;
  _ ← audit env principal "tx_disarm" "" "";
  reply 200 (PTx false []).

(** ** Telemetry, audit, alerts *)
Definition handleTelemetry (body : option NodeHealth) : Handler :=
  h ← readJSON body;
  _ ← require (negb (bool_decide (hNodeID h = ""%string))) bad_request;
  t ← now';
  let h := if IsZero (hTS h) then {| h with hTS := t |} else h in
  _ ← persist (fun ok => UpsertHealth ok h);
  reply 200 POk.
(** [Up] is written through the store's own records. *)
Definition handleListHealth : Handler :=
  t ← now';
  let up h := {| h with hUp := time_sub t (hTS h) <=? stale_after cfg |} in
  l ← ranged env health_of;
  _ ← modify (fun w => {| w with store := set_health (fmap up) (store w) |});
  reply 200 (PHealth (up <$> l)).
Definition handleAudit : Handler := l ← gets (fun w => ListAudit (store w)); reply 200 (PAudit l).
Definition handleListAlerts : Handler :=
  l ← gets (fun w => ListAlerts (store w)); reply 200 (PAlerts l).

(** ** Tokens *)
Definition handleCreateToken (principal : string) (body : option (string * TokenRole)) : Handler :=
  req ← readJSON body;
  r ← or_else bad_request (createToken env req.1 req.2);
  _ ← audit env principal "token_create" (tID r.1) ("name=" +:+ tName r.1 +:+ " role=" +:+ tRole r.1);
  reply 201 (PToken {| (r.1) with TokenHash := "" |} r.2).
Definition handleListTokens : Handler :=
  l ← ranged env tokens_of;
  reply 200 (PTokens ((fun t => {| t with TokenHash := "" |}) <$> l)).
Definition handleRevokeToken (principal id : string) : Handler :=
  ok ← revokeToken env id;
  _ ← require ok (err 404 "not_found");
  _ ← audit env principal "token_revoke" id "";
  reply 204 PEmpty.

(** ** eSIM *)
(** The service, or 503 when it is disabled. *)
Definition esim_enabled : M H Response EsimSvc :=
  e ← gets esim;
  match e with Some svc => mret svc | None => fail (err 503 "esim_disabled") end.
Definition set_registry (r : EsimRegistry.Registry) (w : World H) : World H :=
  {| w with esim := (fun svc => {| svc with reg_ := r |}) <$> esim w |}.
(** A registry operation; its error becomes the reply [e]. *)
Definition registry (e : Response)
    (f : EsimRegistry.Env -> EsimRegistry.Registry ->
         EsimRegistry.Registry * res EsimRegistry.Error unit) : M H Response unit :=
  k ← next;
  svc ← esim_enabled;
  let '(r, x) := f (esim_env env k) (reg_ svc) in
  _ ← modify (set_registry r);
  match x with Ok _ => mret tt | Err _ => fail e end.
Definition issueEsim (principal : string) (req : EsimIssueRequest) : M H Response EsimIssueResponse :=
  let conflict := err 409 "esim_issue" in
  svc ← esim_enabled;
  _ ← require (negb (bool_decide (eIMSI req = ""%string))) conflict;
  sim ← gets (fun w => GetSIM (eIMSI req) (store w));
  match sim with
  | None => fail conflict
  | Some sim =>
      _ ← require (negb (bool_decide (SStatus sim = "revoked"%string)
                         || bool_decide (SStatus sim = "suspended"%string)
                         || bool_decide (SStatus sim = "expired"%string))) conflict;
      match profileSource (eIMSI req) with
      | None => fail conflict
      | Some sub =>
          k ← next;
          match GenerateToken 12 (draw env k) with
          | Err _ => fail conflict
          | Ok token =>
              let opts := if decide (eEID req = ""%string) then [] else [WithEID (eEID req)] in
              k ← next;
              t1 ← now';
              t2 ← now';
              match NewLabProfile sub (smdpID svc) opts (draw env k) t1 t2 with
              | Err _ => fail conflict
              | Ok p =>
                  t ← now';
                  let expiresAt := if 0 <? codeTTL svc then t + codeTTL svc else 0 in
                  _ ← registry conflict (fun e => AddWithExpiry e token (Some p) expiresAt);
                  let addr := if decide (eAddress req = ""%string) then address svc else eAddress req in
                  let detail := "iccid=" +:+ ICCID p in
                  let detail := if decide (eEID req = ""%string) then detail
                                else detail +:+ " eid=" +:+ eEID req in
                  _ ← audit env principal "esim_issue" (eIMSI req) detail;
                  mret (mkEsimIssued (eIMSI req) (ICCID p) token addr)
              end
          end
      end
  end.
Definition handleEsimIssue (principal : string) (body : option EsimIssueRequest) : Handler :=
  _ ← esim_enabled;
  req ← readJSON body;
  r ← issueEsim principal req;
  reply 201 (PIssued r).
(** One row of the list; [None] is the nil dereference of a lost profile. *)
Definition code_row (svc : EsimSvc) (e : EsimRegistry.Entry) : option EsimCode :=
  match EProfile e with
  | None => None
  | Some p =>
      Some (mkEsimCode (EsimRegistry.Token e) (address svc) (Profile.IMSI p) (ICCID p) (ProfileName p)
        (EID p) (ECreatedAt e) (DownloadedAt e) (default (Profile.ExpiresAt p) (EExpiresAt e)))
  end.
(** The rows, last registered first as far as the list's order goes. *)
Definition listEsim (svc : EsimSvc) (k : nat) : option (list EsimCode) :=
  reverse <$> mapM (code_row svc) (List_ (esim_env env k) (reg_ svc)).
(** A panic is recovered by [recoverMW] and answered with 500. *)
Definition handleEsimList : Handler :=
  svc ← esim_enabled;
  k ← next;
  match listEsim svc k with
  | None => fail (err 500 "internal")
  | Some rows => reply 200 (PCodes rows)
  end.
Definition handleEsimQR (token : string) : Handler :=
  svc ← esim_enabled;
  k ← next;
  match list_find (fun e => EsimRegistry.Token e = token) (List_ (esim_env env k) (reg_ svc)) with
  | None => fail (err 404 "not_found")
  | Some _ => reply 200 (PQR (Activation.New (address svc) token))
  end.
Definition revokeEsim (principal token : string) : M H Response unit :=
  let conflict := err 409 "esim_revoke" in
  _ ← or_else conflict esim_enabled;
  _ ← require (negb (bool_decide (token = ""%string))) conflict;
  _ ← registry conflict (fun e => EsimRegistry.Revoke e token);
  audit env principal "esim_revoke" token "".
Definition handleEsimRevoke (principal : string) (body : option string) : Handler :=
  token ← readJSON body;
  _ ← revokeEsim principal token;
  reply 200 POk.

(** ** Hydra *)
Definition set_engine (e : Fabric.Engine Sink) (w : World H) : World H := {| w with hydra := e |}.
(** An engine operation with its result. *)
Definition engine {E A} (f : Fabric.Engine Sink -> Fabric.Engine Sink * A) : M H E A :=
  act (fun w => let '(e, a) := f (hydra w) in (set_engine e w, a)).
Definition handleHydraStatus : Handler :=
  ts ← ranged env (fun w => values (reg (hydra w)));
  wo ← ranged env (fun w => values (weaves (hydra w)));
  w ← gets id;
  reply 200 (PHydra (Fabric.status (hydra w) ts wo)).
Definition handleHydraListThreads : Handler :=
  l ← gets (fun w => Bearer.List (reg (hydra w))); reply 200 (PThreads l).
Definition handleHydraAddThread (principal : string) (body : option HydraThreadRequest) : Handler :=
  req ← readJSON body;
  t ← now';
  let th := Bearer.mkThread (htID req) (htBox req) (htSIM req) (htMbps req) (htRTTms req)
              (htLossPct req) 0 (htUp req) 0 in
  ok ← engine (fun e => match AddThread e t th with Ok e => (e, true) | Err _ => (e, false) end);
  _ ← require ok bad_request;
  _ ← audit env principal "hydra_thread_upsert" (htID req)
        ("mbps=" +:+ fmt1 (htMbps req) +:+ " up=" +:+ fmt_bool (htUp req));
  st ← gets (fun w => Bearer.Get (reg (hydra w)) (htID req));
  match st with
  | None => fail (err 500 "internal")
  | Some st => _ ← persist (fun ok => UpsertHydraThread ok st); reply 201 (PThread st)
  end.
Definition handleHydraDeleteThread (principal id : string) : Handler :=
  ok ← engine (fun e => RemoveThread e id);
  _ ← require ok (err 404 "not_found");
  _ ← persist (fun ok => DeleteHydraThread ok id);
  _ ← audit env principal "hydra_thread_remove" id "";
  reply 204 PEmpty.
Definition handleHydraThreadHealth (id : string) (body : option HydraThreadHealth) : Handler :=
  req ← readJSON body;
  t ← now';
  ok ← engine (fun e => SetThreadHealth e t id (hhMbps req) (hhRTTms req) (hhLossPct req) (hhUp req));
  _ ← require ok (err 404 "not_found");
  st ← gets (fun w => Bearer.Get (reg (hydra w)) id);
  _ ← match st with Some st => persist (fun ok => UpsertHydraThread ok st) | None => mret tt end;
  reply 200 (PThreadHealth id (hhUp req)).
Definition handleHydraListWeaves : Handler :=
  l ← gets (fun w => Fabric.ListWeaves (hydra w)); reply 200 (PWeaves l).
Definition handleHydraGetWeave (id : string) : Handler :=
  wv ← gets (fun w => GetWeave (hydra w) id); wv ← found wv; reply 200 (PWeave wv).
Definition handleHydraCreateWeave (principal : string) (body : option HydraWeaveRequest) : Handler :=
  req ← readJSON body;
  t ← now';
  r ← engine (fun e => match CreateWeave e t (hwID req) (hwAnchor req) (hwThreads req) with
                       | Ok (e, wv) => (e, Some wv) | Err _ => (e, None) end);
  match r with
  | None => fail (err 409 "hydra_weave")
  | Some wv =>
      _ ← audit env principal "hydra_weave_create" (wID wv)
            ("anchor=" +:+ wAnchor wv +:+ " threads=" +:+ pretty (zlen (Threads wv)));
      _ ← persist (fun ok => UpsertHydraWeave ok wv);
      reply 201 (PWeave wv)
  end.
Definition handleHydraDeleteWeave (principal id : string) : Handler :=
  ok ← engine (fun e => DeleteWeave e id);
  _ ← require ok (err 404 "not_found");
  _ ← persist (fun ok => DeleteHydraWeave ok id);
  _ ← audit env principal "hydra_weave_delete" id "";
  reply 204 PEmpty.
Definition handleHydraWeaveStats (id : string) : Handler :=
  ts ← ranged env (fun w => values (reg (hydra w)));
  s ← gets (fun w => weaveStats (hydra w) ts id); s ← found s; reply 200 (PWeaveStats s).
(** The base64 field of a body, decoded, or 400. *)
Definition decoded (body : option string) : M H Response bytes :=
  s ← readJSON body;
  match Base64Decode s with Some b => mret b | None => fail bad_request end.
Definition engine_res {A} (e : Response)
    (f : Fabric.Engine Sink -> Fabric.Engine Sink * res Fabric.Error A) : M H Response A :=
  r ← engine f; match r with Ok a => mret a | Err _ => fail e end.
Definition handleHydraStrip (id : string) (body : option string) : Handler :=
  payload ← decoded body;
  t ← now';
  r ← engine_res (err 409 "hydra_strip") (fun e => Strip e id payload t);
  reply 200 (PStrip r).
Definition handleHydraIngest (id : string) (body : option string) : Handler :=
  frame ← decoded body;
  t1 ← now';
  t2 ← now';
  n ← engine_res (err 409 "hydra_ingest") (fun e => Ingest e t1 t2 id frame);
  reply 200 (PDelivered n).
Definition handleHydraBench (principal id : string) (body : option (Z * Z)) : Handler :=
  req ← readJSON body;
  let packets := if req.1 =? 0 then 300 else req.1 in
  let pktBytes := if req.2 =? 0 then 1200 else req.2 in
  k ← next;
  ts ← ranged env (fun w => values (reg (hydra w)));
  b ← engine_res (err 409 "hydra_bench") (fun e =>
        Fabric.Bench e id packets pktBytes (fun i => clock env (k + i))
          (fun i => (clock env (k + i), clock env (k + i))) (clock env k) (clock env (S k)) ts);
  _ ← audit env principal "hydra_bench" id
        ("packets=" +:+ pretty (brPackets b) +:+ " speedup=" +:+ fmt2 (brSpeedup b));
  reply 200 (PBench b).

(** ** Backup and restore *)
Definition handleBackup (principal : string) (made : bool) : Handler :=
  _ ← require made (err 500 "backup");
  _ ← audit env principal "backup" "" "archive created";
  reply 200 PArchive.
(** The files are replaced; what the server holds in memory is not. *)
Definition handleRestore (principal : string) (body : option (option (Files * bool))) : Handler :=
  left_ ← readJSON body;
  match left_ with
  | None => fail (err 400 "restore")
  | Some (d, swapped) =>
      _ ← modify (fun w => {| w with store := {| (store w) with disk := d |} |});
      _ ← require swapped (err 400 "restore");
      _ ← audit env principal "restore" "" "state restored; restart the control plane to load it";
      reply 200 PRestored
  end.

(** ** The server *)
Definition handle (principal : string) (r : Request) : Handler :=
  match r with
  | Healthz => handleHealthz | Version_ => handleVersion | GetStatus => handleStatus
  | Lifecycle b => handleLifecycle principal b | ListNodes => handleListNodes
  | CreateNode b => handleCreateNode b | GetNode_ id => handleGetNode id
  | EnrollNode id b => handleEnrollNode principal id b | LeaveNode id => handleLeaveNode principal id
  | ListSIMs => handleListSIMs | GetSIM_ i => handleGetSIM i
  | IssueSIMs b => handleIssueSIMs principal b | RevokeSIM i => handleRevokeSIM principal i
  | SuspendSIM i => handleSuspendSIM principal i | ResumeSIM i => handleResumeSIM principal i
  | ImportSIMs b => handleImportSIMs principal b | SetQuota i b => handleSetQuota principal i b
  | GetUsage_ i => handleGetUsage i | ReconcileUsage i b => handleReconcileUsage principal i b
  | ListPeers => handleListPeers | AddPeer b => handleAddPeer principal b
  | DeletePeer_ id => handleDeletePeer principal id | ListSessions_ => handleListSessions
  | GetPolicy_ => handleGetPolicy | PutPolicy b => handlePutPolicy principal b
  | SpectrumCheck b => handleSpectrumCheck b | TxArm b => handleTxArm principal b
  | TxDisarm => handleTxDisarm principal | Telemetry b => handleTelemetry b
  | ListHealth => handleListHealth | Audit => handleAudit | ListAlerts_ => handleListAlerts
  | CreateToken b => handleCreateToken principal b | ListTokens => handleListTokens
  | RevokeToken_ id => handleRevokeToken principal id
  | EsimIssue b => handleEsimIssue principal b | EsimList => handleEsimList
  | EsimQR tok => handleEsimQR tok | EsimRevoke b => handleEsimRevoke principal b
  | HydraStatus => handleHydraStatus | HydraListThreads => handleHydraListThreads
  | HydraAddThread b => handleHydraAddThread principal b
  | HydraDeleteThread id => handleHydraDeleteThread principal id
  | HydraHealth id b => handleHydraThreadHealth id b | HydraListWeaves => handleHydraListWeaves
  | HydraCreateWeave b => handleHydraCreateWeave principal b | HydraGetWeave id => handleHydraGetWeave id
  | HydraDeleteWeave id => handleHydraDeleteWeave principal id
  | HydraWeaveStats id => handleHydraWeaveStats id | HydraStrip id b => handleHydraStrip id b
  | HydraIngest id b => handleHydraIngest id b | HydraBench id b => handleHydraBench principal id b
  | Backup_ made => handleBackup principal made | Restore_ b => handleRestore principal b
  end.

(** What the middleware reads of a request: the bearer token, and whether it
    comes from a loopback address. *)
Record Credentials := mkCredentials { bearer : string; loopback : bool }.
Definition unauthorized : Response := err 401 "auth_required".
Definition authenticate (c : Credentials) : M H Response (TokenRole * string) :=
  if negb (bool_decide (adminTok = ""%string)) && bool_decide (bearer c = adminTok)
  then mret (RoleAdmin, "admin"%string)
  else if bool_decide (bearer c = ""%string) && bool_decide (adminTok = ""%string) then
    if loopback c then mret (RoleAdmin, "loopback"%string) else fail unauthorized
  else
    k ← next;
    t ← gets (fun w => TokenByHash (order env k Api.Token)
                         (HexEncode (Sum256 (string_bytes (bearer c)))) (store w));
    match t with
    | Some t => mret (tRole t, tName t)
    | None => fail unauthorized
    end.
(** The principal of the audit entries: an empty name is unknown. *)
Definition principalFrom (name : string) : string :=
  if decide (name = ""%string) then "unknown"%string else name.
(** Paths outside the authenticated API, and the liveness probe. *)
Definition public_path (path : string) : bool :=
  negb (HasPrefix path "/v1/") || bool_decide (path = "/v1/healthz"%string).
Definition authMW (c : Credentials) (r : Request) : Handler :=
  let '(method, path) := route r in
  if public_path path then handle "unknown" r else
  who ← authenticate c;
  match authorize who.1 method path with
  | Some _ => fail (err 403 "forbidden")
  | None => handle (principalFrom who.2) r
  end.
Definition serve (c : Credentials) (r : Request) (w : World H) : World H * Response :=
  match authMW c r w with (w, Ok x) => (w, x) | (w, Err x) => (w, x) end.

(** The process stops and starts again on its directory: the tables and the
    registry are what their files hold. *)
Definition reopen_esim (k : nat) (svc : option EsimSvc) : option EsimSvc :=
  match svc with
  | None => None
  | Some svc =>
      match (EsimRegistry.Open (esim_env env k) (EsimRegistry.file (reg_ svc))).2 with
      | Ok r => Some {| svc with reg_ := r |}
      | Err _ => None
      end
  end.
Definition restart (anchor : string) (w : World H) : World H :=
  let d := disk (store w) in
  let k := ticks w in
  NewWithOptions anchor (clock env k) (mkStore (Store.load d) d) (hss w) (webhooks w)
    (reopen_esim k (esim w)) (S k).

(** Everything that happens to a server. *)
Inductive Event := Call (c : Credentials) (r : Request) | Job (t : Tick) | Restart (anchor : string).
Definition step (w : World H) (e : Event) : World H :=
  match e with
  | Call c r => (serve c r w).1
  | Job t => (background (E := unit) env cfg t w).1
  | Restart a => restart a w
  end.
Definition run (w : World H) (l : list Event) : World H := foldl step w l.
End Routes.
