(* ===== verification/ControlFacts.v ===== *)
(** * ControlFacts: reasoning about the server's operations

    [keeps R m]: whatever happens in operation [m], the world before and
    after are related by [R], a preorder that does not look at the effect
    counter.  The lemmas follow the operations of [Control]'s monad; the
    tactic [keep] applies them down to the primitive effects, whose
    obligations it leaves. *)
From stdpp Require Import pretty.
From S2P Require Import Prelude.
From S2P Require Import Float64.
From S2P Require Import Anchor.
From S2P Require Import Fabric.
From S2P Require Import Profile.
From S2P Require Import EsimCrypto.
From S2P Require Import Simprov.
From S2P Require Import EsimRegistry.
From S2P Require Import Spectrum.
From S2P Require Import Config.
From S2P Require Import Api.
From S2P Require Import Store.
From S2P Require Import Control.
From S2P Require Import Routes.

(** A relation between the worlds before and after an operation. *)
Class Frame {H} (R : World H -> World H -> Prop) := {
  frame_preorder :: PreOrder R;
  frame_ticks : forall w n, R w {| w with ticks := n |};
}.
Definition keeps {H E A} (R : World H -> World H -> Prop) (m : M H E A) : Prop :=
  forall w, R w (m w).1.

Section Keeps.
Context {H : Type} `{!Writer H} (R : World H -> World H -> Prop) `{!Frame R} (env : Env).

Lemma keeps_ret {E A} (a : A) : keeps R (mret a : M H E A).
Proof. intros w. reflexivity. Qed.
Lemma keeps_fail {E A} (e : E) : keeps R (fail e : M H E A).
Proof. intros w. reflexivity. Qed.
Lemma keeps_gets {E A} (f : World H -> A) : keeps R (gets f : M H E A).
Proof. intros w. reflexivity. Qed.
Lemma keeps_bind {E A B} (m : M H E A) (f : A -> M H E B) :
  keeps R m -> (forall a, keeps R (f a)) -> keeps R (m ≫= f).
Proof.
  intros Hm Hf w. unfold mbind, M_bind. specialize (Hm w).
  destruct (m w) as [w' [a|e]]; [|done]. etransitivity; [exact Hm|apply Hf].
Qed.
Lemma keeps_pure {E A B} (a : A) (f : A -> M H E B) : keeps R (f a) -> keeps R (mret a ≫= f).
Proof. done. Qed.
Lemma keeps_fail_bind {E A B} (e : E) (f : A -> M H E B) : keeps R (fail e ≫= f).
Proof. apply keeps_fail. Qed.
Lemma keeps_next {E} : keeps R (next : M H E nat).
Proof. intros w. apply frame_ticks. Qed.
Lemma keeps_modify {E} (f : World H -> World H) : (forall w, R w (f w)) -> keeps R (modify f : M H E unit).
Proof. intros Hf w. apply Hf. Qed.
Lemma keeps_act {E A} (f : World H -> World H * A) : (forall w, R w (f w).1) -> keeps R (act f : M H E A).
Proof. intros Hf w. unfold act. specialize (Hf w). by destruct (f w). Qed.
Lemma keeps_try {E E' A} (m : M H E' A) : keeps R m -> keeps R (try_ m : M H E unit).
Proof. intros Hm w. apply Hm. Qed.
Lemma keeps_when {E} b (m : M H E unit) : (b = true -> keeps R m) -> keeps R (when b m).
Proof. intros Hm. destruct b; [by apply Hm|]. apply keeps_ret. Qed.
Lemma keeps_for_each {E A} (f : A -> M H E unit) l : (forall a, keeps R (f a)) -> keeps R (for_each f l).
Proof.
  intros Hf. induction l as [|x l IH]; [apply keeps_ret|]. cbn [for_each].
  apply keeps_bind; [done|]. intros _. exact IH.
Qed.
Lemma keeps_fold_each {E A S} (f : S -> A -> M H E S) l : (forall s a, keeps R (f s a)) ->
  forall s, keeps R (fold_each f s l).
Proof.
  intros Hf. induction l as [|x l IH]; intros s; [apply keeps_ret|]. cbn [fold_each].
  by apply keeps_bind.
Qed.
Lemma keeps_now {E} : keeps R (now_ env : M H E time).
Proof. apply keeps_bind; [apply keeps_next|]. intros k. apply keeps_ret. Qed.
Lemma keeps_ranged {E A} (f : World H -> list A) : keeps R (ranged env f : M H E (list A)).
Proof. apply keeps_bind; [apply keeps_next|]. intros k. apply keeps_gets. Qed.
Lemma keeps_randBytes {E} n : keeps R (randBytes env n : M H E bytes).
Proof. apply keeps_bind; [apply keeps_next|]. intros k. apply keeps_ret. Qed.
Lemma keeps_stored {E} (f : bool -> Store -> Store * bool) :
  (forall ok w, R w {| w with store := (f ok (store w)).1 |}) -> keeps R (stored env f : M H E bool).
Proof.
  intros Hf. apply keeps_bind; [apply keeps_next|]. intros k. apply keeps_act. intros w.
  specialize (Hf (save_ok env k) w). by destruct (f (save_ok env k) (store w)).
Qed.
Lemma keeps_hss_Add {E} sub : (forall w h, R w {| w with hss := h |}) ->
  keeps R (hss_Add sub : M H E bool).
Proof. intros Hh. apply keeps_act. intros w. destruct (hss_add (hss w) sub). apply Hh. Qed.
Lemma keeps_hss_Remove {E} i : (forall w h, R w {| w with hss := h |}) ->
  keeps R (hss_Remove i : M H E bool).
Proof. intros Hh. apply keeps_act. intros w. destruct (hss_remove (hss w) i). apply Hh. Qed.
Lemma keeps_registry e f :
  (forall w r, R w (set_registry r w)) -> keeps R (registry env e f).
Proof.
  intros Hr. apply keeps_bind; [apply keeps_next|]. intros k.
  apply keeps_bind; [apply keeps_bind; [apply keeps_gets|intros []; [apply keeps_ret|apply keeps_fail]]|].
  intros svc. destruct (f (esim_env env k) (reg_ svc)) as [r [u|x]].
  - apply keeps_bind; [by apply keeps_modify|]. intros _. apply keeps_ret.
  - apply keeps_bind; [by apply keeps_modify|]. intros _. apply keeps_fail.
Qed.
Lemma keeps_engine {E A} (f : Fabric.Engine Sink -> Fabric.Engine Sink * A) :
  (forall w e, R w (set_engine e w)) -> keeps R (engine f : M H E A).
Proof. intros He. apply keeps_act. intros w. destruct (f (hydra w)). apply He. Qed.
Lemma keeps_or_else {E E' A} (e : E') (m : M H E A) : keeps R m -> keeps R (or_else e m).
Proof. intros Hm w. unfold or_else. specialize (Hm w). by destruct (m w) as [w' []]. Qed.
End Keeps.

(** What an operation keeps from the worlds satisfying [P]. *)
Definition from {H E A} (P : World H -> Prop) (R : World H -> World H -> Prop) (m : M H E A) : Prop :=
  forall w, P w -> R w (m w).1.
Section From.
Context {H : Type} `{!Writer H} (R : World H -> World H -> Prop) `{!Frame R} (env : Env).

Lemma from_keeps {E A} P (m : M H E A) : keeps R m -> from P R m.
Proof. intros Hm w _. apply Hm. Qed.
Lemma keeps_from {E A} (m : M H E A) : from (fun _ => True) R m -> keeps R m.
Proof. intros Hm w. by apply Hm. Qed.
Lemma from_fail {E A} P (e : E) : from P R (fail e : M H E A).
Proof. intros w _. reflexivity. Qed.
Lemma from_gets {E A B} P (f : World H -> A) (k : A -> M H E B) :
  (forall a, from (fun w => P w /\ f w = a) R (k a)) -> from P R (gets f ≫= k).
Proof. intros Hk w Hw. by apply Hk. Qed.
Lemma from_find {B} P imsi (k : SIM -> M H Response B) :
  (forall sim, from (fun w => P w /\ GetSIM imsi (store w) = Some sim) R (k sim)) ->
  from P R (find_sim imsi ≫= k).
Proof.
  intros Hk w Hw. unfold find_sim, gets, found, mbind, M_bind.
  destruct (GetSIM imsi (store w)) as [sim|] eqn:Es; [|reflexivity]. by apply Hk.
Qed.
Lemma from_require {B} P b r (k : unit -> M H Response B) :
  (b = true -> from P R (k tt)) -> from P R (require b r ≫= k).
Proof. intros Hk w Hw. destruct b; [by apply Hk|]. reflexivity. Qed.
Lemma from_read {A B} P (body : option A) (k : A -> M H Response B) :
  (forall a, from P R (k a)) -> from P R (readJSON body ≫= k).
Proof. intros Hk w Hw. destruct body; [by apply Hk|]. reflexivity. Qed.
(** The first operation leads from [P] to [Q]. *)
Lemma from_bind {E A B} P (Q : A -> World H -> Prop) (m : M H E A) (k : A -> M H E B) :
  (forall w, P w -> R w (m w).1 /\
     match (m w).2 with Ok a => Q a (m w).1 | Err _ => True end) ->
  (forall a, from (Q a) R (k a)) -> from P R (m ≫= k).
Proof.
  intros Hm Hk w Hw. unfold mbind, M_bind. destruct (Hm w Hw) as [HR HQ].
  destruct (m w) as [w' [a|e]]; cbn in *; [|done]. etransitivity; [exact HR|]. by apply Hk.
Qed.
(** A save that succeeds. *)
Lemma run_stored {E} (f : bool -> Store -> Store * bool) w :
  save_ok env (ticks w) = true -> (f true (store w)).2 = true ->
  (stored env f : M H E bool) w =
    ({| w with ticks := S (ticks w); store := (f true (store w)).1 |}, Ok true).
Proof.
  intros Hs Hok. unfold stored, next, act, mbind, M_bind. cbn [ticks store]. rewrite Hs.
  destruct (f true (store w)). cbn in *. by subst.
Qed.
Lemma run_stored_bind {E B} (f : bool -> Store -> Store * bool) (k : bool -> M H E B) w :
  save_ok env (ticks w) = true -> (f true (store w)).2 = true ->
  (stored env f ≫= k) w = k true {| w with ticks := S (ticks w); store := (f true (store w)).1 |}.
Proof. intros Hs Hok. unfold mbind, M_bind at 1. by rewrite run_stored. Qed.
Lemma run_bind {E A B} (m : M H E A) (k : A -> M H E B) w w' a :
  m w = (w', Ok a) -> (m ≫= k) w = k a w'.
Proof. intros Hm. unfold mbind, M_bind. by rewrite Hm. Qed.
Lemma run_bind_err {E A B} (m : M H E A) (k : A -> M H E B) w w' e : m w = (w', Err e) -> (m ≫= k) w = (w', Err e).
Proof. intros Hm. unfold mbind, M_bind. by rewrite Hm. Qed.
Lemma run_bind_assoc {E A B C} (m : M H E A) (f : A -> M H E B) (k : B -> M H E C) w w' b :
  (m ≫= f) w = (w', Ok b) -> (m ≫= fun a => f a ≫= k) w = k b w'.
Proof. unfold mbind, M_bind. destruct (m w) as [w1 [a|e]]; [|done]. by intros ->. Qed.
Lemma run_gets_bind {E A B} (f : World H -> A) (k : A -> M H E B) w : (gets f ≫= k) w = k (f w) w.
Proof. done. Qed.
Lemma run_modify_bind {E B} (f : World H -> World H) (k : unit -> M H E B) w :
  (modify f ≫= k) w = k tt (f w).
Proof. done. Qed.
End From.

#[global] Hint Resolve keeps_ret keeps_fail keeps_gets keeps_next keeps_now keeps_ranged
  keeps_randBytes : keeps.
(** Down to the primitive effects. *)
Ltac keep_step :=
  match goal with
  | |- keeps _ (mret _) => apply keeps_ret; exact _
  | |- keeps _ (fail _) => apply keeps_fail; exact _
  | |- keeps _ (gets _) => apply keeps_gets; exact _
  | |- keeps _ (gets _ ≫= _) => apply keeps_bind; [exact _|apply keeps_gets; exact _|intros ?]
  | |- keeps _ (mret _ ≫= _) => apply keeps_pure
  | |- keeps _ (fail _ ≫= _) => apply keeps_fail_bind; exact _
  | |- keeps _ (_ ≫= _) => apply keeps_bind; [exact _| |intros ?]
  | |- keeps _ next => apply keeps_next; exact _
  | |- keeps _ (now_ _) => apply keeps_now; exact _
  | |- keeps _ (ranged _ _) => apply keeps_ranged; exact _
  | |- keeps _ (randBytes _ _) => apply keeps_randBytes; exact _
  | |- keeps _ (for_each _ _) => apply keeps_for_each; [exact _|intros ?]
  | |- keeps _ (fold_each _ _ _) => apply keeps_fold_each; [exact _|intros ? ?]
  | |- keeps _ (try_ _) => apply keeps_try; [exact _..|]
  | |- keeps _ (or_else _ _) => apply keeps_or_else
  | |- keeps _ (when _ _) => apply keeps_when; [exact _|intros ?]
  | |- keeps _ (reply _ _) => apply keeps_ret; exact _
  | |- keeps _ (match ?x with _ => _ end) => destruct x eqn:?
  | |- keeps _ (let '(_, _) := ?x in _) => destruct x eqn:?
  end.
Ltac keep := repeat (keep_step; cbv beta zeta iota).

(** Unfold a store operation, whatever its save returns. *)
Ltac store_op :=
  let ok := fresh "ok" in let st := fresh "st" in
  intros ok st;
  unfold UpsertNode, DeleteNode, UpsertSIM, UpsertPeer, DeletePeer, AddSession, ReplaceSessions,
    UpsertHealth, AppendAudit, SetTxArmed, UpsertToken, RevokeToken, UpsertUsage, AppendAlert,
    ResolveAlert, SetPolicy, UpsertHydraThread, DeleteHydraThread, UpsertHydraWeave,
    DeleteHydraWeave, save;
  try match goal with |- context [tokens (mem st) !! ?i] => destruct (tokens (mem st) !! i) end;
  destruct ok.

(** Unfold the handlers and the background jobs. *)
Ltac unfold_handlers :=
  unfold handleHealthz, handleVersion, handleStatus, handleLifecycle, handleListNodes,
    handleCreateNode, handleGetNode, handleEnrollNode, handleLeaveNode, handleListSIMs,
    handleGetSIM, handleSuspendSIM, handleResumeSIM, handleIssueSIMs, handleRevokeSIM,
    handleImportSIMs, handleSetQuota, handleGetUsage, handleReconcileUsage, handleListPeers,
    handleAddPeer, handleDeletePeer, handleListSessions, handleGetPolicy, handlePutPolicy,
    handleSpectrumCheck, handleTxArm, handleTxDisarm, handleTelemetry, handleListHealth,
    handleAudit, handleListAlerts, handleCreateToken, handleListTokens, handleRevokeToken,
    handleEsimIssue, handleEsimList, handleEsimQR, handleEsimRevoke, handleHydraStatus,
    handleHydraListThreads, handleHydraAddThread, handleHydraDeleteThread, handleHydraThreadHealth,
    handleHydraListWeaves, handleHydraCreateWeave, handleHydraGetWeave, handleHydraDeleteWeave,
    handleHydraWeaveStats, handleHydraStrip, handleHydraIngest, handleHydraBench, handleBackup, handleRestore,
    decoded, engine_res, issue_one, import_one, issueEsim, revokeEsim, esim_enabled, find_sim, found, readJSON,
    require, mark_nodes, createToken, revokeToken, now'.
Ltac unfold_jobs :=
  unfold ExpireOnce, expire, AccumulateUsage, fold_usage, enforceQuota, imsi_of_hash, EvaluateAlerts,
    check_capacity, check_expiry, check_health, check_alert, resolveAlertLocked, fireAlertLocked,
    deliverWebhook, CollectOnce, promote.

(** A restore that gets as far as the directory. *)
Definition replaces (r : Request) : bool := match r with Restore_ (Some (Some _)) => true | _ => false end.

(** ** Operations that always end *)
Section Total.
Context {H : Type} `{!Writer H} `{!Format} (env : Env).

Definition stored_world (f : bool -> Store -> Store * bool) (w : World H) : World H :=
  {| w with ticks := S (ticks w); store := (f (save_ok env (ticks w)) (store w)).1 |}.
Lemma stored_run {E} f w : (stored env f : M H E bool) w = (stored_world f w, Ok (f (save_ok env (ticks w)) (store w)).2).
Proof.
  unfold stored. rewrite (run_bind _ _ w {| w with ticks := S (ticks w) |} (ticks w)) by done.
  unfold act, stored_world. cbn [store]. by destruct (f _ (store w)).
Qed.
(** An audit entry is appended, whether or not it is saved. *)
Lemma audit_run {E} a b c d w : exists id t n, (audit env a b c d : M H E unit) w =
  ({| w with ticks := S n; store := (AppendAudit (save_ok env n) (mkAudit id t b c d a) (store w)).1 |}, Ok tt).
Proof.
  unfold audit. rewrite (run_bind _ _ w {| w with ticks := S (ticks w) |} (ticks w)) by done.
  cbv zeta. unfold now_. rewrite run_bind with (w' := {| w with ticks := S (S (ticks w)) |}) (a := clock env (S (ticks w))) by done.
  rewrite run_bind with (1 := stored_run _ _). do 3 eexists. reflexivity.
Qed.

Definition total {E A} (m : M H E A) : Prop := forall w, is_ok (m w).2 = true.
Lemma total_bind {E A B} (m : M H E A) (f : A -> M H E B) :
  total m -> (forall a, total (f a)) -> total (m ≫= f).
Proof.
  intros Hm Hf w. unfold mbind, M_bind. specialize (Hm w). destruct (m w) as [w' [a|]]; [|done].
  apply Hf.
Qed.
Lemma total_stored {E} f : total (stored env f : M H E bool).
Proof. intros w. unfold stored, next, act, mbind, M_bind. cbn. by destruct (f _ _). Qed.
Lemma total_audit {E} p a t d : total (audit env p a t d : M H E unit).
Proof.
  unfold audit. apply total_bind; [by intros w|]. intros k. apply total_bind; [by intros w|]. intros t'.
  apply total_bind; [apply total_stored|]. by intros ok w.
Qed.
Lemma total_for_each {E A} (f : A -> M H E unit) l : (forall a, total (f a)) -> total (for_each f l).
Proof.
  intros Hf. induction l as [|x l IH]; [by intros w|]. apply total_bind; [done|]. by intros _.
Qed.
Lemma total_mark_nodes b : total (mark_nodes (H := H) env b).
Proof.
  unfold mark_nodes. apply total_bind; [by intros w|]. intros ns. apply total_for_each. intros n.
  apply total_bind; [apply total_stored|]. by intros ok w.
Qed.
Lemma run_ret_bind {E A B} (a : A) (f : A -> M H E B) w : ((mret a : M H E A) ≫= f) w = f a w.
Proof. done. Qed.
Lemma total_run {E A} (m : M H E A) w : total m -> exists w' a, m w = (w', Ok a).
Proof. intros Hm. specialize (Hm w). destruct (m w) as [w' [a|]]; [by eexists _, _|done]. Qed.
Lemma persist_run f (w : World H) : persist env f w =
  let '(s, ok) := f (save_ok env (ticks w)) (store w) in
  ({| w with ticks := S (ticks w); store := s |}, if (ok : bool) then Ok tt else Err persist_error).
Proof.
  unfold persist, stored, next, act, mbind, M_bind. cbn [ticks store].
  by destruct (f (save_ok env (ticks w)) (store w)) as [s []].
Qed.
End Total.

(** A request or a job keeps what its operation keeps. *)
Section Serving.
Context {H : Type} `{!Writer H} `{!BlockCipher} `{!Aead} `{!JsonProfile} `{!Format}.
Context (env : Env) (cfg : ControlConfig) (adminTok node_id version : string).
Context (spectrum : option (string -> string -> bool -> string -> Verdict)).
Context (profileSource : string -> option Subscriber).
Context (R : World H -> World H -> Prop) `{!Frame R}.

Lemma keeps_authenticate c : keeps R (authenticate env adminTok c).
Proof. unfold authenticate. keep. Qed.
Lemma authenticate_refused c (w w' : World H) x :
  authenticate env adminTok c w = (w', Err x) -> x = unauthorized.
Proof.
  unfold authenticate, next, gets, mbind, M_bind, fail, mret, M_ret.
  repeat case_match; intros; simplify_eq; done.
Qed.
Lemma keeps_serve c r w :
  (forall p, keeps R (handle env cfg node_id version spectrum profileSource p r)) ->
  R w (serve env cfg adminTok node_id version spectrum profileSource c r w).1.
Proof.
  intros Hh.
  assert (HR : keeps R (authMW env cfg adminTok node_id version spectrum profileSource c r)).
  { unfold authMW. keep; auto. apply keeps_authenticate. }
  specialize (HR w). unfold serve. by destruct (authMW _ _ _ _ _ _ _ _ _ _) as [? []].
Qed.
End Serving.

(** A server to run: every effect succeeds, the clock counts the effects. *)
#[export] Instance plain_format : Format := {|
  fmt1 := fun _ => "0.0"; fmt2 := fun _ => "0.00";
  quote := fun s => let q := Ascii.ascii_of_nat 34 in String q (s +:+ String q EmptyString); rfc3339 := fun t => pretty t |}.
Definition demo_env : Env := {|
  clock := fun k => Z.of_nat k + 1; save_ok := fun _ => true;
  draw := fun k n => Some (replicate (Z.to_nat n) (Z.of_nat k `mod` 256));
  order := fun _ _ l => l; poll := fun _ => Some [];
  esim_env := fun k => EsimRegistry.demo_env (Z.of_nat k); batch := fun _ _ _ => None;
  order_perm := fun _ _ l => Permutation_refl l |}.
Definition demo_world {H} (h : H) (s : Store) : World H :=
  mkWorld s (GetTxArmed s) ∅ ∅ h [] (Fabric.NewEngine NewSink "local") None 0.
Definition empty_store : Store := mkStore (Store.load no_files) no_files.
