(* ===== verification/ControlSafety.v ===== *)
(** * ControlSafety: the gates of the control plane

    Over any run of requests, background jobs and restarts: transmission is
    armed only through its gate, the audit trail is append-only, and the role
    matrix holds. *)
From stdpp Require Import pretty.
From S2P Require Import Prelude.
From S2P Require Import Float64.
From S2P Require Import Encoding.
From S2P Require Import Sha256.
From S2P Require Import Anchor.
From S2P Require Import Bearer.
From S2P Require Import Fabric.
From S2P Require Import Profile.
From S2P Require Import EsimCrypto.
From S2P Require Import Simprov.
From S2P Require Import EsimRegistry.
From S2P Require Import Spectrum.
From S2P Require Import Config.
From S2P Require Import Api.
From S2P Require Import Store.
From S2P Require Import Control.
From S2P Require Import Routes.
From S2P Require Import ControlFacts.

Section Safety.
Context {H : Type} `{!Writer H} `{!BlockCipher} `{!Aead} `{!JsonProfile} `{!Format}.
Context (env : Env) (cfg : ControlConfig) (adminTok node_id version : string).
Context (spectrum : option (string -> string -> bool -> string -> Verdict)).
Context (profileSource : string -> option Subscriber).
Abbreviation handle := (handle env cfg node_id version spectrum profileSource).
Abbreviation serve := (serve env cfg adminTok node_id version spectrum profileSource).
Abbreviation step := (step env cfg adminTok node_id version spectrum profileSource).
Abbreviation run := (run env cfg adminTok node_id version spectrum profileSource).
Abbreviation authenticate := (authenticate env adminTok).
Abbreviation arm_allowed := (arm_allowed cfg spectrum).

(** ** The transmission gate *)
(** Off in the server and in the store, and in its file if that is looked at. *)
Definition off (file : bool) (w : World H) : Prop :=
  armed w = false /\ Store.txArmed (mem (store w)) = false /\
  (file = true -> f_tx (disk (store w)) <> Some true).
Definition unarmed (w : World H) : Prop := off true w.
Section Off.
Context (file : bool).
Definition stays_unarmed (w w' : World H) : Prop := off file w -> off file w'.
#[export] Instance unarmed_frame : Frame stays_unarmed.
Proof.
  split; [split|].
  - by intros w Hw.
  - intros w1 w2 w3 E1 E2 Hw. auto.
  - by intros w n Hw.
Qed.
(** A store operation that leaves the flag and its file alone. *)
Lemma stored_unarmed {E} (f : bool -> Store -> Store * bool) :
  (forall ok s, Store.txArmed (mem (f ok s).1) = Store.txArmed (mem s) /\
                f_tx (disk (f ok s).1) = f_tx (disk s)) ->
  keeps stays_unarmed (stored env f : M H E bool).
Proof.
  intros Hf. apply keeps_stored; [exact _|]. intros ok w (Ha & Hm & Hd).
  destruct (Hf ok (store w)) as [Em Ed]. split; [done|]. cbn [store]. by rewrite Em, Ed.
Qed.
Ltac quiet := apply stored_unarmed; store_op; done.
Lemma persist_unarmed (f : bool -> Store -> Store * bool) :
  (forall ok s, Store.txArmed (mem (f ok s).1) = Store.txArmed (mem s) /\
                f_tx (disk (f ok s).1) = f_tx (disk s)) ->
  keeps stays_unarmed (persist (H := H) env f).
Proof. intros Hf. unfold persist. keep. by apply stored_unarmed. Qed.
Lemma audit_unarmed {E} p a t d : keeps stays_unarmed (audit env p a t d : M H E unit).
Proof. unfold audit. keep. quiet. Qed.

Ltac unarmed_effect :=
  first [ apply audit_unarmed
        | apply persist_unarmed; store_op; done
        | quiet
        | apply keeps_hss_Add; by intros w h ?
        | apply keeps_hss_Remove; by intros w h ?
        | apply keeps_engine; by intros w e ?
        | apply keeps_registry; [exact _|by intros w r ?]
        | apply keeps_modify; by intros w ? ].
Ltac unarmed := repeat (keep; try unarmed_effect).

Definition arms (r : Request) : bool :=
  match r with
  | TxArm (Some req) => arm_allowed req
  | Restore_ (Some (Some (d, _))) => file && bool_decide (f_tx d = Some true)
  | _ => false
  end.
Lemma handle_unarmed principal r : arms r = false -> keeps stays_unarmed (handle principal r).
Proof.
  intros Harm. destruct r; cbn [Routes.handle arms] in *; unfold_handlers.
  all: try (clear Harm; unarmed; fail).
  - destruct body as [req|]; [|unarmed]. apply keeps_pure. cbv beta zeta.
    rewrite Harm. unarmed.
  - unarmed.
    + apply keeps_modify. by intros w (_ & ? & ?).
    + unfold persist. keep. apply keeps_stored; [exact _|]. intros [] w (? & _ & ?); split; done.
  - destruct body as [[[d ok]|]|]; unarmed. apply keeps_modify. intros w (? & ? & _). split; [done|]. split; [done|].
    cbn. intros ->. by apply bool_decide_eq_false in Harm.
Qed.
Lemma job_unarmed (t : Tick) : keeps stays_unarmed (background (E := unit) env cfg t : M H unit unit).
Proof. destruct t; cbn [background]; unfold_jobs; unarmed. Qed.
End Off.
Lemma restart_unarmed anchor w : stays_unarmed true w (restart env anchor w).
Proof.
  intros (_ & _ & Hd). specialize (Hd eq_refl). unfold off, restart, NewWithOptions. cbn [armed store disk mem].
  assert (E : Store.txArmed (Store.load (disk (store w))) = false).
  { cbn. unfold loadJSON. by destruct (f_tx (disk (store w))) as [[]|]. }
  unfold GetTxArmed. cbn [mem]. done.
Qed.
(** An administrator is asking. *)
Definition by_admin (w : World H) (c : Credentials) : Prop := exists name, (authenticate c w).2 = Ok (RoleAdmin, name).
(** The gate's conditions hold. *)
Definition granted (w : World H) (e : Event) : Prop :=
  exists c req, e = Call c (TxArm (Some req)) /\ arm_allowed req = true /\ by_admin w c.
(** The archive says armed. *)
Definition restores_armed (w : World H) (e : Event) : Prop :=
  exists c d ok, e = Call c (Restore_ (Some (Some (d, ok)))) /\ f_tx d = Some true /\ by_admin w c.
Lemma step_unarmed file w e : off file w -> (forall a, e = Restart a -> file = true) ->
  off file (step w e) \/ granted w e \/ (file = true /\ restores_armed w e).
Proof.
  intros Hw He. destruct e as [c r|t|a]; [|left; by apply job_unarmed|].
  2: { left. rewrite (He a eq_refl) in *. by apply restart_unarmed. }
  cbn [Routes.step]. destruct (arms file r) eqn:Hreq.
  2: { left. revert Hw. change (stays_unarmed file w (serve c r w).1).
       apply (keeps_serve _ _ _ _ _ _ _ (stays_unarmed file)). intros p. by apply handle_unarmed. }
  assert (Ha : adminOnly (route r).2 = true /\ public_path (route r).2 = false) by (by destruct r).
  pose proof (keeps_authenticate env adminTok (stays_unarmed file) c w Hw) as Hkeep.
  assert (Hadm : off file (serve c r w).1 \/ by_admin w c).
  { unfold Routes.serve, authMW. destruct (route r) as [method path]. cbn [fst snd] in Ha. destruct Ha as [Hadm ->].
    unfold by_admin, mbind, M_bind. destruct (Routes.authenticate env adminTok c w) as [w' [[role name]|x]]; [|by left].
    destruct (decide (role = RoleAdmin)) as [->|Hne]; [by right; eauto|]. left.
    unfold authorize. by rewrite decide_False, Hadm by done. }
  destruct Hadm as [|Hadm]; [by left|]. right. destruct r; try discriminate Hreq.
  - destruct body as [req|]; [|discriminate]. left. by exists c, req.
  - destruct body as [[[d ok]|]|]; try discriminate. apply andb_true_iff in Hreq as [Hf Hd%bool_decide_eq_true].
    right. split; [done|]. by exists c, d, ok.
Qed.
Lemma run_unarmed l : forall w, unarmed w -> unarmed (run w l) \/
  exists l1 e l2, l = l1 ++ e :: l2 /\ unarmed (run w l1) /\ (granted (run w l1) e \/ restores_armed (run w l1) e).
Proof.
  induction l as [|e l IH]; intros w Hw; [by left|].
  destruct (step_unarmed true w e Hw (fun _ _ => eq_refl)) as [Hs|Hg].
  - destruct (IH _ Hs) as [|(l1 & e' & l2 & -> & Hg)]; [by left|]. right. by exists (e :: l1), e', l2.
  - right. exists [], e, l. split; [done|]. split; [done|]. destruct Hg as [|[_ ?]]; auto.
Qed.
(** What is armed on disk only comes into force with a restart. *)
Lemma run_off l : forall w, off false w -> off false (run w l) \/
  (exists l1 e l2, l = l1 ++ e :: l2 /\ granted (run w l1) e) \/ exists l1 a l2, l = l1 ++ Restart a :: l2.
Proof.
  induction l as [|e l IH]; intros w Hw; [by left|].
  assert (He : (exists a, e = Restart a) \/ forall a, e = Restart a -> false = true)
    by (destruct e as [| |a]; [right; by intros|right; by intros|left; by exists a]).
  destruct He as [[a ->]|He]; [right; right; by exists [], a, l|].
  destruct (step_unarmed false w e Hw He) as [Hs|[Hg|[? _]]]; [|right; left; by exists [], e, l|done].
  destruct (IH _ Hs) as [|[(l1 & e' & l2 & -> & Hg)|(l1 & a & l2 & ->)]]; [by left| |]; right.
  - left. by exists (e :: l1), e', l2.
  - right. by exists (e :: l1), a, l2.
Qed.

(** What arms: an arm request the gate lets through, or the restore of an
    archive whose flag is armed, once the server is started on it. *)
Definition through_gate (r : Request) : Prop := exists req, r = TxArm (Some req) /\
  Mode cfg <> "lab"%string /\ Acknowledgment req = GateAckPhrase /\
  forall check, spectrum = Some check ->
    Allowed (check (taCountry req) (taBand req) true (taLicenseRef req)) = true.
Definition from_archive (r : Request) (rest : list Event) : Prop :=
  exists d swapped l3 a l4, r = Restore_ (Some (Some (d, swapped))) /\ f_tx d = Some true /\ rest = l3 ++ Restart a :: l4.
Lemma granted_through w e : granted w e -> exists c r name, e = Call c r /\
  (authenticate c w).2 = Ok (RoleAdmin, name) /\ through_gate r.
Proof.
  intros (c & req & -> & Hreq & name & Hauth). exists c, (TxArm (Some req)), name. split; [done|]. split; [done|].
  exists req. split; [done|]. apply andb_true_iff in Hreq as [[Hm Hack]%andb_true_iff Hspec].
  apply negb_true_iff, bool_decide_eq_false in Hm. apply bool_decide_eq_true in Hack.
  split; [done|]. split; [done|]. by intros check ->.
Qed.
(** C1: The transmission gate.  Whatever requests, restores of archives
    included, background jobs and restarts a server goes through, starting from
    one that is off with no armed flag on disk, if it is armed at the end then
    an administrator asked for it: at some point of the run, credentials the
    server accepted as an administrator's either sent an arm request with the
    exact acknowledgment phrase, outside lab mode, that the spectrum registry
    allows for its country, band and licence; or uploaded an archive whose flag
    is armed, and the server was restarted after that, which is the one way
    around the gate. *)
Theorem tx_armed_only_through_gate w l : unarmed w -> armed (run w l) = true ->
  exists l1 c r l2 name, l = l1 ++ Call c r :: l2 /\
    (authenticate c (run w l1)).2 = Ok (RoleAdmin, name) /\ (through_gate r \/ from_archive r l2).
Proof.
  intros Hw Harmed.
  assert (Happ : forall a b, run w (a ++ b) = run (run w a) b) by (intros; apply foldl_app).
  destruct (run_unarmed l w Hw) as [(Ha & _)|(l1 & e & l2 & -> & Hoff & [Hg|Hr])]; [congruence| |].
  { apply granted_through in Hg as (c & r & name & -> & Hc & Hr). exists l1, c, r, l2, name. auto. }
  destruct Hr as (c & d & ok & -> & Hd & name & Hauth). set (r := Restore_ (Some (Some (d, ok)))) in *.
  assert (Hs : off false (step (run w l1) (Call c r))).
  { destruct Hoff as (? & ? & _). destruct (step_unarmed false (run w l1) (Call c r)) as [|[Hg|[? _]]]; try done.
    by destruct Hg as (? & ? & ? & _). }
  rewrite Happ in Harmed. change (armed (run (step (run w l1) (Call c r)) l2) = true) in Harmed.
  destruct (run_off l2 _ Hs) as [(Ha & _)|[(l3 & e & l4 & -> & Hg)|(l3 & a & l4 & ->)]].
  - congruence.
  - apply granted_through in Hg as (c' & r' & name' & -> & Hc & Hr).
    exists (l1 ++ Call c r :: l3), c', r', l4, name'. rewrite <- app_assoc, Happ. auto.
  - exists l1, c, r, (l3 ++ Restart a :: l4), name. split; [done|]. split; [done|]. right.
    by exists d, ok, l3, a, l4.
Qed.

(** ** The audit trail *)
Definition trail (w : World H) : list AuditEntry := Store.audit (mem (store w)).
Definition trail_file (w : World H) : list AuditEntry := default [] (f_audit (disk (store w))).
(** The file is an initial part of the trail in memory. *)
Definition trail_ok (w : World H) : Prop := trail_file w `prefix_of` trail w.
(** Entries are only appended, all of them satisfying [P]; so in the file. *)
Definition logs (P : AuditEntry -> Prop) (w w' : World H) : Prop :=
  trail_ok w -> trail_ok w' /\ trail_file w `prefix_of` trail_file w' /\
    exists es, trail w' = trail w ++ es /\ Forall P es.
#[local] Instance logs_frame P : Frame (logs P).
Proof.
  split; [split|].
  - intros w Hw. split; [done|]. split; [done|]. exists []. by rewrite app_nil_r.
  - intros w1 w2 w3 H12 H23 Hw. destruct (H12 Hw) as (Hw2 & Hf2 & es & E2 & P2).
    destruct (H23 Hw2) as (Hw3 & Hf3 & es' & E3 & P3). split; [done|].
    split; [by etransitivity|]. exists (es ++ es'). rewrite E3, E2, app_assoc. split; [done|].
    by apply Forall_app.
  - intros w n Hw. split; [done|]. split; [done|]. exists []. by rewrite app_nil_r.
Qed.
Lemma logs_same P w w' : trail w' = trail w -> trail_file w' = trail_file w -> logs P w w'.
Proof.
  intros E Ef Hw. unfold trail_ok. rewrite E, Ef. split; [done|]. split; [done|].
  exists []. by rewrite app_nil_r.
Qed.
Lemma stored_logs {E} P (f : bool -> Store -> Store * bool) :
  (forall ok s, Store.audit (mem (f ok s).1) = Store.audit (mem s) /\
                f_audit (disk (f ok s).1) = f_audit (disk s)) ->
  keeps (logs P) (stored env f : M H E bool).
Proof.
  intros Hf. apply keeps_stored; [exact _|]. intros ok w. destruct (Hf ok (store w)) as [Em Ed].
  apply logs_same; unfold trail, trail_file; cbn [store]; by rewrite ?Em, ?Ed.
Qed.
Lemma audit_logs {E} (P : AuditEntry -> Prop) p a t d : (forall id ts, P (mkAudit id ts a t d p)) ->
  keeps (logs P) (audit env p a t d : M H E unit).
Proof.
  intros HP. unfold audit. keep. apply keeps_stored; [exact _|]. intros ok w Hw.
  unfold trail_ok, trail, trail_file in *. destruct ok; cbn in *.
  - split; [done|]. split; [|eexists; split; [done|by constructor]].
    etransitivity; [exact Hw|]. by apply prefix_app_r.
  - split; [by apply prefix_app_r|]. split; [done|]. eexists. split; [done|by constructor].
Qed.
Ltac logs_effect :=
  first [ apply audit_logs; by intros ? ?
        | apply stored_logs; store_op; done
        | apply keeps_hss_Add; by intros w h ?; apply logs_same
        | apply keeps_hss_Add; by intros; apply logs_same
        | apply keeps_hss_Remove; by intros; apply logs_same
        | apply keeps_engine; by intros; apply logs_same
        | apply keeps_registry; [exact _|by intros; apply logs_same]
        | apply keeps_modify; by intros; apply logs_same ].
Ltac logs := repeat (keep; try logs_effect).



(** ** The role matrix *)
(** The world but for what a read may change: the count of effects, and the
    health records' [Up] flags, which the listing recomputes. *)
Definition down (h : NodeHealth) : NodeHealth := {| h with hUp := false |}.
Definition blank (w : World H) : World H :=
  {| w with ticks := 0; store := set_health (fmap down) (store w) |}.
Definition reads (w w' : World H) : Prop := blank w' = blank w.
#[local] Instance reads_frame : Frame reads.
Proof. split; [split|]; [done|unfold reads; congruence|done]. Qed.
Lemma list_health_reads : keeps reads (handleListHealth (H := H) env cfg).
Proof.
  unfold handleListHealth, now'. keep. apply keeps_modify. intros w. unfold reads, blank, set_health.
  cbn [store mem health]. by rewrite <- map_fmap_compose.
Qed.
Lemma get_reads p r : (route r).1 = GET -> adminOnly (route r).2 = false -> keeps reads (handle p r).
Proof.
  intros Hr Hadm. destruct r; try discriminate Hr; try (vm_compute in Hadm; discriminate Hadm); try apply list_health_reads;
    cbn [Routes.handle]; unfold_handlers; keep.
Qed.
(** The administrator's surfaces. *)
Definition admin_request (r : Request) : bool :=
  match r with
  | TxArm _ | TxDisarm | CreateToken _ | ListTokens | RevokeToken_ _ | Audit | Backup_ _ | Restore_ _ => true
  | _ => false
  end.
Lemma adminOnly_request r : adminOnly (route r).2 = admin_request r.
Proof. by destruct r. Qed.
Lemma public_request r : public_path (route r).2 = true -> r = Healthz.
Proof. by destruct r. Qed.
(** What the server refuses to a role. *)
Definition refused (role : TokenRole) (r : Request) : bool :=
  negb (bool_decide (role = RoleAdmin)) &&
  (admin_request r || (bool_decide (role = RoleViewer) && negb (bool_decide ((route r).1 = GET)))).
Lemma authorize_refused role r :
  match authorize role (route r).1 (route r).2 with Some _ => true | None => false end = refused role r.
Proof.
  unfold authorize, refused. rewrite adminOnly_request.
  destruct (decide (role = RoleAdmin)); [by rewrite bool_decide_true|].
  rewrite bool_decide_false by done. destruct (admin_request r); [done|].
  destruct (decide ((route r).1 = GET)); [by rewrite (bool_decide_true (_ = GET)), andb_false_r|].
  rewrite (bool_decide_false (_ = GET)) by done.
  by destruct (decide (role = RoleViewer)); [rewrite bool_decide_true|rewrite bool_decide_false].
Qed.

(** C12: The role matrix.  Credentials the server does not know get 401.
    Arming and disarming, the tokens, the audit trail, backups and restores
    answer 403 to anyone but an administrator, and whatever is not a read answers 403 to a viewer;
    a refused request changes nothing.  Every other request reaches its
    handler under the credentials' name; and no request of a viewer, whatever
    it is, changes anything but the health records' up flags. *)
Theorem role_matrix c r w : r <> Healthz ->
  match (authenticate c w).2 with
  | Err _ => (serve c r w).2 = unauthorized /\ reads w (serve c r w).1
  | Ok (role, name) =>
      (if refused role r
       then (serve c r w).2 = err 403 "forbidden" /\ reads w (serve c r w).1
       else exists w', reads w w' /\
              serve c r w = match handle (principalFrom name) r w' with
                            | (w2, Ok x) => (w2, x) | (w2, Err x) => (w2, x)
                            end) /\
      (role = RoleViewer -> reads w (serve c r w).1)
  end.
Proof.
  intros Hpub. pose proof (keeps_authenticate env adminTok reads c w) as Ha.
  pose proof (authorize_refused) as Hauth.
  unfold Routes.serve, authMW. destruct (route r) as [method path] eqn:Er.
  destruct (public_path path) eqn:Ep.
  { destruct Hpub. apply public_request. by rewrite Er. }
  unfold mbind, M_bind.
  assert (Herr : forall x, (authenticate c w).2 = Err x -> x = unauthorized).
  { intros x. unfold Routes.authenticate. repeat case_match; cbn; try congruence;
      unfold mbind, M_bind, next, gets; cbn; destruct (TokenByHash _ _ _); cbn; congruence. }
  destruct (Routes.authenticate env adminTok c w) as [w1 [[role name]|x]]; cbn [fst snd] in *.
  2: { split; [by apply Herr|done]. }
  specialize (Hauth role r). rewrite Er in Hauth. cbn [fst snd] in Hauth. rewrite <- Hauth.
  destruct (authorize role method path) eqn:E; [done|]. split.
  - exists w1. split; [done|]. by destruct (Routes.handle _ _ _ _ _ _ _ _) as [? []].
  - intros ->. assert (Hg : (route r).1 = GET).
    { rewrite Er. unfold authorize in E. rewrite decide_False in E by done.
      destruct (adminOnly path); [done|]. destruct (decide (method = GET)); done. }
    assert (Hadm : adminOnly (route r).2 = false).
    { rewrite Er. unfold authorize in E. rewrite decide_False in E by done. cbn [snd]. by destruct (adminOnly path). }
    pose proof (get_reads (principalFrom name) r Hg Hadm w1) as Hh.
    destruct (Routes.handle _ _ _ _ _ _ _ _) as [? []]; cbn [fst] in *; by etransitivity.
Qed.
End Safety.

(** ** A server in the field *)
Definition field : ControlConfig := {| Default with Mode := "rf"; Config.Country := "GB" |}.
Definition gate : option (string -> string -> bool -> string -> Verdict) :=
  Some (Check_ builtinProfiles).
Definition arm_request : TxArmRequest := mkTxArm "GB" "b1" GateAckPhrase "OFCOM-1".
Definition local : Credentials := mkCredentials "" true.
Definition demo_run (env : Env) : World NoHSS -> list Event -> World NoHSS :=
  run env field "" "node-1" "dev" gate (fun _ => None).
Lemma tx_armed_only_through_gate_witness :
  let w := demo_world None_ empty_store in
  let l := [Job TickSweep; Call local (TxArm (Some arm_request)); Restart "hub"] in
  unarmed w /\ armed (demo_run demo_env w l) = true /\
  exists l1 c r l2 name, l = l1 ++ Call c r :: l2 /\
    (authenticate demo_env "" c (demo_run demo_env w l1)).2 = Ok (RoleAdmin, name) /\
    (through_gate field gate r \/ from_archive r l2).
Proof.
  intros w l. assert (Hw : unarmed w) by (by split; [|split]).
  assert (Ha : armed (demo_run demo_env w l) = true) by (vm_compute; reflexivity).
  split; [exact Hw|]. split; [exact Ha|].
  exact (tx_armed_only_through_gate demo_env field "" "node-1" "dev" gate (fun _ => None) w l Hw Ha).
Defined.
(** The way around the gate: no arm request, no phrase, no registry. *)
Definition armed_archive : Request := Restore_ (Some (Some ({| no_files with f_tx := Some true |}, true))).
Example restored_flag_arms :
  let w := demo_world None_ empty_store in
  let go l := armed (run demo_env Default "" "node-1" "dev" gate (fun _ => None) w l) in
  go [Call local armed_archive] = false /\ go [Call local armed_archive; Restart "hub"] = true.
Proof. vm_compute. done. Qed.
Lemma role_matrix_witness :
  let w := demo_world None_ empty_store in
  Audit <> Healthz /\ refused RoleViewer Audit = true /\
  exists w', serve demo_env field "" "node-1" "dev" gate (fun _ => None) local Audit w =
    match handle demo_env field "node-1" "dev" gate (fun _ => None) "loopback" Audit w' with
    | (w2, Ok x) => (w2, x) | (w2, Err x) => (w2, x)
    end.
Proof.
  intros w. assert (Hr : Audit <> Healthz) by done. split; [exact Hr|]. split; [reflexivity|].
  destruct (role_matrix demo_env field "" "node-1" "dev" gate (fun _ => None) local Audit w Hr)
    as [(w' & _ & H) _].
  exists w'. exact H.
Defined.
(** When the flag cannot be saved the request answers 500, but the server is
    armed all the same, and no audit entry says so. *)
Example failed_save_arms :
  let env := {| demo_env with save_ok := fun _ => false |} in
  let w := demo_world None_ empty_store in
  let x := serve env field "" "node-1" "dev" gate (fun _ => None) local (TxArm (Some arm_request)) w in
  x.2 = persist_error /\ armed x.1 = true /\ trail x.1 = [].
Proof. vm_compute. done. Qed.
