(* ===== verification/ControlSims.v ===== *)
(** * ControlSims: the life of a SIM

    Over any run of requests, jobs and restarts whose saves succeed: a SIM's
    status follows the machine of [handleSuspendSIM], [handleResumeSIM],
    [handleRevokeSIM], [promote], [expire] and [enforceQuota], and a revoked
    subscriber is out of the core. *)
From stdpp Require Import pretty.
From S2P Require Import Prelude.
From S2P Require Import Float64.
From S2P Require Import Encoding.
From S2P Require Import Sha256.
From S2P Require Import Anchor.
From S2P Require Import Bearer.
From S2P Require Import Fabric.
From S2P Require Import Profile.
From S2P Require Import EsimCrypto.
From S2P Require Import Simprov.
From S2P Require Import EsimRegistry.
From S2P Require Import Spectrum.
From S2P Require Import Config.
From S2P Require Import Api.
From S2P Require Import Store.
From S2P Require Import Control.
From S2P Require Import Routes.
From S2P Require Import ControlFacts.

(** The status machine: nothing leaves "revoked" but nothing else is final;
    from "expired" a SIM can only be revoked. *)
Definition in_service (st : string) : Prop :=
  st = "issued"%string \/ st = "active"%string \/ st = "suspended"%string.
Definition reaches (st st' : string) : Prop :=
  st' = st \/ st' = "revoked"%string \/
  (st' = "expired"%string /\ st <> "revoked"%string) \/
  (in_service st /\ (st' = "active"%string \/ st' = "suspended"%string)).
(** What never changes of a card. *)
Definition same_card (s s' : SIM) : Prop :=
  IMSI s' = IMSI s /\ MSISDN s' = MSISDN s /\ SProfile s' = SProfile s /\ SAPN s' = SAPN s /\
  SQN s' = SQN s /\ SCreatedAt s' = SCreatedAt s /\ SExpiresAt s' = SExpiresAt s.
Definition moves (s s' : SIM) : Prop := same_card s s' /\ reaches (SStatus s) (SStatus s').
#[export] Instance moves_preorder : PreOrder moves.
Proof.
  split.
  - intros s. by split; [repeat split|left].
  - intros s1 s2 s3 [C1 R1] [C2 R2]. split; [unfold same_card in *; intuition congruence|].
    unfold reaches, in_service in *. generalize dependent (SStatus s3).
    generalize dependent (SStatus s2). intros b R1 c R2.
    destruct R1 as [?|[?|[[? ?]|[? [?|?]]]]]; subst; intuition congruence.
Qed.

Section Sims.
Context {H : Type} `{!Writer H} `{!BlockCipher} `{!Aead} `{!JsonProfile} `{!Format}.
Context (env : Env) (cfg : ControlConfig) (adminTok node_id version : string).
Context (spectrum : option (string -> string -> bool -> string -> Verdict)).
Context (profileSource : string -> option Subscriber).
Context (saves : forall k, save_ok env k = true).
Abbreviation handle := (handle env cfg node_id version spectrum profileSource).
Abbreviation step := (step env cfg adminTok node_id version spectrum profileSource).
Abbreviation run := (run env cfg adminTok node_id version spectrum profileSource).

Definition cards (w : World H) : gmap string SIM := sims (mem (store w)).
(** Every card is under its own IMSI, and the file holds the table. *)
Definition cards_ok (w : World H) : Prop :=
  keyed IMSI (cards w) /\
  Store.loadJSON (f_sims (disk (store w))) ∅ = cards w.
Definition live (s : SIM) (w : World H) : Prop := cards w !! IMSI s = Some s.

(** What the theorems look at. *)
Definition view (w : World H) : gmap string SIM * option (gmap string SIM) * H :=
  (cards w, f_sims (disk (store w)), hss w).

Lemma upsert_cards {E} s w : cards_ok w ->
  let w' := ((stored env (fun ok => UpsertSIM ok s) : M H E bool) w).1 in
  cards w' = <[IMSI s := s]> (cards w) /\ cards_ok w' /\ hss w' = hss w.
Proof.
  intros [Hk _] w'. unfold w'. rewrite run_stored by (by rewrite ?saves). cbn [fst].
  split; [done|]. split; [|done]. split; [by apply keyed_insert|done].
Qed.
(** A relation that only looks at the view. *)
Class Viewed (R : World H -> World H -> Prop) := {
  viewed_frame :: Frame R;
  viewed_same : forall w w', view w' = view w -> R w w';
}.
Section Effects.
Context (R : World H -> World H -> Prop) `{!Viewed R}.
Lemma stored_view {E} (f : bool -> Store -> Store * bool) :
  (forall ok s, sims (mem (f ok s).1) = sims (mem s) /\ f_sims (disk (f ok s).1) = f_sims (disk s)) ->
  keeps R (stored env f : M H E bool).
Proof.
  intros Hf. apply keeps_stored; [exact _|]. intros ok w. destruct (Hf ok (store w)) as [Em Ed].
  apply viewed_same. unfold view, cards. cbn [store hss]. by rewrite Em, Ed.
Qed.
Lemma persist_view (f : bool -> Store -> Store * bool) :
  (forall ok s, sims (mem (f ok s).1) = sims (mem s) /\ f_sims (disk (f ok s).1) = f_sims (disk s)) ->
  keeps R (persist (H := H) env f).
Proof. intros Hf. unfold persist. keep. by apply stored_view. Qed.
Lemma audit_view {E} p a t d : keeps R (audit env p a t d : M H E unit).
Proof. unfold audit. keep. apply stored_view. store_op; done. Qed.
End Effects.
Ltac view_effect :=
  first [ apply audit_view; exact _
        | apply persist_view; [exact _|store_op; done]
        | apply stored_view; [exact _|store_op; done]
        | apply keeps_engine; intros; by apply viewed_same
        | apply keeps_registry; [exact _|intros; by apply viewed_same]
        | apply keeps_modify; intros; by apply viewed_same ].
Ltac viewed := repeat (keep; try view_effect).

(** ** The status machine *)
Definition advances (w w' : World H) : Prop := cards_ok w ->
  cards_ok w' /\ forall i s, cards w !! i = Some s -> exists s', cards w' !! i = Some s' /\ moves s s'.
#[local] Instance advances_viewed : Viewed advances.
Proof.
  assert (Hsame : forall w w', view w' = view w -> advances w w').
  { intros w w' [= Ec Ed Eh] Hw. unfold cards_ok. rewrite Ec, Ed. split; [done|].
    intros i s Hs. exists s. split; [done|reflexivity]. }
  split; [split; [split|]|done].
  - intros w. by apply Hsame.
  - intros w1 w2 w3 H12 H23 Hw. destruct (H12 Hw) as [Hw2 Hm2]. destruct (H23 Hw2) as [Hw3 Hm3].
    split; [done|]. intros i s Hs. destruct (Hm2 i s Hs) as (s2 & Hs2 & M2).
    destruct (Hm3 i s2 Hs2) as (s3 & Hs3 & M3). exists s3. split; [done|]. by etransitivity.
  - intros w n. by apply Hsame.
Qed.
(** Writing back a card that moved. *)
Definition at_ (imsi : string) (s : SIM) (w : World H) : Prop := GetSIM imsi (store w) = Some s.
Lemma upsert_advances {E} imsi s s' : moves s s' ->
  from (at_ imsi s) advances (stored env (fun ok => UpsertSIM ok s') : M H E bool).
Proof.
  intros Hm w Hl Hw. destruct (upsert_cards (E := E) s' w Hw) as (Ec & Hok & _).
  split; [exact Hok|]. rewrite Ec. intros i x Hx.
  assert (Ei : IMSI s' = imsi) by (rewrite <- (proj1 Hw _ _ Hl); apply Hm).
  destruct (decide (i = imsi)) as [->|Hne].
  - exists s'. rewrite Ei, lookup_insert_eq. unfold at_, GetSIM in Hl. split; [done|].
    unfold cards in Hx. congruence.
  - exists x. rewrite lookup_insert_ne by congruence. done.
Qed.
Lemma then_advances {E A B} (P : World H -> Prop) (m : M H E A) (k : A -> M H E B) :
  from P advances m -> (forall a, keeps advances (k a)) -> from P advances (m ≫= k).
Proof.
  intros Hm Hk. eapply (from_bind advances P (fun _ _ => True)); [|intros a; by apply from_keeps].
  intros w Hw. split; [by apply Hm|]. by case_match.
Qed.
Lemma persist_advances {B} P imsi s s' (k : unit -> M H Response B) : moves s s' ->
  (forall w, P w -> at_ imsi s w) -> (forall a, keeps advances (k a)) ->
  from P advances (persist env (fun ok => UpsertSIM ok s') ≫= k).
Proof.
  intros Hm HP Hk. apply then_advances; [|done]. unfold persist.
  apply then_advances; [|intros []; keep]. intros w Hw. apply (upsert_advances imsi s s' Hm), HP, Hw.
Qed.
Ltac moving := split; [by repeat split|unfold reaches, in_service; cbn; tauto].

Lemma suspend_advances p imsi : keeps advances (handleSuspendSIM (H := H) env p imsi).
Proof.
  apply keeps_from. unfold handleSuspendSIM. apply from_find; [exact _|intros sim]. apply from_require; [exact _|].
  intros Hst%orb_true_iff. rewrite !bool_decide_eq_true in Hst.
  apply (persist_advances _ imsi sim); [moving|by intros w' [_ ?]|intros []; viewed].
Qed.
Lemma resume_advances p imsi : keeps advances (handleResumeSIM (H := H) env p imsi).
Proof.
  apply keeps_from. unfold handleResumeSIM. apply from_find; [exact _|intros sim]. apply from_require; [exact _|].
  intros Hst%bool_decide_eq_true.
  apply (persist_advances _ imsi sim); [moving|by intros w' [_ ?]|intros []; viewed].
Qed.
Lemma quota_advances p imsi b : keeps advances (handleSetQuota (H := H) env p imsi b).
Proof.
  apply keeps_from. unfold handleSetQuota. apply from_find; [exact _|intros sim]. apply from_read; [exact _|]. intros q.
  apply (persist_advances _ imsi sim); [moving|by intros w' [_ ?]|intros []; viewed].
Qed.
Lemma hss_Remove_advances {E} i : keeps advances (hss_Remove i : M H E bool).
Proof. apply keeps_hss_Remove. intros w h. exact (fun Hw => conj Hw (fun i s Hs => ex_intro _ s (conj Hs (reflexivity s)))). Qed.
Lemma revoke_advances p imsi : keeps advances (handleRevokeSIM (H := H) env p imsi).
Proof.
  apply keeps_from. unfold handleRevokeSIM. apply from_find; [exact _|intros sim].
  apply (from_bind advances _ (fun _ => at_ imsi sim)).
  - intros w [_ Hw]. split; [apply hss_Remove_advances|]. unfold hss_Remove, act.
    by destruct (hss_remove (hss w) imsi).
  - intros ok. apply from_require; [exact _|]. intros _.
    apply (persist_advances _ imsi sim); [moving|done|intros []; viewed].
Qed.

(** The jobs write back the cards of a listing, each its own. *)
Definition only (i : string) (w w' : World H) : Prop := forall j, j <> i -> cards w' !! j = cards w !! j.
#[local] Instance only_viewed i : Viewed (only i).
Proof.
  assert (Hsame : forall w w', view w' = view w -> only i w w').
  { intros w w' [= Ec _ _] j _. by rewrite Ec. }
  split; [split; [split|]|done].
  - intros w. by apply Hsame.
  - intros w1 w2 w3 H12 H23 j Hj. by rewrite H23, H12.
  - intros w n. by apply Hsame.
Qed.
Lemma upsert_only {E} s : keeps (only (IMSI s)) (stored env (fun ok => UpsertSIM ok s) : M H E bool).
Proof.
  apply keeps_stored; [exact _|]. intros [] w j Hj; cbn; by rewrite lookup_insert_ne.
Qed.
Definition listing (l : list SIM) (w : World H) : Prop :=
  NoDup (IMSI <$> l) /\ Forall (fun s => at_ (IMSI s) s w) l.
Lemma each_advances {E} (f : SIM -> M H E unit) l :
  (forall s, from (at_ (IMSI s) s) advances (f s)) -> (forall s, keeps (only (IMSI s)) (f s)) ->
  from (listing l) advances (for_each f l).
Proof.
  intros Hf Ho. induction l as [|s l IH]; intros w [Hn Hl]; [reflexivity|].
  cbn [for_each fmap list_fmap] in *. apply NoDup_cons in Hn as [Hs Hn].
  apply Forall_cons in Hl as [Hlive Hl]. specialize (Hf s w Hlive). specialize (Ho s w).
  unfold mbind, M_bind. destruct (f s w) as [w' [[]|e]]; [|exact Hf]. etransitivity; [exact Hf|].
  apply IH. split; [done|]. rewrite Forall_forall in *. intros x Hx. unfold at_, GetSIM.
  cbn in Ho. unfold cards in Ho. rewrite Ho; [by apply Hl|].
  intros E'. apply Hs. rewrite <- E'. by apply list_elem_of_fmap_2.
Qed.
Lemma ranged_listing {E} w : cards_ok w ->
  let x := (ranged env sims_of : M H E (list SIM)) w in
  view x.1 = view w /\ exists l, x.2 = Ok l /\ listing l x.1.
Proof.
  intros [Hk _]. unfold ranged, next, gets, mbind, M_bind. cbn [fst snd].
  split; [done|]. eexists. split; [done|]. unfold listing, at_, GetSIM, sims_of. cbn [store].
  pose proof (order_perm env (ticks w) SIM (values (sims (mem (store w))))) as Hp.
  split.
  - rewrite Hp. by apply keyed_NoDup.
  - rewrite Hp. apply Forall_forall. intros s [i Hi]%elem_of_values. by rewrite (Hk _ _ Hi).
Qed.

(** A job that walks a listing of the cards. *)
Lemma walk_advances {E} (f : SIM -> M H E unit) :
  (forall s, from (at_ (IMSI s) s) advances (f s)) -> (forall s, keeps (only (IMSI s)) (f s)) ->
  keeps advances (ranged env sims_of ≫= fun l => for_each f l).
Proof.
  intros Hf Ho w Hw. destruct (ranged_listing (E := E) w Hw) as (Hv & l & El & Hl).
  unfold mbind, M_bind. destruct (ranged env sims_of w) as [w' x]. cbn in Hv, El, Hl. subst x.
  revert Hw. change (advances w (for_each f l w').1). etransitivity; [by apply viewed_same|].
  by apply each_advances.
Qed.
Lemma promote_advances {E} active s : from (at_ (IMSI s) s) advances (promote env active s : M H E unit).
Proof.
  unfold promote. destruct (bool_decide (SStatus s = "issued"%string)) eqn:Es; cbn [negb];
    [|apply from_keeps; viewed].
  apply bool_decide_eq_true in Es. destruct (decide _); [|apply from_keeps; viewed].
  apply then_advances; [|intros; viewed]. apply upsert_advances; moving.
Qed.
Lemma promote_only {E} active s : keeps (only (IMSI s)) (promote env active s : M H E unit).
Proof. unfold promote. viewed. apply (upsert_only {| s with SStatus := "active" |}). Qed.
Lemma hss_Remove_only {E} i imsi : keeps (only i) (hss_Remove imsi : M H E bool).
Proof. by apply keeps_hss_Remove. Qed.
Lemma expire_advances {E} now s : from (at_ (IMSI s) s) advances (expire env now s : M H E unit).
Proof.
  unfold expire, usable. destruct (bool_decide (SStatus s = "revoked"%string)) eqn:Es; cbn [negb orb];
    [apply from_keeps; viewed|]. apply bool_decide_eq_false in Es.
  destruct (bool_decide _); cbn [negb]; [apply from_keeps; viewed|].
  destruct (_ || _); [apply from_keeps; viewed|].
  apply then_advances; [apply upsert_advances; moving|].
  intros []; cbn [negb]; viewed. apply hss_Remove_advances.
Qed.
Lemma expire_only {E} now s : keeps (only (IMSI s)) (expire env now s : M H E unit).
Proof.
  unfold expire. viewed; [apply (upsert_only {| s with SStatus := "expired" |})|apply hss_Remove_only].
Qed.
Lemma enforce_advances imsi u : keeps advances (enforceQuota (H := H) env cfg imsi u).
Proof.
  apply keeps_from. unfold enforceQuota. destruct (_ =? _); [apply from_keeps; viewed|].
  cbv zeta. apply from_gets. intros [sim|]; [|apply from_keeps; viewed].
  destruct (_ || _) eqn:Es; cbn [negb]; [|apply from_keeps; viewed].
  apply orb_true_iff in Es. rewrite !bool_decide_eq_true in Es.
  destruct (_ <? _); [apply from_keeps; viewed|].
  apply then_advances.
  - intros w [_ Hw]. apply (upsert_advances imsi sim); [moving|done].
  - intros []; cbn [negb]; unfold fireAlertLocked, deliverWebhook; viewed.
Qed.
Ltac walking f g :=
  repeat (first [apply walk_advances; [intros; apply f|intros; apply g] | keep_step | view_effect];
          cbv beta zeta iota).
Lemma job_advances t : keeps advances (background (E := unit) env cfg t : M H unit unit).
Proof.
  destruct t; cbn [background].
  - unfold ExpireOnce. walking @expire_advances @expire_only.
  - unfold AccumulateUsage, fold_usage, imsi_of_hash. viewed. apply enforce_advances.
  - unfold_jobs. viewed.
  - unfold CollectOnce. walking @promote_advances @promote_only.
Qed.

(** Requests that make cards or write them from outside: the restore of an
    archive replaces the file that the next start reads. *)
Definition makes_cards (e : Event) : bool :=
  match e with
  | Call _ (IssueSIMs _) | Call _ (ImportSIMs _) => true
  | Call _ r => replaces r
  | _ => false
  end.
Lemma restart_advances a w : advances w (restart env a w).
Proof.
  intros [Hk Hd]. unfold restart, NewWithOptions, cards_ok, cards in *. cbn [store mem disk Store.load sims].
  rewrite Hd. split; [by split|]. intros i s Hs. exists s. split; [done|reflexivity].
Qed.
Lemma handle_advances p r : makes_cards (Call (mkCredentials "" false) r) = false ->
  keeps advances (handle p r).
Proof.
  intros Hr. destruct r; try discriminate Hr; cbn [Routes.handle];
    lazymatch goal with
    | |- keeps _ (handleRevokeSIM _ _ _) => apply revoke_advances
    | |- keeps _ (handleSuspendSIM _ _ _) => apply suspend_advances
    | |- keeps _ (handleResumeSIM _ _ _) => apply resume_advances
    | |- keeps _ (handleSetQuota _ _ _ _) => apply quota_advances
    | |- keeps _ (handleRestore _ _ _) => destruct body as [[[]|]|]; [done|unfold_handlers; viewed..]
    | |- _ => unfold_handlers; viewed
    end.
Qed.
Lemma run_advances l : Forall (fun e => makes_cards e = false) l -> forall w, advances w (run w l).
Proof.
  induction 1 as [|e l He Hl IH]; intros w; [reflexivity|]. etransitivity; [|apply IH].
  destruct e as [c r|t|a]; cbn [Routes.step]; [|apply job_advances|apply restart_advances].
  apply (keeps_serve _ _ _ _ _ _ _ advances). intros p. apply handle_advances. by destruct r.
Qed.

(** ** Revoked subscribers and the core *)
Definition out_ok (w : World H) : Prop := cards_ok w /\
  forall i s, cards w !! i = Some s -> SStatus s = "revoked"%string -> i ∉ subscribers (hss w).
Definition out (w w' : World H) : Prop := out_ok w -> out_ok w'.
#[local] Instance out_viewed : Viewed out.
Proof.
  assert (Hsame : forall w w', view w' = view w -> out w w').
  { intros w w' [= Ec Ed Eh]. unfold out, out_ok, cards_ok. by rewrite Ec, Ed, Eh. }
  split; [split; [split|]|done].
  - intros w. by apply Hsame.
  - intros w1 w2 w3 H12 H23 Hw. auto.
  - intros w n. by apply Hsame.
Qed.
(** Writing a card is harmless if it is not revoked, or is out of the core. *)
Lemma upsert_out {E} s w :
  (out_ok w -> SStatus s = "revoked"%string -> IMSI s ∉ subscribers (hss w)) ->
  out w ((stored env (fun ok => UpsertSIM ok s) : M H E bool) w).1.
Proof.
  intros Hs Hw. destruct (upsert_cards (E := E) s w (proj1 Hw)) as (Ec & Hok & Eh).
  split; [done|]. rewrite Ec, Eh. intros i x [[<- <-]|[_ Hx]]%lookup_insert_Some; [by apply Hs|].
  by apply (proj2 Hw).
Qed.
Lemma upsert_unrevoked {E} s : SStatus s <> "revoked"%string ->
  keeps out (stored env (fun ok => UpsertSIM ok s) : M H E bool).
Proof. intros Hs w. by apply upsert_out. Qed.
Lemma persist_unrevoked s : SStatus s <> "revoked"%string ->
  keeps out (persist (H := H) env (fun ok => UpsertSIM ok s)).
Proof. intros Hs. unfold persist. keep. by apply upsert_unrevoked. Qed.
Lemma hss_Remove_out {E} i : keeps out (hss_Remove i : M H E bool).
Proof.
  intros w [Hw Ho]. unfold hss_Remove, act.
  pose proof (remove_shrinks (hss w) i) as Hsub. destruct (hss_remove (hss w) i) as [h ok].
  split; [exact Hw|]. intros j s Hj Hs. specialize (Ho j s Hj Hs). cbn in *. set_solver.
Qed.
Ltac out_effect :=
  first [ view_effect | apply hss_Remove_out | by apply upsert_unrevoked
        | by apply persist_unrevoked ].
Ltac outs := repeat (first [keep_step | out_effect]; cbv beta zeta iota).
Lemma then_out {E A B} (P : World H -> Prop) (m : M H E A) (k : A -> M H E B) :
  from P out m -> (forall a, keeps out (k a)) -> from P out (m ≫= k).
Proof.
  intros Hm Hk. eapply (from_bind out P (fun _ _ => True)); [|intros a; by apply from_keeps].
  intros w Hw. split; [by apply Hm|]. by case_match.
Qed.
Lemma quota_out p imsi b : keeps out (handleSetQuota (H := H) env p imsi b).
Proof.
  apply keeps_from. unfold handleSetQuota. apply from_find; [exact _|intros sim].
  apply from_read; [exact _|]. intros q. apply then_out; [|intros []; outs].
  unfold persist. apply then_out; [|intros []; keep]. intros w [_ Hl]. apply upsert_out.
  intros [[Hk _] Ho] Hs. cbn in *. rewrite (Hk _ _ Hl). by eapply Ho.
Qed.
Lemma revoke_out p imsi : keeps out (handleRevokeSIM (H := H) env p imsi).
Proof.
  apply keeps_from. unfold handleRevokeSIM. apply from_find; [exact _|intros sim].
  apply (from_bind out _ (fun ok w => at_ imsi sim w /\ (ok = true -> imsi ∉ subscribers (hss w)))).
  - intros w [_ Hw]. split; [apply hss_Remove_out|]. unfold hss_Remove, act.
    pose proof (remove_ok (hss w) imsi) as Hr. by destruct (hss_remove (hss w) imsi).
  - intros ok. apply from_require; [exact _|]. intros ->. apply then_out; [|intros []; outs].
    unfold persist. apply then_out; [|intros []; keep]. intros w [Hl Hr]. apply upsert_out.
    intros [[Hk _] _] _. cbn. rewrite (Hk _ _ Hl). by apply Hr.
Qed.
Lemma issue_out profile sub : atomic_adds H -> keeps out (issue_one (H := H) env profile sub).
Proof.
  intros Hat w Hw. unfold issue_one, hss_Add, act, mbind, M_bind.
  pose proof (add_only (hss w) sub) as Hadd. pose proof (Hat (hss w) sub) as Hfail.
  destruct (hss_add (hss w) sub) as [h []]; cbn in Hadd, Hfail.
  - unfold require, now', now_, next, mbind, M_bind, mret, M_ret. cbn [ticks].
    rewrite run_stored by (by rewrite ?saves). cbn [fst]. destruct Hw as [[Hk Hd] Ho].
    split; [split; [by apply keyed_insert|done]|]. intros i s Hi Hs. cbn in Hi |- *.
    apply lookup_insert_Some in Hi as [[_ <-]|[Hne Hi]]; [done|].
    specialize (Ho i s Hi Hs). set_solver.
  - destruct Hw as [Hk Ho]. split; [exact Hk|]. intros i s Hi Hs. cbn in *.
    specialize (Hfail eq_refl). specialize (Ho i s Hi Hs). set_solver.
Qed.
Lemma job_out t : keeps out (background (E := unit) env cfg t : M H unit unit).
Proof.
  destruct t; cbn [background].
  - unfold ExpireOnce, expire. outs.
  - unfold AccumulateUsage, fold_usage, imsi_of_hash, enforceQuota, fireAlertLocked, deliverWebhook.
    outs.
  - unfold_jobs. outs.
  - unfold CollectOnce, promote. outs.
Qed.
(** Requests that can put a revoked subscriber back: an import, a restore, and
    an issue where a failed addition may admit its subscriber. *)
Definition readmits (atomic : bool) (e : Event) : bool :=
  match e with
  | Call _ (ImportSIMs _) => true
  | Call _ (IssueSIMs _) => negb atomic
  | Call _ r => replaces r
  | _ => false
  end.
Lemma handle_out atomic p r : (atomic = true -> atomic_adds H) ->
  readmits atomic (Call (mkCredentials "" false) r) = false -> keeps out (handle p r).
Proof.
  intros Hat Hr. destruct r; cbn [readmits] in Hr; try discriminate Hr; try apply negb_false_iff in Hr;
    cbn [Routes.handle];
    lazymatch goal with
    | |- keeps _ (handleRevokeSIM _ _ _) => apply revoke_out
    | |- keeps _ (handleSetQuota _ _ _ _) => apply quota_out
    | |- keeps _ (handleIssueSIMs _ _ _) => unfold handleIssueSIMs, readJSON, require, reply
    | |- keeps _ (handleRestore _ _ _) => destruct body as [[[]|]|]; [done|unfold_handlers..]
    | |- _ => unfold_handlers
    end; repeat (first [by apply issue_out, Hat | keep_step | out_effect]; cbv beta zeta iota).
Qed.
Lemma run_out atomic l : (atomic = true -> atomic_adds H) -> Forall (fun e => readmits atomic e = false) l ->
  forall w, out w (run w l).
Proof.
  intros Hat. induction 1 as [|e l He Hl IH]; intros w; [reflexivity|]. etransitivity; [|apply IH].
  destruct e as [c r|t|a]; cbn [Routes.step]; [|apply job_out|].
  - apply (keeps_serve _ _ _ _ _ _ _ out). intros p. apply (handle_out atomic); [done|]. by destruct r.
  - intros [[Hk Hd] Ho]. unfold restart, NewWithOptions, out_ok, cards_ok, cards in *.
    cbn [store mem disk Store.load sims hss]. rewrite Hd. done.
Qed.

(** C14: The life of a SIM.  Over any run of requests that neither issue nor
    import cards nor restore an archive, background jobs and restarts, if every
    save succeeds ([saves]): no card
    disappears or changes identity, and its status follows the machine.  A
    revoked card stays revoked, an expired one can only be revoked, only cards
    in service become active or suspended, and none goes back to issued. *)
Theorem sim_status_machine w l : cards_ok w -> Forall (fun e => makes_cards e = false) l ->
  cards_ok (run w l) /\
  forall i s, cards w !! i = Some s -> exists s', cards (run w l) !! i = Some s' /\
    same_card s s' /\ reaches (SStatus s) (SStatus s').
Proof. intros Hw Hl. by apply run_advances. Qed.

(** C5: A revoked subscriber is out of the core.  With any HSS driver that
    keeps its contract, over any run of requests that neither import cards nor
    restore an archive (nor issue any, unless an addition the driver reports
    as failed has not admitted its subscriber), background jobs and restarts,
    if every save succeeds ([saves]): no IMSI whose card is revoked is among
    the subscribers the core accepts, whatever calls of the driver fail on the
    way. *)
Theorem revoked_out_of_core atomic w l : (atomic = true -> atomic_adds H) -> out_ok w ->
  Forall (fun e => readmits atomic e = false) l ->
  forall i s, cards (run w l) !! i = Some s -> SStatus s = "revoked"%string ->
    i ∉ subscribers (hss (run w l)).
Proof. intros Hat Hw Hl. by apply (run_out atomic). Qed.
End Sims.

(** ** A server with one card in its core *)
Definition demo_card (i st : string) : SIM := mkSIM i "9999001" "lab" st "internet" "" 0 1 1000.
Definition demo_cards (l : list SIM) : Store :=
  let m : gmap string SIM := list_to_map ((fun s => (IMSI s, s)) <$> l) in
  let d := {| no_files with f_sims := Some m |} in mkStore (Store.load d) d.
Definition demo_server (l : list Event) : World (gset string * bool) :=
  run demo_env Default "" "node-1" "dev" None (fun _ => None)
    (demo_world ({["999991234567001"]}, true) (demo_cards [demo_card "999991234567001" "issued"])) l.
Definition me : Credentials := mkCredentials "" true.
Definition demo_life : list Event :=
  [Call me (SuspendSIM "999991234567001"); Job TickSweep; Call me (ResumeSIM "999991234567001");
   Restart "hub"; Call me (RevokeSIM "999991234567001"); Call me (ResumeSIM "999991234567001")].
Lemma demo_cards_ok : out_ok (demo_server []).
Proof.
  assert (E : cards (demo_server []) = {["999991234567001" := demo_card "999991234567001" "issued"]}).
  { vm_compute. reflexivity. }
  unfold out_ok, cards_ok. rewrite E. split; [split; [|vm_compute; reflexivity]|].
  - intros i s [<- <-]%lookup_singleton_Some. done.
  - intros i s [<- <-]%lookup_singleton_Some. done.
Qed.
Lemma sim_status_machine_witness :
  (forall k, save_ok demo_env k = true) /\ cards_ok (demo_server []) /\
  Forall (fun e => makes_cards e = false) demo_life /\
  cards_ok (demo_server demo_life) /\
  SStatus <$> cards (demo_server demo_life) !! "999991234567001" = Some "revoked"%string.
Proof.
  assert (Hs : forall k, save_ok demo_env k = true) by done.
  assert (Hw : cards_ok (demo_server [])) by exact (proj1 demo_cards_ok).
  assert (Hl : Forall (fun e => makes_cards e = false) demo_life) by (repeat constructor).
  split; [exact Hs|]. split; [exact Hw|]. split; [exact Hl|]. split.
  - exact (proj1 (sim_status_machine demo_env Default "" "node-1" "dev" None (fun _ => None) Hs
      (demo_server []) demo_life Hw Hl)).
  - vm_compute. reflexivity.
Defined.
Lemma set_atomic : atomic_adds (gset string * bool).
Proof. intros [h []] s; cbn; set_solver. Qed.
Lemma revoked_out_of_core_witness :
  (forall k, save_ok demo_env k = true) /\ out_ok (demo_server []) /\
  Forall (fun e => readmits true e = false) demo_life /\
  "999991234567001" ∉ subscribers (hss (demo_server demo_life)).
Proof.
  assert (Hs : forall k, save_ok demo_env k = true) by done.
  assert (Hw : out_ok (demo_server [])) by exact demo_cards_ok.
  assert (Hl : Forall (fun e => readmits true e = false) demo_life) by (repeat constructor).
  split; [exact Hs|]. split; [exact Hw|]. split; [exact Hl|].
  apply (revoked_out_of_core demo_env Default "" "node-1" "dev" None (fun _ => None) Hs true
    (demo_server []) demo_life (fun _ => set_atomic) Hw Hl _ (demo_card "999991234567001" "revoked"));
    vm_compute; reflexivity.
Defined.
(** A suspended subscriber stays in the core: neither the handler nor the
    quota touches it. *)
Example suspended_stays_in_core :
  subscribers (hss (demo_server [Call me (SuspendSIM "999991234567001")])) = {["999991234567001"%string]}.
Proof. vm_compute. reflexivity. Qed.
(** A driver of two statements of which the second fails: an issue whose batch
    has a revoked IMSI again puts it back into the core, and the card stays
    revoked. *)
Inductive Torn := mkTorn (s : gset string).
#[local] Instance torn_writer : Writer Torn.
Proof.
  refine {| hss_add := fun '(mkTorn h) s => (mkTorn ({[sIMSI s]} ∪ h), false);
            hss_remove := fun '(mkTorn h) i => (mkTorn (h ∖ {[i]}), true);
            subscribers := fun '(mkTorn h) => h |}; intros [h]; cbn; set_solver.
Defined.
Example failed_issue_readmits :
  let env := {| clock := clock demo_env; save_ok := save_ok demo_env; draw := draw demo_env; order := order demo_env;
                poll := poll demo_env; esim_env := esim_env demo_env; order_perm := order_perm demo_env;
                batch := fun _ _ n => Some (replicate (Z.to_nat n) 7) |} in
  let w := run env Default "" "node-1" "dev" None (fun _ => None)
    (demo_world (mkTorn {["999991234567001"%string]}) (demo_cards [demo_card "999991234567001" "issued"]))
    [Call me (RevokeSIM "999991234567001"); Call me (IssueSIMs (Some (mkSimIssue "lab" "" 1)))] in
  SStatus <$> cards w !! "999991234567001" = Some "revoked"%string /\
  bool_decide ("999991234567001"%string ∈ subscribers (hss w)) = true.
Proof. split; vm_compute; reflexivity. Qed.
(** An import can bring a revoked card back into service, or mark a card
    revoked that the core still accepts. *)
Example import_ignores_the_machine :
  let item st := mkItem "999991234567001" "" "" "" st 0 in
  let revive := [Call me (RevokeSIM "999991234567001"); Call me (ImportSIMs (Some (mkImport [item "active"%string])))] in
  let bury := [Call me (ImportSIMs (Some (mkImport [item "revoked"%string])))] in
  SStatus <$> cards (demo_server revive) !! "999991234567001" = Some "active"%string /\
  SStatus <$> cards (demo_server bury) !! "999991234567001" = Some "revoked"%string /\
  subscribers (hss (demo_server bury)) = {["999991234567001"%string]}.
Proof. split; [|split]; vm_compute; reflexivity. Qed.
