(* ===== verification/SimRaces.v ===== *)
(** * SimRaces: operations on SIMs that overlap

    The handlers of [core/fairwave-control/internal/api/routes.go] and the
    jobs of [server.go] that change a SIM's status, action by action: the
    store locks each of its calls and hands out pointers to its records, the
    core is told in between, and no lock spans a handler.  A record is a cell
    that every holder of its pointer reads and writes.  Alone, suspending,
    resuming and revoking are [Routes]'s handlers.  Whatever overlaps, a
    revoked subscriber is out of the core; its card's status is final for what
    arrives later, and not for what overlaps.  The audit trail, the usage
    records and the files are left out. *)
From S2P Require Import Prelude.
From S2P Require Import Profile.
From S2P Require Import EsimCrypto.
From S2P Require Import Simprov.
From S2P Require Import EsimRegistry.
From S2P Require Import Sha256.
From S2P Require Import Spectrum.
From S2P Require Import Config.
From S2P Require Import Api.
From S2P Require Import Store.
From S2P Require Import Control.
From S2P Require Import Routes.
From S2P Require Import ControlFacts.
From S2P Require Import ControlSims.
From S2P Require Import Interleave.

Section Cards.
Context {H : Type} `{!Writer H}.

(** ** The shared state *)
(** The records by pointer, the store's table of pointers, the core. *)
Record Shared := mkShared { cells : gmap nat SIM; table : gmap string nat; core : H }.
Definition cell (s : Shared) (p : nat) : option SIM := cells s !! p.
(** The store's table as the rest of the model has it. *)
Definition card (s : Shared) (imsi : string) : option SIM := table s !! imsi ≫= cell s.
Definition card_table (s : Shared) : gmap string SIM := omap (cell s) (table s).
Abbreviation Prog := (prog Shared Z).

(** ** Actions; an answer is its HTTP status, 0 for a job *)
Definition get_ (imsi : string) (k : nat -> Prog) : Prog :=
  look (fun s => table s !! imsi) (fun p => match p with Some p => k p | None => Ret 404 end).
(** A read of a field through the pointer; a pointer is never nil here. *)
Definition read_ {B : Type} (p : nat) (f : SIM -> B) (k : option B -> Prog) : Prog := look (fun s => (f <$> cell s p : option B)) k.
Definition write_ (p : nat) (f : SIM -> SIM) (k : Prog) : Prog :=
  Atom (fun s => ({| s with cells := alter f p (cells s) |}, tt)) (fun _ => k).
Definition set_status (st : string) (c : SIM) : SIM := {| c with SStatus := st |}.
(** [UpsertSIM] of the record at [p]: whether the save succeeded. *)
Definition upsert_ (ok : bool) (p : nat) (k : bool -> Prog) : Prog :=
  Atom (fun s => (match cell s p with Some c => {| s with table := <[IMSI c := p]> (table s) |} | None => s end, ok)) k.
Definition new (s : Shared) : nat := base.fresh (dom (cells s) : gset nat).
Definition alloc_ (c : SIM) (k : nat -> Prog) : Prog :=
  Atom (fun s => ({| s with cells := <[new s := c]> (cells s) |}, new s)) k.
Definition add_ (sub : Subscriber) (k : bool -> Prog) : Prog :=
  Atom (fun s => let '(h, ok) := hss_add (core s) sub in ({| s with core := h |}, ok)) k.
Definition remove_ (imsi : string) (k : bool -> Prog) : Prog :=
  Atom (fun s => let '(h, ok) := hss_remove (core s) imsi in ({| s with core := h |}, ok)) k.
Definition is_status (o : option string) (l : list string) : bool :=
  match o with Some st => bool_decide (st ∈ l) | None => false end.

(** ** Requests *)
(** [ok] is whether the save succeeds; a batch carries the records it makes;
    [ord] is the order a job ranges over the table in. *)
(** An item of an import, with the two readings of the clock it may take. *)
Definition Item : Type := SimImportItem * (time * time) * bool.
Inductive Req :=
  | Suspend (imsi : string) (ok : bool)
  | Resume (imsi : string) (ok : bool)
  | Revoke (imsi : string) (ok : bool)
  | Issue (batch : list (Subscriber * SIM * bool))
  | Import (pol : Policy) (items : list Item)
  | SetQuota (imsi : string) (quota : option Z) (ok : bool)
  | Enforce (imsi : string) (u : SimUsage) (ok : bool)
  | Promote (active : gset string) (ord : list nat -> list nat) (ok : nat -> bool)
  | Expire (now : time) (ord : list nat -> list nat) (ok : nat -> bool).

Definition suspend (imsi : string) (ok : bool) : Prog :=
  get_ imsi (fun p => read_ p SStatus (fun st =>
    if negb (is_status st ["active"; "issued"]%string) then Ret 409
    else write_ p (set_status "suspended") (upsert_ ok p (fun ok => Ret (if ok then 200 else 500))))).
Definition resume (imsi : string) (ok : bool) : Prog :=
  get_ imsi (fun p => read_ p SStatus (fun st =>
    if negb (is_status st ["suspended"]%string) then Ret 409
    else write_ p (set_status "active") (upsert_ ok p (fun ok => Ret (if ok then 200 else 500))))).
Definition revoke (imsi : string) (ok : bool) : Prog :=
  get_ imsi (fun p => remove_ imsi (fun removed =>
    if negb removed then Ret 502
    else write_ p (set_status "revoked") (upsert_ ok p (fun ok => Ret (if ok then 200 else 500))))).
Fixpoint issue (batch : list (Subscriber * SIM * bool)) : Prog :=
  match batch with
  | [] => Ret 201
  | (sub, c, ok) :: batch =>
      add_ sub (fun added =>
        if negb added then Ret 502
        else alloc_ c (fun p => upsert_ ok p (fun ok =>
          if ok then issue batch else remove_ (sIMSI sub) (fun _ => Ret 500))))
  end.
Fixpoint import (pol : Policy) (items : list Item) : Prog :=
  match items with
  | [] => Ret 200
  | (it, (t1, t2), ok) :: items =>
      if negb (slen (iIMSI it) =? 15) then import pol items else
      let or_ s d := if decide (s = ""%string) then d else s in
      let status := or_ (iStatus it) "issued"%string in
      let profile := or_ (iProfile it) "lab"%string in
      let apn := or_ (iAPN it) "internet"%string in
      let expires := if IsZero (iExpiresAt it) then t1 + year else iExpiresAt it in
      look (fun s => table s !! iIMSI it) (fun existing => match existing with
        | Some p =>
            let rest := upsert_ ok p (fun ok => if ok then import pol items else Ret 500) in
            write_ p (set_status status)
              (write_ p (fun c => {| c with SAPN := apn |})
                (write_ p (fun c => {| c with SExpiresAt := expires |})
                  (if decide (iMSISDN it = ""%string) then rest
                   else write_ p (fun c => {| c with MSISDN := iMSISDN it |}) rest)))
        | None =>
            alloc_ (mkSIM (iIMSI it) (iMSISDN it) profile status apn "" 0 t2 expires) (fun p =>
              upsert_ ok p (fun ok => if negb ok then Ret 500 else
                match LoadTestVector (iIMSI it) with
                | Err _ => import pol items
                | Ok sub =>
                    add_ {| sub with Profile.QoSDLMbps := QoSDLMbps pol; Profile.QoSULMbps := QoSULMbps pol |}
                      (fun _ => import pol items)
                end))
        end)
  end.
Definition set_quota (imsi : string) (quota : option Z) (ok : bool) : Prog :=
  get_ imsi (fun p => match quota with
    | None => Ret 400
    | Some quota =>
        write_ p (fun c => {| c with QuotaBytes := quota |}) (upsert_ ok p (fun ok => Ret (if ok then 200 else 500)))
    end).
Definition enforce (imsi : string) (u : SimUsage) (ok : bool) : Prog :=
  if uQuota u =? 0 then Ret 0
  else look (fun s => table s !! imsi) (fun p => match p with
    | None => Ret 0
    | Some p => read_ p SStatus (fun st =>
        if negb (is_status st ["active"; "issued"]%string) then Ret 0
        else if u64 (uUp u + uDn u) <? uQuota u then Ret 0
        else write_ p (set_status "suspended") (upsert_ ok p (fun _ => Ret 0)))
    end).
Definition pointers (s : Shared) : list nat := (map_to_list (table s)).*2.
Fixpoint promote_all (active : gset string) (ok : nat -> bool) (l : list nat) : Prog :=
  match l with
  | [] => Ret 0
  | p :: l => read_ p (fun c => (SStatus c, IMSI c)) (fun o =>
      match o with
      | None => promote_all active ok l
      | Some (st, imsi) =>
          if bool_decide (st <> "issued"%string) then promote_all active ok l
          else if bool_decide (HashIMSI imsi ∉ active) then promote_all active ok l
          else write_ p (set_status "active") (upsert_ (ok p) p (fun _ => promote_all active ok l))
      end)
  end.
Fixpoint expire_all (now : time) (ok : nat -> bool) (l : list nat) : Prog :=
  match l with
  | [] => Ret 0
  | p :: l => read_ p SStatus (fun st =>
      if is_status st ["revoked"; "expired"]%string then expire_all now ok l
      else read_ p (fun c => (SExpiresAt c, IMSI c)) (fun o => match o with
        | None => expire_all now ok l
        | Some (at_, imsi) =>
            if IsZero at_ || (now <? at_) then expire_all now ok l
            else write_ p (set_status "expired") (upsert_ (ok p) p (fun saved =>
              if saved : bool then remove_ imsi (fun _ => expire_all now ok l) else expire_all now ok l))
        end))
  end.
Definition handler (q : Req) : Prog :=
  match q with
  | Suspend i ok => suspend i ok
  | Resume i ok => resume i ok
  | Revoke i ok => revoke i ok
  | Issue b => issue b
  | Import pol items => if decide (items = []) then Ret 400 else import pol items
  | SetQuota i quota ok => set_quota i quota ok
  | Enforce i u ok => enforce i u ok
  | Promote a ord ok => look (fun s => ord (pointers s)) (promote_all a ok)
  | Expire now ord ok => look (fun s => ord (pointers s)) (expire_all now ok)
  end.
(** A batch and an import can admit a subscriber, and make records. *)
Definition names (imsi : string) (x : Subscriber * SIM * bool) : bool :=
  bool_decide (sIMSI x.1.1 = imsi) || bool_decide (IMSI x.1.2 = imsi).
Definition names_item (imsi : string) (x : Item) : bool :=
  bool_decide (iIMSI x.1.1 = imsi) ||
  match LoadTestVector (iIMSI x.1.1) with Ok sub => bool_decide (sIMSI sub = imsi) | Err _ => false end.
Definition admits (q : Req) (imsi : string) : bool :=
  match q with
  | Issue b => existsb (names imsi) b
  | Import _ items => existsb (names_item imsi) items
  | _ => false
  end.
(** The cards a request may change. *)
Definition concerns (q : Req) (imsi : string) : bool :=
  match q with
  | Suspend i _ | Resume i _ | Revoke i _ | Enforce i _ _ | SetQuota i _ _ => bool_decide (i = imsi)
  | Issue _ | Import _ _ => admits q imsi
  | Promote _ _ _ | Expire _ _ _ => true
  end.

Lemma new_free s : cells s !! new s = None.
Proof. apply (not_elem_of_dom (D := gset nat)). apply (is_fresh (dom (cells s) : gset nat)). Qed.
(** ** What any interleaving keeps *)
Definition coherent (s : Shared) : Prop :=
  forall i p, table s !! i = Some p -> exists c, cell s p = Some c /\ IMSI c = i.
Definition under (s : Shared) (p : nat) (i : string) : Prop := exists c, cell s p = Some c /\ IMSI c = i.
Context (v : string).
Notation ghost := (list Req * Shared)%type.
Definition sound (g : ghost) : Prop := coherent g.2.
Definition later (g g' : ghost) : Prop :=
  (forall p i, under g.2 p i -> under g'.2 p i) /\
  (v ∉ subscribers (core g.2) -> v ∉ subscribers (core g'.2)).
(** Nobody admits the subscriber; a job ranges over each record once. *)
Definition promised (q : Req) (_ : Shared) : Prop :=
  admits q v = false /\
  match q with Promote _ ord _ | Expire _ ord _ => forall l, ord l ≡ₚ l | _ => True end.
Definition others_kept (q : Req) (s s' : Shared) : Prop := concerns q v = false ->
  forall p c, table s !! v = Some p -> cell s p = Some c -> table s' !! v = Some p /\ cell s' p = Some c.
#[export] Instance later_preorder : PreOrder later.
Proof. split; [by intros g; split|]. intros g1 g2 g3 [Ha Hb] [Hc Hd]. split; auto. Qed.

Abbreviation safely := (safe sound later promised others_kept).
Definition renames_none (f : SIM -> SIM) : Prop := forall c, IMSI (f c) = IMSI c.
Lemma under_alter s p f q i : renames_none f -> under s q i -> under {| s with cells := alter f p (cells s) |} q i.
Proof.
  intros Hf (c & Hc & Hi). unfold under, cell in *. cbn. destruct (decide (p = q)) as [->|Hne].
  - exists (f c). by rewrite lookup_alter_eq, Hc, Hf.
  - exists c. by rewrite lookup_alter_ne.
Qed.
Lemma under_new s c p i : under s p i -> under {| s with cells := <[new s := c]> (cells s) |} p i.
Proof.
  intros (c' & Hc' & Hi). exists c'. split; [|done]. unfold cell in *. cbn. rewrite lookup_insert_ne; [done|].
  intros <-. by rewrite new_free in Hc'.
Qed.
(** A step that keeps coherence, the records under their IMSIs and the core's
    subscribers within what they were. *)
Lemma safe_atom {B : Type} J Post q (f : Shared -> Shared * B) (k : B -> Prog) g :
  (forall s, coherent s -> promised q s -> coherent (f s).1 /\ (forall p i, under s p i -> under (f s).1 p i) /\
     (v ∉ subscribers (core s) -> v ∉ subscribers (core (f s).1))) ->
  (forall g', later g g' -> sound g' -> J g' -> promised q g'.2 -> others_kept q g'.2 (f g'.2).1 /\ J (g'.1, (f g'.2).1)) ->
  (forall g', later g g' -> sound g' -> J g' -> promised q g'.2 -> later g (g'.1, (f g'.2).1) ->
     safely J Post q (k (f g'.2).2) (g'.1, (f g'.2).1)) ->
  safely J Post q (Atom f k) g.
Proof.
  intros Hf HG Hk g' Hl Hg HJ Hok. destruct (Hf g'.2 Hg Hok) as (Hc & Hu & Hs), (HG g' Hl Hg HJ Hok).
  assert (Hl' : later g' (g'.1, (f g'.2).1)) by by split.
  split_and!; [done..|]. apply Hk; [done..|]. by transitivity g'.
Qed.
Lemma sims_safe_look {B : Type} J Post q (f : Shared -> B) (k : B -> Prog) g :
  (forall g', later g g' -> sound g' -> J g' -> promised q g'.2 -> safely J Post q (k (f g'.2)) g') ->
  safely J Post q (look f k) g.
Proof.
  intros Hk. apply safe_atom; [done| |].
  - intros [past s] _ _ HJ _. by split.
  - intros [past s] Hl Hg HJ Hok _. by apply (Hk (past, s)).
Qed.
Lemma sims_safe_ret J (Post : Z -> ghost -> Prop) q a g : (forall g', later g g' -> J g' -> Post a g') -> safely J Post q (Ret a) g.
Proof. intros HP g' Hl _ HJ. by apply HP. Qed.
(** What a call that does not concern the card knows of the pointer it holds. *)
Definition apart (q : Req) (s : Shared) (p : nat) : Prop := concerns q v = false -> exists i, i <> v /\ under s p i.
Lemma apart_later q g g' p : later g g' -> apart q g.2 p -> apart q g'.2 p.
Proof. intros [Hu _] Ha Hc. destruct (Ha Hc) as (i & Hi & Hp). eauto. Qed.
Definition wrote (f : SIM -> SIM) (p : nat) (s : Shared) : Shared := {| s with cells := alter f p (cells s) |}.
Definition upserted (p : nat) (s : Shared) : Shared :=
  match cell s p with Some c => {| s with table := <[IMSI c := p]> (table s) |} | None => s end.
Lemma safe_write J Post q p f k g : renames_none f -> apart q g.2 p ->
  (forall g', later g g' -> sound g' -> J g' -> J (g'.1, wrote f p g'.2)) ->
  (forall g', later g g' -> safely J Post q k g') -> safely J Post q (write_ p f k) g.
Proof.
  intros Hf Ha HJ Hk. apply safe_atom.
  - intros s Hc _. cbn [fst]. split_and!; [|intros; by apply under_alter|done].
    intros i q' Hi. apply under_alter; [done|]. destruct (Hc i q' Hi) as (c & ? & ?). by exists c.
  - intros g' Hl Hg Hj _. split; [|by apply HJ]. intros Hco p' c Hp Hc. cbn. split; [done|].
    destruct (apart_later _ _ _ _ Hl Ha Hco) as (i & Hi & c' & Hc' & Hic).
    destruct (Hg v p' Hp) as (c2 & Hc2 & Hv). unfold cell in *. cbn. rewrite lookup_alter_ne; [done|]. intros ->. by simplify_eq.
  - intros g' _ _ _ _ Hl. by apply Hk.
Qed.
Lemma safe_upsert J Post q ok p k g : apart q g.2 p ->
  (forall g', later g g' -> sound g' -> J g' -> J (g'.1, upserted p g'.2)) ->
  (forall ok g', later g g' -> safely J Post q (k ok) g') -> safely J Post q (upsert_ ok p k) g.
Proof.
  intros Ha HJ Hk. apply safe_atom.
  - intros s Hc _. cbn [fst]. destruct (cell s p) as [c|] eqn:E; [|done]. split_and!; [|done|done].
    intros i q'. cbn. rewrite lookup_insert_Some. intros [[<- <-]|[_ Hi]]; [by exists c|by apply Hc].
  - intros g' Hl Hg Hj _. split; [|by apply HJ]. intros Hco p' c Hp Hc. cbn [fst].
    destruct (apart_later _ _ _ _ Hl Ha Hco) as (i & Hi & c' & Hc' & Hic). rewrite Hc'. cbn.
    rewrite lookup_insert_ne by congruence. done.
  - intros g' _ _ _ _ Hl. by apply Hk.
Qed.
Lemma safe_remove J Post q i k g : (forall g', J g' -> J (g'.1, {| (g'.2) with core := (hss_remove (core g'.2) i).1 |})) ->
  (forall g' ok, later g g' -> (ok = true -> i ∉ subscribers (core g'.2)) -> J g' -> safely J Post q (k ok) g') ->
  safely J Post q (remove_ i k) g.
Proof.
  intros HJr Hk. apply safe_atom.
  - intros s Hc _. pose proof (remove_shrinks (core s) i) as Hsub. destruct (hss_remove (core s) i) as [h ok].
    cbn. split_and!; [done|done|]. cbn in Hsub. set_solver.
  - intros g' _ _ HJ _. specialize (HJr g' HJ). destruct (hss_remove (core g'.2) i) as [h ok]. cbn in *. split; [|done].
    intros Hco p c Hp Hc. done.
  - intros g' _ _ HJ _ Hl. specialize (HJr g' HJ). pose proof (remove_ok (core g'.2) i) as Hr.
    destruct (hss_remove (core g'.2) i) as [h ok]. cbn in *. by apply Hk.
Qed.

Abbreviation any := (fun _ : ghost => True).
(** A revocation that was answered. *)
Definition out_of_core (q : Req) (r : Z) (g : ghost) : Prop :=
  match q with Revoke i _ => i = v -> r = 200 -> v ∉ subscribers (core g.2) | _ => True end.
Lemma sims_safe_get Post q i k g : (forall g', Post 404 g') ->
  (forall p g', later g g' -> under g'.2 p i -> safely any Post q (k p) g') -> safely any Post q (get_ i k) g.
Proof.
  intros HP Hk. apply sims_safe_look. intros g' Hl Hg _ _. destruct (table g'.2 !! i) as [p|] eqn:E; [|by apply sims_safe_ret].
  apply Hk; [done|]. by apply Hg.
Qed.
Lemma apart_under q g p i : (concerns q v = false -> i <> v) -> under g p i -> apart q g p.
Proof. intros Hi Hu Hc. exists i. split; [by apply Hi|done]. Qed.
Lemma write_any Post q p f k g : renames_none f -> apart q g.2 p ->
  (forall g', apart q g'.2 p -> safely any Post q k g') -> safely any Post q (write_ p f k) g.
Proof. intros Hf Ha Hk. apply safe_write; [done..|]. intros g' Hl. apply Hk. by eapply apart_later. Qed.
Lemma concerns_ne i : bool_decide (i = v) = false -> i <> v.
Proof. by intros ?%bool_decide_eq_false. Qed.
Lemma save_any (Post : Z -> ghost -> Prop) q ok p g : (forall r g', Post r g') -> apart q g.2 p ->
  safely any Post q (upsert_ ok p (fun ok => Ret (if ok then 200 else 500))) g.
Proof. intros HP Ha. apply safe_upsert; [done..|]. intros ok' g' _. by apply sims_safe_ret. Qed.
Lemma status_change Post q i st allowed ok g : (forall r g', Post r g') -> (concerns q v = false -> i <> v) ->
  safely any Post q (get_ i (fun p => read_ p SStatus (fun o =>
    if negb (allowed o) then Ret 409 else write_ p (set_status st) (upsert_ ok p (fun ok => Ret (if ok then 200 else 500)))))) g.
Proof.
  intros HP Hi. apply sims_safe_get; [done|]. intros p g1 _ Hu. apply sims_safe_look. intros g2 Hl2 _ _ _.
  destruct (negb _); [by apply sims_safe_ret|]. pose proof (apart_under q g1.2 p i Hi Hu) as Ha.
  apply write_any; [done|by eapply apart_later|]. intros g3 Ha3. by apply save_any.
Qed.
(** A request that breaks the promise never moves. *)
Lemma safe_never J (Post : Z -> ghost -> Prop) q (p : Prog) g : admits q v = true -> (forall r g', Post r g') -> safely J Post q p g.
Proof.
  intros Ha HP. revert g. induction p as [a|B f k IH]; intros g; cbn; [by intros|].
  intros g' _ _ _ [Hn _]. congruence.
Qed.
Lemma none_of {A} (f : A -> bool) l : existsb f l = false -> Forall (fun x => f x = false) l.
Proof. induction l as [|x l IH]; [by intros|]. cbn. intros [? ?]%orb_false_iff. constructor; auto. Qed.
Lemma safe_add Post q sub k g : sIMSI sub <> v -> (forall ok g', safely any Post q (k ok) g') ->
  safely any Post q (add_ sub k) g.
Proof.
  intros Hne Hk. apply safe_atom.
  - intros s Hc _. pose proof (add_only (core s) sub) as Hsub. destruct (hss_add (core s) sub) as [h added].
    cbn in *. split_and!; [done|done|]. set_solver.
  - intros g' _ _ _ _. destruct (hss_add (core g'.2) sub) as [h added]. split; [|done]. by intros Hco p c' Hp Hc.
  - intros g1 _ _ _ _ _. apply Hk.
Qed.
Lemma safe_alloc Post q c k g : (forall p g', under g'.2 p (IMSI c) -> safely any Post q (k p) g') ->
  safely any Post q (alloc_ c k) g.
Proof.
  intros Hk. apply safe_atom.
  - intros s Hc _. cbn. pose proof (fun p i => under_new s c p i) as Hu. split_and!; [|done|done].
    intros i p Hp. apply Hu. by apply Hc.
  - intros g' _ Hg _ _. split; [|done]. intros Hco p c' Hp Hc. cbn. split; [done|]. unfold cell in *. cbn.
    rewrite lookup_insert_ne; [done|]. intros <-. by rewrite new_free in Hc.
  - intros g2 _ _ _ _ _. cbn [snd fst]. apply Hk. exists c. unfold cell. cbn. by rewrite lookup_insert_eq.
Qed.
Lemma apart_ne q g p i : i <> v -> under g p i -> apart q g p.
Proof. intros Hi. by apply apart_under. Qed.
Lemma issue_safe Post q batch g : Forall (fun x => names v x = false) batch -> (forall r g', Post r g') ->
  safely any Post q (issue batch) g.
Proof.
  intros Hb HP. revert g. induction Hb as [|[[sub c] ok] batch Hn _ IH]; intros g; [by apply sims_safe_ret|].
  unfold names in Hn. cbn in Hn. apply orb_false_iff in Hn as [Hs%bool_decide_eq_false Hc%bool_decide_eq_false].
  cbn [issue]. apply safe_add; [done|]. intros [] g1; [|by apply sims_safe_ret]. cbn [negb].
  apply safe_alloc. intros p g2 Hu. apply safe_upsert; [by eapply apart_ne|done|].
  intros [] g3 _; [apply IH|]. apply safe_remove; [done|]. intros. by apply sims_safe_ret.
Qed.
Lemma import_safe Post q pol items g : Forall (fun x => names_item v x = false) items -> (forall r g', Post r g') ->
  safely any Post q (import pol items) g.
Proof.
  intros Hb HP. revert g. induction Hb as [|[[it [t1 t2]] ok] items Hn _ IH]; intros g; [by apply sims_safe_ret|].
  unfold names_item in Hn. cbn [fst] in Hn. apply orb_false_iff in Hn as [Hne%bool_decide_eq_false Hs].
  cbn [import]. destruct (negb _); [apply IH|]. apply sims_safe_look. intros g1 _ Hg _ _.
  destruct (table g1.2 !! iIMSI it) as [p|] eqn:Ep.
  - assert (Ha : apart q g1.2 p) by (eapply apart_ne; [exact Hne|]; by apply Hg).
    assert (Hrest : forall g', apart q g'.2 p -> safely any Post q (upsert_ ok p (fun ok => if ok then import pol items else Ret 500)) g').
    { intros g' Ha'. apply safe_upsert; [done..|]. intros [] g2 _; [apply IH|by apply sims_safe_ret]. }
    do 3 (apply write_any; [done..|]; intros ? ?). destruct (decide _); [by apply Hrest|]. by apply write_any.
  - apply safe_alloc. intros p g2 Hu. apply safe_upsert; [by eapply apart_ne|done|]. intros [] g3 _; [cbn [negb]|by apply sims_safe_ret].
    destruct (LoadTestVector (iIMSI it)) as [sub|e]; [|apply IH]. apply safe_add; [by apply bool_decide_eq_false in Hs|].
    intros _ g4. apply IH.
Qed.
Lemma promote_safe q active ok l g : concerns q v = true -> (forall r g', out_of_core q r g') ->
  safely any (out_of_core q) q (promote_all active ok l) g.
Proof.
  intros Hco HP. revert g. induction l as [|p l IH]; intros g; [by apply sims_safe_ret|]. cbn [promote_all].
  apply sims_safe_look. intros g1 _ _ _ _. destruct (_ <$> cell g1.2 p) as [[st imsi]|]; [|apply IH].
  do 2 (case_match; [apply IH|]). apply safe_write; [done|by intros ?; congruence|done|]. intros g2 _.
  apply safe_upsert; [by intros ?; congruence|done|]. intros _ g3 _. apply IH.
Qed.
Lemma expire_safe q now ok l g : concerns q v = true -> (forall r g', out_of_core q r g') ->
  safely any (out_of_core q) q (expire_all now ok l) g.
Proof.
  intros Hco HP. revert g. induction l as [|p l IH]; intros g; [by apply sims_safe_ret|]. cbn [expire_all].
  apply sims_safe_look. intros g1 _ _ _ _. case_match; [apply IH|]. apply sims_safe_look. intros g2 _ _ _ _.
  destruct (_ <$> cell g2.2 p) as [[at_ imsi]|]; [|apply IH]. case_match; [apply IH|].
  apply safe_write; [done|by intros ?; congruence|done|]. intros g3 _.
  apply safe_upsert; [by intros ?; congruence|done|]. intros [] g4 _; [|apply IH].
  apply safe_remove; [done|]. intros. apply IH.
Qed.
Lemma sim_handler_safe q g : safely any (out_of_core q) q (handler q) g.
Proof.
  destruct q as [i ok|i ok|i ok|b|pol items|i quota ok|i u ok|a ord ok|now ord ok]; cbn [handler].
  - by apply status_change, concerns_ne.
  - by apply status_change, concerns_ne.
  - apply sims_safe_get; [intros g' _; lia|]. intros p g1 _ Hu. apply safe_remove; [done|]. intros g2 removed Hl2 Hr _.
    destruct removed; cbn [negb]; [|apply sims_safe_ret; intros g' _ _ _; lia]. specialize (Hr eq_refl).
    pose proof (apart_under (Revoke i ok) g1.2 p i (concerns_ne i) Hu) as Ha.
    apply safe_write; [done|by eapply apart_later|done|]. intros g3 Hl3.
    apply safe_upsert; [eapply apart_later, apart_later, Ha; done|done|]. intros ok' g4 Hl4.
    apply sims_safe_ret. intros g5 Hl5 _ -> _. by apply Hl5, Hl4, Hl3.
  - destruct (admits (Issue b) v) eqn:E; [by apply safe_never|]. apply issue_safe; [by apply none_of|done].
  - destruct (admits (Import pol items) v) eqn:E; [by apply safe_never|]. destruct (decide (items = [])); [by apply sims_safe_ret|].
    apply import_safe; [by apply none_of|done].
  - apply sims_safe_get; [done|]. intros p g1 _ Hu. destruct quota as [quota|]; [|by apply sims_safe_ret].
    apply write_any; [done|by eapply apart_under, Hu; apply concerns_ne|]. intros g2 Ha. by apply save_any.
  - unfold enforce. destruct (uQuota u =? 0); [by apply sims_safe_ret|]. apply sims_safe_look. intros g1 Hl Hg _ _.
    destruct (table g1.2 !! i) as [p|] eqn:Ep; [|by apply sims_safe_ret]. apply sims_safe_look. intros g2 Hl2 _ _ _.
    do 2 (case_match; [by apply sims_safe_ret|]).
    pose proof (apart_under (Enforce i u ok) g1.2 p i (concerns_ne i) (Hg i p Ep)) as Ha.
    apply write_any; [done|by eapply apart_later|]. intros g3 Ha3.
    apply safe_upsert; [done..|]. intros ok' g4 _. by apply sims_safe_ret.
  - apply sims_safe_look. intros g1 _ _ _ _. by apply promote_safe.
  - apply sims_safe_look. intros g1 _ _ _ _. by apply expire_safe.
Qed.

(** ** A revoked card, for the requests that arrive later *)
Section Revoked.
Context (p0 : nat).
Definition held (g : ghost) : Prop :=
  table g.2 !! v = Some p0 /\ SStatus <$> cell g.2 p0 = Some "revoked"%string.
Definition refused (q : Req) (r : Z) (_ : ghost) : Prop :=
  match q with Suspend i _ | Resume i _ => i = v -> r = 409 | _ => True end.
(** A pointer a job holds: the card's, or one of another card. *)
Definition listed (s : Shared) (p : nat) : Prop := p = p0 \/ exists i, i <> v /\ under s p i.
Lemma listed_later g g' p : later g g' -> listed g.2 p -> listed g'.2 p.
Proof. intros [Hu _] [?|(i & Hi & Hp)]; [by left|right; eauto]. Qed.
Lemma held_wrote past s f p : held (past, s) -> coherent s -> p <> p0 -> held (past, wrote f p s).
Proof. intros [Ht Hc] _ Hne. split; [done|]. unfold cell in *. cbn. by rewrite lookup_alter_ne. Qed.
Lemma held_upserted past s p : held (past, s) -> coherent s -> listed s p -> held (past, upserted p s).
Proof.
  intros [Ht Hc] Hco Hl. unfold upserted. cbn in *. destruct (cell s p) as [c|] eqn:E; [|done]. split; [|done]. cbn.
  destruct Hl as [->|(i & Hi & c' & Hc' & Hic)].
  - destruct (Hco v p0 Ht) as (c' & Hc2 & Hv). simplify_eq. by rewrite lookup_insert_eq.
  - simplify_eq. by rewrite lookup_insert_ne.
Qed.
(** A write through the card's own pointer that leaves it revoked. *)
Lemma held_own past s f : held (past, s) -> (forall c, SStatus c = "revoked"%string -> SStatus (f c) = "revoked"%string) ->
  held (past, wrote f p0 s).
Proof.
  intros [Ht Hc] Hf. split; [done|]. unfold cell in *. cbn in *. rewrite lookup_alter_eq.
  destruct (cells s !! p0) as [c|]; [|done]. cbn in *. f_equal. apply Hf. congruence.
Qed.
(** The read of a status through a listed pointer: if a job goes on to write,
    it is another card's. *)
Lemma listed_other g p c : held g -> listed g.2 p -> cell g.2 p = Some c -> SStatus c <> "revoked"%string -> p <> p0.
Proof. intros [_ Hc] _ Hp Hs ->. rewrite Hp in Hc. cbn in Hc. congruence. Qed.
(** A write to the revoked card that leaves it so, saved. *)
Lemma own_write q f ok (r : bool -> Z) g : concerns q v = true -> renames_none f ->
  (forall c, SStatus c = "revoked"%string -> SStatus (f c) = "revoked"%string) -> (forall x g', refused q x g') ->
  safely held (refused q) q (write_ p0 f (upsert_ ok p0 (fun ok => Ret (r ok)))) g.
Proof.
  intros Hco Hn Hf HP. apply safe_write; [done|by intros ?; congruence| |].
  - intros [past s] _ _ Hj. by apply held_own.
  - intros g3 _. apply safe_upsert; [by intros ?; congruence| |].
    + intros [past s] _ Hg Hj. apply held_upserted; [done|done|by left].
    + intros ok' g4 _. by apply sims_safe_ret.
Qed.
Lemma job_write q p f ok k g : renames_none f -> concerns q v = true -> p <> p0 -> listed g.2 p ->
  (forall ok g', later g g' -> safely held (refused q) q (k ok) g') ->
  safely held (refused q) q (write_ p f (upsert_ ok p k)) g.
Proof.
  intros Hf Hco Hne Hp Hk. apply safe_write; [done|by intros ?; congruence| |].
  - intros [past s] _ Hg Hj. by apply held_wrote.
  - intros g1 Hl1. apply safe_upsert; [by intros ?; congruence| |].
    + intros [past s] Hl2 Hg Hj. apply held_upserted; [done|done|].
      apply (listed_later g1 (past, s)); [done|]. by apply (listed_later g).
    + intros ok' g2 Hl2. apply Hk. by transitivity g1.
Qed.
Lemma promote_held q active ok l g : concerns q v = true -> (forall r g', refused q r g') -> Forall (listed g.2) l ->
  safely held (refused q) q (promote_all active ok l) g.
Proof.
  intros Hco HP. revert g. induction l as [|p l IH]; intros g Hl; [by apply sims_safe_ret|]. cbn [promote_all].
  apply Forall_cons in Hl as [Hp Hl].
  assert (Hk : forall g', later g g' -> safely held (refused q) q (promote_all active ok l) g').
  { intros g' Hlg. apply IH. eapply Forall_impl; [exact Hl|]. intros x. by apply listed_later. }
  apply sims_safe_look. intros g1 Hl1 Hg1 Hj1 _. destruct (cell g1.2 p) as [c|] eqn:Ec; cbn [fmap option_fmap option_map]; [|by apply Hk].
  destruct (bool_decide (SStatus c <> "issued"%string)) eqn:Es; [by apply Hk|]. apply bool_decide_eq_false, dec_stable in Es.
  destruct (bool_decide (HashIMSI (IMSI c) ∉ active)); [by apply Hk|].
  apply job_write; [done|done|eapply listed_other; [done|by eapply listed_later|done|by rewrite Es]|by eapply listed_later|].
  intros _ g2 Hl2. apply Hk. by transitivity g1.
Qed.
Lemma expire_held q now ok l g : concerns q v = true -> (forall r g', refused q r g') -> Forall (listed g.2) l ->
  safely held (refused q) q (expire_all now ok l) g.
Proof.
  intros Hco HP. revert g. induction l as [|p l IH]; intros g Hl; [by apply sims_safe_ret|]. cbn [expire_all].
  apply Forall_cons in Hl as [Hp Hl].
  assert (Hk : forall g', later g g' -> safely held (refused q) q (expire_all now ok l) g').
  { intros g' Hlg. apply IH. eapply Forall_impl; [exact Hl|]. intros x. by apply listed_later. }
  apply sims_safe_look. intros g1 Hl1 Hg1 Hj1 _. destruct (is_status _ _) eqn:Es; [by apply Hk|].
  assert (Hne : p <> p0). { intros ->. rewrite (proj2 Hj1) in Es. done. }
  apply sims_safe_look. intros g2 Hl2 _ _ _. assert (Hl02 : later g g2) by by transitivity g1.
  destruct (_ <$> cell g2.2 p) as [[at_ imsi]|]; [|by apply Hk]. destruct (_ || _); [by apply Hk|].
  apply job_write; [done|done|done|by eapply listed_later|]. intros [] g3 Hl3.
  - apply safe_remove; [by intros [past s] ?|]. intros g4 _ Hl4 _ _. apply Hk. transitivity g3; [|done]. by transitivity g2.
  - apply Hk. by transitivity g2.
Qed.
Lemma pointers_listed past s ord : held (past, s) -> coherent s -> (forall l, ord l ≡ₚ l) -> Forall (listed s) (ord (pointers s)).
Proof.
  intros [Ht _] Hco Hord. rewrite Hord. apply Forall_forall. intros p ([i p'] & -> & Hin)%list_elem_of_fmap. cbn.
  apply elem_of_map_to_list in Hin. destruct (decide (i = v)) as [->|Hne]; [left; cbn in *; congruence|].
  right. exists i. split; [done|]. by apply Hco.
Qed.
Lemma handler_held q g : concerns q v = true -> safely held (refused q) q (handler q) g.
Proof.
  intros Hco.
  destruct q as [i ok|i ok|i ok|b|pol items|i quota ok|i u ok|a ord ok|now ord ok]; cbn [handler concerns] in *; try (apply bool_decide_eq_true in Hco as ->).
  - apply sims_safe_look. intros g1 _ _ [Ht _] _. rewrite Ht. apply sims_safe_look. intros g2 _ _ Hj _.
    rewrite (proj2 Hj). by apply sims_safe_ret.
  - apply sims_safe_look. intros g1 _ _ [Ht _] _. rewrite Ht. apply sims_safe_look. intros g2 _ _ Hj _.
    rewrite (proj2 Hj). by apply sims_safe_ret.
  - apply sims_safe_look. intros g1 _ _ [Ht _] _. rewrite Ht. apply safe_remove; [by intros [past s] ?|].
    intros g2 [] _ _ _; cbn [negb]; [|by apply sims_safe_ret].
    apply own_write; [by apply bool_decide_eq_true|done..].
  - by apply safe_never.
  - by apply safe_never.
  - apply sims_safe_look. intros g1 _ _ [Ht _] _. rewrite Ht. destruct quota as [quota|]; [|by apply sims_safe_ret].
    apply own_write; [by apply bool_decide_eq_true|done..].
  - unfold enforce. destruct (uQuota u =? 0); [by apply sims_safe_ret|].
    apply sims_safe_look. intros g1 _ _ [Ht _] _. rewrite Ht. apply sims_safe_look. intros g2 _ _ Hj _.
    rewrite (proj2 Hj). by apply sims_safe_ret.
  - apply sims_safe_look. intros [past s] _ Hg Hj [_ Hord]. apply promote_held; [done|done|]. by eapply pointers_listed.
  - apply sims_safe_look. intros [past s] _ Hg Hj [_ Hord]. apply expire_held; [done|done|]. by eapply pointers_listed.
Qed.
End Revoked.

(** ** Runs *)
Abbreviation pool := (pool_safe sound later promised others_kept).
Lemma arrives_later past s q : later (past, s) (past ++ [q], s).
Proof. by split. Qed.
Lemma sims_reached l s : coherent s -> play_ok handler promised l (start s) ->
  let c := play handler l (start s) in
  pool any (fun _ => out_of_core) c /\ forall i q r, answered c i q r -> out_of_core q r (requests c, shared c).
Proof.
  intros Hs Hl. destruct (play_safe handler sound later promised others_kept any (fun _ => out_of_core) 0 l (start s))
    as (Hp & _ & Ha); [|cbn; lia|by apply pool_safe_start|done|by split].
  intros past s' q _ Hg _. split_and!; [done..|apply sim_handler_safe].
Qed.
Definition settled (c : Config Shared Req Z) : Prop :=
  forall i q p, calls c !! i = Some (q, p) -> concerns q v = true -> exists r, p = Ret r.
Lemma revoked_stays l c p0 : pool any (fun _ => out_of_core) c -> play_ok handler promised l c -> settled c ->
  table (shared c) !! v = Some p0 -> SStatus <$> cell (shared c) p0 = Some "revoked"%string ->
  let c' := play handler l c in
  SStatus <$> card (shared c') v = Some "revoked"%string /\
  forall i q r, (length (calls c) <= i)%nat -> answered c' i q r -> refused q r (requests c', shared c').
Proof.
  intros Hp Hl Hset Ht Hc. set (n := length (calls c)).
  assert (HF : forall q g' s2, concerns q v = false -> held p0 g' -> others_kept q g'.2 s2 -> held p0 (g'.1, s2)).
  { intros q g' s2 Hco [Ht' Hc'] HG. destruct (cell g'.2 p0) as [c0|] eqn:E; [|done].
    destruct (HG Hco p0 c0 Ht' E) as [? E']. split; [done|]. cbn. by rewrite E'. }
  destruct (play_safe handler sound later promised others_kept (held p0)
    (fun i q r g => (n <= i)%nat -> refused q r g) n l c) as ((_ & [Ht' Hc'] & _) & _ & Ha).
  - intros past s q Hn Hg HJ. split_and!; [done..|]. destruct (concerns q v) eqn:Hco.
    + eapply safe_weaken; [|by apply (handler_held p0)]. by intros r g _ _ ? _.
    + apply safe_frame; [by intros g' s2 _ ? _ _ ?; eapply HF|].
      eapply safe_weaken; [|apply sim_handler_safe]. intros r g _ _ _ _. destruct q; try done;
        apply bool_decide_eq_false in Hco; by intros ?.
  - done.
  - destruct Hp as (Hg & _ & Hp). split_and!; [done|done|]. intros i q p Hi.
    assert (Hlt : (i < n)%nat) by by eapply lookup_lt_Some.
    destruct (concerns q v) eqn:Hco.
    + destruct (Hset i q p Hi Hco) as [r ->]. intros g' _ _ _ Hge. lia.
    + apply safe_frame; [by intros g' s2 _ ? _ _ ?; eapply HF|].
      eapply safe_weaken; [|by apply (Hp i)]. intros r g _ _ _ Hge. lia.
  - done.
  - intros c'. split; [|intros i q r Hi Hr; by apply (Ha i q r Hr)]. unfold card. cbn in Ht'. unfold c'. by rewrite Ht'.
Qed.

(** ** Alone, a handler is that of the routes *)
Section Alone.
Context `{!BlockCipher} `{!EsimRegistry.Aead} `{!JsonProfile} `{!Format} (env : Env) (cfg : ControlConfig) (p : string).
(** The same cards and the same core. *)
Definition shows (s : Shared) (w : World H) : Prop := coherent s /\ card_table s = cards w /\ core s = hss w.
Definition code (r : res Response Response) : Z := match r with Ok x | Err x => status_ x end.
Definition simulates (m : World H * res Response Response) (x : Shared * Z) : Prop :=
  shows x.1 m.1 /\ code m.2 = x.2.
(** The end of a handler: the save, the audit entry, the answer. *)
Lemma ending sim a b d (w : World H) :
  let m : M H Response Response := (_ ← persist env (fun ok => UpsertSIM ok sim); _ ← audit env p a b d; reply 200 (PSIM sim)) in
  cards (m w).1 = <[IMSI sim := sim]> (cards w) /\ hss (m w).1 = hss w /\
  code (m w).2 = (if save_ok env (ticks w) then 200 else 500).
Proof.
  cbv zeta. unfold persist. set (w1 := stored_world env (fun ok => UpsertSIM ok sim) w).
  assert (Hw1 : cards w1 = <[IMSI sim := sim]> (cards w) /\ hss w1 = hss w).
  { unfold w1, cards, stored_world, UpsertSIM, save. cbn [store hss]. by destruct (save_ok env _). }
  destruct Hw1 as [Hc1 Hh1]. destruct (save_ok env (ticks w)) eqn:Eok.
  - rewrite run_bind with (w' := w1) (a := tt) by (rewrite (run_bind _ _ _ _ _ (stored_run env _ w)); unfold UpsertSIM, save; by rewrite Eok).
    destruct (audit_run (E := Response) env p a b d w1) as (id & t & n & E1). rewrite run_bind with (1 := E1).
    cbn [fst snd reply mret M_ret cards store hss code status_]. unfold AppendAudit, save.
    split_and!; [by destruct (save_ok env n)|done|done].
  - assert (E1 : (persist env (fun ok => UpsertSIM ok sim)) w = (w1, Err persist_error)).
    { unfold persist. rewrite (run_bind _ _ _ _ _ (stored_run env _ w)). fold w1. unfold UpsertSIM, save. by rewrite Eok. }
    unfold persist in E1. rewrite (run_bind_err _ _ _ _ _ E1). by cbn.
Qed.
Lemma card_changed s i q c st : coherent s -> table s !! i = Some q -> cell s q = Some c ->
  let s' := upserted q (wrote (set_status st) q s) in
  coherent s' /\ core s' = core s /\
  forall j, card s' j = <[i := {| c with SStatus := st |}]> (card_table s) !! j.
Proof.
  intros Hco Ht Hc. destruct (Hco i q Ht) as (d & Hd & Hi). assert (d = c) as -> by congruence. clear Hd.
  assert (Hw : cell (wrote (set_status st) q s) q = Some {| c with SStatus := st |}) by (unfold cell, wrote in *; cbn; by rewrite lookup_alter_eq, Hc).
  assert (Hne : forall r, r <> q -> cell (wrote (set_status st) q s) r = cell s r) by (intros r Hr; unfold cell, wrote; cbn; by rewrite lookup_alter_ne).
  assert (Hs : upserted q (wrote (set_status st) q s) = wrote (set_status st) q s).
  { unfold upserted. rewrite Hw. cbn [IMSI]. rewrite Hi, insert_id by done. done. }
  cbv zeta. rewrite Hs. split; [|split; [done|]].
  - intros j r Hj. destruct (Hco j r Hj) as (d & Hd & Hdj). destruct (decide (r = q)) as [->|Hr].
    + exists {| c with SStatus := st |}. split; [done|]. cbn. congruence.
    + exists d. by rewrite Hne.
  - intros j. unfold card, card_table. cbn [table wrote]. destruct (decide (j = i)) as [->|Hj].
    + by rewrite lookup_insert_eq, Ht.
    + rewrite lookup_insert_ne, lookup_omap by done. destruct (table s !! j) as [r|] eqn:Er; [|done]. cbn.
      apply Hne. intros ->. destruct (Hco j q Er) as (d & Hd & Hdj). congruence.
Qed.
Lemma changed_alone st a d i c s w : shows s w -> cards w !! i = Some c ->
  let sim := {| c with SStatus := st |} in
  exists q, table s !! i = Some q /\ cell s q = Some c /\ forall s1 w1, shows s1 w1 -> table s1 = table s -> cells s1 = cells s ->
    cards w1 = cards w ->
    simulates ((_ ← persist env (fun ok => UpsertSIM ok sim); _ ← audit env p a i d; reply 200 (PSIM sim)) w1)
      (run (write_ q (set_status st) (upsert_ (save_ok env (ticks w1)) q (fun ok => Ret (if ok then 200 else 500)))) s1).
Proof.
  intros (Hco & Hcards & Hcore) Hc. cbv zeta. rewrite <- Hcards in Hc. unfold card_table in Hc. rewrite lookup_omap in Hc.
  destruct (table s !! i) as [q|] eqn:Eq; [|done]. cbn in Hc. exists q. split_and!; [done..|].
  intros s1 w1 (Hco1 & Hcards1 & Hcore1) Ht Hcs Hcw.
  assert (Ht1 : table s1 !! i = Some q) by by rewrite Ht. assert (Hc1 : cell s1 q = Some c) by (unfold cell in *; by rewrite Hcs).
  destruct (ending {| c with SStatus := st |} a i d w1) as (He & Hh & Hr).
  destruct (card_changed s1 i q c st Hco1 Ht1 Hc1) as (Hco' & Hcore' & Hcard').
  assert (Hi : IMSI c = i) by (destruct (Hco i q Eq) as (c' & ? & ?); congruence).
  split; [split_and!|exact (eq_sym (eq_sym Hr))]; [exact Hco'| |].
  - apply map_eq. intros j. rewrite He, <- Hcards1. etransitivity; [|etransitivity; [exact (Hcard' j)|cbn [IMSI]; by rewrite Hi]].
    unfold card_table, card. rewrite lookup_omap. done.
  - rewrite Hh. etransitivity; [exact Hcore'|exact Hcore1].
Qed.
Lemma get_run (imsi : string) (k : nat -> Prog) s : run (get_ imsi k) s = match table s !! imsi with Some q => run (k q) s | None => (s, 404) end.
Proof. unfold get_, look. cbn. by destruct (table s !! imsi). Qed.
Lemma find_run {B} imsi (k : SIM -> M H Response B) w : (find_sim imsi ≫= k) w =
  match cards w !! imsi with Some c => k c w | None => (w, Err (err 404 "not_found")) end.
Proof. unfold find_sim, cards, GetSIM, found. unfold mbind, M_bind, gets. by destruct (sims _ !! imsi). Qed.
Lemma shown s w imsi : shows s w -> cards w !! imsi = table s !! imsi ≫= cell s.
Proof. intros (_ & <- & _). unfold card_table. by rewrite lookup_omap. Qed.
Lemma absent s w imsi : shows s w -> cards w !! imsi = None -> table s !! imsi = None.
Proof.
  intros Hs Hn. rewrite (shown s) in Hn by done. destruct (table s !! imsi) as [q|] eqn:E; [|done].
  destruct Hs as (Hco & _). destruct (Hco imsi q E) as (c & Hc & _). cbn in Hn. congruence.
Qed.
Lemma run_read {B} q (f : SIM -> B) k s c : cell s q = Some c -> run (read_ q f k) s = run (k (Some (f c))) s.
Proof. intros Hc. unfold read_, look. cbn. by rewrite Hc. Qed.
Lemma run_require {B} b r (k : unit -> M H Response B) w : (require b r ≫= k) w = if b then k tt w else (w, Err r).
Proof. by destruct b. Qed.
(** Suspend and resume: a change of status where the status allows it. *)
Lemma status_alone st a d imsi (allowed : string -> bool) (allowed' : option string -> bool) s w :
  (forall x, allowed' (Some x) = allowed x) -> shows s w ->
  simulates ((sim ← find_sim imsi; _ ← require (allowed (SStatus sim)) (err 409 "bad_state");
      let sim := {| sim with SStatus := st |} in
      _ ← persist env (fun ok => UpsertSIM ok sim); _ ← audit env p a imsi d; reply 200 (PSIM sim)) w)
    (run (get_ imsi (fun q => read_ q SStatus (fun o => if negb (allowed' o) then Ret 409
      else write_ q (set_status st) (upsert_ (save_ok env (ticks w)) q (fun ok => Ret (if ok then 200 else 500)))))) s).
Proof.
  intros Ha Hs. rewrite find_run, get_run. destruct (cards w !! imsi) as [c|] eqn:Ec; [|by rewrite (absent s w)].
  destruct (changed_alone st a d imsi c s w Hs Ec) as (q & -> & Hc & Hgo). rewrite (run_read _ _ _ _ _ Hc), run_require, Ha.
  destruct (allowed (SStatus c)); [|done]. by apply Hgo.
Qed.
Lemma revoke_alone imsi s w : shows s w ->
  simulates (handleRevokeSIM env p imsi w) (run (revoke imsi (save_ok env (ticks w))) s).
Proof.
  intros Hs. unfold handleRevokeSIM, revoke. rewrite find_run, get_run.
  destruct (cards w !! imsi) as [c|] eqn:Ec; [|by rewrite (absent s w)].
  destruct (changed_alone "revoked" "sim_revoke" "removed from HSS" imsi c s w Hs Ec) as (q & -> & _ & Hgo).
  destruct Hs as (Hco & Hcards & Hcore). unfold remove_. cbn [run]. rewrite Hcore.
  destruct (hss_remove (hss w) imsi) as [h ok] eqn:Eh.
  rewrite run_bind with (w' := {| w with hss := h |}) (a := ok) by (unfold hss_Remove, act; by rewrite Eh).
  rewrite run_require. destruct ok; [|by split].
  by apply (Hgo {| s with core := h |} {| w with hss := h |}).
Qed.
(** Suspending, resuming and revoking alone are [Routes]'s handlers. *)
Lemma alone imsi s w : shows s w -> let ok := save_ok env (ticks w) in
  simulates (handleSuspendSIM env p imsi w) (run (handler (Suspend imsi ok)) s) /\
  simulates (handleResumeSIM env p imsi w) (run (handler (Resume imsi ok)) s) /\
  simulates (handleRevokeSIM env p imsi w) (run (handler (Revoke imsi ok)) s).
Proof.
  intros Hs. split_and!; [| |by apply revoke_alone].
  - apply (status_alone "suspended" "sim_suspend" "" imsi
      (fun x : string => @bool_decide _ (decide_rel eq x "active") || @bool_decide _ (decide_rel eq x "issued"))); [|done].
    intros x. cbn. apply eq_true_iff_eq. rewrite orb_true_iff, !bool_decide_eq_true. set_solver.
  - apply (status_alone "active" "sim_resume" "" imsi (fun x : string => @bool_decide _ (decide_rel eq x "suspended"))); [|done].
    intros x. cbn. apply bool_decide_ext. set_solver.
Qed.
End Alone.

(** C8: A revocation among overlapping requests.  Whatever requests and jobs
    overlap, action by action, if none admits the subscriber: once a
    revocation is answered with 200 the subscriber is out of the core; and once
    no call that may change the card is under way, a revoked card stays
    revoked, and every later request to suspend or resume it is answered with 409. *)
Theorem revocation_under_interleaving l1 l2 s : coherent s -> play_ok handler promised (l1 ++ l2) (start s) ->
  let c1 := play handler l1 (start s) in let c2 := play handler l2 c1 in
  (forall i ok, answered c2 i (Revoke v ok) 200 -> v ∉ subscribers (core (shared c2))) /\
  (settled c1 -> SStatus <$> card (shared c1) v = Some "revoked"%string ->
    SStatus <$> card (shared c2) v = Some "revoked"%string /\
    forall i ok r, (length (calls c1) <= i)%nat ->
      (answered c2 i (Suspend v ok) r -> r = 409) /\ (answered c2 i (Resume v ok) r -> r = 409)).
Proof.
  intros Hs Hl. cbv zeta. split.
  - intros i ok Ha. rewrite <- play_app in Ha |- *. by apply (proj2 (sims_reached (l1 ++ l2) s Hs Hl) i (Revoke v ok) 200).
  - intros Hset Hc. apply play_ok_app in Hl as [Hl1 Hl2]. destruct (sims_reached l1 s Hs Hl1) as [Hp _].
    unfold card in Hc. destruct (table _ !! v) as [p0|] eqn:Et; [|done]. cbn in Hc.
    destruct (revoked_stays l2 _ p0 Hp Hl2 Hset Et Hc) as [Hk Ha]. split; [exact Hk|].
    intros i ok r Hi. split; intros Hr; exact (Ha i _ r Hi Hr eq_refl).
Qed.
End Cards.
Arguments Shared : clear implicits.

(** ** One card, in a core that answers *)
Definition demo_imsi : string := "999991234567001".
Definition demo_shared (st : string) : Shared (gset string * bool) :=
  mkShared {[0%nat := demo_card demo_imsi st]} {[demo_imsi := 0%nat]} ({[demo_imsi]}, true).
Definition answer (c : Config (Shared (gset string * bool)) Req Z) (i : nat) : option Z :=
  match calls c !! i with Some (_, Ret r) => Some r | _ => None end.
Abbreviation demo_pool st l := (play handler l (start (demo_shared st))).
Definition demo_status (c : Config (Shared (gset string * bool)) Req Z) : option string := SStatus <$> card (shared c) demo_imsi.

(** A resume that read the card before a revocation ends writes over it: the
    card is active again, out of the core, and both were answered with 200. *)
Example revocation_overwritten :
  let c := demo_pool "suspended" ([Arrives (Resume demo_imsi true); Moves 0; Moves 0; Arrives (Revoke demo_imsi true)]
                        ++ replicate 4 (Moves 1) ++ replicate 2 (Moves 0)) in
  answer c 0 = Some 200 /\ answer c 1 = Some 200 /\ demo_status c = Some "active"%string /\
  bool_decide (demo_imsi ∈ (core (shared c)).1) = false.
Proof. vm_compute. done. Qed.
(** ** Witnesses *)
Definition revoked_then : list (Event Req) := Arrives (Revoke demo_imsi true) :: replicate 4 (Moves 0).
Definition resumed_later : list (Event Req) := Arrives (Resume demo_imsi true) :: replicate 4 (Moves 1).
Definition promisedb (q : Req) (_ : Shared (gset string * bool)) : bool :=
  match q with Promote _ _ _ | Expire _ _ _ => false | _ => negb (admits q demo_imsi) end.
Lemma demo_promised l : play_okb handler promisedb l (start (demo_shared "suspended")) = true ->
  play_ok handler (promised demo_imsi) l (start (demo_shared "suspended")).
Proof. apply play_okb_true. intros q s Hb. destruct q; try done; split; try done; by apply negb_true_iff. Qed.
Lemma demo_coherent st : coherent (demo_shared st).
Proof.
  intros i p. cbn. intros [<- <-]%lookup_singleton_Some. exists (demo_card demo_imsi st). split; [|done].
  unfold cell, demo_shared. cbn. by rewrite lookup_singleton_eq.
Qed.
Lemma demo_settled : settled demo_imsi (demo_pool "suspended" revoked_then).
Proof.
  intros [|i] q p Hi _; [|by vm_compute in Hi].
  destruct (done_answered handler revoked_then (demo_shared "suspended") 0 (Revoke demo_imsi true)) as [r Hr]; [by vm_compute|done|].
  unfold answered in Hr. rewrite Hr in Hi. exists r. congruence.
Qed.
Lemma revocation_under_interleaving_witness :
  demo_imsi ∉ (core (shared (demo_pool "suspended" (revoked_then ++ resumed_later)))).1 /\
  answered (demo_pool "suspended" (revoked_then ++ resumed_later)) 1 (Resume demo_imsi true) 409.
Proof.
  destruct (done_answered handler (revoked_then ++ resumed_later) (demo_shared "suspended") 1 (Resume demo_imsi true)) as [r Hr];
    [vm_compute; reflexivity|reflexivity|].
  destruct (done_answered handler (revoked_then ++ resumed_later) (demo_shared "suspended") 0 (Revoke demo_imsi true)) as [r0 Hr0];
    [vm_compute; reflexivity|reflexivity|].
  assert (E0 : answer (demo_pool "suspended" (revoked_then ++ resumed_later)) 0 = Some 200) by (vm_compute; reflexivity).
  assert (r0 = 200) as ->. { unfold answer in E0. unfold answered in Hr0. rewrite Hr0 in E0. congruence. }
  destruct (revocation_under_interleaving demo_imsi revoked_then resumed_later (demo_shared "suspended") (demo_coherent _)) as [Ho Hk].
  - apply demo_promised. vm_compute. reflexivity.
  - rewrite <- play_app in Ho, Hk. split; [exact (Ho 0%nat true Hr0)|].
    destruct (Hk demo_settled) as [_ Hr']; [vm_compute; reflexivity|].
    rewrite <- (proj2 (Hr' 1%nat true r ltac:(vm_compute; lia)) Hr). exact Hr.
Defined.
