(* ===== verification/ControlUsage.v ===== *)
(** * ControlUsage: metering

    [AccumulateUsage] and [enforceQuota]: the collector's absolute byte
    counters become the subscribers' usage records, each byte once, and a
    card that reaches its quota is suspended. *)
From stdpp Require Import pretty.
From S2P Require Import Prelude.
From S2P Require Import Float64.
From S2P Require Import Encoding.
From S2P Require Import Sha256.
From S2P Require Import Anchor.
From S2P Require Import Bearer.
From S2P Require Import Fabric.
From S2P Require Import Profile.
From S2P Require Import EsimCrypto.
From S2P Require Import Simprov.
From S2P Require Import EsimRegistry.
From S2P Require Import Spectrum.
From S2P Require Import Config.
From S2P Require Import Api.
From S2P Require Import Store.
From S2P Require Import Control.
From S2P Require Import Routes.
From S2P Require Import ControlFacts.
From S2P Require Import ControlSims.

(** ** What a poll reads *)
(** The counters of one subscriber: the sum over its sessions, if any. *)
Definition reading (l : list Session) (h : string) : option usagePoint :=
  match filter (fun s => IMSIHash s = h) l with
  | [] => None
  | l => Some (mkPoint (u64 (Zsum (BytesUp <$> l))) (u64 (Zsum (BytesDn <$> l))))
  end.
Lemma add_points l h : foldl add_point ∅ l !! h = reading l h.
Proof.
  unfold reading. induction l as [|x l IH] using rev_ind; [done|].
  rewrite foldl_app, filter_app. cbn [foldl]. unfold add_point at 1.
  rewrite (filter_cons _ x []). destruct (decide (IMSIHash x = h)) as [<-|Hne].
  - rewrite lookup_insert_eq, IH. set (f := filter _ l). destruct f as [|y f].
    + cbn. by rewrite !Z.add_0_r.
    + cbn [app from_option id pt_up pt_dn]. rewrite !u64_add_l, !app_comm_cons, !fmap_app, !Zsum_app. cbn.
      by rewrite !Z.add_0_r.
  - rewrite lookup_insert_ne by done. by rewrite IH, app_nil_r.
Qed.

Definition meters {H} (w : World H) : gmap string SimUsage := usage (mem (store w)).
(** Both tables are keyed by the cards' IMSIs, which are told apart by their
    hashes. *)
Definition metered {H} (w : World H) : Prop :=
  keyed IMSI (cards w) /\ keyed uIMSI (meters w) /\
  forall i j, is_Some (cards w !! i) -> is_Some (cards w !! j) -> HashIMSI i = HashIMSI j -> i = j.
Definition polled {H} `{!Writer H} `{!Format} (env : Env) (cfg : ControlConfig) (w : World H) (l : list Session)
    : World H :=
  (AccumulateUsage env cfg {| w with store := set_sessions l (store w) |}).1.
(** Every save of the run succeeds. *)
Definition saving (env : Env) : Prop := forall k, save_ok env k = true.

Section Usage.
Context {H : Type} `{!Writer H} `{!Format} (env : Env) (cfg : ControlConfig).
Context (saves : saving env).
Abbreviation AccumulateUsage := (AccumulateUsage (H := H) env cfg).

(** What the counters of a subscriber add to its record, if anything. *)
Definition bill (now : time) (prev c : usagePoint) (s : SIM) (old : option SimUsage) : option SimUsage :=
  let dUp := delta (pt_up c) (pt_up prev) in
  let dDn := delta (pt_dn c) (pt_dn prev) in
  if ((dUp =? 0) && (dDn =? 0)) || bool_decide (IMSI s = ""%string) then None
  else let u := default (mkUsage (IMSI s) (HashIMSI (IMSI s)) 0 0 0 0) old in
       Some (mkUsage (uIMSI u) (uIMSIHash u) (u64 (uUp u + dUp)) (u64 (uDn u + dDn)) (QuotaBytes s) now).
Definition in_use (s : SIM) : bool :=
  bool_decide (SStatus s = "active"%string) || bool_decide (SStatus s = "issued"%string).
(** The card after its quota is looked at. *)
Definition enforced (u : SimUsage) (s : SIM) : SIM :=
  if FairUseEnabled cfg && negb (uQuota u =? 0) && in_use s && (uQuota u <=? u64 (uUp u + uDn u))
  then {| s with SStatus := "suspended" |} else s.

(** ** The quota *)
(** Everything the metering reads. *)
Definition ledger (w : World H) := (cards w, meters w, lastUsage w).
Definition quiet (w w' : World H) : Prop := ledger w' = ledger w.
#[local] Instance quiet_frame : Frame quiet.
Proof. split; [split|]; [done|unfold quiet; congruence|done]. Qed.
Lemma stored_quiet {E} (f : bool -> Store -> Store * bool) :
  (forall ok s, sims (mem (f ok s).1) = sims (mem s) /\ usage (mem (f ok s).1) = usage (mem s)) ->
  keeps quiet (stored env f : M H E bool).
Proof.
  intros Hf. apply keeps_stored; [exact _|]. intros ok w. destruct (Hf ok (store w)) as [Ec Eu].
  unfold quiet, ledger, cards, meters. cbn [store lastUsage]. by rewrite Ec, Eu.
Qed.
Ltac quiets :=
  repeat (keep; try first [ apply stored_quiet; store_op; done | by apply keeps_modify ]).
Lemma enforceQuota_run i u w : keyed IMSI (cards w) ->
  let w' := (enforceQuota (H := H) env cfg i u w).1 in
  meters w' = meters w /\ lastUsage w' = lastUsage w /\
  cards w' = match cards w !! i with
             | Some s => if negb (uQuota u =? 0) && in_use s && (uQuota u <=? u64 (uUp u + uDn u))
                         then <[i := {| s with SStatus := "suspended" |}]> (cards w) else cards w
             | None => cards w
             end.
Proof.
  intros Hk. unfold enforceQuota. destruct (uQuota u =? 0) eqn:Eq; [by repeat case_match|].
  cbn [negb andb]. cbv zeta. rewrite run_gets_bind. unfold GetSIM. fold (cards w).
  destruct (cards w !! i) as [s|] eqn:Es; [|done]. fold (in_use s).
  destruct (in_use s) eqn:Eu; cbn [negb andb]; [|done].
  rewrite (Z.leb_antisym _ (uQuota u)). destruct (u64 _ <? uQuota u) eqn:Et; cbn [negb]; [done|].
  rewrite run_stored_bind by (by rewrite ?saves).
  cbn [negb].
  match goal with |- context [(?m ?w1).1] =>
    assert (Hq : keeps quiet m) by (unfold Control.audit, fireAlertLocked, deliverWebhook; quiets);
    specialize (Hq w1); set (w2 := (m w1).1) in *
  end.
  injection Hq as Ec Em El. rewrite Ec, Em, El. cbn. by rewrite (Hk _ _ Es).
Qed.

(** ** One subscriber's counters *)
Lemma imsi_of_hash_run {E} h w : keyed IMSI (cards w) -> exists r,
  (imsi_of_hash env h : M H E (option string)) w = ({| w with ticks := S (ticks w) |}, Ok r) /\
  match r with
  | Some i => exists s, cards w !! i = Some s /\ HashIMSI i = h
  | None => forall i, is_Some (cards w !! i) -> HashIMSI i <> h
  end.
Proof.
  intros Hk. unfold imsi_of_hash, ranged, next, mbind, M_bind, gets. eexists. split; [reflexivity|].
  set (l := order env _ _ _). assert (Hl : l ≡ₚ values (cards w)) by apply order_perm.
  destruct (list_find _ l) as [[n s]|] eqn:Ef; cbn.
  - apply list_find_Some in Ef as (Hn & Hh & _). apply list_elem_of_lookup_2 in Hn.
    rewrite Hl in Hn. apply elem_of_values in Hn as [i Hi]. pose proof (Hk _ _ Hi) as E'. cbn in E'. subst i. by exists s.
  - intros i [s Hs] Hh. rewrite list_find_None, Forall_forall in Ef. apply (Ef s).
    + rewrite Hl. apply elem_of_values. by exists i.
    + by rewrite (Hk _ _ Hs).
Qed.
(** The record and the card of a subscriber after its counters are read. *)
Definition charge (now : time) (prev : usagePoint) (c : option usagePoint)
    (x : option SimUsage * option SIM) : option SimUsage * option SIM :=
  match c, x.2 with
  | Some c, Some s =>
      match bill now prev c s x.1 with
      | Some u => (Some u, Some (enforced u s))
      | None => x
      end
  | _, _ => x
  end.
Definition account (w : World H) (i : string) : option SimUsage * option SIM :=
  (meters w !! i, cards w !! i).
Definition last_point (w : World H) (h : string) : usagePoint :=
  default (mkPoint 0 0) (lastUsage w !! h).
Definition charged (now : time) (c : string -> option usagePoint) (w w' : World H) : Prop :=
  forall i, account w' i = charge now (last_point w (HashIMSI i)) (c (HashIMSI i)) (account w i).
Lemma enforced_IMSI u s : IMSI (enforced u s) = IMSI s.
Proof. unfold enforced. by case_match. Qed.
Lemma charged_card now c w w' i : charged now c w w' ->
  (forall s', cards w' !! i = Some s' -> exists s, cards w !! i = Some s /\ IMSI s' = IMSI s).
Proof.
  intros Hc s' Hs'. specialize (Hc i). unfold account, charge in Hc.
  destruct (c (HashIMSI i)), (cards w !! i) as [s|]; cbn in Hc;
    try destruct (bill _ _ _ _ _); injection Hc as Em Ec; rewrite Hs' in Ec; simplify_eq; eauto.
  exists s. by rewrite enforced_IMSI.
Qed.
Lemma charged_metered now c w w' : metered w -> charged now c w w' -> metered w'.
Proof.
  intros (Hk & Hu & Hinj) Hc. split; [|split].
  - intros i s' Hs'. destruct (charged_card _ _ _ _ _ Hc s' Hs') as (s & Hs & ->). by apply Hk.
  - intros i u Hi. specialize (Hc i). unfold account, charge, bill in Hc.
    destruct (c (HashIMSI i)), (cards w !! i) as [s|] eqn:Es; cbn in Hc;
      [|by injection Hc as Em _; apply Hu; rewrite <- Em..].
    destruct (_ || _); [by injection Hc as Em _; apply Hu; rewrite <- Em|].
    injection Hc as Em _. rewrite Hi in Em. injection Em as ->. cbn.
    destruct (meters w !! i) as [v|] eqn:Ev; cbn; [by apply Hu|by apply Hk].
  - intros i j [s Hs] [t Ht]. destruct (charged_card _ _ _ _ _ Hc s Hs) as (? & ? & _).
    destruct (charged_card _ _ _ _ _ Hc t Ht) as (? & ? & _). by apply Hinj; eexists.
Qed.

Lemma charge_other now c w i : c (HashIMSI i) = None \/ cards w !! i = None ->
  charge now (last_point w (HashIMSI i)) (c (HashIMSI i)) (account w i) = account w i.
Proof. unfold charge, account. intros [->| ->]; [done|]. by destruct (c _). Qed.
(** The end of [fold_usage]: the record is saved, the quota looked at. *)
Lemma save_and_enforce i u w : keyed IMSI (cards w) -> uIMSI u = i ->
  let x := (stored env (fun ok => UpsertUsage ok u) ≫= fun ok : bool =>
            if negb ok then fail ErrSave
            else when (FairUseEnabled cfg) (try_ (enforceQuota (H := H) env cfg i u))) w in
  x.2 = Ok tt /\ lastUsage x.1 = lastUsage w /\ meters x.1 = <[i := u]> (meters w) /\
  forall j, cards x.1 !! j = if decide (j = i) then enforced u <$> cards w !! i else cards w !! j.
Proof.
  intros Hk Hi x. unfold x. rewrite run_stored_bind by (by rewrite ?saves). cbn [negb].
  set (w1 := {| w with ticks := _; store := _ |}).
  assert (Em : meters w1 = <[i := u]> (meters w)) by (by subst i).
  assert (Ec : cards w1 = cards w) by done. unfold enforced.
  destruct (FairUseEnabled cfg); cbn [when andb].
  - destruct (enforceQuota_run i u w1) as (Em' & El' & Ec'); [by rewrite Ec|].
    unfold try_. cbn [fst snd]. rewrite Em', El', Ec', Em, Ec. split; [done|]. split; [done|].
    split; [done|]. intros j. destruct (cards w !! i) as [s|] eqn:Es.
    + cbn [fmap option_fmap option_map]. destruct (_ && _); case_decide; subst; [by rewrite lookup_insert_eq|by rewrite lookup_insert_ne|done|done].
    + case_decide; subst; by rewrite ?Es.
  - split; [done|]. split; [done|]. split; [done|]. intros j. unfold mret, M_ret. cbn [fst]. rewrite Ec.
    case_decide; subst; [|done]. by destruct (cards w !! _).
Qed.
Lemma fold_usage_run now h c w : metered w ->
  let x := fold_usage (H := H) env cfg now (h, c) w in
  x.2 = Ok tt /\ lastUsage x.1 = <[h := c]> (lastUsage w) /\
  charged now (fun h' => if decide (h' = h) then Some c else None) w x.1.
Proof.
  intros (Hk & Hu & Hinj) x. unfold x, fold_usage. rewrite run_gets_bind. cbv zeta.
  rewrite run_modify_bind. set (w1 := {| w with lastUsage := _ |}).
  fold (last_point w h). set (dUp := delta (pt_up c) _). set (dDn := delta (pt_dn c) _).
  destruct ((dUp =? 0) && (dDn =? 0)) eqn:Ed.
  { split; [done|]. split; [done|]. intros i. unfold charge. destruct (decide (HashIMSI i = h)) as [Eh|Eh]; [|done].
    subst h. cbn. destruct (cards w !! i) as [s|]; [|done]. unfold bill. fold dUp dDn. by rewrite Ed. }
  destruct (imsi_of_hash_run (E := JobError) h w1 Hk) as (r & Hrun & Hr).
  set (w2 := {| w1 with ticks := S (ticks w1) |}) in Hrun.
  rewrite (run_bind _ _ _ _ _ Hrun). clear Hrun.
  destruct r as [j|].
  2: { split; [done|]. split; [done|]. intros i.
       refine (eq_sym (charge_other now (fun h' => if decide (h' = h) then Some c else None) w i _)).
       destruct (decide (HashIMSI i = h)) as [Eh|Eh]; [right|by left].
       destruct (cards w !! i) as [s|] eqn:Es; [|done]. exfalso. by apply (Hr i); [exists s|]. }
  destruct Hr as (s & Hs & Hh). change (cards w1) with (cards w) in Hs.
  assert (Huniq : forall i, HashIMSI i = h -> i = j \/ cards w !! i = None).
  { intros i Ei. destruct (cards w !! i) as [t|] eqn:Et; [left|by right].
    apply Hinj; [by eauto|by eauto|congruence]. }
  pose proof (Hk _ _ Hs) as Ej. cbn in Ej.
  destruct (decide (j = ""%string)) as [Ej0|Ej0].
  { split; [done|]. split; [done|]. intros i.
    destruct (decide (HashIMSI i = h)) as [Eh|Eh]; [|done].
    destruct (Huniq i Eh) as [->|En].
    - unfold charge. cbn. rewrite Hs. unfold bill. rewrite Ej, (bool_decide_true (j = _)), orb_true_r by done.
      change (account w j = (meters w !! j, cards w !! j)). done.
    - refine (eq_sym (charge_other now (fun _ => Some c) w i _)). by right. }
  rewrite run_gets_bind. cbv beta zeta. rewrite run_gets_bind. cbv beta zeta.
  set (u0 := default (mkUsage j h 0 0 0 0) (GetUsage j (store w2))).
  assert (Eq : quotaFor (store w2) j = QuotaBytes s).
  { unfold quotaFor, GetSIM. change (sims (mem (store w2))) with (cards w). by rewrite Hs. }
  rewrite Eq. set (u := mkUsage _ _ _ _ _ _).
  assert (Eu0 : uIMSI u0 = j).
  { unfold u0, GetUsage. change (usage (mem (store w2))) with (meters w).
    destruct (meters w !! j) as [v|] eqn:Ev; cbn; [|done]. by apply Hu. }
  destruct (save_and_enforce j u w2 Hk Eu0) as (Er & El & Em & Ec).
  split; [exact Er|]. split; [exact El|]. intros i. unfold account. rewrite Em, Ec.
  change (meters w2) with (meters w). change (cards w2) with (cards w).
  destruct (decide (i = j)) as [->|Hne].
  - rewrite decide_True by done. rewrite lookup_insert_eq, Hs. unfold charge. cbn [snd fst].
    unfold bill. rewrite Hh. fold dUp dDn. rewrite Ed, Ej, (bool_decide_false (j = _)) by done.
    cbn [orb]. rewrite Hh. done.
  - rewrite lookup_insert_ne by done.
    refine (eq_sym (charge_other now (fun h' => if decide (h' = h) then Some c else None) w i _)).
    destruct (decide (HashIMSI i = h)) as [Eh|]; [right|by left]. by destruct (Huniq i Eh).
Qed.

(** ** A poll *)
Definition points_after (c : string -> option usagePoint) (w w' : World H) : Prop :=
  forall h, lastUsage w' !! h = match c h with Some p => Some p | None => lastUsage w !! h end.
Lemma for_each_charged now l : NoDup l.*1 -> forall w, metered w ->
  let x := for_each (fold_usage (H := H) env cfg now) l w in
  let c h := (list_to_map l : gmap string usagePoint) !! h in
  x.2 = Ok tt /\ charged now c w x.1 /\ points_after c w x.1.
Proof.
  induction l as [|[h p] l IH]; intros Hnd w Hw; [done|].
  cbn [fmap list_fmap fst] in Hnd. apply NoDup_cons in Hnd as [Hh Hnd].
  destruct (fold_usage_run now h p w Hw) as (Er & El & Hc).
  cbn [for_each]. destruct (fold_usage env cfg now (h, p) w) as [w1 r] eqn:E1. cbn in Er, El, Hc.
  subst r. rewrite (run_bind _ _ _ _ _ E1).
  destruct (IH Hnd w1 (charged_metered _ _ _ _ Hw Hc)) as (Er & Hc' & Hp').
  split; [exact Er|]. apply not_elem_of_list_to_map_1 in Hh. split.
  - intros i. rewrite (Hc' i), (Hc i), list_to_map_cons. cbv beta. unfold last_point. rewrite El.
    destruct (decide (HashIMSI i = h)) as [<-|Hne].
    + rewrite !lookup_insert_eq, Hh. reflexivity.
    + rewrite !lookup_insert_ne by done. done.
  - intros h'. rewrite (Hp' h'), El, list_to_map_cons. destruct (decide (h' = h)) as [->|Hne].
    + by rewrite Hh, !lookup_insert_eq.
    + by rewrite !lookup_insert_ne.
Qed.
Lemma AccumulateUsage_run w : metered w ->
  let x := AccumulateUsage w in
  let c := reading (ListSessions (store w)) in
  x.2 = Ok tt /\ points_after c w x.1 /\ exists now, charged now c w x.1.
Proof.
  intros Hw. unfold Control.AccumulateUsage. rewrite run_gets_bind. cbv beta.
  destruct (ListSessions (store w)) as [|y l] eqn:El; [by split; [|split; [|exists 0]]|].
  unfold now_. cbv zeta. rewrite <- El. clear El y l.
  set (cur := foldl add_point ∅ (ListSessions (store w))).
  set (w1 := {| w with ticks := S (S (ticks w)) |}).
  set (l := order env (S (ticks w)) _ (map_to_list cur)). set (now := clock env (ticks w)).
  change ((for_each (fold_usage (H := H) env cfg now) l w1).2 = Ok tt /\
    points_after (reading (ListSessions (store w))) w (for_each (fold_usage (H := H) env cfg now) l w1).1 /\
    exists now', charged now' (reading (ListSessions (store w))) w (for_each (fold_usage (H := H) env cfg now) l w1).1).
  assert (Hp : l ≡ₚ map_to_list cur) by exact (order_perm _ _ _ _).
  assert (Hnd : NoDup l.*1) by (rewrite Hp; apply NoDup_fst_map_to_list).
  assert (Em : list_to_map l = cur).
  { rewrite (list_to_map_proper _ _ Hnd Hp). apply list_to_map_to_list. }
  destruct (for_each_charged now l Hnd w1 Hw) as (Er & Hc & Hpt). split; [exact Er|].
  rewrite Em in Hc, Hpt. split.
  - intros h. rewrite (Hpt h). unfold cur. by rewrite add_points.
  - exists now. intros i. rewrite (Hc i). unfold cur. by rewrite add_points.
Qed.

(** ** Polls in a row *)
(** The sessions table is replaced, then the usage folded in. *)
Abbreviation polled := (polled env cfg).
Definition up (w : World H) (i : string) : Z := match meters w !! i with Some u => uUp u | None => 0 end.
Definition dn (w : World H) (i : string) : Z := match meters w !! i with Some u => uDn u | None => 0 end.
Fixpoint deltas (prev : Z) (l : list Z) : Z :=
  match l with [] => 0 | c :: l => delta c prev + deltas c l end.
Lemma deltas_sorted l prev : Sorted Z.le (prev :: l) ->
  u64 (deltas prev l) = u64 (List.last l prev - prev).
Proof.
  revert prev. induction l as [|c l IH]; intros prev Hs; [cbn; f_equal; lia|].
  apply Sorted_inv in Hs as [Hs Hle]. inversion Hle as [|? ? Hc]; subst.
  cbn [deltas]. rewrite <- u64_add_r, (IH c Hs), u64_add_r. unfold delta.
  assert (El : List.last (c :: l) prev = List.last l c).
  { clear. revert c prev. induction l as [|d l IH]; intros c prev; [done|].
    change (List.last (c :: d :: l) prev) with (List.last (d :: l) prev). by rewrite !IH. }
  rewrite El. destruct (prev <? c) eqn:E.
  - rewrite u64_add_l. f_equal; lia.
  - assert (c = prev) by lia. subst. f_equal; lia.
Qed.
(** One poll, one subscriber. *)
Lemma polled_step w l i s : metered w -> cards w !! i = Some s -> i <> ""%string ->
  metered (polled w l) /\ is_Some (cards (polled w l) !! i) /\
  match reading l (HashIMSI i) with
  | Some c => last_point (polled w l) (HashIMSI i) = c /\
      u64 (up (polled w l) i) = u64 (up w i + delta (pt_up c) (pt_up (last_point w (HashIMSI i)))) /\
      u64 (dn (polled w l) i) = u64 (dn w i + delta (pt_dn c) (pt_dn (last_point w (HashIMSI i))))
  | None => last_point (polled w l) (HashIMSI i) = last_point w (HashIMSI i) /\
      up (polled w l) i = up w i /\ dn (polled w l) i = dn w i
  end.
Proof.
  intros Hw Hs Hi. set (w0 := {| w with store := set_sessions l (store w) |}).
  destruct (AccumulateUsage_run w0 Hw) as (_ & Hp & now & Hc).
  split; [exact (charged_metered _ _ w0 _ Hw Hc)|].
  unfold polled, last_point. fold w0. specialize (Hp (HashIMSI i)). specialize (Hc i).
  change (ListSessions (store w0)) with l in *. change (lastUsage w0) with (lastUsage w) in *.
  change (account w0 i) with (account w i) in Hc.
  change (last_point w0 (HashIMSI i)) with (last_point w (HashIMSI i)) in Hc.
  set (w' := (Control.AccumulateUsage env cfg w0).1) in *. rewrite Hp.
  unfold charge, account in Hc. cbn [fst snd] in Hc. rewrite Hs in Hc.
  unfold up, dn. destruct (reading l (HashIMSI i)) as [c|].
  2: { injection Hc as Em Ec. rewrite Em, Ec. by eauto. }
  pose proof (proj1 Hw _ _ Hs) as Ei. cbn in Ei. unfold bill in Hc.
  rewrite Ei, (bool_decide_false (i = _)), orb_false_r in Hc by done. fold (last_point w (HashIMSI i)).
  destruct (_ && _) eqn:Ed; injection Hc as Em Ec; rewrite Em, Ec; (split; [by eauto|]);
    (split; [done|]).
  - apply andb_true_iff in Ed as [->%Z.eqb_eq ->%Z.eqb_eq]. by rewrite !Z.add_0_r.
  - cbn [uUp uDn]. rewrite !u64_u64. by destruct (meters w !! i).
Qed.

End Usage.

Section Metering.
Context {H : Type} `{!Writer H} `{!Format} (env : Env) (cfg : ControlConfig).

(** C4: Metering counts each byte once.  Let every save succeed, and let the
    cards' IMSIs be told apart by their hashes.  Over any sequence of polls,
    the traffic added to a subscriber's record, up and down, is the sum of the
    increases of its counters from one poll to the next, the polls it is absent
    from skipped and a counter that goes back adding nothing; so if a counter
    never goes back the record grows by exactly its last reading less what was
    counted before the first, whatever happens to the other subscribers, the
    order the records are visited in, or its quota. *)
Theorem usage_counts_once (w : World H) polls i s : saving env -> metered w ->
  cards w !! i = Some s -> i <> ""%string ->
  let w' := foldl (polled env cfg) w polls in
  let r := omap (fun l => reading l (HashIMSI i)) polls in
  let p := last_point w (HashIMSI i) in
  u64 (up w' i) = u64 (up w i + deltas (pt_up p) (pt_up <$> r)) /\
  u64 (dn w' i) = u64 (dn w i + deltas (pt_dn p) (pt_dn <$> r)) /\
  (Sorted Z.le (pt_up p :: (pt_up <$> r)) ->
     u64 (up w' i) = u64 (up w i + (List.last (pt_up <$> r) (pt_up p) - pt_up p))) /\
  (Sorted Z.le (pt_dn p :: (pt_dn <$> r)) ->
     u64 (dn w' i) = u64 (dn w i + (List.last (pt_dn <$> r) (pt_dn p) - pt_dn p))).
Proof.
  intros Hsave Hw Hs Hi.
  assert (Hsum : let w' := foldl (polled env cfg) w polls in
    let r := omap (fun l => reading l (HashIMSI i)) polls in
    let p := last_point w (HashIMSI i) in
    u64 (up w' i) = u64 (up w i + deltas (pt_up p) (pt_up <$> r)) /\
    u64 (dn w' i) = u64 (dn w i + deltas (pt_dn p) (pt_dn <$> r))).
  { revert w s Hw Hs. induction polls as [|l polls IH]; intros w s Hw Hs; cbn [foldl].
    { by rewrite !Z.add_0_r. }
    destruct (polled_step env cfg Hsave w l i s Hw Hs Hi) as (Hw1 & [s1 Hs1] & Hstep).
    destruct (IH _ _ Hw1 Hs1) as [Eu Ed]. cbv zeta. rewrite Eu, Ed. cbn [omap list_omap].
    destruct (reading l (HashIMSI i)) as [c|]; destruct Hstep as (-> & Hu & Hd).
    - cbn [fmap list_fmap deltas]. rewrite <- u64_add_l, Hu, u64_add_l.
      rewrite <- (u64_add_l (dn _ _)), Hd, u64_add_l. split; f_equal; lia.
    - by rewrite Hu, Hd. }
  destruct Hsum as [Eu Ed]. split; [exact Eu|]. split; [exact Ed|].
  split; intros Hsort; [rewrite Eu|rewrite Ed]; by rewrite <- u64_add_r, deltas_sorted, u64_add_r.
Qed.

(** Whether a poll's counters moved for a card. *)
Definition traffic (w : World H) (i : string) : bool :=
  let p := last_point w (HashIMSI i) in
  match reading (ListSessions (store w)) (HashIMSI i) with
  | Some c => negb ((delta (pt_up c) (pt_up p) =? 0) && (delta (pt_dn c) (pt_dn p) =? 0))
  | None => false
  end.
(** C22: The quota.  With fair use enforced, if every save succeeds and the
    cards' IMSIs are told apart by their hashes, a usage job does not fail and
    suspends exactly the cards that had new traffic, are active or issued,
    have a quota and reach it with this traffic; every other card stays as it
    was, and the record carries the card's quota. *)
Theorem quota_suspends (w : World H) i s : saving env -> FairUseEnabled cfg = true -> metered w ->
  cards w !! i = Some s -> i <> ""%string ->
  let w' := (AccumulateUsage env cfg w).1 in
  (AccumulateUsage env cfg w).2 = Ok tt /\
  if traffic w i then exists u, meters w' !! i = Some u /\ uQuota u = QuotaBytes s /\
    cards w' !! i = Some (if negb (QuotaBytes s =? 0) && in_use s && (QuotaBytes s <=? u64 (uUp u + uDn u))
                          then {| s with SStatus := "suspended" |} else s)
  else meters w' !! i = meters w !! i /\ cards w' !! i = Some s.
Proof.
  intros Hsave Hf Hw Hs Hi. destruct (AccumulateUsage_run env cfg Hsave w Hw) as (Hr & _ & now & Hc).
  split; [exact Hr|]. specialize (Hc i). set (w' := (Control.AccumulateUsage env cfg w).1) in *.
  unfold charge, account in Hc. cbn [fst snd] in Hc. rewrite Hs in Hc. unfold traffic.
  destruct (reading _ _) as [c|]; [|by injection Hc as Em Ec].
  pose proof (proj1 Hw _ _ Hs) as Ei. cbn in Ei. unfold bill in Hc.
  rewrite Ei, (bool_decide_false (i = _)), orb_false_r in Hc by done.
  destruct (_ && _); injection Hc as Em Ec; cbn [negb]; [done|].
  eexists. split; [exact Em|]. split; [done|]. rewrite Ec. unfold enforced. by rewrite Hf.
Qed.
End Metering.

(** ** One subscriber *)
Definition demo_imsi : string := "999991234567001".
Definition demo_poll (u d : Z) : list Session :=
  [mkSession (HashIMSI demo_imsi) "internet" "10.45.0.2" "active" u d 0].
Definition fair : ControlConfig := {| Default with FairUseEnabled := true |}.
Definition meter_world (quota : Z) : World NoHSS :=
  demo_world None_ (demo_cards [{| (demo_card demo_imsi "active") with QuotaBytes := quota |}]).
Lemma meter_world_cards q : cards (meter_world q) =
  {[demo_imsi := {| (demo_card demo_imsi "active") with QuotaBytes := q |}]}.
Proof. vm_compute. reflexivity. Qed.
Lemma meter_world_metered q l :
  metered {| (meter_world q) with store := set_sessions l (store (meter_world q)) |}.
Proof.
  split; [|split].
  - change (keyed IMSI (cards (meter_world q))). rewrite meter_world_cards.
    by intros i s [<- <-]%lookup_singleton_Some.
  - apply keyed_empty.
  - change (forall i j, is_Some (cards (meter_world q) !! i) -> is_Some (cards (meter_world q) !! j) ->
      HashIMSI i = HashIMSI j -> i = j). rewrite meter_world_cards.
    by intros i j [s [<- _]%lookup_singleton_Some] [t [<- _]%lookup_singleton_Some] _.
Qed.
Lemma usage_counts_once_witness :
  let w := {| (meter_world 0) with store := set_sessions [] (store (meter_world 0)) |} in
  let polls := [demo_poll 100 7; []; demo_poll 250 7] in
  saving demo_env /\ metered w /\
  cards w !! demo_imsi = Some (demo_card demo_imsi "active") /\ demo_imsi <> ""%string /\
  u64 (dn (foldl (polled demo_env fair) w polls) demo_imsi) =
    u64 (0 + deltas 0 (pt_dn <$> omap (fun l => reading l (HashIMSI demo_imsi)) polls)) /\
  up (foldl (polled demo_env fair) w polls) demo_imsi = 250.
Proof.
  intros w polls. assert (Hs : saving demo_env) by done.
  assert (Hw : metered w) by exact (meter_world_metered 0 []).
  assert (Hc : cards w !! demo_imsi = Some (demo_card demo_imsi "active")) by (vm_compute; reflexivity).
  assert (Hi : demo_imsi <> ""%string) by done.
  split; [exact Hs|]. split; [exact Hw|]. split; [exact Hc|]. split; [exact Hi|]. split.
  - exact (proj1 (proj2 (usage_counts_once demo_env fair w polls demo_imsi _ Hs Hw Hc Hi))).
  - vm_compute. reflexivity.
Defined.
Lemma quota_suspends_witness :
  let w := {| (meter_world 100) with store := set_sessions (demo_poll 90 20) (store (meter_world 100)) |} in
  let s := {| (demo_card demo_imsi "active") with QuotaBytes := 100 |} in
  saving demo_env /\ FairUseEnabled fair = true /\ metered w /\
  cards w !! demo_imsi = Some s /\ demo_imsi <> ""%string /\
  (AccumulateUsage demo_env fair w).2 = Ok tt /\
  SStatus <$> cards (AccumulateUsage demo_env fair w).1 !! demo_imsi = Some "suspended"%string.
Proof.
  intros w s. assert (Hs : saving demo_env) by done.
  assert (Hw : metered w) by exact (meter_world_metered 100 (demo_poll 90 20)).
  assert (Hc : cards w !! demo_imsi = Some s) by (vm_compute; reflexivity).
  assert (Hi : demo_imsi <> ""%string) by done.
  split; [exact Hs|]. split; [reflexivity|]. split; [exact Hw|]. split; [exact Hc|].
  assert (Hf : FairUseEnabled fair = true) by reflexivity.
  destruct (quota_suspends demo_env fair w demo_imsi s Hs Hf Hw Hc Hi) as [Hr _].
  split; [exact Hi|]. split; [exact Hr|vm_compute; reflexivity].
Defined.
(** The last readings live in the process: after a restart the first poll
    counts a subscriber's whole counter again. *)
Example restart_counts_twice :
  let env := {| demo_env with poll := fun _ => Some (demo_poll 100 7) |} in
  let go := run env fair "" "node-1" "dev" None (fun _ => None) (meter_world 0) in
  up (go [Job TickCollect; Job TickUsage; Job TickCollect; Job TickUsage]) demo_imsi = 100 /\
  up (go [Job TickCollect; Job TickUsage; Restart "hub"; Job TickCollect; Job TickUsage]) demo_imsi = 200.
Proof. split; vm_compute; reflexivity. Qed.
(** The alert of a quota is no condition [EvaluateAlerts] looks for, so the
    next evaluation resolves it, though the card is still suspended. *)
Example quota_alert_resolved :
  let c := {| fair with AlertsEnabled := true; SimExpiryWarnDays := 0 |} in
  let env := {| demo_env with poll := fun _ => Some (demo_poll 100 7) |} in
  let w := run env c "" "node-1" "dev" None (fun _ => None) (meter_world 50)
             [Job TickCollect; Job TickUsage; Job TickAlerts] in
  (fun a => (alKey a, Resolved a)) <$> alerts (mem (store w)) = [("quota:999991234567001"%string, true)] /\
  SStatus <$> cards w !! demo_imsi = Some "suspended"%string.
Proof. split; vm_compute; reflexivity. Qed.
