(* ===== verification/ControlAlerts.v ===== *)
(** * ControlAlerts: the alert engine

    [EvaluateAlerts]: an alert is raised when its condition starts to hold and
    resolved when it stops, whatever order the tables are visited in. *)
From stdpp Require Import pretty.
From S2P Require Import Prelude.
From S2P Require Import Float64.
From S2P Require Import Encoding.
From S2P Require Import Sha256.
From S2P Require Import Anchor.
From S2P Require Import Bearer.
From S2P Require Import Fabric.
From S2P Require Import Profile.
From S2P Require Import EsimCrypto.
From S2P Require Import Simprov.
From S2P Require Import EsimRegistry.
From S2P Require Import Spectrum.
From S2P Require Import Config.
From S2P Require Import Api.
From S2P Require Import Store.
From S2P Require Import Control.
From S2P Require Import Routes.
From S2P Require Import ControlFacts.

Section Alerts.
Context {H : Type} `{!Writer H} `{!Format} (env : Env) (cfg : ControlConfig).
Abbreviation EvaluateAlerts := (EvaluateAlerts (H := H) (E := unit) env cfg).

(** ** The conditions *)
Definition key_if (b : bool) (key : string) : list string := if b then [key] else [].
Definition health_keys (now : time) (h : NodeHealth) : list string :=
  key_if (negb (time_sub now (hTS h) <=? stale_after cfg)) ("node-down:" +:+ hNodeID h) ++
  key_if (match SDRTempC h with Some t => flt (TempHighC cfg) t | None => false end)
    ("sdr-temp:" +:+ hNodeID h) ++
  key_if (negb (bool_decide (Watchdog h = ""%string)) && negb (bool_decide (Watchdog h = "ok"%string)))
    ("watchdog:" +:+ hNodeID h) ++
  key_if (negb (FreqCheck h)) ("freq:" +:+ hNodeID h).
Definition expiry_keys (now : time) (s : SIM) : list string :=
  key_if (usable s && negb (IsZero (SExpiresAt s)) && (now <? SExpiresAt s)
          && (time_sub (SExpiresAt s) now <=? warn_window cfg)) ("sim-expiry:" +:+ IMSI s).
Definition expiring (now : time) (w : World H) : list string :=
  if 0 <? warn_window cfg then sims_of w ≫= expiry_keys now else [].
Definition capacity_keys (w : World H) : list string :=
  let p := GetPolicy (store w) in
  key_if ((0 <? MaxUEs p) && (i64 (MaxUEs p * capacity_pct cfg) <=? i64 (zlen (ListSessions (store w)) * 100)))
    "ues-capacity".
(** The keys whose condition holds now. *)
Definition holding (now : time) (w : World H) : gset string :=
  list_to_set (health_of w ≫= health_keys now) ∪
  list_to_set (expiring now w) ∪
  list_to_set (capacity_keys w).

(** ** Raising *)
Definition alert_keys (w : World H) : list string := alKey <$> alerts (mem (store w)).
Definition watched (w : World H) :=
  (health (mem (store w)), sims (mem (store w)), sessions (mem (store w)), policy (mem (store w))).
(** Nothing the conditions or the engine's memory depend on has changed. *)
Definition alike (w w' : World H) : Prop :=
  fired w' = fired w /\ watched w' = watched w /\ alert_keys w' = alert_keys w.
Lemma now_run {E} w : exists t w', (now_ env : M H E time) w = (w', Ok t) /\ alike w w' /\
  t = clock env (ticks w).
Proof. by eexists _, _. Qed.
Lemma randBytes_run {E} n w : exists b w', (randBytes env n : M H E bytes) w = (w', Ok b) /\ alike w w'.
Proof. by eexists _, _. Qed.
Lemma ranged_run {E A} (f : World H -> list A) w :
  (forall n, f {| w with ticks := n |} = f w) ->
  exists l w', (ranged env f : M H E (list A)) w = (w', Ok l) /\ alike w w' /\ l ≡ₚ f w.
Proof.
  intros Hf. eexists _, _. split; [reflexivity|]. split; [done|]. rewrite Hf. apply order_perm.
Qed.
Lemma deliver_run {E} a r w : exists w',
  (deliverWebhook cfg a r : M H E unit) w = (w', Ok tt) /\ alike w w'.
Proof. unfold deliverWebhook. by destruct (Webhooks cfg); eexists. Qed.
Lemma stored_alert {E} a w : exists ok w',
  (stored env (fun ok => AppendAlert ok a) : M H E bool) w = (w', Ok ok) /\
  fired w' = fired w /\ watched w' = watched w /\ alert_keys w' = alert_keys w ++ [alKey a].
Proof.
  exists (save_ok env (ticks w)). unfold stored, next, act, mbind, M_bind. cbn [ticks store].
  destruct (save_ok env (ticks w)); eexists; (split; [reflexivity|]); repeat (split; [done|]);
    unfold alert_keys; cbn; by rewrite fmap_app.
Qed.
Lemma fire_run {E} sev key msg tgt node w : exists w',
  (fireAlertLocked env cfg sev key msg tgt node : M H E unit) w = (w', Ok tt) /\
  fired w' = {[key]} ∪ fired w /\ watched w' = watched w /\
  alert_keys w' = alert_keys w ++ (if decide (key ∈ fired w) then [] else [key]).
Proof.
  unfold fireAlertLocked. rewrite run_gets_bind. destruct (decide (key ∈ fired w)) as [Hin|Hin].
  - rewrite bool_decide_true by done. exists w. split; [done|]. split; [set_solver|].
    by rewrite app_nil_r.
  - rewrite bool_decide_false by done. rewrite run_modify_bind. set (w1 := {| w with fired := _ |}).
    destruct (randBytes_run (E := E) 4 w1) as (b & w2 & E2 & F2 & T2 & K2).
    rewrite (run_bind _ _ _ _ _ E2).
    destruct (now_run (E := E) w2) as (t & w3 & E3 & (F3 & T3 & K3) & _).
    rewrite (run_bind _ _ _ _ _ E3). cbv zeta.
    set (a := mkAlert ("al-" +:+ HexEncode b) key sev msg tgt node t false None).
    destruct (stored_alert (E := E) a w3) as (ok & w4 & E4 & F4 & T4 & K4).
    rewrite (run_bind _ _ _ _ _ E4).
    destruct (deliver_run (E := E) a false w4) as (w5 & E5 & F5 & T5 & K5).
    exists w5. split; [exact E5|]. split; [by rewrite F5, F4, F3, F2|].
    split; [by rewrite T5, T4, T3, T2|].
    rewrite K5, K4, K3, K2. done.
Qed.

(** A round so far: the keys seen are fired, and each that was not fired
    before has one new alert. *)
Definition round (w0 : World H) (seen : gset string) (w : World H) : Prop :=
  fired w = fired w0 ∪ seen /\ watched w = watched w0 /\
  exists l, alert_keys w = alert_keys w0 ++ l /\ NoDup l /\
    forall k, k ∈ l <-> k ∈ seen /\ k ∉ fired w0.
Lemma round_alike w0 seen w w' : round w0 seen w -> alike w w' -> round w0 seen w'.
Proof. intros (Hf & Hw & Hl) (Ef & Ew & Ek). unfold round. by rewrite Ef, Ew, Ek. Qed.
Definition runs {A} (w0 : World H) (f : gset string -> A -> M H unit (gset string))
    (keys : A -> list string) : Prop :=
  forall seen a w, round w0 seen w -> exists w',
    f seen a w = (w', Ok (list_to_set (keys a) ∪ seen)) /\ round w0 (list_to_set (keys a) ∪ seen) w'.
Lemma check_run w0 cond sev key msg tgt node seen w : round w0 seen w -> exists w',
  (check_alert env cfg cond sev key msg tgt node seen : M H unit (gset string)) w =
    (w', Ok (list_to_set (key_if cond key) ∪ seen)) /\
  round w0 (list_to_set (key_if cond key) ∪ seen) w'.
Proof.
  intros (Hf & Hw & l & Hk & Hn & Hl). unfold check_alert, key_if.
  destruct cond; cbn [list_to_set].
  2: { exists w. assert (Es : (∅ ∪ seen : gset string) = seen) by set_solver. rewrite Es.
       split; [done|]. split; [done|]. split; [done|]. by exists l. }
  destruct (fire_run (E := unit) sev key msg tgt node w) as (w' & Er & Ef & Ew & Ek).
  rewrite (run_bind _ _ _ _ _ Er). exists w'.
  assert (Es : ({[key]} ∪ ∅ ∪ seen : gset string) = {[key]} ∪ seen) by set_solver. rewrite Es.
  split; [done|]. split; [rewrite Ef, Hf; set_solver|]. split; [congruence|].
  rewrite Ek, Hk, Hf. destruct (decide (key ∈ fired w0 ∪ seen)) as [Hin|Hin].
  - exists l. rewrite app_nil_r. split; [done|]. split; [done|]. set_solver.
  - exists (l ++ [key]). rewrite app_assoc. split; [done|]. split.
    + apply NoDup_app. split; [done|]. split; [|apply NoDup_singleton]. set_solver.
    + set_solver.
Qed.
Lemma fold_run {A} w0 (f : gset string -> A -> M H unit (gset string)) keys l : runs w0 f keys ->
  forall seen w, round w0 seen w -> exists w',
    fold_each f seen l w = (w', Ok (list_to_set (l ≫= keys) ∪ seen)) /\
    round w0 (list_to_set (l ≫= keys) ∪ seen) w'.
Proof.
  intros Hf. induction l as [|a l IH]; intros seen w Hw; cbn [fold_each].
  { exists w. assert (Es : (list_to_set ([] ≫= keys) ∪ seen : gset string) = seen) by (cbn; set_solver).
    by rewrite Es. }
  destruct (Hf seen a w Hw) as (w1 & E1 & Hw1). rewrite (run_bind _ _ _ _ _ E1).
  destruct (IH _ w1 Hw1) as (w2 & E2 & Hw2). exists w2.
  assert (Es : (list_to_set ((a :: l) ≫= keys) ∪ seen : gset string) =
               list_to_set (l ≫= keys) ∪ (list_to_set (keys a) ∪ seen)).
  { rewrite bind_cons, list_to_set_app_L. set_solver. }
  by rewrite Es.
Qed.
Lemma health_run w0 now : runs w0 (check_health env cfg now) (health_keys now).
Proof.
  intros seen h w Hw. unfold check_health. cbv zeta.
  edestruct (check_run w0) as (w1 & E1 & H1); [exact Hw|]. rewrite (run_bind _ _ _ _ _ E1). clear E1.
  edestruct (check_run w0) as (w2 & E2 & H2); [exact H1|]. rewrite (run_bind _ _ _ _ _ E2). clear E2.
  edestruct (check_run w0) as (w3 & E3 & H3); [exact H2|]. rewrite (run_bind _ _ _ _ _ E3). clear E3.
  edestruct (check_run w0) as (w4 & E4 & H4); [exact H3|]. exists w4. rewrite E4. clear E4.
  unfold health_keys. rewrite !list_to_set_app_L.
  match goal with H4 : round _ ?s _ |- (_, Ok ?s) = (_, Ok ?s') /\ _ => assert (Es : s' = s) by set_solver end.
  by rewrite Es.
Qed.
Lemma expiry_run w0 now : runs w0 (check_expiry env cfg now) (expiry_keys now).
Proof.
  intros seen s w Hw. unfold check_expiry, expiry_keys, usable.
  destruct (bool_decide (SStatus s = "revoked"%string) || bool_decide (SStatus s = "expired"%string)),
    (IsZero (SExpiresAt s)); cbn [orb negb andb].
  all: try (exists w; cbn [key_if list_to_set]; rewrite (left_id_L ∅ (∪)); done).
  by apply check_run.
Qed.

(** ** Resolving *)
Lemma resolve_first_keys id t l : alKey <$> resolve_first id t l = alKey <$> l.
Proof. induction l as [|a l IH]; [done|]. cbn. case_decide; cbn; by rewrite ?IH. Qed.
Lemma stored_resolve {E} id t w : exists ok w',
  (stored env (fun ok => ResolveAlert ok id t) : M H E bool) w = (w', Ok ok) /\ alike w w'.
Proof.
  exists (save_ok env (ticks w)). unfold stored, next, act, mbind, M_bind. cbn [ticks store].
  destruct (save_ok env (ticks w)); eexists; (split; [reflexivity|]); repeat (split; [done|]);
    unfold alert_keys; cbn; by rewrite resolve_first_keys.
Qed.
Lemma resolve_run {E} key t w : exists w',
  (resolveAlertLocked env cfg key t : M H E unit) w = (w', Ok tt) /\
  fired w' = fired w ∖ {[key]} /\ watched w' = watched w /\ alert_keys w' = alert_keys w.
Proof.
  unfold resolveAlertLocked. rewrite run_modify_bind, run_gets_bind.
  set (w1 := {| w with fired := _ |}).
  destruct (list_find _ _) as [[n a]|]; [|by exists w1].
  destruct (stored_resolve (E := E) (alID a) t w1) as (ok & w2 & E2 & F2 & T2 & K2).
  rewrite (run_bind _ _ _ _ _ E2).
  destruct (deliver_run (E := E) a true w2) as (w3 & E3 & F3 & T3 & K3).
  exists w3. split; [exact E3|]. rewrite F3, T3, K3, F2, T2, K2. done.
Qed.
Lemma resolve_all_run (seen : gset string) t l : forall w, exists w',
  for_each (fun key => if decide (key ∈ seen) then mret tt else resolveAlertLocked env cfg key t) l w =
    (w', Ok tt : res unit unit) /\
  fired w' = fired w ∖ (list_to_set l ∖ seen) /\ watched w' = watched w /\ alert_keys w' = alert_keys w.
Proof.
  induction l as [|key l IH]; intros w; cbn [for_each list_to_set].
  { exists w. split; [done|]. split; [set_solver|done]. }
  destruct (decide (key ∈ seen)) as [Hin|Hin].
  - destruct (IH w) as (w' & E' & F' & T'). exists w'. split; [exact E'|].
    split; [rewrite F'; set_solver|done].
  - destruct (resolve_run (E := unit) key t w) as (w1 & E1 & F1 & T1 & K1).
    rewrite (run_bind _ _ _ _ _ E1). destruct (IH w1) as (w' & E' & F' & T' & K'). exists w'.
    split; [exact E'|]. split; [rewrite F', F1; set_solver|]. split; congruence.
Qed.

Lemma perm_keys {A} (f : A -> list string) l l' : l ≡ₚ l' ->
  (list_to_set (l ≫= f) : gset string) = list_to_set (l' ≫= f).
Proof. intros Hp. apply list_to_set_perm_L. by rewrite Hp. Qed.
Lemma health_round w0 now w : round w0 ∅ w -> exists w',
  (ranged env health_of ≫= fun hs => fold_each (check_health env cfg now) ∅ hs : M H unit (gset string)) w =
    (w', Ok (list_to_set (health_of w0 ≫= health_keys now))) /\
  round w0 (list_to_set (health_of w0 ≫= health_keys now)) w'.
Proof.
  intros Hw. destruct (ranged_run (E := unit) health_of w) as (hs & w1 & E1 & A1 & P1); [done|].
  rewrite (run_bind _ _ _ _ _ E1).
  destruct (fold_run w0 _ _ hs (health_run w0 now) ∅ w1 (round_alike _ _ _ _ Hw A1)) as (w2 & E2 & R2).
  exists w2. destruct Hw as (_ & [= Eh _ _ _] & _). unfold health_of in *. rewrite Eh in P1.
  rewrite (right_id_L ∅ (∪)), (perm_keys _ _ _ P1) in E2, R2. by rewrite E2.
Qed.
Lemma expiry_round w0 now seen w : round w0 seen w -> exists w',
  (if 0 <? warn_window cfg
   then ranged env sims_of ≫= fun sims => fold_each (check_expiry env cfg now) seen sims
   else mret seen : M H unit (gset string)) w = (w', Ok (list_to_set (expiring now w0) ∪ seen)) /\
  round w0 (list_to_set (expiring now w0) ∪ seen) w'.
Proof.
  intros Hw. unfold expiring. destruct (0 <? warn_window cfg).
  2: { exists w. cbn [list_to_set]. by rewrite (left_id_L ∅ (∪)). }
  destruct (ranged_run (E := unit) sims_of w) as (l & w1 & E1 & A1 & P1); [done|].
  rewrite (run_bind _ _ _ _ _ E1).
  destruct (fold_run w0 _ _ l (expiry_run w0 now) seen w1 (round_alike _ _ _ _ Hw A1)) as (w2 & E2 & R2).
  exists w2. destruct Hw as (_ & [= _ Es _ _] & _). unfold sims_of in *. rewrite Es in P1.
  rewrite (perm_keys _ _ _ P1) in E2, R2. by rewrite E2.
Qed.
Lemma capacity_round w0 seen w : round w0 seen w -> exists w',
  (check_capacity env cfg (GetPolicy (store w)) (zlen (ListSessions (store w))) seen : M H unit (gset string)) w =
    (w', Ok (list_to_set (capacity_keys w0) ∪ seen)) /\
  round w0 (list_to_set (capacity_keys w0) ∪ seen) w'.
Proof.
  intros Hw. pose proof Hw as (_ & [= _ _ El Ep] & _). unfold capacity_keys, check_capacity, GetPolicy, ListSessions.
  rewrite El, Ep. destruct (0 <? _); cbn [andb]; [by apply check_run|].
  exists w. cbn [key_if list_to_set]. by rewrite (left_id_L ∅ (∪)).
Qed.

(** One evaluation. *)
Lemma evaluate_spec w :
  let w' := (EvaluateAlerts w).1 in
  let hold := holding (clock env (ticks w)) w in
  (EvaluateAlerts w).2 = Ok tt /\ fired w' = hold /\ watched w' = watched w /\
  exists l, alert_keys w' = alert_keys w ++ l /\ NoDup l /\
    forall k, k ∈ l <-> k ∈ hold /\ k ∉ fired w.
Proof.
  unfold Control.EvaluateAlerts.
  destruct (now_run (E := unit) w) as (now & w1 & E1 & A1 & Enow). rewrite (run_bind _ _ _ _ _ E1).
  rewrite <- Enow. clear E1.
  assert (R0 : round w ∅ w).
  { split; [set_solver|]. split; [done|]. exists []. rewrite app_nil_r. split; [done|].
    split; [apply NoDup_nil_2|]. set_solver. }
  pose proof (round_alike _ _ _ _ R0 A1) as R1. clear R0 A1.
  destruct (health_round w now w1 R1) as (w2 & E2 & R2).
  rewrite (run_bind_assoc _ _ _ _ _ _ E2). clear E2 R1.
  destruct (expiry_round w now _ w2 R2) as (w3 & E3 & R3).
  rewrite (run_bind _ _ _ _ _ E3), run_gets_bind, run_gets_bind. clear E3 R2.
  destruct (capacity_round w _ w3 R3) as (w4 & E4 & R4).
  rewrite (run_bind _ _ _ _ _ E4). clear E4 R3. set (seen := _ ∪ _) in *.
  destruct (ranged_run (E := unit) (fun w => elements (fired w)) w4) as (keys & w5 & E5 & A5 & P5); [done|].
  rewrite (run_bind _ _ _ _ _ E5). destruct (round_alike _ _ _ _ R4 A5) as (F5 & T5 & l & K5 & Hl).
  destruct (resolve_all_run seen now keys w5) as (w6 & E6 & F6 & T6 & K6).
  rewrite E6. cbn [fst snd]. split; [done|].
  assert (Es : holding now w = seen) by (unfold holding, seen; set_solver). rewrite Es.
  assert (Ek : (list_to_set keys : gset string) = fired w5).
  { rewrite (list_to_set_perm_L _ _ P5), list_to_set_elements_L. by destruct A5. }
  clearbody seen. split.
  { rewrite F6, Ek, F5. apply set_eq. intros k. rewrite !elem_of_difference, elem_of_union.
    destruct (decide (k ∈ seen)); tauto. }
  split; [congruence|].
  exists l. split; [congruence|]. exact Hl.
Qed.

(** C19: The alert engine is edge-triggered.  An evaluation never fails; after
    it the engine remembers exactly the keys whose condition holds now, and
    it has appended one alert for each of them that it did not remember
    before and no other: a condition that goes on holding raises nothing
    again, and one that stopped is forgotten, so that it can be raised anew.
    This does not depend on the order the tables are visited in, nor on
    whether saves succeed. *)
Theorem alerts_edge_triggered w :
  let w' := (EvaluateAlerts w).1 in
  let hold := holding (clock env (ticks w)) w in
  (EvaluateAlerts w).2 = Ok tt /\ fired w' = hold /\ watched w' = watched w /\
  exists l, alert_keys w' = alert_keys w ++ l /\ NoDup l /\
    forall k, k ∈ l <-> k ∈ hold /\ k ∉ fired w.
Proof. apply evaluate_spec. Qed.
End Alerts.

(** What the engine remembers lives in the process: after a restart a
    condition that still holds raises a second alert, and the first is never
    resolved. *)
Example restart_repeats_alerts :
  let c := {| Default with AlertsEnabled := true |} in
  let h := mkHealth "n1" 1 "lab" f64_zero None false false "ok" "x86" "zmq" false true in
  let d := {| no_files with f_health := Some {["n1"%string := h]} |} in
  let w := run demo_env c "" "n1" "dev" None (fun _ => None) (demo_world None_ (mkStore (Store.load d) d))
             [Job TickAlerts; Job TickAlerts; Restart "hub"; Job TickAlerts] in
  (fun a => (alKey a, Resolved a)) <$> alerts (mem (store w)) = [("freq:n1"%string, false); ("freq:n1"%string, false)].
Proof. vm_compute. reflexivity. Qed.
