(* ===== verification/Backup.v ===== *)
(** * Backup: archives of the data directory

    [core/fairwave-control/internal/api/backup.go].  A directory is a map
    from paths, lists of components, to contents; the archive format (tar in
    gzip) is a class with its round trip, AES-GCM the class of
    [EsimRegistry].  What the file system answers is an argument. *)
From S2P Require Import Prelude.
From S2P Require Import Paths.
From S2P Require Import Encoding.
From S2P Require Import Sha256.
From S2P Require Import EsimRegistry.
From S2P Require Import Api.
From S2P Require Import Store.
From S2P Require Import Control.
From S2P Require ControlFacts.
From S2P Require Routes.

(** ** Directories and archives *)
Notation Path := (list string).
(** A path is a file with its bytes, or a directory. *)
Notation Tree := (gmap (list string) (option bytes)).
Record Entry := mkEntry { eName : string; eBody : option bytes }.
Class Archiver := {
  pack : list Entry -> bytes;
  (** The entries that can be read, and whether the archive ends well; none
      where it is no archive at all. *)
  unpack : bytes -> option (list Entry * bool);
  unpack_pack : forall l, unpack (pack l) = Some (l, true);
  pack_bytes : forall l, Forall is_byte (pack l);
}.

Inductive Error :=
  | ErrWalk | ErrRand | ErrMagic | ErrShort | ErrDecrypt | ErrTemp | ErrGzip | ErrArchive
  | ErrUnsafe | ErrWrite | ErrRemove | ErrRename.
(** What the file system answers to a restore. *)
Record Io := mkIo {
  mk_temp : bool;
  writes : string -> bool;                        (* by entry name *)
  removes : Tree -> option (option Tree);         (* what a failing RemoveAll leaves *)
  renames : bool;
}.

Section Backup.
Context `{!Aead} `{!Archiver}.

Definition magic : bytes := [70; 87; 66; 65; 75; 49; 0; 0].
Definition archive_key (passphrase : string) : bytes := Sum256 (string_bytes passphrase).
Definition encryptArchive (nonce : option bytes) (plain : bytes) (passphrase : string) : res Error bytes :=
  match nonce with
  | None => Err ErrRand
  | Some n => Ok (magic ++ n ++ seal (archive_key passphrase) n plain)
  end.
Definition decryptArchive (data : bytes) (passphrase : string) : res Error bytes :=
  if (zlen data <? zlen magic) || negb (bool_decide (slice data 0 (zlen magic) = magic)) then Err ErrMagic else
  let sealed := drop (Z.to_nat (zlen magic)) data in
  if zlen sealed <? 12 then Err ErrShort else
  match open (archive_key passphrase) (slice sealed 0 12) (drop 12 sealed) with
  | None => Err ErrDecrypt
  | Some plain => Ok plain
  end.

(** [walk] is whether the walk met no error, [order] the order it takes. *)
Definition createBackup (walk : bool) (order : list (Path * option bytes) -> list (Path * option bytes))
    (nonce : option bytes) (dir : option Tree) (passphrase : string) : res Error bytes :=
  match dir with
  | None => Err ErrWalk
  | Some t =>
      if negb walk then Err ErrWalk else
      let buf := pack ((fun x => mkEntry (join x.1) x.2) <$> order (map_to_list t)) in
      if decide (passphrase = ""%string) then Ok buf else encryptArchive nonce buf passphrase
  end.

(** [os.MkdirAll] below [pre]; a file in the way is an error. *)
Fixpoint mkdirs (pre rest : Path) (t : Tree) : option Tree :=
  match rest with
  | [] => Some t
  | c :: rest =>
      let p := pre ++ [c] in
      match t !! p with
      | Some (Some _) => None
      | _ => mkdirs p rest (<[p := None]> t)
      end
  end.
(** [os.Create] and the copy; the target may not be a directory. *)
Definition create (p : Path) (data : bytes) (t : Tree) : option Tree :=
  match p, t !! p with
  | [], _ => None
  | _, Some None => None
  | _, _ => Some (<[p := Some data]> t)
  end.
Definition restore_entry (io : Io) (e : Entry) (staging : Tree) : res Error Tree :=
  let name := Clean (eName e) in
  if HasPrefix name ".." || HasPrefix name "/" then Err ErrUnsafe else
  if negb (writes io (eName e)) then Err ErrWrite else
  let p := clean (eName e) in
  let made := match eBody e with
              | None => mkdirs [] p staging
              | Some data => match mkdirs [] (removelast p) staging with
                             | None => None
                             | Some t => create p data t
                             end
              end in
  match made with None => Err ErrWrite | Some t => Ok t end.
Fixpoint restore_entries (io : Io) (l : list Entry) (staging : Tree) : res Error Tree :=
  match l with
  | [] => Ok staging
  | e :: l => match restore_entry io e staging with
              | Err x => Err x
              | Ok t => restore_entries io l t
              end
  end.
(** Unpack into an empty staging directory. *)
Definition stage (io : Io) (data : bytes) (passphrase : string) : res Error Tree :=
  match (if decide (passphrase = ""%string) then Ok data else decryptArchive data passphrase) with
  | Err x => Err x
  | Ok raw =>
      if negb (mk_temp io) then Err ErrTemp else
      match unpack raw with
      | None => Err ErrGzip
      | Some (l, complete) =>
          match restore_entries io l ∅ with
          | Err x => Err x
          | Ok t => if complete then Ok t else Err ErrArchive
          end
      end
  end.
(** The data directory after it, none if there is none any more. *)
Definition restoreBackup (io : Io) (data : bytes) (passphrase : string) (dir : option Tree)
    : option Tree * res Error unit :=
  match stage io data passphrase with
  | Err x => (dir, Err x)
  | Ok staging =>
      match (match dir with None => None | Some t => removes io t end) with
      | Some rest => (rest, Err ErrRemove)
      | None => if renames io then (Some staging, Ok tt) else (None, Err ErrRename)
      end
  end.

(** The store's save of one table, on the directory: a temporary file that
    replaces the table's. *)
Definition save_file (wrote renamed : bool) (name : string) (doc : bytes) (dir : option Tree) : option Tree :=
  match dir with
  | None => None
  | Some t =>
      let path := name +:+ ".json" in
      let tmp := path +:+ ".tmp" in
      if negb wrote then Some t
      else if negb renamed then Some (<[[tmp] := Some doc]> t)
      else Some (<[[path] := Some doc]> (delete [tmp] t))
  end.
(** [handleRestore]: the directory after the audit entry is saved, the audit
    trail in memory and the reply's status.  [audit_doc] is the trail's JSON;
    a body over 64 MB is cut, one that cannot be read is refused. *)
Definition handleRestore (io : Io) (audit_doc : list AuditEntry -> bytes) (trail : list AuditEntry)
    (entry : AuditEntry) (wrote renamed : bool) (body : option bytes) (passphrase : string)
    (dir : option Tree) : option Tree * list AuditEntry * Z :=
  match body with
  | None => (dir, trail, 400)
  | Some body =>
      let data := take (Z.to_nat (64 * 2 ^ 20)) body in
      if bool_decide (data = []) then (dir, trail, 400) else
      match restoreBackup io data passphrase dir with
      | (dir, Err _) => (dir, trail, 400)
      | (dir, Ok _) =>
          let trail := trail ++ [entry] in
          (save_file wrote renamed "audit" (audit_doc trail) dir, trail, 200)
      end
  end.
(** What a restore's body comes to, for [Routes.Restore_]: [read] is how the
    store's tables are loaded from a directory. *)
Definition restore_body (io : Io) (read : option Tree -> Files) (body : option bytes) (passphrase : string)
    (dir : option Tree) : option (option (Files * bool)) :=
  match body with
  | None => None
  | Some body =>
      let data := take (Z.to_nat (64 * 2 ^ 20)) body in
      if bool_decide (data = []) then None else
      match restoreBackup io data passphrase dir with
      | (dir, Ok _) => Some (Some (read dir, true))
      | (dir, Err ErrRemove) | (dir, Err ErrRename) => Some (Some (read dir, false))
      | (_, Err _) => Some None
      end
  end.
Definition handleBackup (walk : bool) (order : list (Path * option bytes) -> list (Path * option bytes))
    (nonce : option bytes) (dir : option Tree) (passphrase : string) (trail : list AuditEntry)
    (entry : AuditEntry) : res Error bytes * list AuditEntry * Z :=
  match createBackup walk order nonce dir passphrase with
  | Err x => (Err x, trail, 500)
  | Ok data => (Ok data, trail ++ [entry], 200)
  end.
End Backup.

(** ** Restoring *)
(** A directory as a backup finds it: plain names that do not start with two
    dots, each entry in a directory. *)
Definition tree_ok (t : Tree) : Prop := forall p b, t !! p = Some b ->
  p <> [] /\ Forall ordinary p /\ (forall c, head p = Some c -> HasPrefix c ".." = false) /\
  forall q r, p = q ++ r -> q <> [] -> r <> [] -> t !! q = Some None.

Lemma mkdirs_below t rest : forall pre s, s ⊆ t ->
  (forall q r, rest = q ++ r -> q <> [] -> t !! (pre ++ q) = Some None) ->
  exists s', mkdirs pre rest s = Some s' /\ s ⊆ s' /\ s' ⊆ t /\
    (rest <> [] -> s' !! (pre ++ rest) = Some None).
Proof.
  induction rest as [|c rest IH]; intros pre s Hs Hd; cbn [mkdirs]; [by exists s|].
  assert (Hc : t !! (pre ++ [c]) = Some None) by by apply (Hd [c] rest).
  assert (Hs1 : <[pre ++ [c] := None]> s ⊆ t) by by apply insert_subseteq_l.
  assert (Hss : s ⊆ <[pre ++ [c] := None]> s).
  { apply map_subseteq_spec. intros p b Hp. destruct (decide (p = pre ++ [c])) as [->|].
    - rewrite lookup_insert_eq. rewrite (lookup_weaken _ _ _ _ Hp Hs) in Hc. congruence.
    - by rewrite lookup_insert_ne. }
  assert (Hgo : exists s', mkdirs (pre ++ [c]) rest (<[pre ++ [c] := None]> s) = Some s' /\
     <[pre ++ [c] := None]> s ⊆ s' /\ s' ⊆ t /\
     (rest <> [] -> s' !! ((pre ++ [c]) ++ rest) = Some None)).
  { apply IH; [done|]. intros q r -> Hq. rewrite <- app_assoc. by apply (Hd (c :: q) r). }
  destruct Hgo as (s' & E & Hs' & Ht & Hl). exists s'.
  split. { destruct (s !! (pre ++ [c])) as [[b|]|] eqn:El; [|done|done].
           rewrite (lookup_weaken _ _ _ _ El Hs) in Hc. congruence. }
  split; [by etransitivity|]. split; [done|]. intros _. rewrite cons_middle, app_assoc.
  destruct rest as [|d rest]; [|by apply Hl].
  rewrite app_nil_r. eapply lookup_weaken; [|exact Hs']. apply lookup_insert_eq.
Qed.

Section Restoring.
Context `{!Aead} `{!Archiver}.
Definition entry_of (x : Path * option bytes) : Entry := mkEntry (join x.1) x.2.

Lemma restore_entry_below io t p b s : tree_ok t -> t !! p = Some b -> s ⊆ t ->
  (forall n, writes io n = true) ->
  exists s', restore_entry io (entry_of (p, b)) s = Ok s' /\ s ⊆ s' /\ s' ⊆ t /\ s' !! p = Some b.
Proof.
  intros Ht Hp Hs Hw. destruct (Ht p b Hp) as (Hne & Hpl & Hh & Hd).
  destruct (Clean_plain p Hne Hpl Hh) as [Ec Eu].
  unfold restore_entry, entry_of. cbn [eName eBody fst snd]. rewrite Eu, Ec, Hw. cbn [negb].
  destruct b as [data|].
  - destruct (exists_last Hne) as (q & c & ->). rewrite removelast_last.
    destruct (mkdirs_below t q [] s Hs) as (s1 & E1 & Hs1 & Ht1 & _).
    { intros q1 r -> Hq1. cbn [app]. apply (Hd q1 (r ++ [c])); [by rewrite app_assoc|done|by destruct r]. }
    rewrite E1. exists (<[q ++ [c] := Some data]> s1).
    assert (Hcr : create (q ++ [c]) data s1 = Some (<[q ++ [c] := Some data]> s1)).
    { unfold create. destruct (q ++ [c]) eqn:E; [by destruct q|]. rewrite <- E in *.
      destruct (s1 !! (q ++ [c])) as [[]|] eqn:El; [done| |done].
      rewrite (lookup_weaken _ _ _ _ El Ht1) in Hp. congruence. }
    rewrite Hcr. split; [done|]. split.
    + apply map_subseteq_spec. intros p' b' Hp'. destruct (decide (p' = q ++ [c])) as [->|].
      * rewrite lookup_insert_eq. rewrite <- Hp. by apply (lookup_weaken s t).
      * rewrite lookup_insert_ne by done. by eapply lookup_weaken.
    + split; [by apply insert_subseteq_l|apply lookup_insert_eq].
  - destruct (mkdirs_below t p [] s Hs) as (s1 & E1 & Hs1 & Ht1 & Hl).
    { intros q1 r -> Hq1. cbn [app]. destruct r as [|x r]; [by rewrite app_nil_r in Hp|].
      by apply (Hd q1 (x :: r)). }
    rewrite E1. exists s1. split; [done|]. split; [done|]. split; [done|]. by apply Hl.
Qed.
Lemma restore_entries_below io t l : tree_ok t -> (forall n, writes io n = true) ->
  forall s, s ⊆ t -> (forall x, x ∈ l -> t !! x.1 = Some x.2) ->
  exists s', restore_entries io (entry_of <$> l) s = Ok s' /\ s ⊆ s' /\ s' ⊆ t /\
    forall x, x ∈ l -> s' !! x.1 = Some x.2.
Proof.
  intros Ht Hw. induction l as [|[p b] l IH]; intros s Hs Hl; cbn [fmap list_fmap restore_entries].
  { exists s. split; [done|]. split; [done|]. split; [done|]. by intros x ?%not_elem_of_nil. }
  destruct (restore_entry_below io t p b s Ht) as (s1 & E1 & Hs1 & Ht1 & Hp1);
    [by apply (Hl (p, b)); left|done|done|].
  rewrite E1. destruct (IH s1 Ht1) as (s2 & E2 & Hs2 & Ht2 & Hl2).
  { intros x Hx. apply Hl. by right. }
  exists s2. split; [done|]. split; [by etransitivity|]. split; [done|].
  intros x [->|Hx]%elem_of_cons; [by eapply lookup_weaken|by apply Hl2].
Qed.
Lemma archive_roundtrip nonce plain passphrase data : zlen nonce = 12 -> Forall is_byte plain ->
  encryptArchive (Some nonce) plain passphrase = Ok data -> decryptArchive data passphrase = Ok plain.
Proof.
  intros Hn Hp E. unfold encryptArchive in E.
  assert (Hd : data = magic ++ nonce ++ seal (archive_key passphrase) nonce plain) by congruence.
  clear E. rewrite Hd. unfold decryptArchive. set (body := seal _ nonce plain).
  assert (Hm : zlen magic = 8) by done. rewrite !zlen_app, Hm, Hn. pose proof (zlen_nonneg body).
  replace (8 + (12 + zlen body) <? 8) with false by (symmetry; zbool; lia).
  rewrite slice_app_l by done. rewrite bool_decide_true by done. cbn [negb orb].
  change (drop (Z.to_nat 8) (magic ++ nonce ++ body)) with (nonce ++ body).
  rewrite zlen_app, Hn. replace (12 + zlen body <? 12) with false by (symmetry; zbool; lia).
  rewrite slice_app_l by done. unfold body.
  rewrite drop_app_length' by (unfold zlen in Hn; lia). by rewrite open_seal.
Qed.

(** The entry a restore appends is saved over the restored trail: it is the
    trail in memory that the directory ends with. *)
Lemma restored_audit_overwritten io doc trail entry data passphrase dir staged :
  data <> [] -> zlen data <= 64 * 2 ^ 20 ->
  restoreBackup io data passphrase dir = (Some staged, Ok tt) ->
  handleRestore io doc trail entry true true (Some data) passphrase dir =
    (Some (<[["audit.json"%string] := Some (doc (trail ++ [entry]))]>
             (delete ["audit.json.tmp"%string] staged)), trail ++ [entry], 200).
Proof.
  intros Hne Hlen E. unfold handleRestore. rewrite take_ge by (unfold zlen in Hlen; lia).
  by rewrite bool_decide_false, E by done.
Qed.
(** C37: A backup restores.  Take a directory of ordinary names, that do not
    start with two dots, and a backup that reads it without errors, in whatever
    order it is walked and with or without a passphrase.  Where the temporary
    directory, its files, the removal of the old directory and the move succeed,
    [restoreBackup] leaves exactly that directory, whatever was there before;
    and the handler, given an archive of at most 64 MB, answers 200 and leaves
    it with one file changed: [audit.json] is the trail the server had in
    memory, with the restore's own entry. *)
Theorem backup_restores order nonce t passphrase data io before :
  tree_ok t -> (forall l, order l ≡ₚ l) -> zlen nonce = 12 ->
  mk_temp io = true -> (forall n, writes io n = true) -> (forall t, removes io t = None) ->
  renames io = true ->
  createBackup true order (Some nonce) (Some t) passphrase = Ok data ->
  restoreBackup io data passphrase before = (Some t, Ok tt) /\
  (data <> [] -> zlen data <= 64 * 2 ^ 20 -> forall doc trail entry,
     handleRestore io doc trail entry true true (Some data) passphrase before =
       (Some (<[["audit.json"%string] := Some (doc (trail ++ [entry]))]>
                (delete ["audit.json.tmp"%string] t)), trail ++ [entry], 200)).
Proof.
  intros Ht Ho Hn Hmk Hw Hrm Hren Hb. unfold createBackup in Hb. cbn [negb] in Hb.
  set (l := order (map_to_list t)) in Hb.
  assert (Hl : forall x, x ∈ l <-> t !! x.1 = Some x.2).
  { intros [p b]. unfold l. rewrite Ho. apply elem_of_map_to_list. }
  fold entry_of in Hb. change ((fun x => mkEntry (join x.1) x.2) <$> l) with (entry_of <$> l) in Hb.
  assert (Hraw : (if decide (passphrase = ""%string) then Ok data else decryptArchive data passphrase) =
                 Ok (pack (entry_of <$> l))).
  { destruct (decide _); [congruence|]. eapply archive_roundtrip; [done|apply pack_bytes|done]. }
  destruct (restore_entries_below io t l Ht Hw ∅) as (s & E & _ & Hs & Hall).
  { apply map_empty_subseteq. } { intros x. apply Hl. }
  assert (Es : s = t).
  { apply (anti_symm (⊆)); [done|]. apply map_subseteq_spec. intros p b Hp. by apply (Hall (p, b)), Hl. }
  assert (Hres : restoreBackup io data passphrase before = (Some t, Ok tt)).
  { unfold restoreBackup, stage. rewrite Hraw, Hmk, unpack_pack, E. cbn [negb].
    rewrite Es. destruct before; rewrite ?Hrm, Hren; done. }
  split; [exact Hres|]. intros Hne Hlen doc trail entry. by apply restored_audit_overwritten.
Qed.

(** Every path of a tree is made of plain components. *)
Definition all_plain (t : Tree) : Prop := forall p b, t !! p = Some b -> p <> [] /\ Forall ordinary p.
Lemma all_plain_insert p b t : all_plain t -> p <> [] -> Forall ordinary p -> all_plain (<[p := b]> t).
Proof. intros Ht Hne Hp q b' [[<- _]|[_ Hq]]%lookup_insert_Some; [done|by apply (Ht q b')]. Qed.
Lemma mkdirs_plain rest : forall pre t t', Forall ordinary pre -> Forall ordinary rest -> all_plain t ->
  mkdirs pre rest t = Some t' -> all_plain t'.
Proof.
  induction rest as [|c rest IH]; intros pre t t' Hpre Hrest Ht E; cbn [mkdirs] in E; [by simplify_eq|].
  apply Forall_cons in Hrest as [Hc Hrest].
  assert (Hp : Forall ordinary (pre ++ [c])) by (apply Forall_app; auto).
  apply (IH (pre ++ [c]) (<[pre ++ [c] := None]> t)); [done|done| |by repeat case_match].
  apply all_plain_insert; [done|by destruct pre|done].
Qed.
Lemma restore_entry_plain io e t t' : all_plain t -> restore_entry io e t = Ok t' -> all_plain t'.
Proof.
  unfold restore_entry. intros Ht E.
  destruct (HasPrefix (Clean (eName e)) ".." || HasPrefix (Clean (eName e)) "/") eqn:Eu; [done|].
  apply orb_false_iff in Eu as [Ed Es]. apply Clean_relative in Es.
  pose proof (clean_inside (eName e) Es Ed) as Hp. destruct (writes io (eName e)); [|done].
  cbn [negb] in E. destruct (eBody e) as [data|].
  - destruct (mkdirs [] (removelast (clean (eName e))) t) as [s|] eqn:Em; [|done].
    assert (Hs : all_plain s).
    { apply (mkdirs_plain (removelast (clean (eName e))) [] t); [done| |done|done].
      destruct (clean (eName e)) as [|c p] using rev_ind; [done|].
      rewrite removelast_last. by apply Forall_app in Hp as [? _]. }
    unfold create in E. repeat case_match; try done; simplify_eq; by apply all_plain_insert.
  - destruct (mkdirs [] (clean (eName e)) t) as [s|] eqn:Em; [|done]. simplify_eq.
    by apply (mkdirs_plain (clean (eName e)) [] t).
Qed.
Lemma restore_entries_plain io l : forall t t', all_plain t -> restore_entries io l t = Ok t' -> all_plain t'.
Proof.
  induction l as [|e l IH]; intros t t' Ht E; cbn [restore_entries] in E; [by simplify_eq|].
  destruct (restore_entry io e t) as [s|] eqn:Ee; [|done].
  apply (IH s); [by eapply restore_entry_plain|done].
Qed.
Lemma stage_plain io data passphrase t : stage io data passphrase = Ok t -> all_plain t.
Proof.
  unfold stage. intros E. repeat case_match; try done; simplify_eq;
    by (eapply restore_entries_plain; [|eassumption]; intros p b ?%lookup_empty_Some).
Qed.

(** C38: A restore stays inside its directory, and is all or nothing until it
    commits.  Whatever the uploaded bytes are, what a successful restore
    leaves is the staged archive, every path of which is made of ordinary
    components, none empty, a dot, two dots or with a slash in it; and a restore that
    fails has left the data directory as it was, unless what failed is the
    removal of the old directory or the move of the staged one. *)
Theorem restore_contained io data passphrase dir dir' r :
  restoreBackup io data passphrase dir = (dir', r) ->
  match r with
  | Ok _ => exists t, stage io data passphrase = Ok t /\ dir' = Some t /\ all_plain t
  | Err x => dir' = dir \/ x = ErrRemove \/ x = ErrRename
  end.
Proof.
  unfold restoreBackup. intros E. destruct (stage io data passphrase) as [t|x] eqn:Es.
  - apply stage_plain in Es as Hp. repeat case_match; simplify_eq; eauto.
  - simplify_eq. by left.
Qed.

(** A staging directory on another file system: the move fails and the data
    directory is gone. *)
Lemma failed_rename_loses_directory io data passphrase t staged :
  stage io data passphrase = Ok staged -> removes io t = None -> renames io = false ->
  restoreBackup io data passphrase (Some t) = (None, Err ErrRename).
Proof. intros Hs Hr Hn. unfold restoreBackup. by rewrite Hs, Hr, Hn. Qed.
End Restoring.

(** ** The handler of the routes *)
Section Served.
Context {H : Type} `{!Writer H} `{!Format} (env : Control.Env) `{!Aead} `{!Archiver}.
(** The route's handler answers as the archive's, and what it leaves in the
    store's files is what is read from the directory, but for the trail. *)
Lemma restore_served io read doc trail entry wrote renamed body passphrase dir principal (w : World H) :
  let '(dir', _) := match body with
                    | Some b => restoreBackup io (take (Z.to_nat (64 * 2 ^ 20)) b) passphrase dir
                    | None => (dir, Err ErrArchive) end in
  let '(_, _, status) := handleRestore io doc trail entry wrote renamed body passphrase dir in
  let '(w', x) := Routes.handleRestore env principal (restore_body io read body passphrase dir) w in
  Routes.status_ (match x with Ok x => x | Err x => x end) = status /\
  (is_ok x = true -> forall read_audit, let d := read dir' in
     {| (disk (store w')) with f_audit := read_audit |} = {| d with f_audit := read_audit |}).
Proof.
  unfold handleRestore, restore_body. destruct body as [body|]; [|by cbn].
  set (data := take _ body). destruct (restoreBackup io data passphrase dir) as [dir' r] eqn:E.
  case_bool_decide; [by cbn|].
  destruct r as [[]|x]; [|by destruct x].
  unfold Routes.handleRestore, Routes.readJSON. rewrite ControlFacts.run_ret_bind. cbv beta iota.
  rewrite ControlFacts.run_modify_bind. unfold Routes.require. rewrite ControlFacts.run_ret_bind.
  match goal with |- context [(_ ≫= _) ?w0] => destruct (ControlFacts.audit_run (E := Routes.Response) env principal
    "restore" "" "state restored; restart the control plane to load it" w0) as (id & t & n & Ea) end.
  rewrite (ControlFacts.run_bind _ _ _ _ _ Ea). split; [done|].
  intros _ read_audit. cbn. unfold AppendAudit, save. by destruct (save_ok env n), (read dir').
Qed.
End Served.

(** ** A directory, an archive and a file system *)
(** An archive of entries: the bits of their code. *)
Fixpoint bits (p : positive) : bytes :=
  match p with xH => [] | xO p => 0 :: bits p | xI p => 1 :: bits p end.
Fixpoint from_bits (b : bytes) : positive :=
  match b with
  | [] => xH
  | x :: b => if x =? 0 then xO (from_bits b) else xI (from_bits b)
  end.
Lemma from_bits_bits p : from_bits (bits p) = p.
Proof. induction p; cbn; congruence. Qed.
Definition pairs (l : list Entry) : list (string * option bytes) := (fun e => (eName e, eBody e)) <$> l.
#[export] Instance bit_archiver : Archiver.
Proof.
  refine {| pack := fun l => bits (encode (pairs l));
    unpack := fun b => match decode (from_bits b) : option (list (string * option bytes)) with
                     | Some l => Some (map (fun x => mkEntry x.1 x.2) l, true)
                     | None => None
                     end |}.
  - intros l. rewrite from_bits_bits, decode_encode. do 2 f_equal.
    induction l as [|[n b] l IH]; [done|].
    change (mkEntry n b :: map (fun x => mkEntry x.1 x.2) (pairs l) = mkEntry n b :: l). by rewrite IH.
  - intros l. generalize (encode (pairs l)). induction p as [p IH|p IH|]; cbn; constructor; try done; lia.
Defined.

Definition demo_tree : Tree :=
  {[ ["audit.json"%string] := Some [91; 93]; ["esim"%string] := None;
     ["esim"; "profiles.json"]%string := Some [123; 125] ]}.
Definition demo_io : Io := mkIo true (fun _ => true) (fun _ => None) true.
Definition demo_nonce : bytes := repeat 7 12.
(** The same archive, under a passphrase. *)
Definition demo_archive : res Error bytes :=
  createBackup true (fun l => l) (Some demo_nonce) (Some demo_tree) "lab".

Lemma demo_tree_ok : tree_ok demo_tree.
Proof.
  intros p b Hp. unfold demo_tree in Hp.
  repeat (apply lookup_insert_Some in Hp as [[<- <-]|[_ Hp]]); try (by rewrite lookup_empty in Hp);
    try (apply lookup_singleton_Some in Hp as [<- <-]).
  all: split; [done|]; split; [repeat constructor; (done || by vm_compute)|].
  all: split; [intros c [= <-]; by vm_compute|].
  all: intros [|x [|y q]] r E Hq Hr; try done; injection E; intros; subst; try done;
    solve [by vm_compute|by destruct r|by destruct q, r].
Qed.
Lemma backup_restores_witness :
  match demo_archive with
  | Ok data => restoreBackup demo_io data "lab" None = (Some demo_tree, Ok tt)
  | Err _ => False
  end.
Proof.
  destruct demo_archive as [data|] eqn:E; [|done].
  refine (proj1 (backup_restores (fun l => l) demo_nonce demo_tree "lab" data demo_io None _ _ _ _ _ _ _ E)); try done.
  apply demo_tree_ok.
Defined.
Lemma restore_contained_witness :
  match restoreBackup demo_io (pack [mkEntry "../up" None]) "" (Some demo_tree) with
  | (dir', Err x) => dir' = Some demo_tree \/ x = ErrRemove \/ x = ErrRename
  | _ => False
  end.
Proof.
  pose proof (restore_contained demo_io (pack [mkEntry "../up" None]) "" (Some demo_tree)
    _ _ (surjective_pairing _)) as H.
  assert (E : (restoreBackup demo_io (pack [mkEntry "../up" None]) "" (Some demo_tree)).2 = Err ErrUnsafe)
    by (vm_compute; reflexivity).
  destruct (restoreBackup _ _ _ _) as [dir' r]. cbn in E, H. subst r. exact H.
Defined.

(** A legal file name that starts with two dots is backed up and then refused:
    the whole backup that has it cannot be restored. *)
Example dotted_name_unrestorable :
  match createBackup true (fun l => l) None (Some {[ ["..notes"%string] := Some [1] ]}) "" with
  | Ok data => restoreBackup demo_io data "" (Some demo_tree) = (Some demo_tree, Err ErrUnsafe)
  | Err _ => False
  end.
Proof. vm_compute. reflexivity. Qed.
