(* ===== verification/Csv.v ===== *)
(** * Csv: comma-separated files

    Go's [encoding/csv] as the sources use it: the writer with its quoting
    rule and the reader, with the round trip between them.  The SIM batches
    [core/sim-ops/simprov] writes, the batches the command line reads back and
    the compliance export of the control plane go through it. *)
From S2P Require Import Prelude.
From S2P Require Import Paths.

Definition chr (n : nat) : Ascii.ascii := Ascii.ascii_of_nat n.
Definition dquote := chr 34.
Definition comma := chr 44.
Definition lf := chr 10.
Definition cr := chr 13.
Definition str (c : Ascii.ascii) : string := String c EmptyString.

(** ** The writer *)
Fixpoint has (p : Ascii.ascii -> bool) (s : string) : bool :=
  match s with EmptyString => false | String c s => p c || has p s end.
Definition special (c : Ascii.ascii) : bool :=
  bool_decide (c = dquote) || bool_decide (c = comma) || bool_decide (c = lf) || bool_decide (c = cr).
(** The first rune is a space: in ASCII, Latin-1 or the general punctuation. *)
Definition leading_space (s : string) : bool :=
  match string_bytes s with
  | a :: l =>
      ((9 <=? a) && (a <=? 13)) || (a =? 32) ||
      match l with
      | b :: l => ((a =? 194) && ((b =? 133) || (b =? 160))) ||
          match l with
          | c :: _ =>
              ((a =? 225) && (b =? 154) && (c =? 128)) || ((a =? 227) && (b =? 128) && (c =? 128)) ||
              ((a =? 226) && (((b =? 128) && (((128 <=? c) && (c <=? 138)) || (c =? 168) || (c =? 169) || (c =? 175)))
                              || ((b =? 129) && (c =? 159))))
          | [] => false
          end
      | [] => false
      end
  | [] => false
  end.
Definition fieldNeedsQuotes (s : string) : bool :=
  if decide (s = ""%string) then false
  else if decide (s = "\."%string) then true
  else has special s || leading_space s.
Fixpoint escape (s : string) : string :=
  match s with
  | EmptyString => EmptyString
  | String c s => if decide (c = dquote) then String dquote (String dquote (escape s)) else String c (escape s)
  end.
Definition write_field (s : string) : string :=
  if fieldNeedsQuotes s then String dquote (escape s +:+ str dquote) else s.
Fixpoint write_fields (r : list string) : string :=
  match r with
  | [] => EmptyString
  | [f] => write_field f
  | f :: r => write_field f +:+ String comma (write_fields r)
  end.
Definition Write (r : list string) : string := write_fields r +:+ str lf.
Fixpoint WriteAll (l : list (list string)) : string :=
  match l with [] => EmptyString | r :: l => Write r +:+ WriteAll l end.

(** ** The reader *)
Inductive Error := ErrBareQuote | ErrQuote | ErrFieldCount.
(** A line ending in CR LF ends in LF; a CR the text ends with is dropped. *)
Fixpoint normalise (s : string) : string :=
  match s with
  | EmptyString => EmptyString
  | String c s' =>
      if decide (c = cr) then
        match s' with
        | EmptyString => EmptyString
        | String d _ => if decide (d = lf) then normalise s' else String c (normalise s')
        end
      else String c (normalise s')
  end.
Inductive Mode := LineStart | FieldStart | Plain | Quoted | AfterQuote.
(** The number of fields of a record: any, that of the first, or fixed. *)
Inductive Count := Any | First | Exactly (n : nat).
Definition counted (n : Count) (r : list string) : option Count :=
  match n with
  | Any => Some Any
  | First => Some (Exactly (length r))
  | Exactly k => if decide (length r = k) then Some n else None
  end.
(** What a character does in a mode. *)
Inductive Action := SkipLine | EndField | EndRecord | Goto (m : Mode) | Push (m : Mode) | Stop (e : Error).
Definition action (m : Mode) (c : Ascii.ascii) : Action :=
  match m with
  | LineStart =>
      if decide (c = lf) then SkipLine else if decide (c = dquote) then Goto Quoted
      else if decide (c = comma) then EndField else Push Plain
  | FieldStart =>
      if decide (c = lf) then EndRecord else if decide (c = dquote) then Goto Quoted
      else if decide (c = comma) then EndField else Push Plain
  | Plain =>
      if decide (c = lf) then EndRecord else if decide (c = dquote) then Stop ErrBareQuote
      else if decide (c = comma) then EndField else Push Plain
  | Quoted => if decide (c = dquote) then Goto AfterQuote else Push Quoted
  | AfterQuote =>
      if decide (c = dquote) then Push Quoted else if decide (c = comma) then EndField
      else if decide (c = lf) then EndRecord else Stop ErrQuote
  end.
(** The records from here on: in a record, its fields so far and the field
    being read. *)
Fixpoint scan (n : Count) (m : Mode) (fs : list string) (acc : string) (s : string)
    : res Error (list (list string)) :=
  match s with
  | EmptyString =>
      match m with
      | LineStart => Ok []
      | Quoted => Err ErrQuote
      | _ => match counted n (fs ++ [acc]) with Some _ => Ok [fs ++ [acc]] | None => Err ErrFieldCount end
      end
  | String c s =>
      match action m c with
      | SkipLine => scan n LineStart [] EmptyString s
      | EndField => scan n FieldStart (fs ++ [acc]) EmptyString s
      | EndRecord =>
          match counted n (fs ++ [acc]) with
          | Some n => l ← scan n LineStart [] EmptyString s; mret ((fs ++ [acc]) :: l)
          | None => Err ErrFieldCount
          end
      | Goto m => scan n m fs acc s
      | Push m => scan n m fs (acc +:+ str c) s
      | Stop e => Err e
      end
  end.
Definition ReadAll (n : Count) (s : string) : res Error (list (list string)) :=
  scan n LineStart [] EmptyString (normalise s).

(** ** The round trip *)
(** No CR: it is quoted, but a CR LF inside quotes is read back as LF. *)
Definition no_cr (s : string) : Prop := has (fun c => bool_decide (c = cr)) s = false.
(** A record the reader does not take for a blank line. *)
Definition visible (r : list string) : Prop := r <> [] /\ r <> [""%string].

Lemma string_snoc acc c s : (acc +:+ str c) +:+ s = acc +:+ String c s.
Proof. by rewrite string_assoc. Qed.
Lemma normalise_id s : no_cr s -> normalise s = s.
Proof.
  unfold no_cr. induction s as [|c s IH]; [done|]. intros [Hc Hs]%orb_false_iff.
  apply bool_decide_eq_false in Hc. cbn [normalise]. rewrite decide_False by done. by rewrite IH.
Qed.
Lemma has_app p s t : has p (s +:+ t) = has p s || has p t.
Proof.
  induction s as [|c s IH]; [done|].
  change (p c || has p (s +:+ t) = (p c || has p s) || has p t). by rewrite IH, orb_assoc.
Qed.
Lemma no_cr_escape s : no_cr s -> no_cr (escape s).
Proof.
  unfold no_cr. induction s as [|c s IH]; [done|]. intros [Hc Hs]%orb_false_iff. cbn [escape].
  destruct (decide (c = dquote)) as [->|]; cbn [has]; rewrite (IH Hs), ?Hc; done.
Qed.
Lemma no_cr_field s : no_cr s -> no_cr (write_field s).
Proof.
  intros Hs. unfold write_field. destruct (fieldNeedsQuotes s); [|done].
  apply no_cr_escape in Hs. unfold no_cr in *. cbn [has]. by rewrite has_app, Hs.
Qed.
Lemma no_cr_fields r : Forall no_cr r -> no_cr (write_fields r).
Proof.
  induction 1 as [|f r Hf Hr IH]; [done|]. apply no_cr_field in Hf.
  destruct r; [done|].
  change (no_cr (write_field f +:+ String comma (write_fields (s :: r)))).
  unfold no_cr in *. rewrite has_app, Hf. cbn [has orb]. by rewrite IH.
Qed.
Lemma no_cr_all l : Forall (Forall no_cr) l -> no_cr (WriteAll l).
Proof.
  induction 1 as [|r l Hr Hl IH]; [done|]. apply no_cr_fields in Hr. cbn [WriteAll].
  unfold Write, no_cr in *. by rewrite !has_app, Hr, IH.
Qed.

(** A quoted field is read to its closing quote. *)
Lemma scan_quoted n fs f : forall acc s,
  scan n Quoted fs acc (escape f +:+ String dquote s) = scan n AfterQuote fs (acc +:+ f) s.
Proof.
  induction f as [|c f IH]; intros acc s.
  - rewrite string_app_nil. change (escape "" +:+ String dquote s) with (String dquote s).
    done.
  - cbn [escape]. destruct (decide (c = dquote)) as [->|Hc].
    + change (String dquote (String dquote (escape f)) +:+ String dquote s) with
        (String dquote (String dquote (escape f +:+ String dquote s))).
      etransitivity; [apply IH|]. by rewrite string_snoc.
    + change (String c (escape f) +:+ String dquote s) with (String c (escape f +:+ String dquote s)).
      cbn [scan action]. rewrite decide_False by done. by rewrite IH, string_snoc.
Qed.
Lemma scan_plain n fs f : has special f = false -> forall acc s,
  scan n Plain fs acc (f +:+ s) = scan n Plain fs (acc +:+ f) s.
Proof.
  induction f as [|c f IH]; intros Hf acc s; [by rewrite string_app_nil|].
  apply orb_false_iff in Hf as [Hc Hf]. unfold special in Hc.
  repeat (apply orb_false_iff in Hc as [Hc ?%bool_decide_eq_false]). apply bool_decide_eq_false in Hc.
  change (String c f +:+ s) with (String c (f +:+ s)). cbn [scan action].
  rewrite !decide_False by done. by rewrite IH, string_snoc.
Qed.
(** What follows a field. *)
Definition ends (s : string) : Prop := exists c t, s = String c t /\ (c = comma \/ c = lf).
Lemma ends_cases n m fs acc s : ends s -> m = Plain \/ m = AfterQuote ->
  scan n m fs acc s = scan n FieldStart fs acc s.
Proof. intros (c & t & -> & [-> | ->]) [-> | ->]; done. Qed.
Lemma scan_field n m fs f s : ends s -> m = FieldStart \/ (m = LineStart /\ write_field f <> ""%string) ->
  scan n m fs EmptyString (write_field f +:+ s) = scan n FieldStart fs f s.
Proof.
  intros Hs Hm. unfold write_field in *. destruct (fieldNeedsQuotes f) eqn:Eq.
  - change (String dquote (escape f +:+ str dquote) +:+ s) with
      (String dquote ((escape f +:+ str dquote) +:+ s)). rewrite string_snoc.
    assert (E : scan n m fs "" (String dquote (escape f +:+ String dquote s)) =
                scan n Quoted fs "" (escape f +:+ String dquote s)) by (destruct Hm as [->|[-> _]]; done).
    rewrite E, scan_quoted. change ("" +:+ f) with f. apply ends_cases; auto.
  - unfold fieldNeedsQuotes in Eq. destruct (decide (f = "")) as [->|Hf].
    { destruct Hm as [->|[_ Hm]]; [done|done]. }
    destruct (decide (f = "\.")); [done|]. apply orb_false_iff in Eq as [Hsp _].
    destruct f as [|c f]; [done|]. apply orb_false_iff in Hsp as [Hc Hsp]. unfold special in Hc.
    repeat (apply orb_false_iff in Hc as [Hc ?%bool_decide_eq_false]). apply bool_decide_eq_false in Hc.
    change (String c f +:+ s) with (String c (f +:+ s)).
    assert (E : scan n m fs "" (String c (f +:+ s)) = scan n Plain fs (str c) (f +:+ s)).
    { destruct Hm as [->|[-> _]]; cbn [scan action]; rewrite !decide_False by done; done. }
    rewrite E, scan_plain by done. change (str c +:+ f) with (String c f). apply ends_cases; auto.
Qed.
Lemma ends_fields r s : ends (match r with [] => String lf s | _ => String comma (write_fields r +:+ String lf s) end).
Proof. destruct r; eexists _, _; eauto. Qed.
Lemma write_fields_cons f r s : write_fields (f :: r) +:+ String lf s =
  write_field f +:+ match r with [] => String lf s | _ => String comma (write_fields r +:+ String lf s) end.
Proof.
  destruct r as [|g r]; [done|].
  change (write_fields (f :: g :: r)) with (write_field f +:+ String comma (write_fields (g :: r))).
  by rewrite string_assoc.
Qed.
Lemma scan_record r n fs s : r <> [] ->
  scan n FieldStart fs EmptyString (write_fields r +:+ String lf s) =
  match counted n (fs ++ r) with
  | Some n => l ← scan n LineStart [] EmptyString s; mret ((fs ++ r) :: l)
  | None => Err ErrFieldCount
  end.
Proof.
  revert fs. induction r as [|f r IH]; intros fs Hne; [done|].
  rewrite write_fields_cons, scan_field by (try apply ends_fields; auto).
  destruct r as [|g r]; [done|].
  assert (E : scan n FieldStart fs f (String comma (write_fields (g :: r) +:+ String lf s)) =
              scan n FieldStart (fs ++ [f]) "" (write_fields (g :: r) +:+ String lf s)) by done.
  rewrite E, IH by done. by rewrite <- app_assoc.
Qed.
Lemma write_field_empty f : write_field f = ""%string -> f = ""%string.
Proof. unfold write_field. by destruct (fieldNeedsQuotes f). Qed.
Lemma scan_line r n s : visible r ->
  scan n LineStart [] EmptyString (Write r +:+ s) =
  match counted n r with
  | Some n => l ← scan n LineStart [] EmptyString s; mret (r :: l)
  | None => Err ErrFieldCount
  end.
Proof.
  intros [Hne Hv]. unfold Write. rewrite string_snoc.
  assert (E : scan n LineStart [] "" (write_fields r +:+ String lf s) =
              scan n FieldStart [] "" (write_fields r +:+ String lf s)).
  { destruct r as [|f r]; [done|]. rewrite write_fields_cons.
    destruct (decide (write_field f = "")) as [Ef|Ef].
    - apply write_field_empty in Ef as ->. destruct r; done.
    - rewrite !scan_field by (try apply ends_fields; auto). done. }
  by rewrite E, scan_record.
Qed.

(** Records of [k] fields, or of any number, as a reader counts them. *)
Definition counts (n : Count) (l : list (list string)) : Prop :=
  match n with Any => True | Exactly k => Forall (fun r => length r = k) l
  | First => match l with [] => True | r :: l => Forall (fun r' => length r' = length r) l end end.
Lemma scan_all l : forall n, Forall visible l -> counts n l ->
  scan n LineStart [] EmptyString (WriteAll l) = Ok l.
Proof.
  induction l as [|r l IH]; intros n Hv Hn; [done|]. apply Forall_cons in Hv as [Hr Hv].
  cbn [WriteAll]. rewrite scan_line by done. destruct n as [| |k]; cbn [counted counts] in Hn |- *.
  - by rewrite (IH Any).
  - by rewrite (IH (Exactly (length r))).
  - apply Forall_cons in Hn as [Hk Hn]. rewrite decide_True by done. by rewrite (IH (Exactly k)).
Qed.

(** A blank record writes an empty line, which the reader skips. *)
Lemma scan_blanks l : Forall (fun r => r = [] \/ visible r) l ->
  scan Any LineStart [] EmptyString (WriteAll l) = Ok (base.filter (fun r => r <> []) l).
Proof.
  induction 1 as [|r l Hr Hl IH]; [done|]. cbn [WriteAll]. destruct Hr as [->|Hr].
  - rewrite filter_cons_False by naive_solver. exact IH.
  - rewrite scan_line by done. cbn [counted]. rewrite IH. rewrite filter_cons_True by apply Hr. done.
Qed.
Lemma ReadAll_blanks l : Forall (fun r => r = [] \/ visible r) l -> Forall (Forall no_cr) l ->
  ReadAll Any (WriteAll l) = Ok (base.filter (fun r => r <> []) l).
Proof. intros Hv Hc. unfold ReadAll. rewrite normalise_id by by apply no_cr_all. by apply scan_blanks. Qed.
(** What the writer writes, the reader reads back: any visible records
    whose fields have no carriage return, with quotes, commas, line feeds and
    leading spaces in them, and with as many fields as the reader asks for. *)
Theorem ReadAll_WriteAll n l : Forall visible l -> Forall (Forall no_cr) l -> counts n l ->
  ReadAll n (WriteAll l) = Ok l.
Proof.
  intros Hv Hc Hn. unfold ReadAll. rewrite normalise_id by by apply no_cr_all. by apply scan_all.
Qed.

(** A carriage return before a line feed does not survive. *)
Example crlf_lost :
  let f := String cr (str lf) in ReadAll First (WriteAll [["a"%string; f]]) = Ok [["a"%string; str lf]].
Proof. vm_compute. reflexivity. Qed.
Definition demo_rows : list (list string) :=
  [["id"; "text"]%string; ["1"%string; "a," +:+ str dquote +:+ str lf]; [""; " b"]%string].
Lemma ReadAll_WriteAll_witness : ReadAll First (WriteAll demo_rows) = Ok demo_rows.
Proof.
  apply ReadAll_WriteAll; repeat constructor; try done; vm_compute; reflexivity.
Defined.
