(* ===== verification/Mux.v ===== *)
(** * Mux: the request router

    [Server.routes] of [core/fairwave-control/internal/api/routes.go]: the
    patterns as the source registers them, and [net/http]'s [ServeMux]: which
    pattern the text of a request's path is served by, with the values of its
    wildcards.  [Routes] takes a request already routed; the theorems tie the
    two: a request's route leads to its pattern, and the middleware's checks
    of the decoded path cover every pattern that is not public. *)
From S2P Require Import Prelude.
From S2P Require Import Paths.
From S2P Require Import Encoding.
From S2P Require Import Control.
From S2P Require Import Routes.

(** ** The table *)
Definition patterns : list string := [
   "GET /v1/healthz"; "GET /v1/version"; "GET /v1/status"; "POST /v1/lifecycle/transition";
   "GET /v1/nodes"; "POST /v1/nodes"; "GET /v1/nodes/{id}"; "POST /v1/nodes/{id}/enroll";
   "POST /v1/nodes/{id}/leave"; "GET /v1/sims"; "GET /v1/sims/{imsi}"; "POST /v1/sims";
   "POST /v1/sims/{imsi}/revoke"; "POST /v1/sims/{imsi}/suspend"; "POST /v1/sims/{imsi}/resume";
   "POST /v1/sims/import"; "POST /v1/sims/{imsi}/quota"; "GET /v1/sims/{imsi}/usage";
   "POST /v1/sims/{imsi}/usage"; "GET /v1/peers"; "POST /v1/peers"; "DELETE /v1/peers/{id}";
   "GET /v1/sessions"; "GET /v1/policy"; "PUT /v1/policy"; "POST /v1/spectrum/check";
   "POST /v1/tx/arm"; "POST /v1/tx/disarm"; "GET /v1/hydra/status"; "GET /v1/hydra/threads";
   "POST /v1/hydra/threads"; "DELETE /v1/hydra/threads/{id}"; "POST /v1/hydra/threads/{id}/health";
   "GET /v1/hydra/weaves"; "POST /v1/hydra/weaves"; "GET /v1/hydra/weaves/{id}";
   "DELETE /v1/hydra/weaves/{id}"; "GET /v1/hydra/weaves/{id}/stats";
   "POST /v1/hydra/weaves/{id}/strip"; "POST /v1/hydra/weaves/{id}/ingest";
   "POST /v1/hydra/weaves/{id}/bench"; "POST /v1/telemetry"; "GET /v1/health"; "GET /v1/audit";
   "GET /v1/alerts"; "GET /v1/events"; "POST /v1/tokens"; "GET /v1/tokens"; "DELETE /v1/tokens/{id}";
   "GET /v1/backup"; "POST /v1/restore"; "GET /v1/compliance/export"; "POST /v1/esim/issue";
   "GET /v1/esim/codes"; "GET /v1/esim/codes/{token}/qr"; "POST /v1/esim/revoke"; "/es9plus/";
   "GET /metrics"; "/"]%string.

Inductive Seg := Lit (s : string) | Var.
(** [tree]: the pattern ends in a slash and matches everything below. *)
Record Pattern := mkPattern { text : string; meth : option string; segs : list Seg; tree : bool }.
Definition seg_of (s : string) : Seg := if HasPrefix s "{" then Var else Lit s.
Definition parse_pattern (s : string) : Pattern :=
  let '(m, path) := match String.index 0 " " s with
                    | Some n => (Some (String.substring 0 n s),
                                 String.substring (S n) (String.length s) s)
                    | None => (None, s)
                    end in
  let l := tail (components path) in
  if decide (last l = Some ""%string) then mkPattern s m (seg_of <$> removelast l) true
  else mkPattern s m (seg_of <$> l) false.

(** ** Matching *)
(** A wildcard takes one segment that is not empty. *)
Fixpoint match_segs (t : bool) (p : list Seg) (l : list string) : option (list string) :=
  match p, l with
  | [], [] => if t then None else Some []
  | [], _ => if t then Some [] else None
  | _, [] => None
  | Lit s :: p, x :: l => if decide (s = x) then match_segs t p l else None
  | Var :: p, EmptyString :: l => None
  | Var :: p, x :: l => cons x <$> match_segs t p l
  end.
(** A GET pattern serves HEAD too; only a tree matches longer paths. *)
Definition meth_ok (m : option string) (method : string) : bool :=
  match m with
  | None => true
  | Some m => bool_decide (m = method) || (bool_decide (m = "GET"%string) && bool_decide (method = "HEAD"%string))
  end.
Definition match_pattern (method : string) (l : list string) (p : Pattern) : option (list string) :=
  if meth_ok (meth p) method && (tree p || bool_decide (length (segs p) = length l))
  then match_segs (tree p) (segs p) l else None.
Fixpoint first_match (method : string) (l : list string) (ps : list Pattern)
    : option (Pattern * list string) :=
  match ps with
  | [] => None
  | p :: ps => match match_pattern method l p with
               | Some v => Some (p, v)
               | None => first_match method l ps
               end
  end.

(** [url.PathUnescape]; an escape that is none makes the URL invalid. *)
Definition percent : Ascii.ascii := Ascii.ascii_of_nat 37.
Fixpoint unescape (s : string) : option string :=
  match s with
  | EmptyString => Some EmptyString
  | String c t =>
      if decide (c = percent) then
        match t with
        | String a (String b t) =>
            match hex_val (ascii_byte a), hex_val (ascii_byte b) with
            | Some x, Some y => String (byte_ascii (16 * x + y)) <$> unescape t
            | _, _ => None
            end
        | _ => None
        end
      else String c <$> unescape t
  end.
Definition ends_slash (s : string) : bool := HasSuffix s "/".
Definition cleanPath (p : string) : string :=
  if decide (p = ""%string) then "/"%string else
  let p := if HasPrefix p "/" then p else String slash p in
  let np := Clean p in
  if ends_slash p && negb (bool_decide (np = "/"%string)) then np +:+ "/" else np.

Inductive Outcome :=
  | BadURL | Redirect (path : string)
  | Handler_ (pattern : string) (values : list string) | NotFound.
(** The segments of a path, decoded. *)
Definition request_segs (path : string) : option (list string) := mapM unescape (tail (components path)).
Definition table : list Pattern := parse_pattern <$> patterns.
(** A path whose tree is registered and that only a shorter pattern serves. *)
Definition tree_root (method : string) (l : list string) : bool :=
  existsb (fun p => tree p && meth_ok (meth p) method
                    && bool_decide (length (segs p) = length l)
                    && match match_segs true (segs p) (l ++ [""%string]) with Some _ => true | None => false end)
    table.
Definition dispatch (method raw : string) : Outcome :=
  match unescape raw with
  | None => BadURL
  | Some _ =>
      let path := cleanPath raw in
      match request_segs path with
      | None => BadURL
      | Some l =>
          match first_match method l table with
          | None => NotFound
          | Some (p, v) =>
              if tree p && negb (ends_slash path) && tree_root method l then Redirect (path +:+ "/")
              else if decide (path = raw) then Handler_ (text p) v else Redirect path
          end
      end
  end.

(** ** Requests *)
(** The pattern of a request and the values of its wildcards. *)
Local Open Scope string_scope.
Definition pattern_of (r : Request) : string * list string :=
  match r with
  | Healthz => ("GET /v1/healthz", []) | Version_ => ("GET /v1/version", [])
  | GetStatus => ("GET /v1/status", []) | Lifecycle _ => ("POST /v1/lifecycle/transition", [])
  | ListNodes => ("GET /v1/nodes", []) | CreateNode _ => ("POST /v1/nodes", [])
  | GetNode_ id => ("GET /v1/nodes/{id}", [id])
  | EnrollNode id _ => ("POST /v1/nodes/{id}/enroll", [id])
  | LeaveNode id => ("POST /v1/nodes/{id}/leave", [id])
  | ListSIMs => ("GET /v1/sims", []) | GetSIM_ i => ("GET /v1/sims/{imsi}", [i])
  | IssueSIMs _ => ("POST /v1/sims", []) | RevokeSIM i => ("POST /v1/sims/{imsi}/revoke", [i])
  | SuspendSIM i => ("POST /v1/sims/{imsi}/suspend", [i])
  | ResumeSIM i => ("POST /v1/sims/{imsi}/resume", [i])
  | ImportSIMs _ => ("POST /v1/sims/import", [])
  | SetQuota i _ => ("POST /v1/sims/{imsi}/quota", [i])
  | GetUsage_ i => ("GET /v1/sims/{imsi}/usage", [i])
  | ReconcileUsage i _ => ("POST /v1/sims/{imsi}/usage", [i])
  | ListPeers => ("GET /v1/peers", []) | AddPeer _ => ("POST /v1/peers", [])
  | DeletePeer_ id => ("DELETE /v1/peers/{id}", [id])
  | ListSessions_ => ("GET /v1/sessions", []) | GetPolicy_ => ("GET /v1/policy", [])
  | PutPolicy _ => ("PUT /v1/policy", []) | SpectrumCheck _ => ("POST /v1/spectrum/check", [])
  | TxArm _ => ("POST /v1/tx/arm", []) | TxDisarm => ("POST /v1/tx/disarm", [])
  | Telemetry _ => ("POST /v1/telemetry", []) | ListHealth => ("GET /v1/health", [])
  | Audit => ("GET /v1/audit", []) | ListAlerts_ => ("GET /v1/alerts", [])
  | CreateToken _ => ("POST /v1/tokens", []) | ListTokens => ("GET /v1/tokens", [])
  | RevokeToken_ id => ("DELETE /v1/tokens/{id}", [id])
  | EsimIssue _ => ("POST /v1/esim/issue", []) | EsimList => ("GET /v1/esim/codes", [])
  | EsimQR t => ("GET /v1/esim/codes/{token}/qr", [t]) | EsimRevoke _ => ("POST /v1/esim/revoke", [])
  | HydraStatus => ("GET /v1/hydra/status", []) | HydraListThreads => ("GET /v1/hydra/threads", [])
  | HydraAddThread _ => ("POST /v1/hydra/threads", [])
  | HydraDeleteThread id => ("DELETE /v1/hydra/threads/{id}", [id])
  | HydraHealth id _ => ("POST /v1/hydra/threads/{id}/health", [id])
  | HydraListWeaves => ("GET /v1/hydra/weaves", []) | HydraCreateWeave _ => ("POST /v1/hydra/weaves", [])
  | HydraGetWeave id => ("GET /v1/hydra/weaves/{id}", [id])
  | HydraDeleteWeave id => ("DELETE /v1/hydra/weaves/{id}", [id])
  | HydraWeaveStats id => ("GET /v1/hydra/weaves/{id}/stats", [id])
  | HydraStrip id _ => ("POST /v1/hydra/weaves/{id}/strip", [id])
  | HydraIngest id _ => ("POST /v1/hydra/weaves/{id}/ingest", [id])
  | HydraBench id _ => ("POST /v1/hydra/weaves/{id}/bench", [id])
  | Backup_ _ => ("GET /v1/backup", []) | Restore_ _ => ("POST /v1/restore", [])
  end.
(** The patterns the middleware does not authenticate, and those it keeps for
    administrators. *)
Definition public_patterns : list string := ["GET /v1/healthz"; "/es9plus/"; "GET /metrics"; "/"].
Definition admin_patterns : list string :=
  ["POST /v1/tokens"; "GET /v1/tokens"; "DELETE /v1/tokens/{id}"; "GET /v1/backup"; "POST /v1/restore";
   "POST /v1/tx/arm"; "POST /v1/tx/disarm"; "GET /v1/compliance/export"; "GET /v1/audit"].
Local Close Scope string_scope.

(** ** Decoding *)
Lemma unescape_slash b : forall a, unescape (a +:+ String slash b) =
  x ← unescape a; y ← unescape b; Some (x +:+ String slash y).
Proof.
  assert (Hg : forall n a, (String.length a <= n)%nat -> unescape (a +:+ String slash b) =
    x ← unescape a; y ← unescape b; Some (x +:+ String slash y)).
  2: { intros a. by apply (Hg (String.length a)). }
  induction n as [|n IH]; intros [|c a] Hn; cbn [String.length] in Hn; try lia;
    try (change (unescape (String slash b) = y ← unescape b; Some (String slash y));
         cbn [unescape]; rewrite decide_False by done; by destruct (unescape b)).
  change (String c a +:+ String slash b) with (String c (a +:+ String slash b)).
  cbn [unescape]. destruct (decide (c = percent)).
  - destruct a as [|c1 [|c2 a]].
    + change ("" +:+ String slash b) with (String slash b). by destruct b.
    + change (String c1 "" +:+ String slash b) with (String c1 (String slash b)).
      cbv iota. change (hex_val (ascii_byte slash)) with (@None Z). by destruct (hex_val (ascii_byte c1)).
    + change (String c1 (String c2 a) +:+ String slash b) with (String c1 (String c2 (a +:+ String slash b))).
      cbv iota. cbn [String.length] in Hn. rewrite IH by lia.
      repeat case_match; try done. by destruct (unescape a), (unescape b).
  - rewrite IH by lia. destruct (unescape a), (unescape b); done.
Qed.
Lemma unescape_join l : l <> [] -> unescape (join l) = join <$> mapM unescape l.
Proof.
  induction l as [|a l IH]; intros Hne; [done|]. destruct l as [|b l].
  - cbn. by destruct (unescape a).
  - change (join (a :: b :: l)) with (a +:+ String slash (join (b :: l))).
    rewrite unescape_slash, IH by done. cbn [mapM].
    destruct (unescape a); [|done]. cbn [mbind option_bind mapM].
    destruct (unescape b); [|done]. by destruct (mapM unescape l).
Qed.
Lemma join_components s : join (components s) = s.
Proof.
  unfold components. induction s as [|c s IH]; [done|]. cbn [split_slash].
  destruct (split_slash s) as [x l]. destruct (Ascii.ascii_dec c slash) as [->|].
  - change (join ("" :: x :: l)) with (String slash (join (x :: l))). by rewrite IH.
  - rewrite <- IH. by destruct l.
Qed.

(** ** The middleware covers the table *)
Fixpoint fill (p : list Seg) (v : list string) : list string :=
  match p, v with
  | Lit s :: p, _ => s :: fill p v
  | Var :: p, x :: v => x :: fill p v
  | _, _ => []
  end.
Fixpoint vars (p : list Seg) : nat :=
  match p with [] => 0 | Lit _ :: p => vars p | Var :: p => S (vars p) end.
Lemma match_fill p : forall l v, match_segs false p l = Some v ->
  l = fill p v /\ length v = vars p.
Proof.
  induction p as [|[s|] p IH]; intros [|x l] v Hm; cbn [match_segs] in Hm; try done.
  - by injection Hm as <-.
  - case_decide; [|done]. subst. by apply IH in Hm as [-> Hv].
  - destruct x as [|c x]; [done|]. apply fmap_Some in Hm as (w & Hm & ->).
    apply IH in Hm as [-> Hv]. cbn. by rewrite Hv.
Qed.
Lemma first_match_in m l ps p v : first_match m l ps = Some (p, v) ->
  p ∈ ps /\ match_segs (tree p) (segs p) l = Some v.
Proof.
  induction ps as [|q ps IH]; [done|]. cbn [first_match]. unfold match_pattern at 1.
  destruct (meth_ok _ _ && _); [|intros Hf; split; [right|]; by apply IH].
  destruct (match_segs (tree q) (segs q) l) eqn:E.
  - intros [= -> ->]. split; [by left|done].
  - intros Hf. split; [right|]; by apply IH.
Qed.
(** What the checks of the decoded path say of the paths a pattern matches. *)
Definition covered (p : Pattern) : Prop := forall l v, match_segs (tree p) (segs p) l = Some v ->
  let path := String slash (join l) in
  text p = "/"%string \/
  (public_path path = bool_decide (text p ∈ public_patterns) /\
   adminOnly path = bool_decide (text p ∈ admin_patterns)).
Lemma covered_plain p : tree p = false ->
  (forall v, length v = vars (segs p) ->
     let path := String slash (join (fill (segs p) v)) in
     public_path path = bool_decide (text p ∈ public_patterns) /\
     adminOnly path = bool_decide (text p ∈ admin_patterns)) -> covered p.
Proof.
  intros Ht Hp l v Hm. rewrite Ht in Hm. apply match_fill in Hm as [-> Hv]. right. by apply Hp.
Qed.
Lemma table_covered : Forall covered table.
Proof.
  let t := eval vm_compute in table in change table with t.
  repeat apply Forall_cons_2; try apply Forall_nil_2.
  all: match goal with
       | |- covered (mkPattern "/" _ _ _) => by intros l v _; left
       | |- covered (mkPattern _ _ _ false) =>
           apply covered_plain; [done|]; intros v Hv; cbn in Hv;
           repeat (destruct v as [|? v]; cbn in Hv; try discriminate Hv); split; vm_compute; reflexivity
       | _ => idtac
       end.
  intros l v Hm. right. cbn in Hm. destruct l as [|x l]; [done|]. cbn in Hm. case_decide; [|done]. subst x.
  destruct l as [|y l]; [done|]. split; vm_compute; reflexivity.
Qed.

Lemma rooted s : HasPrefix (String slash s) "/" = true.
Proof. change (String slash s) with ("/" +:+ s). apply HasPrefix_spec. by eexists. Qed.
(** The clean form of a path starts with a slash. *)
Lemma cleanPath_rooted p : exists s, cleanPath p = String slash s.
Proof.
  unfold cleanPath. destruct (decide _); [by eexists|].
  assert (Hc : forall q, exists s, Clean (String slash q) = String slash s) 
    by (intros q; unfold Clean; rewrite rooted; by eexists).
  destruct (HasPrefix p "/") eqn:Ep.
  - apply HasPrefix_spec in Ep as (q & ->). change ("/" +:+ q) with (String slash q).
    destruct (Hc q) as (s & ->). destruct (_ && _); by eexists.
  - destruct (Hc p) as (s & ->). destruct (_ && _); by eexists.
Qed.
(** A served path decodes to its decoded segments. *)
Lemma served_segs raw decoded l : cleanPath raw = raw -> unescape raw = Some decoded ->
  request_segs raw = Some l -> decoded = String slash (join l).
Proof.
  intros Hc Hd Hl. destruct (cleanPath_rooted raw) as (s & Hs). rewrite Hc in Hs. subst raw.
  unfold request_segs in Hl. unfold components in Hl. cbn [split_slash] in Hl.
  pose proof (join_components s) as Hj. unfold components in Hj.
  destruct (split_slash s) as [x t] eqn:Et. cbn in Hl.
  cbn [unescape] in Hd. rewrite decide_False in Hd by done.
  rewrite <- Hj, unescape_join in Hd by done.
  change (mapM unescape (x :: t) = Some l) in Hl. rewrite Hl in Hd. by injection Hd as <-.
Qed.

(** C13: The middleware covers the router.  Whatever the method and the text
    of a request's path, escapes and dot segments included, if the router
    serves it with a pattern other than the dashboard's catch-all, then the
    checks that the authentication middleware makes of the decoded path are
    those of that pattern: it is let through unauthenticated exactly for the
    public patterns, and kept for administrators exactly for theirs. *)
Theorem auth_covers_mux method raw decoded pat values :
  unescape raw = Some decoded -> dispatch method raw = Handler_ pat values -> pat <> "/"%string ->
  public_path decoded = bool_decide (pat ∈ public_patterns) /\
  adminOnly decoded = bool_decide (pat ∈ admin_patterns).
Proof.
  intros Hd Hs Hne. unfold dispatch in Hs. rewrite Hd in Hs.
  destruct (request_segs (cleanPath raw)) as [l|] eqn:El; [|done].
  destruct (first_match method l table) as [[p v]|] eqn:Ef; [|done].
  destruct (_ && _ && _); [done|]. destruct (decide (cleanPath raw = raw)) as [Hc|]; [|done].
  injection Hs as <- <-. rewrite Hc in El.
  apply first_match_in in Ef as [Hp Hm]. pose proof table_covered as Ht. rewrite Forall_forall in Ht.
  rewrite (served_segs raw decoded l Hc Hd El).
  destruct (Ht p Hp l v Hm) as [E|E]; [congruence|exact E].
Qed.

(** ** Routes lead to their patterns *)
(** A path value that is one segment as it is. *)
Definition segment (s : string) : Prop := ordinary s /\ unescape s = Some s.

Lemma slashless_bytes s : slashless s = true -> Forall (fun b => b <> 47) (string_bytes s).
Proof.
  induction s as [|c s IH]; [constructor|]. intros [Hc Hs]%andb_true_iff.
  apply negb_true_iff, bool_decide_eq_false in Hc. constructor; [|by apply IH].
  intros E. apply Hc. by rewrite <- (byte_ascii_byte c), E.
Qed.
Lemma join_tail l c : exists s, join (l ++ [c]) = s +:+ c.
Proof.
  induction l as [|x l (s & IH)]; [by exists ""%string|].
  destruct (l ++ [c]) as [|y t] eqn:E; [by destruct l|].
  exists (x +:+ String slash s). change ((x :: l) ++ [c]) with (x :: (l ++ [c])). rewrite E.
  change (join (x :: y :: t)) with (x +:+ String slash (join (y :: t))). by rewrite IH, string_assoc.
Qed.
Lemma ends_ordinary s c : ordinary c -> ends_slash (s +:+ c) = false.
Proof.
  intros (Hne & _ & _ & Hc). apply slashless_bytes in Hc. unfold ends_slash, HasSuffix.
  apply andb_false_iff. right. apply bool_decide_eq_false. rewrite slen_app, string_bytes_app.
  destruct (exists_last (l := string_bytes c)) as (q & b & E).
  { intros E. apply Hne, string_bytes_inj. by rewrite E. }
  rewrite E in *. apply Forall_app in Hc as [_ Hb]. apply Forall_cons in Hb as [Hb _].
  unfold slen at 1 2. rewrite E, zlen_app. change (zlen [b]) with 1. change (slen "/") with 1.
  rewrite app_assoc, drop_app_length'; [|unfold zlen; rewrite length_app; lia].
  change (string_bytes "/") with [47]. congruence.
Qed.
Lemma clean_join l : Forall ordinary l -> l <> [] -> cleanPath (String slash (join l)) = String slash (join l).
Proof.
  intros Hl Hne. unfold cleanPath. rewrite decide_False by done.
  rewrite rooted.
  assert (Hc : Clean (String slash (join l)) = String slash (join l)).
  { unfold Clean, clean. rewrite rooted.
    assert (E : components (String slash (join l)) = ""%string :: components (join l)).
    { unfold components. cbn [split_slash]. by destruct (split_slash (join l)). }
    rewrite E, components_join by done. cbn [foldl]. rewrite clean_plains by done.
    rewrite app_nil_r. by rewrite reverse_involutive. }
  rewrite Hc. destruct (exists_last Hne) as (q & c & ->). destruct (join_tail q c) as (s & Hs).
  apply Forall_app in Hl as [_ Hl]. apply Forall_cons in Hl as [Hl _]. rewrite Hs.
  change (String slash (s +:+ c)) with (String slash s +:+ c). by rewrite ends_ordinary.
Qed.
(** Ordinary segments without escapes are matched as they are. *)
Lemma dispatch_segs m l : l <> [] -> Forall segment l -> tree_root m l = false ->
  dispatch m (String slash (join l)) =
  match first_match m l table with Some (p, v) => Handler_ (text p) v | None => NotFound end.
Proof.
  intros Hne Hl Ht. assert (Ho : Forall ordinary l) by (eapply Forall_impl; [done|]; by intros x []).
  assert (Hu : mapM unescape l = Some l).
  { clear Hne Ht Ho. induction Hl as [|x l [_ Hx] Hl IH]; [done|]. cbn [mapM]. by rewrite Hx, IH. }
  unfold dispatch. rewrite clean_join by done.
  assert (E : components (String slash (join l)) = ""%string :: l).
  { rewrite <- (components_join l) at 2 by done. unfold components. cbn [split_slash].
    by destruct (split_slash (join l)). }
  unfold request_segs. rewrite E. cbn [tail]. rewrite Hu.
  cbn [unescape]. rewrite decide_False by done. rewrite unescape_join, Hu by done. cbn [fmap option_fmap option_map].
  destruct (first_match m l table) as [[p v]|]; [|done]. rewrite Ht, andb_false_r, decide_True by done. done.
Qed.

Definition route_segs (r : Request) : list string :=
  fill (segs (parse_pattern (pattern_of r).1)) (pattern_of r).2.
Lemma route_path r : (route r).2 = String slash (join (route_segs r)).
Proof. destruct r; reflexivity. Qed.
Lemma route_matches r : Forall segment (pattern_of r).2 ->
  match first_match (route r).1 (route_segs r) table with
  | Some (p, v) => Handler_ (text p) v
  | None => NotFound
  end = Handler_ (pattern_of r).1 (pattern_of r).2.
Proof.
  let t := eval vm_compute in table in change table with t.
  destruct r; intros Hv; cbn [pattern_of snd] in Hv;
    try (apply Forall_cons in Hv as [((Hne & _) & _) _]; match type of Hne with ?x <> _ => destruct x; [done|] end);
    vm_compute; reflexivity.
Qed.
Definition segmentb (s : string) : bool :=
  negb (bool_decide (s = ""%string)) && negb (bool_decide (s = "."%string))
  && negb (bool_decide (s = ".."%string)) && slashless s && bool_decide (unescape s = Some s).
Lemma segmentb_ok s : segmentb s = true -> segment s.
Proof.
  unfold segmentb, segment, ordinary. intros Hs. repeat (apply andb_true_iff in Hs as [Hs ?]).
  repeat match goal with
         | H : negb _ = true |- _ => apply negb_true_iff, bool_decide_eq_false in H
         | H : bool_decide _ = true |- _ => apply bool_decide_eq_true in H
         end. done.
Qed.
Definition lit_ok (s : Seg) : bool := match s with Lit x => segmentb x | Var => true end.
Lemma fill_segment p : forallb lit_ok p = true -> forall v, Forall segment v -> Forall segment (fill p v).
Proof.
  induction p as [|[x|] p IH]; intros Hp v Hv; cbn in Hp |- *; [done| |].
  - apply andb_true_iff in Hp as [Hx Hp]. constructor; [by apply segmentb_ok|by apply IH].
  - destruct Hv; [done|]. constructor; [done|by apply IH].
Qed.
Lemma fill_segments r : Forall segment (pattern_of r).2 -> Forall segment (route_segs r).
Proof. intros Hv. apply fill_segment; [|done]. destruct r; vm_compute; reflexivity. Qed.

(** The route of a request leads to its handler.  For every request whose
    path values are single segments, the method and path that [route] gives
    it are served by the router with the pattern its handler is registered
    under, and with the same values. *)
Theorem route_dispatches r : Forall segment (pattern_of r).2 ->
  dispatch (route r).1 (route r).2 = Handler_ (pattern_of r).1 (pattern_of r).2.
Proof.
  intros Hv. rewrite route_path, dispatch_segs.
  - by apply route_matches.
  - destruct r; discriminate.
  - by apply fill_segments.
  - destruct r; vm_compute; reflexivity.
Qed.

Lemma route_dispatches_witness :
  dispatch "POST" "/v1/sims/999991234567001/revoke" =
    Handler_ "POST /v1/sims/{imsi}/revoke" ["999991234567001"%string].
Proof.
  apply (route_dispatches (RevokeSIM "999991234567001")). repeat constructor; vm_compute; done.
Defined.
Lemma auth_covers_mux_witness :
  public_path "/v1/tokens" = false /\ adminOnly "/v1/tokens" = true.
Proof.
  destruct (auth_covers_mux "GET" "/v1/%74okens" "/v1/tokens" "GET /v1/tokens" []) as [H1 H2];
    [vm_compute; reflexivity|vm_compute; reflexivity|done|].
  split; [rewrite H1|rewrite H2]; vm_compute; reflexivity.
Defined.
(** Dot segments and doubled slashes, which the middleware does not see as
    part of the API, are redirected, never served. *)
Example unclean_redirected :
  dispatch "GET" "/x/../v1/tokens" = Redirect "/v1/tokens" /\
  dispatch "GET" "//v1/tokens" = Redirect "/v1/tokens" /\
  dispatch "POST" "/v1/nodes/a%2Fb" = Handler_ "/" [] /\ dispatch "GET" "/v1/%7" = BadURL /\
  dispatch "GET" "/es9plus" = Redirect "/es9plus/".
Proof. repeat split; vm_compute; reflexivity. Qed.
