(* ===== verification/Cli.v ===== *)
(** * Cli: the operator's command line

    [apps/fairwave-cli]: the API client, the exit codes and the commands.  A
    command is a program of the [Cli] monad: it prints, sends requests, reads
    and writes local files, and ends in success or a failure; [exec] runs it
    against a server, a link that can lose a request or its reply, and a file
    system.  A printed line is the format with its arguments, not the text.
    Flags are arguments, [None] where one was not passed; what Cobra itself
    reports (argument counts, missing flags) is as documented.  A path value
    is put in a path as it is ([Mux.route_dispatches] says when that leads to
    the handler). *)
From stdpp Require Import pretty.
From S2P Require Import Prelude.
From S2P Require Import Float64.
From S2P Require Import Paths.
From S2P Require Import Encoding.
From S2P Require Import Csv.
From S2P Require Import Reorder.
From S2P Require Import Bearer.
From S2P Require Import Fabric.
From S2P Require Import Activation.
From S2P Require Import Profile.
From S2P Require Import Simprov.
From S2P Require Import EsimRegistry.
From S2P Require Import Spectrum.
From S2P Require Import Api.
From S2P Require Import Control.
From S2P Require Import Routes.

(** ** Failures and exit codes *)
Inductive Sentinel := ErrUsage | ErrPolicyBlocked.
Record Failure := mkFailure { wraps : option Sentinel; Error_ : string }.
#[global] Instance Sentinel_eq_dec : EqDecision Sentinel.
Proof. solve_decision. Defined.
Definition Errorf (s : string) : Failure := mkFailure None s.
Definition usageError (s : string) : Failure := mkFailure (Some ErrUsage) ("usage error: " +:+ s).
Definition ExitOK := 0.
Definition ExitError := 1.
Definition ExitUsage := 2.
Definition ExitPolicyBlock := 3.
Fixpoint Contains (s sub : string) : bool :=
  HasPrefix s sub || match s with EmptyString => false | String.String _ s => Contains s sub end.
Definition isCobraUsageError (f : Failure) : bool :=
  Contains (Error_ f) "required flag(s)" || Contains (Error_ f) "unknown command".
Definition exit_code (r : res Failure unit) : Z :=
  match r with
  | Ok _ => ExitOK
  | Err f =>
      if bool_decide (wraps f = Some ErrPolicyBlocked) then ExitPolicyBlock
      else if bool_decide (wraps f = Some ErrUsage) then ExitUsage
      else if isCobraUsageError f then ExitUsage else ExitError
  end.

(** ** Programs *)
Inductive Arg :=
  | AS (s : string) | AZ (z : Z) | AB (b : bool) | AF (f : f64) | AT (t : time) | AL (l : list string).
Inductive Out :=
  | Printf (format : string) (args : list Arg) | Encode (p : Payload)
  | Saved (path data : string) | Made (dir : string).
Inductive Cli (A : Type) :=
  | Done (a : A) | Failed (f : Failure)
  | Print_ (o : Out) (k : Cli A)
  | Send (r : Request) (k : option Response -> Cli A)
  | Raw (method path body : string) (headers : list (string * string)) (k : option (Z * string) -> Cli A)
  | Save (path data : string) (k : bool -> Cli A)
  | Mkdir (dir : string) (k : bool -> Cli A).
Arguments Done {A}. Arguments Failed {A}. Arguments Print_ {A}. Arguments Send {A}.
Arguments Raw {A}. Arguments Save {A}. Arguments Mkdir {A}.
#[export] Instance Cli_ret : MRet Cli := fun A a => Done a.
#[export] Instance Cli_bind : MBind Cli :=
  fix bind A B f m :=
    match m with
    | Done a => f a
    | Failed e => Failed e
    | Print_ o k => Print_ o (bind A B f k)
    | Send r k => Send r (fun x => bind A B f (k x))
    | Raw m p b h k => Raw m p b h (fun x => bind A B f (k x))
    | Save p d k => Save p d (fun x => bind A B f (k x))
    | Mkdir d k => Mkdir d (fun x => bind A B f (k x))
    end.
Definition printf (format : string) (args : list Arg) : Cli unit := Print_ (Printf format args) (Done tt).
Definition println (s : string) : Cli unit := printf "%s\n" [AS s].
Definition encode_json (p : Payload) : Cli unit := Print_ (Encode p) (Done tt).
Definition require_ (b : bool) (f : Failure) : Cli unit := if b then Done tt else Failed f.
Fixpoint each {A} (f : A -> Cli unit) (l : list A) : Cli unit :=
  match l with [] => mret tt | x :: l => _ ← f x; each f l end.
(** [os.WriteFile] and [os.MkdirAll], whose errors are returned. *)
Definition write_file (path data : string) : Cli unit :=
  Save path data (fun ok => if ok then Done tt else Failed (Errorf ("open " +:+ path))).
Definition mkdir_all (dir : string) : Cli unit :=
  Mkdir dir (fun ok => if ok then Done tt else Failed (Errorf ("mkdir " +:+ dir))).

(** What happens to a request: it is answered, it is not sent, or the server
    handles it and its reply is lost. *)
Inductive Link := Delivered | NotSent | ReplyLost.
Section Exec.
Context {W : Type} (srv : Request -> W -> W * Response).
Context (raw_srv : string -> string -> string -> list (string * string) -> W -> W * (Z * string)).
Context (link : nat -> Link) (fs : nat -> bool).
(** Steps are counted to ask [link] and [fs]. *)
Fixpoint exec {A} (n : nat) (m : Cli A) (w : W) : W * list Out * res Failure A :=
  match m with
  | Done a => (w, [], Ok a)
  | Failed f => (w, [], Err f)
  | Print_ o k => let '(w, out, r) := exec n k w in (w, o :: out, r)
  | Send r k =>
      match link n with
      | Delivered => let '(w, x) := srv r w in exec (S n) (k (Some x)) w
      | NotSent => exec (S n) (k None) w
      | ReplyLost => exec (S n) (k None) (srv r w).1
      end
  | Raw m p b h k =>
      match link n with
      | Delivered => let '(w, x) := raw_srv m p b h w in exec (S n) (k (Some x)) w
      | NotSent => exec (S n) (k None) w
      | ReplyLost => exec (S n) (k None) (raw_srv m p b h w).1
      end
  | Save p d k =>
      let '(w, out, r) := exec (S n) (k (fs n)) w in (w, if fs n then Saved p d :: out else out, r)
  | Mkdir d k =>
      let '(w, out, r) := exec (S n) (k (fs n)) w in (w, if fs n then Made d :: out else out, r)
  end.
End Exec.

(** ** The client *)
Record client := mkClient { base : string; token : string }.
(** The token flag (by default the variable), else the token file. *)
Definition newClient (control tok dataDir : string) (token_file : option string) : client :=
  mkClient control
    (if decide (tok = ""%string) then
       if decide (dataDir = ""%string) then tok
       else match token_file with
            | Some b => if decide (b = ""%string) then tok else b
            | None => tok
            end
     else tok).
Definition DefaultControlURL : string := "http://localhost:8080".
Definition envOr (v def : string) : string := if decide (v = ""%string) then def else v.

Section Client.
(** The message of an error reply, a network error's text, the text of a
    gate's reason, the decoded body of a raw error reply. *)
Context (message : Response -> string) (net_error : string) (reason_text : TxReason -> string).
Context (error_body : string -> option (string * string)).
Context (c : client).

Definition unreachable : Failure :=
  Errorf ("control plane unreachable at " +:+ base c +:+ ": " +:+ net_error).
Definition api_error (x : Response) : Failure :=
  match payload_ x with
  | PErr code => if decide (code = ""%string) then Errorf ("http " +:+ pretty (status_ x))
                 else Errorf (code +:+ ": " +:+ message x)
  | _ => Errorf ("http " +:+ pretty (status_ x))
  end.
(** A request whose reply is decoded as what the caller expects. *)
Definition do_ {A} (r : Request) (decode : Payload -> option A) : Cli A :=
  Send r (fun x =>
    match x with
    | None => Failed unreachable
    | Some x =>
        if 400 <=? status_ x then Failed (api_error x)
        else match writeJSON (payload_ x) with
        | None => Failed (Errorf "EOF")
        | Some p => match decode p with Some a => Done a | None => Failed (Errorf "json") end
        end
    end).
(** A request whose reply is not read. *)
Definition do_nil (r : Request) : Cli unit :=
  Send r (fun x =>
    match x with
    | None => Failed unreachable
    | Some x => if 400 <=? status_ x then Failed (api_error x) else Done tt
    end).
Definition raw (method path body : string) (extra : list (string * string)) : Cli string :=
  Raw method path body extra (fun x =>
    match x with
    | None => Failed unreachable
    | Some (status, data) =>
        if 400 <=? status then
          match error_body data with
          | Some (code, msg) => if decide (code = ""%string) then Failed (Errorf ("http " +:+ pretty status))
                                else Failed (Errorf (code +:+ ": " +:+ msg))
          | None => Failed (Errorf ("http " +:+ pretty status))
          end
        else Done data
    end).
Definition as_node p := match p with PNode n => Some n | _ => None end.
Definition as_nodes p := match p with PNodes l => Some l | _ => None end.
Definition as_status p := match p with PStatus s => Some s | _ => None end.
Definition as_sim p := match p with PSIM s => Some s | _ => None end.
Definition as_sims p := match p with PSIMs l => Some l | _ => None end.
Definition as_peer p := match p with PPeer s => Some s | _ => None end.
Definition as_peers p := match p with PPeers l => Some l | _ => None end.
Definition as_policy p := match p with PPolicy s => Some s | _ => None end.
Definition as_verdict p := match p with PSpectrum v => Some v | _ => None end.
Definition as_tx p := match p with PTx b r => Some (b, r) | _ => None end.
Definition as_import p := match p with PImport i u s => Some (i, u, s) | _ => None end.
Definition as_usage p := match p with PUsage u => Some u | _ => None end.
Definition as_token p := match p with PToken t s => Some (t, s) | _ => None end.
Definition as_tokens p := match p with PTokens l => Some l | _ => None end.
Definition as_alerts p := match p with PAlerts l => Some l | _ => None end.
Definition as_audit p := match p with PAudit l => Some l | _ => None end.
Definition as_health p := match p with PHealth l => Some l | _ => None end.
Definition as_issued p := match p with PIssued r => Some r | _ => None end.
Definition as_codes p := match p with PCodes l => Some l | _ => None end.
Definition as_hydra p := match p with PHydra s => Some s | _ => None end.
Definition as_thread p := match p with PThread t => Some t | _ => None end.
Definition as_threads p := match p with PThreads l => Some l | _ => None end.
Definition as_weave p := match p with PWeave w => Some w | _ => None end.
Definition as_weaves p := match p with PWeaves l => Some l | _ => None end.
Definition as_stats p := match p with PWeaveStats s => Some s | _ => None end.
Definition as_bench p := match p with PBench b => Some b | _ => None end.
Definition as_strip p := match p with PStrip r => Some r | _ => None end.
Definition as_delivered p := match p with PDelivered n => Some n | _ => None end.

(** ** Arguments and required flags *)
(** Cobra's own message for a wrong number of arguments. *)
Definition accepts (n m : nat) : string :=
  "accepts " +:+ pretty n +:+ " arg(s), received " +:+ pretty m.
Definition ExactArgs {A} (n : nat) (args : list string) (run : Cli A) : Cli A :=
  if decide (length args = n) then run else Failed (usageError (accepts n (length args))).
Definition arg (args : list string) (i : nat) : string := default "" (args !! i).
(** [MarkFlagRequired]: Cobra refuses to run without them. *)
Definition required {A} (flags : list (string * bool)) (run : Cli A) : Cli A :=
  match filter (fun f => f.2 = false) flags with
  | [] => run
  | l => Failed (Errorf ("required flag(s) " +:+ String.concat ", " l.*1 +:+ " not set"))
  end.
Definition given {A} (x : option A) : bool := match x with Some _ => true | None => false end.

(** ** Nodes *)
Definition nodeInitCmd (name country role : string) : Cli unit :=
  let country := if decide (country = ""%string) then "LAB"%string else country in
  let role := if decide (role = ""%string) then "edge"%string else role in
  created ← do_ (CreateNode (Some (mkNode "" name role country "" false "" 0 0))) as_node;
  _ ← printf "node initialized: %s (id %s, phase %s)\n"
        [AS (nName created); AS (nID created); AS (nPhase created)];
  printf "next: fairwave node status\n" [].
Definition nodeStatusCmd : Cli unit :=
  st ← do_ GetStatus as_status;
  nodes ← do_ ListNodes as_nodes;
  _ ← printf "fairwave-control %s\n" [AS (stVersion st)];
  _ ← printf "  mode:      %s\n  phase:     %s\n  country:   %s\n"
        [AS (stMode st); AS (stPhase st); AS (stCountry st)];
  _ ← printf "  tx armed:  %v\n  nodes:     %d\n  ues:       %d\n  peers:     %d\n"
        [AB (stTxArmed st); AZ (stNodes st); AZ (stUEs st); AZ (stPeers st)];
  each (fun n => printf "  node %-16s id=%-20s phase=%-10s tx=%v\n"
                   [AS (nName n); AS (nID n); AS (nPhase n); AB (nTxArmed n)]) nodes.
Definition nodeJoinCmd : Cli unit :=
  Failed (Errorf "node join: peering is not yet implemented (M2); see docs/peering/ for the manual path").
(** The terminal: whether stdout is one, and the line read from stdin, [None]
    where reading fails. *)
Record Terminal := mkTerminal { tty : bool; stdin : option string }.
Definition confirmDestructive (t : Terminal) (what : string) : Cli bool :=
  if negb (tty t) then Failed (Errorf (what +:+ " requires --yes (refusing: stdout is not a TTY)")) else
  _ ← printf "%s? [y/N] " [AS what];
  match stdin t with
  | None => Failed (Errorf "read")
  | Some line =>
      let answer := ToLower (TrimSpace line) in
      mret (bool_decide (answer = "y"%string) || bool_decide (answer = "yes"%string))
  end.
Definition nodeLeaveCmd (t : Terminal) (yes : bool) (args : list string) : Cli unit :=
  ExactArgs 0 args (
    _ ← (if yes then mret tt else
         ok ← confirmDestructive t "Decommission ALL node(s)";
         require_ ok (Errorf "aborted: no nodes were decommissioned"));
    nodes ← do_ ListNodes as_nodes;
    each (fun n => _ ← do_nil (LeaveNode (nID n)); printf "node %s left\n" [AS (nID n)]) nodes).
Definition nodeHealthCmd (since : time -> string) : Cli unit :=
  health ← do_ ListHealth as_health;
  match health with
  | [] => println "no telemetry yet; start fairwave-agent on the node (it posts heartbeats to /v1/telemetry)"
  | _ =>
      each (fun h =>
        printf "%-16s %-4s last=%-8s load=%-5s radio=%-4s watchdog=%s"
          ([AS (hNodeID h); AS (if hUp h then "up" else "down"); AS (since (hTS h)); AF (Load1 h);
            AS (Radio h); AS (Watchdog h)]
           ++ match SDRTempC h with Some t => [AS " sdr=%.1fC"; AF t] | None => [] end
           ++ if GPSDO h then [AS " gpsdo=locked"] else [])) health
  end.

(** ** SIMs *)
Definition simIssueCmd (profile : string) (count : Z) : Cli unit :=
  issued ← do_ (IssueSIMs (Some (mkSimIssue profile "" count))) as_sims;
  _ ← each (fun s => printf "issued SIM imsi=%s profile=%s status=%s apn=%s\n"
                       [AS (IMSI s); AS (SProfile s); AS (SStatus s); AS (SAPN s)]) issued;
  printf "note: Ki/OPc were generated in the vault; export via sim export (bureau runbook)\n" [].
Definition simRevokeCmd (args : list string) : Cli unit :=
  ExactArgs 1 args (
    sim ← do_ (RevokeSIM (arg args 0)) as_sim;
    printf "revoked imsi=%s status=%s\n" [AS (IMSI sim); AS (SStatus sim)]).
Definition simSuspendCmd (args : list string) : Cli unit :=
  ExactArgs 1 args (
    sim ← do_ (SuspendSIM (arg args 0)) as_sim;
    printf "suspended imsi=%s status=%s\n" [AS (IMSI sim); AS (SStatus sim)]).
Definition simResumeCmd (args : list string) : Cli unit :=
  ExactArgs 1 args (
    sim ← do_ (ResumeSIM (arg args 0)) as_sim;
    printf "resumed imsi=%s status=%s\n" [AS (IMSI sim); AS (SStatus sim)]).
Definition simGetCmd (args : list string) : Cli unit :=
  ExactArgs 1 args (sim ← do_ (GetSIM_ (arg args 0)) as_sim; encode_json (PSIM sim)).
Definition simListCmd : Cli unit := sims ← do_ ListSIMs as_sims; encode_json (PSIMs sims).
(** The batch line of a card; the keys are those of a lab vector, if asked. *)
Definition export_one (labCreds : bool) (s : SIM) : Cli Subscriber :=
  let sub := mkSubscriber (IMSI s) (MSISDN s) "" "" "" "" (SAPN s) (SProfile s) 0 0 in
  if labCreds then
    match LoadTestVector (IMSI s) with
    | Ok vec => mret (mkSubscriber (IMSI s) (MSISDN s) (sKi vec) (sOPc vec) (sAMF vec) (sSQN vec)
                        (SAPN s) (SProfile s) 0 0)
    | Err _ => Failed (Errorf ("SIM " +:+ IMSI s +:+ " has no lab vector; --lab-creds only works for lab test IMSIs"))
    end
  else mret sub.
Fixpoint export_all (labCreds : bool) (l : list SIM) : Cli (list Subscriber) :=
  match l with
  | [] => mret []
  | s :: l => x ← export_one labCreds s; r ← export_all labCreds l; mret (x :: r)
  end.
(** [simprov.WriteCSV]'s records. *)
Definition csv_row (s : Subscriber) : list string :=
  [sIMSI s; sMSISDN s; sKi s; sOPc s; sAMF s; sSQN s; sAPN s; sClass s].
Definition csv_header : list string := ["imsi"; "msisdn"; "ki"; "opc"; "amf"; "sqn"; "apn"; "class"]%string.
Definition WriteCSV (subs : list Subscriber) : string := WriteAll (csv_header :: (csv_row <$> subs)).
(** [now] and [today] are the formatted clock; the JSON encoder is an argument. *)
Definition simExportCmd (write_json : list Subscriber -> string) (now today : string)
    (format out : string) (labCreds : bool) : Cli unit :=
  if negb (bool_decide (format = "csv"%string) || bool_decide (format = "json"%string)) then
    Failed (Errorf ("format must be csv or json (got " +:+ format +:+ ")")) else
  sims ← do_ ListSIMs as_sims;
  match sims with
  | [] => Failed (Errorf "no SIMs in the store to export")
  | _ =>
      subs ← export_all labCreds sims;
      let out := if decide (out = ""%string) then "out/" +:+ today else out in
      _ ← mkdir_all out;
      let path := Clean (out +:+ "/fairwave-sims-" +:+ now +:+ "." +:+ format) in
      _ ← write_file path (if decide (format = "csv"%string) then WriteCSV subs else write_json subs);
      _ ← printf "exported %d SIMs -> %s\n" [AZ (zlen subs); AS path];
      if labCreds then mret tt
      else println "note: Ki/OPc are not in the control plane; merge them from the provisioner/vault (--lab-creds for lab vectors only)"
  end.

(** ** Peers, spectrum, policy *)
Definition peerListCmd : Cli unit :=
  peers ← do_ ListPeers as_peers;
  each (fun p => printf "peer %-16s status=%-8s endpoint=%s allowed=%v\n"
                   [AS (pName p); AS (pStatus p); AS (Endpoint p); AL (AllowedIPs p)]) peers.
Definition peerAddCmd (args : list string) : Cli unit :=
  ExactArgs 2 args (
    p ← do_ (AddPeer (Some (mkPeer "" (arg args 0) (arg args 1) "" [] "" 0))) as_peer;
    printf "peer added: %s (id %s, status %s)\n" [AS (pName p); AS (pID p); AS (pStatus p)]).
Definition spectrumCheckCmd (country band : option string) (licenseRef : string) (indoor : bool) : Cli unit :=
  required [("country"%string, given country); ("band"%string, given band)] (
    let country := default "" country in
    let band := default "" band in
    v ← do_ (SpectrumCheck (Some (mkSpectrumCheck country band indoor licenseRef))) as_verdict;
    _ ← printf "spectrum check %s/%s indoor=%v: " [AS country; AS band; AB indoor];
    if Allowed v then println "ALLOWED"
    else _ ← println "DENIED";
         each (fun r => printf "  - %s\n" [AS (reason_text (SpectrumReason r))]) (Reasons v)).
Definition ack_phrase : string := "I hold authorization for this transmission".
Definition spectrumArmCmd (country band : option string) (licenseRef : string) : Cli unit :=
  required [("country"%string, given country); ("band"%string, given band)] (
    resp ← do_ (TxArm (Some (mkTxArm (default "" country) (default "" band) ack_phrase licenseRef))) as_tx;
    if (resp.1 : bool) then println "TX ARMED (authorization recorded)"
    else
      let reason := String.concat "; " (reason_text <$> resp.2) in
      let reason := if decide (reason = ""%string) then "gate refused"%string else reason in
      Failed (mkFailure (Some ErrPolicyBlocked)
        ("policy/legal gate refused: TX arming denied (" +:+ reason +:+ ")"))).
Definition spectrumDisarmCmd : Cli unit := _ ← do_ TxDisarm as_tx; println "TX DISARMED".
Definition auditCmd (limit : Z) : Cli unit :=
  entries ← do_ Audit as_audit;
  match entries with
  | [] => println "audit log is empty"
  | _ =>
      let entries := if (0 <? limit) && (limit <? zlen entries) then take (Z.to_nat limit) entries else entries in
      each (fun e => printf "%-24s %-18s %-18s %s\n" [AT (aTS e); AS (Action e); AS (Target e); AS (Detail e)])
        entries
  end.
Definition policyGetCmd : Cli unit := p ← do_ GetPolicy_ as_policy; encode_json (PPolicy p).
(** The flags that were passed. *)
Record PolicyFlags := mkPolicyFlags {
  fLocalBreakout : option bool; fMaxUEs : option Z; fHubPeer : option string;
  fQosDL : option Z; fQosUL : option Z;
}.
Definition apply_flags (f : PolicyFlags) (p : Policy) : Policy := {|
  LocalBreakout := default (LocalBreakout p) (fLocalBreakout f);
  HubPeer := default (HubPeer p) (fHubPeer f);
  MaxUEs := default (MaxUEs p) (fMaxUEs f);
  Api.APNs := Api.APNs p;
  QoSDLMbps := default (QoSDLMbps p) (fQosDL f);
  QoSULMbps := default (QoSULMbps p) (fQosUL f);
|}.
Definition policySetCmd (f : PolicyFlags) : Cli unit :=
  p ← do_ GetPolicy_ as_policy;
  updated ← do_ (PutPolicy (Some (apply_flags f p))) as_policy;
  printf "policy updated: local_breakout=%v max_ues=%d hub=%q qos=%d/%d Mbps\n"
    [AB (LocalBreakout updated); AZ (MaxUEs updated); AS (HubPeer updated);
     AZ (QoSDLMbps updated); AZ (QoSULMbps updated)].

(** ** Batches, quotas, usage *)
(** [filepath.Ext]: from the last dot of the last element. *)
Fixpoint ext_of (l acc : bytes) : bytes :=
  match l with
  | [] => []
  | b :: l => if b =? 47 then [] else if b =? 46 then 46 :: acc else ext_of l (b :: acc)
  end.
Definition Ext (path : string) : string := bytes_string (ext_of (reverse (string_bytes path)) []).
Fixpoint columns (i : nat) (header : list string) : gmap string nat :=
  match header with [] => ∅ | h :: l => let m := columns (S i) l in
    match m !! h with Some _ => m | None => <[h := i]> m end end.
Definition cell (row : list string) (col : gmap string nat) (name : string) : string :=
  match col !! name with Some i => default "" (row !! i) | None => "" end.
(** RFC 3339 parsing and the JSON decoder are arguments. *)
Definition import_item (parse_time : string -> option time) (col : gmap string nat) (row : list string)
    : SimImportItem :=
  let exp := cell row col "expires_at" in
  mkItem (cell row col "imsi") (cell row col "msisdn") (cell row col "profile") (cell row col "apn")
    (cell row col "status")
    (if decide (exp = ""%string) then 0 else default 0 (parse_time exp)).
Definition parse_csv (parse_time : string -> option time) (text : string) : option (list SimImportItem) :=
  match ReadAll First text with
  | Ok (header :: rows) => Some (import_item parse_time (columns 0 header) <$> rows)
  | _ => None
  end.
(** [file] is what the path holds, [None] if it cannot be opened. *)
Definition parseSimImport (parse_time : string -> option time)
    (parse_json : string -> option (list SimImportItem)) (path : string) (file : option string)
    : res Failure (list SimImportItem) :=
  if decide (path = ""%string) then Err (Errorf "sim import: empty path") else
  let ext := ToLower (Ext path) in
  if negb (bool_decide (ext = ".json"%string) || bool_decide (ext = ".csv"%string)) then
    Err (Errorf ("sim import: " +:+ path +:+ ": unsupported extension " +:+ ext +:+ " (use .csv or .json)"))
  else
    match file with
    | None => Err (Errorf ("open " +:+ path))
    | Some text =>
        match (if decide (ext = ".json"%string) then parse_json text else parse_csv parse_time text) with
        | Some items => Ok items
        | None => Err (Errorf ("parse " +:+ path))
        end
    end.
Definition simImportCmd (parse_time : string -> option time)
    (parse_json : string -> option (list SimImportItem)) (file : string -> option string)
    (args : list string) : Cli unit :=
  ExactArgs 1 args (
    match parseSimImport parse_time parse_json (arg args 0) (file (arg args 0)) with
    | Err f => Failed f
    | Ok items =>
        resp ← do_ (ImportSIMs (Some (mkImport items))) as_import;
        _ ← printf "import: %d new, %d updated, %d skipped\n"
              [AZ resp.1.1; AZ resp.1.2; AZ (zlen (resp.2 : list string))];
        each (fun s => printf "  skipped: %s\n" [AS s]) resp.2
    end).
Definition fmtBytesCLI `{!Format} (n : Z) : string :=
  let over b := fdiv (f64_of_Z n) (f64_of_Z b) in
  if 2 ^ 30 <=? n then fmt2 (over (2 ^ 30)) +:+ " GB"
  else if 2 ^ 20 <=? n then fmt2 (over (2 ^ 20)) +:+ " MB"
  else if 2 ^ 10 <=? n then fmt1 (over (2 ^ 10)) +:+ " KB"
  else pretty n +:+ " B".
Definition simQuotaCmd `{!Format} (bytes_ : option Z) (args : list string) : Cli unit :=
  ExactArgs 1 args (required [("bytes"%string, given bytes_)] (
    sim ← do_ (SetQuota (arg args 0) bytes_) as_sim;
    printf "quota for %s: %d bytes (%s)\n"
      [AS (IMSI sim); AZ (QuotaBytes sim); AS (fmtBytesCLI (QuotaBytes sim))])).
Definition simUsageCmd `{!Format} (args : list string) : Cli unit :=
  ExactArgs 1 args (
    u ← do_ (GetUsage_ (arg args 0)) as_usage;
    printf "imsi=%s up=%s dn=%s total=%s quota=%s updated=%s\n"
      [AS (uIMSI u); AS (fmtBytesCLI (uUp u)); AS (fmtBytesCLI (uDn u));
       AS (fmtBytesCLI (u64 (uUp u + uDn u))); AS (fmtBytesCLI (uQuota u)); AT (uUpdatedAt u)]).

(** ** Compliance, backup and restore: replies of raw bytes *)
Definition complianceCmd (today out : string) : Cli unit :=
  data ← raw "GET" "/v1/compliance/export" "" [];
  let out := if decide (out = ""%string) then "fairwave-compliance-" +:+ today +:+ ".csv" else out in
  _ ← write_file out data;
  printf "compliance report -> %s (%d bytes)\n" [AS out; AZ (slen data)].
Definition passphrase_header (passphrase : string) : list (string * string) :=
  if decide (passphrase = ""%string) then [] else [("X-Fairwave-Passphrase"%string, passphrase)].
Definition backupCmd (now out passphrase : string) (args : list string) : Cli unit :=
  ExactArgs 0 args (
    data ← raw "GET" "/v1/backup" "" (passphrase_header passphrase);
    let out := if decide (out = ""%string) then "fairwave-backup-" +:+ now +:+ ".tar.gz" else out in
    _ ← write_file out data;
    printf "backup -> %s (%d bytes)\n" [AS out; AZ (slen data)]).
(** [reply_message] is the message field of the decoded reply. *)
Definition restoreCmd (file : string -> option string) (reply_message : string -> string)
    (passphrase : string) (args : list string) : Cli unit :=
  ExactArgs 1 args (
    match file (arg args 0) with
    | None => Failed (Errorf ("open " +:+ arg args 0))
    | Some data =>
        body ← raw "POST" "/v1/restore" data (passphrase_header passphrase);
        printf "restore: %s\n" [AS (reply_message body)]
    end).

(** ** Tokens and alerts *)
Definition tokenCreateCmd (name : option string) (role : string) : Cli unit :=
  required [("name"%string, given name)] (
    resp ← do_ (CreateToken (Some (default "" name, role))) as_token;
    _ ← printf "token created (id %s, role %s)\n" [AS (tID resp.1); AS (tRole resp.1)];
    _ ← printf "  secret: %s\n" [AS resp.2];
    println "store it safely; it cannot be shown again").
Definition tokenListCmd : Cli unit :=
  tokens ← do_ ListTokens as_tokens;
  each (fun t => printf "%-10s %-16s role=%-8s created=%s state=%s\n"
    [AS (tID t); AS (tName t); AS (tRole t); AT (tCreatedAt t);
     AS (if tRevoked t then "revoked" else "active")]) tokens.
Definition tokenRevokeCmd (args : list string) : Cli unit :=
  ExactArgs 1 args (
    _ ← do_nil (RevokeToken_ (arg args 0));
    printf "token %s revoked\n" [AS (arg args 0)]).
Definition show_alerts : Cli unit :=
  alerts ← do_ ListAlerts_ as_alerts;
  match alerts with
  | [] => println "no alerts"
  | _ => each (fun a => printf "[%-8s] [%-8s] %-30s %s %s\n"
           [AS (if Resolved a then "resolved" else "active");
            AS (match Severity a with AlertCritical => "critical" | AlertWarning => "warning" | AlertInfo => "info" end);
            AS (alMessage a); AS (alTarget a); AT (alTS a)]) alerts
  end.
(** [rounds]: how often a watch polls before it is interrupted. *)
Fixpoint alertsCmd (watch : bool) (rounds : nat) : Cli unit :=
  match rounds with
  | O => mret tt
  | S n => _ ← show_alerts;
           if watch then _ ← println "--- watching (ctrl-c to stop) ---"; alertsCmd watch n
           else mret tt
  end.

(** ** eSIM *)
Definition esimListCmd : Cli unit :=
  codes ← do_ EsimList as_codes;
  match codes with
  | [] => println "no activation codes issued"
  | _ => each (fun e => printf "%-14s imsi=%-15s iccid=%-20s created=%s downloaded=%v\n"
           [AS (ecCode e); AS (ecIMSI e); AS (ecICCID e); AT (ecCreatedAt e);
            AB (match ecDownloadedAt e with Some _ => true | None => false end)]) codes
  end.
Definition esimRevokeCmd (args : list string) : Cli unit :=
  match args with
  | [] => Failed (Errorf "usage: fairwave esim revoke <activation-code>")
  | a :: _ => _ ← do_nil (EsimRevoke (Some a));
              printf "activation code %s %s\n" [AS a; AS "revoked"]
  end.
(** With the control plane up: [png] is the QR picture of the reply. *)
Definition esimIssueOnline (png : EsimIssueResponse -> option string) (imsi address eid qrOut : string)
    : Cli unit :=
  resp ← do_ (EsimIssue (Some (mkEsimIssue imsi address eid))) as_issued;
  _ ← printf "eSIM profile issued for IMSI %s (control plane)\n" [AS (erIMSI resp)];
  _ ← printf "  iccid:  %s\n" [AS (erICCID resp)];
  _ ← (if decide (eid = ""%string) then mret tt else printf "  eid:    %s (pinned)\n" [AS eid]);
  _ ← printf "  code:   LPA:1$%s$%s\n" [AS (erAddress resp); AS (erCode resp)];
  _ ← printf "  smdp:   %s (served by fairwave-control at /es9plus)\n" [AS (erAddress resp)];
  if decide (qrOut = ""%string) then mret tt
  else match png resp with
       | None => Failed (Errorf "control plane returned no QR payload; try without --qr")
       | Some data => _ ← write_file qrOut data; printf "  qr:     %s\n" [AS qrOut]
       end.
(** The control plane if it answers, else [local]: the registry beside the
    command, [esimIssueLocal] below. *)
Definition esimIssueCmd (png : EsimIssueResponse -> option string) (local : Cli unit)
    (imsi : option string) (address eid qrOut : string) : Cli unit :=
  required [("imsi"%string, given imsi)]
    (Send Healthz (fun x =>
       if match x with Some x => status_ x <? 400 | None => false end
       then esimIssueOnline png (default "" imsi) address eid qrOut else local)).

(** ** Hydra *)
Definition hydraStatusCmd : Cli unit :=
  st ← do_ HydraStatus as_hydra;
  _ ← printf "hydra anchor:     %s\n" [AS (stAnchor st)];
  _ ← printf "threads:          %d (%d up)\n" [AZ (stThreads st); AZ (stThreadsUp st)];
  _ ← printf "weaves:           %d\n" [AZ (stWeaves st)];
  _ ← printf "aggregate:        %.0f Mbps\n" [AF (stAggregate st)];
  _ ← printf "frames sent:      %d\n" [AZ (stFramesSent st)];
  printf "payloads delivered: %d\n" [AZ (stDelivered st)].
Definition hydraThreadsCmd : Cli unit :=
  threads ← do_ HydraListThreads as_threads;
  match threads with
  | [] => println "no threads"
  | _ =>
      _ ← printf "%-16s %-10s %-8s %-10s %-8s %-6s\n"
            [AS "ID"; AS "BOX"; AS "MBPS"; AS "RTT(ms)"; AS "LOSS(%)"; AS "UP"];
      each (fun t => printf "%-16s %-10s %-8.0f %-10.1f %-8.1f %-6v\n"
        [AS (Bearer.ID t); AS (Box t); AF (Bearer.Mbps t); AF (RTTms t); AF (LossPct t); AB (Up t)]) threads
  end.
(** The flags' defaults are in [req]; [id] and [mbps] are required. *)
Definition hydraThreadAddCmd (id : option string) (mbps : option f64) (req : HydraThreadRequest) : Cli unit :=
  required [("id"%string, given id); ("mbps"%string, given mbps)] (
    let req := {| req with htID := default (htID req) id; htMbps := default (htMbps req) mbps |} in
    out ← do_ (HydraAddThread (Some req)) as_thread;
    printf "thread %s: %.0f Mbps, rtt %.1f ms, loss %.1f%%, up=%v\n"
      [AS (Bearer.ID out); AF (Bearer.Mbps out); AF (RTTms out); AF (LossPct out); AB (Up out)]).
Definition hydraThreadRemoveCmd (args : list string) : Cli unit :=
  ExactArgs 1 args (
    _ ← do_nil (HydraDeleteThread (arg args 0));
    printf "thread %s removed\n" [AS (arg args 0)]).
Definition hydraWeavesCmd : Cli unit :=
  weaves ← do_ HydraListWeaves as_weaves;
  match weaves with
  | [] => println "no weaves"
  | _ =>
      _ ← printf "%-16s %-12s %-12s %s\n" [AS "ID"; AS "ANCHOR"; AS "MODE"; AS "THREADS"];
      each (fun w => printf "%-16s %-12s %-12s %s\n"
        [AS (wID w); AS (wAnchor w); AS (Fabric.Mode w); AS (String.concat "," (Threads w))]) weaves
  end.
(** [splitCSV]: the trimmed, non-empty fields between commas. *)
Fixpoint split_comma (s : string) : string * list string :=
  match s with
  | EmptyString => (EmptyString, [])
  | String.String c s => let '(x, l) := split_comma s in
                  if decide (c = comma) then (EmptyString, x :: l) else (String.String c x, l)
  end.
Definition splitCSV (s : string) : list string :=
  let '(x, l) := split_comma s in filter (fun p => p <> ""%string) (TrimSpace <$> (x :: l)).
Definition hydraWeaveCreateCmd (id threads : option string) (anchor : string) : Cli unit :=
  required [("id"%string, given id); ("threads"%string, given threads)] (
    match splitCSV (default "" threads) with
    | [] => Failed (Errorf "--threads must list at least one thread id")
    | ids =>
        w ← do_ (HydraCreateWeave (Some (mkHydraWeave (default "" id) anchor ids))) as_weave;
        printf "weave %s -> anchor %s over %d threads: %s\n"
          [AS (wID w); AS (wAnchor w); AZ (zlen (Threads w)); AS (String.concat "," (Threads w))]
    end).
Definition hydraWeaveRemoveCmd (args : list string) : Cli unit :=
  ExactArgs 1 args (
    _ ← do_nil (HydraDeleteWeave (arg args 0));
    printf "weave %s removed\n" [AS (arg args 0)]).
Definition hydraWeaveStatsCmd (args : list string) : Cli unit :=
  ExactArgs 1 args (
    st ← do_ (HydraWeaveStats (arg args 0)) as_stats;
    _ ← printf "weave %s (anchor %s, mode %s)\n"
          [AS (wID (wsWeave st)); AS (wAnchor (wsWeave st)); AS (Fabric.Mode (wsWeave st))];
    _ ← printf "  aggregate:   %.0f Mbps\n" [AF (wsAggregate st)];
    _ ← printf "  frames sent: %d (%d bytes)\n" [AZ (wsFramesSent st); AZ (wsBytesSent st)];
    let r := wsReorder st in
    _ ← printf "  reorder:     delivered=%d reordered=%d dup=%d too-far=%d depth<=%d\n"
          [AZ (Reorder.Delivered r); AZ (Reordered r); AZ (Duplicates r); AZ (TooFar r); AZ (MaxDepth r)];
    printf "  bench:       %d run(s), %d payload(s) reassembled\n" [AZ (wsBenchRuns st); AZ (wsBenchDelivered st)]).
Definition hydraBenchCmd (packets pktBytes : Z) (args : list string) : Cli unit :=
  ExactArgs 1 args (
    b ← do_ (HydraBench (arg args 0) (Some (packets, pktBytes))) as_bench;
    _ ← printf "hydra bench: %s\n" [AS (brWeaveID b)];
    _ ← printf "  packets:        %d (%d bytes)\n" [AZ (brPackets b); AZ (brBytes b)];
    _ ← printf "  delivered:      %d\n" [AZ (brDelivered b)];
    _ ← printf "  single thread:  %.0f Mbps\n" [AF (brSingle b)];
    _ ← printf "  aggregate:      %.0f Mbps\n" [AF (brAggregate b)];
    _ ← printf "  speedup:        %.2fx\n" [AF (brSpeedup b)];
    printf "  reorder events: %d (max depth %d)\n" [AZ (Reordered (brReorder b)); AZ (MaxDepth (brReorder b))]).
Definition hydraStripCmd (payload : string) (args : list string) : Cli unit :=
  ExactArgs 1 args (
    r ← do_ (HydraStrip (arg args 0) (Some (Base64Encode (string_bytes payload)))) as_strip;
    _ ← printf "seq %d -> thread %s (%d bytes)\n" [AZ (srSeq r); AS (srThreadID r); AZ (FrameLen r)];
    println (Base64Encode (srFrame r))).
Definition hydraIngestCmd (frame : option string) (args : list string) : Cli unit :=
  ExactArgs 1 args (required [("frame"%string, given frame)] (
    n ← do_ (HydraIngest (arg args 0) frame) as_delivered;
    printf "delivered %d payload(s)\n" [AZ n])).

(** ** Diagnostics *)
(** What the machine answers: the tools on the path, the kernel's release. *)
Record Machine := mkMachine {
  has_uname : bool; release : string; has_docker : bool; has_make : bool; has_go : bool;
  server_mode : string;
}.
Definition doctor_checks (m : Machine) (reachable : bool) : list (string * bool) := [
  ("kernel", has_uname m && negb (bool_decide (release m = "")));
  ("docker", has_docker m); ("make", has_make m); ("go", has_go m);
  ("control plane", reachable);
  ("rf mode", negb (bool_decide (server_mode m = "rf")))]%string.
Definition doctorCmd (m : Machine) : Cli unit :=
  Send Healthz (fun x =>
    let reachable := match x with Some x => status_ x <? 400 | None => false end in
    let checks := doctor_checks m reachable in
    let fail := length (filter (fun c => c.2 = false) checks) in
    _ ← each (fun c : string * bool => printf "[%s] %-28s %s\n" [AS (if c.2 then "OK " else "FAIL"); AS c.1]) checks;
    if decide (fail = 0%nat) then println "\nall checks passed"
    else printf "\n%d issue(s) found - see docs/ops/troubleshooting.md\n" [AZ (Z.of_nat fail)]).
Definition versionCmd (Version : string) : Cli unit := printf "fairwave %s\n" [AS Version].
(** [load] is what [config.Load] returns on the path. *)
Definition configValidateCmd (load : string -> option string) (args : list string) : Cli unit :=
  ExactArgs 1 args (
    match load (arg args 0) with
    | Some e => _ ← printf "%s\n" [AB false; AS (arg args 0); AS e]; Failed (Errorf e)
    | None => printf "%s\n" [AB true; AS (arg args 0)]
    end).
End Client.

(** ** eSIM without a control plane *)
Section Standalone.
Context {H : Type} `{!Writer H} `{!Aead} `{!JsonProfile}.
(** [esim issue] when the control plane does not answer: the local registry
    and, if a driver is named, the core.  [qr_ok]: the picture could be made
    and written. *)
Definition esimIssueLocal (e1 e2 : EsimRegistry.Env) (rnd_token rnd_profile : Z -> option bytes)
    (t1 t2 : time) (imsi address eid hssDriver : string) (qr_ok : bool) (f : EsimRegistry.File) (h : H)
    : EsimRegistry.File * H * res Failure Code :=
  match LoadTestVector imsi with
  | Err _ => (f, h, Err (Errorf "lab vector lookup"))
  | Ok sub =>
      match GenerateToken 12 rnd_token with
      | Err _ => (f, h, Err (Errorf "token"))
      | Ok token =>
          match NewLabProfile sub address [WithEID eid] rnd_profile t1 t2 with
          | Err _ => (f, h, Err (Errorf "profile"))
          | Ok p =>
              match EsimRegistry.Open e1 f with
              | (f, Err _) => (f, h, Err (Errorf "registry"))
              | (_, Ok r) =>
                  match EsimRegistry.Add e2 token (Some p) r with
                  | (r, Err _) => (EsimRegistry.file r, h, Err (Errorf "registry"))
                  | (r, Ok _) =>
                      let f := EsimRegistry.file r in
                      if negb qr_ok then (f, h, Err (Errorf "qr")) else
                      if decide (hssDriver = ""%string \/ hssDriver = "none"%string) then
                        (f, h, Ok (Activation.New address token))
                      else
                        let '(h, ok) := hss_add h sub in
                        (f, h, if ok then Ok (Activation.New address token)
                               else Err (Errorf "hss write-back"))
                  end
              end
          end
      end
  end.
(** What [esim serve] resolves codes with: the registry as it opens it. *)
Definition esimServeCmd (e : EsimRegistry.Env) (tlsCert tlsKey : string) (f : EsimRegistry.File)
    : res Failure (string -> res EsimRegistry.Error (option Profile.Profile)) :=
  match EsimRegistry.Open e f with
  | (_, Err _) => Err (Errorf "registry")
  | (_, Ok r) =>
      if negb (bool_decide (tlsCert = ""%string)) && bool_decide (tlsKey = ""%string)
         || bool_decide (tlsCert = ""%string) && negb (bool_decide (tlsKey = ""%string))
      then Err (Errorf "--tls-cert and --tls-key must be set together")
      else Ok (EsimRegistry.Resolve r)
  end.
End Standalone.
Definition registryPath (dataDir : string) : string := dataDir +:+ "/esim-registry.json".
