(* ===== verification/CliFacts.v ===== *)
(** * CliFacts: the command line against the server

    Commands of [Cli] run against [Routes.serve]: what their exit codes say,
    what they change, and what they read back. *)
From stdpp Require Import pretty.
From S2P Require Import Prelude.
From S2P Require Import Float64.
From S2P Require Import Encoding.
From S2P Require Import Csv.
From S2P Require Import Anchor.
From S2P Require Import Activation.
From S2P Require Import Fabric.
From S2P Require Import Profile.
From S2P Require Import EsimCrypto.
From S2P Require Import Simprov.
From S2P Require Import EsimRegistry.
From S2P Require Import Spectrum.
From S2P Require Import Config.
From S2P Require Import Api.
From S2P Require Import Store.
From S2P Require Import Control.
From S2P Require Import Routes.
From S2P Require Import ControlFacts.
From S2P Require Import Cli.

(** ** Running commands *)
Section Running.
Context {W : Type} (srv : Request -> W -> W * Response).
Context (raw_srv : string -> string -> string -> list (string * string) -> W -> W * (Z * string)).
Context (link : nat -> Link) (fs : nat -> bool).
Context (message : Response -> string) (net_error : string) (c : client).

(** A request whose reply arrives. *)
Lemma exec_do {A B} (r : Request) (decode : Payload -> option A) (f : A -> Cli B) n w :
  link n = Delivered ->
  exec srv raw_srv link fs n (do_ message net_error c r decode ≫= f) w =
  let '(w', x) := srv r w in
  if 400 <=? status_ x then (w', [], Err (api_error message x))
  else match writeJSON (payload_ x) with
       | None => (w', [], Err (Errorf "EOF"))
       | Some p => match decode p with
                   | Some a => exec srv raw_srv link fs (S n) (f a) w'
                   | None => (w', [], Err (Errorf "json"))
                   end
       end.
Proof.
  intros Hl. unfold do_. cbn [mbind Cli_bind Cli.exec]. rewrite Hl. destruct (srv r w) as [w' x].
  destruct (400 <=? status_ x); [done|]. destruct (writeJSON (payload_ x)) as [p|]; [|done]. by destruct (decode p).
Qed.
Lemma required_all {A} flags (m : Cli A) : Forall (fun f => f.2 = true) flags -> required flags m = m.
Proof.
  intros Hf. unfold required. replace (filter (fun f => f.2 = false) flags) with (@nil (string * bool)); [done|].
  induction Hf as [|f l Hf Hl IH]; [done|]. rewrite filter_cons_False; [done|]. congruence.
Qed.
(** A wrong number of arguments and a missing flag exit 2, with no request. *)
Lemma usage_exit k args flags (m : Cli unit) n w :
  (length args <> k -> exists f, exec srv raw_srv link fs n (ExactArgs k args m) w = (w, [], Err f) /\
     exit_code (Err f) = ExitUsage) /\
  (Exists (fun f => f.2 = false) flags -> exists f,
     exec srv raw_srv link fs n (required flags m) w = (w, [], Err f) /\ exit_code (Err f) = ExitUsage).
Proof.
  split.
  - intros Hk. unfold ExactArgs. rewrite decide_False by done. by eexists.
  - intros Hf. unfold required. destruct (filter _ flags) as [|g l] eqn:E.
    + exfalso. apply Exists_exists in Hf as (g & Hg & Hb).
      assert (g ∈ filter (fun f => f.2 = false) flags) as Hin by by apply list_elem_of_filter.
      rewrite E in Hin. by apply not_elem_of_nil in Hin.
    + eexists. split; [reflexivity|]. unfold exit_code. cbn [wraps Errorf].
      rewrite !bool_decide_false by done. by unfold isCobraUsageError.
Qed.
Lemma api_error_exit x : exit_code (Err (api_error message x)) <> ExitOK /\
  exit_code (Err (api_error message x)) <> ExitPolicyBlock.
Proof.
  unfold exit_code, api_error. destruct (payload_ x); try destruct (decide _);
    cbn [wraps Errorf]; rewrite !bool_decide_false by done; by destruct (isCobraUsageError _).
Qed.
End Running.

Section Facts.
Context {H : Type} `{!Writer H} `{!BlockCipher} `{!Aead} `{!JsonProfile} `{!Format}.
Context (env : Env) (cfg : ControlConfig) (adminTok node_id version : string).
Context (spectrum : option (string -> string -> bool -> string -> Verdict)).
Context (profileSource : string -> option Subscriber).
Context (message : Response -> string) (net_error : string) (reason_text : TxReason -> string).
Context (error_body : string -> option (string * string)).
Context (raw_srv : string -> string -> string -> list (string * string) -> World H -> World H * (Z * string)).
Abbreviation serve := (serve env cfg adminTok node_id version spectrum profileSource).
Abbreviation arm_allowed := (arm_allowed cfg spectrum).

(** ** Arming from the command line *)
Definition same_armed (w w' : World H) : Prop := armed w' = armed w.
#[local] Instance same_armed_frame : Frame same_armed.
Proof.
  split; [split|]; unfold same_armed; [by intros w| |by intros w n].
  intros w1 w2 w3 E1 E2. by rewrite E2.
Qed.
Lemma stored_armed {E} f : keeps same_armed (stored env f : M H E bool).
Proof. by apply keeps_stored; [exact _|]; intros ok w. Qed.
Lemma audit_armed {E} p a t d : keeps same_armed (audit env p a t d : M H E unit).
Proof. unfold audit. keep. apply stored_armed. Qed.
Lemma mark_nodes_armed b : keeps same_armed (mark_nodes (H := H) env b).
Proof. unfold mark_nodes. keep. apply stored_armed. Qed.
Definition refused (x : Response) : Prop := 400 <= status_ x /\ exists code, payload_ x = PErr code.
Definition outcome {A} (r : res Response A) (ok : A -> Response) : Response :=
  match r with Ok a => ok a | Err x => x end.

(** The reply of the handler, and the flag it leaves. *)
Lemma handleTxArm_run principal req (w : World H) :
  let '(w', r) := handleTxArm env cfg spectrum principal (Some req) w in
  (arm_allowed req = true /\ r = Err persist_error /\ save_ok env (ticks w) = false) \/
  (r = Ok (mkResponse 200 (PTx (arm_allowed req) (arm_reasons cfg spectrum req))) /\
   armed w' = arm_allowed req || armed w).
Proof.
  unfold handleTxArm, readJSON. change (mret req ≫= ?f) with (f req). cbv beta zeta.
  assert (Hend : forall w1 : World H, armed w1 = arm_allowed req || armed w ->
    let '(w', r) := (audit env principal "tx_arm" (taCountry req +:+ "/" +:+ taBand req)
        ("allowed=" +:+ fmt_bool (arm_allowed req) +:+ " indoor=true license=" +:+ quote (taLicenseRef req)) ≫=
        fun _ => reply 200 (PTx (arm_allowed req) (arm_reasons cfg spectrum req))) w1 in
    r = Ok (mkResponse 200 (PTx (arm_allowed req) (arm_reasons cfg spectrum req))) /\
    armed w' = arm_allowed req || armed w).
  { intros w1 Hw1. set (m := audit _ _ _ _ _).
    destruct (total_run m w1) as (w2 & [] & E); [apply total_audit|].
    pose proof (audit_armed (E := Response) principal "tx_arm" (taCountry req +:+ "/" +:+ taBand req)
        ("allowed=" +:+ fmt_bool (arm_allowed req) +:+ " indoor=true license=" +:+ quote (taLicenseRef req)) w1) as Ha.
    fold m in Ha. rewrite E in Ha. change (armed w2 = armed w1) in Ha. unfold mbind, M_bind. rewrite E. cbn. split; [done|]. by rewrite Ha. }
  destruct (arm_allowed req) eqn:Hallow; cbn [when orb] in *.
  2: { specialize (Hend w eq_refl). rewrite run_ret_bind.
       match goal with |- let '(_, _) := ?x in _ => destruct x end. by right. }
  set (m := modify _ ≫= _).
  assert (Hm : (exists w1, m w = (w1, Err persist_error) /\ save_ok env (ticks w) = false) \/
               (exists w1, m w = (w1, Ok tt) /\ armed w1 = true)).
  { unfold m. rewrite run_modify_bind. set (w0 := {| w with armed := true |}).
    unfold persist, stored, next, act, mbind, M_bind. cbn [ticks store].
    destruct (save_ok env (ticks w0)) eqn:Es; cbn.
    - right. match goal with |- context [mark_nodes env true ?x] => set (w2 := x) end.
      destruct (total_run (mark_nodes (H := H) env true) w2) as (w3 & [] & E); [apply total_mark_nodes|].
      pose proof (mark_nodes_armed true w2) as Ha. rewrite E in Ha. exists w3. split; [exact E|]. exact Ha.
    - left. eexists. split; [reflexivity|exact Es]. }
  destruct Hm as [(w1 & E & Hs)|(w1 & E & Hw1)].
  - unfold mbind at 1, M_bind at 1. rewrite E. by left.
  - rewrite (run_bind m _ w w1 tt E). specialize (Hend w1 Hw1).
    match goal with |- let '(_, _) := ?x in _ => destruct x end. by right.
Qed.
Lemma serve_TxArm c req (w : World H) :
  let '(w', x) := serve c (TxArm (Some req)) w in
  (refused x /\ ((exists name, (authenticate env adminTok c w).2 = Ok (RoleAdmin, name)) ->
                 exists k, save_ok env k = false)) \/
  (x = mkResponse 200 (PTx (arm_allowed req) (arm_reasons cfg spectrum req)) /\
   armed w' = arm_allowed req || armed w).
Proof.
  unfold Routes.serve, authMW. cbn [route]. change (public_path "/v1/tx/arm") with false. cbv iota.
  assert (Ha : keeps same_armed (authenticate env adminTok c)) by apply keeps_authenticate, _.
  specialize (Ha w). unfold mbind at 1, M_bind at 1.
  destruct (authenticate env adminTok c w) as [w1 [[role name]|x]] eqn:E; cbn [snd].
  2: { apply authenticate_refused in E as ->. left. split; [by split; [|eexists]|]. by intros [? [=]]. }
  destruct (authorize role POST "/v1/tx/arm") eqn:Er; cbn [fst].
  { rewrite Er. cbn. left. split; [by split; [|eexists]|]. intros [n [= -> ->]]. done. }
  rewrite Er. cbn [handle]. change (armed w1 = armed w) in Ha.
  pose proof (handleTxArm_run (principalFrom name) req w1) as Hh.
  destruct (handleTxArm _ _ _ _ _ _) as [w2 r]. destruct Hh as [(Hal & -> & Hs)|[-> Hw]].
  - left. split; [by split; [|eexists]|]. intros _. by eexists.
  - right. split; [done|]. by rewrite <- Ha.
Qed.

(** C39: What the exit code of [fairwave spectrum arm] says.  Run against the
    server, whatever its state and whoever asks, with the reply delivered:
    exit 0 means the gate allowed this very country and band and the server is
    armed; exit 3 means the gate refused and the armed flag is as it was; and
    an administrator whose saves succeed gets exactly one of the two. *)
Theorem spectrum_arm_exit cred cl link fs country band lic (w : World H) : link 0%nat = Delivered ->
  let req := mkTxArm country band ack_phrase lic in
  let '(w', _, r) := exec (serve cred) raw_srv link fs 0
    (spectrumArmCmd message net_error reason_text cl (Some country) (Some band) lic) w in
  (exit_code r = ExitOK -> arm_allowed req = true /\ armed w' = true) /\
  (exit_code r = ExitPolicyBlock -> arm_allowed req = false /\ armed w' = armed w) /\
  ((exists name, (authenticate env adminTok cred w).2 = Ok (RoleAdmin, name)) ->
   (forall k, save_ok env k = true) ->
   exit_code r = if arm_allowed req then ExitOK else ExitPolicyBlock).
Proof.
  intros Hl req. unfold spectrumArmCmd. rewrite required_all by repeat constructor.
  rewrite exec_do by done. change (mkTxArm (default "" (Some country)) (default "" (Some band)) ack_phrase lic) with req. pose proof (serve_TxArm cred req w) as Hs.
  destruct (serve cred (TxArm (Some req)) w) as [w' x]. destruct Hs as [[[Hst _] Hadm]|[-> Hw]].
  - replace (400 <=? status_ x) with true by (symmetry; zbool; lia).
    destruct (api_error_exit message x) as [X1 X2]. split; [intros E; by destruct (X1 E)|]. split; [intros E; by destruct (X2 E)|].
    intros Ha Hs. destruct (Hadm Ha) as [k Hk]. congruence.
  - cbn [status_ payload_ as_tx fst snd]. change (400 <=? 200) with false. cbv iota.
    destruct (arm_allowed req) eqn:Hal; cbn in Hw |- *; rewrite Hw; done.
Qed.

(** ** Setting the policy *)
Definition policy_of (w : World H) : Policy := GetPolicy (store w).
Definition same_policy (w w' : World H) : Prop := policy_of w' = policy_of w.
#[local] Instance same_policy_frame : Frame same_policy.
Proof.
  split; [split|]; unfold same_policy; [by intros w| |by intros w n].
  intros w1 w2 w3 E1 E2. by rewrite E2.
Qed.
Lemma audit_policy {E} p a t d : keeps same_policy (audit env p a t d : M H E unit).
Proof. unfold audit. keep. apply keeps_stored; [exact _|]. by intros [] w. Qed.
(** What the server makes of a policy it is sent. *)
Definition clamped (p : Policy) : Policy :=
  let p := if MaxUEs p <=? 0 then {| p with MaxUEs := 128 |} else p in
  match Api.APNs p with [] => {| p with Api.APNs := ["internet"%string] |} | _ => p end.
Lemma clamped_apply f p : let q := clamped (apply_flags f p) in
  LocalBreakout q = default (LocalBreakout p) (fLocalBreakout f) /\
  HubPeer q = default (HubPeer p) (fHubPeer f) /\
  MaxUEs q = (if default (MaxUEs p) (fMaxUEs f) <=? 0 then 128 else default (MaxUEs p) (fMaxUEs f)) /\
  Api.APNs q = (if decide (Api.APNs p = []) then ["internet"%string] else Api.APNs p) /\
  QoSDLMbps q = default (QoSDLMbps p) (fQosDL f) /\ QoSULMbps q = default (QoSULMbps p) (fQosUL f).
Proof.
  unfold clamped, apply_flags. cbn [MaxUEs].
  destruct (default (MaxUEs p) (fMaxUEs f) <=? 0); cbn; destruct (Api.APNs p); done.
Qed.
Lemma serve_GetPolicy c (w : World H) :
  let '(w', x) := serve c GetPolicy_ w in
  refused x \/ (x = mkResponse 200 (PPolicy (policy_of w)) /\ policy_of w' = policy_of w).
Proof.
  unfold Routes.serve, authMW. cbn [route]. change (public_path "/v1/policy") with false. cbv iota.
  assert (Ha : keeps same_policy (authenticate env adminTok c)) by apply keeps_authenticate, _.
  specialize (Ha w). unfold mbind at 1, M_bind at 1.
  destruct (authenticate env adminTok c w) as [w1 [[role name]|x]] eqn:E; cbn [fst snd].
  2: { apply authenticate_refused in E as ->. left. by split; [|eexists]. }
  change (policy_of w1 = policy_of w) in Ha.
  destruct (authorize role GET "/v1/policy").
  { cbn. left. by split; [|eexists]. }
  right. cbn. by rewrite <- Ha.
Qed.
Lemma serve_PutPolicy c p (w : World H) :
  let '(w', x) := serve c (PutPolicy (Some p)) w in
  refused x \/ (x = mkResponse 200 (PPolicy (clamped p)) /\ policy_of w' = clamped p).
Proof.
  unfold Routes.serve, authMW. cbn [route]. change (public_path "/v1/policy") with false. cbv iota.
  unfold mbind at 1, M_bind at 1.
  destruct (authenticate env adminTok c w) as [w1 [[role name]|x]] eqn:E; cbn [fst snd].
  2: { apply authenticate_refused in E as ->. left. by split; [|eexists]. }
  destruct (authorize role "PUT" "/v1/policy").
  { cbn. left. by split; [|eexists]. }
  cbn [handle]. unfold handlePutPolicy, readJSON. rewrite run_ret_bind. cbv zeta.
  change (match Api.APNs (if MaxUEs p <=? 0 then {| p with MaxUEs := 128 |} else p) with
          | [] => {| (if MaxUEs p <=? 0 then {| p with MaxUEs := 128 |} else p) with Api.APNs := ["internet"%string] |}
          | _ => if MaxUEs p <=? 0 then {| p with MaxUEs := 128 |} else p end) with (clamped p).
  generalize (clamped p). intros q.
  assert (Hp : exists w2 ok, persist env (fun ok => SetPolicy ok q) w1 = (w2, if (ok : bool) then Ok tt else Err persist_error) /\
                             policy_of w2 = q).
  { rewrite persist_run. unfold SetPolicy, save. destruct (save_ok env (ticks w1)); [exists {| w1 with ticks := S (ticks w1); store := (save true TPolicy (set_policy q (store w1))).1 |}, true|exists {| w1 with ticks := S (ticks w1); store := (save false TPolicy (set_policy q (store w1))).1 |}, false]; by split. }
  destruct Hp as (w2 & [] & Ep & Hq).
  2: { unfold mbind at 1, M_bind at 1. rewrite Ep. left. by split; [|eexists]. }
  rewrite (run_bind _ _ _ _ _ Ep). set (m := audit _ _ _ _ _).
  destruct (total_run m w2) as (w3 & [] & Em); [apply total_audit|].
  assert (Hw3 : policy_of (m w2).1 = policy_of w2) by apply audit_policy. rewrite Em in Hw3. cbn [fst] in Hw3.
  rewrite (run_bind _ _ _ _ _ Em), run_gets_bind. cbn. right.
  change (GetPolicy (store w3)) with (policy_of w3). by rewrite Hw3, Hq.
Qed.

(** [fairwave policy set] changes what it was asked to and nothing else.
    With the replies delivered, if it exits 0 then every field of the server's
    policy is the value of its flag if that was passed and what it was before
    if not (except that a cap below one becomes 128 and an empty list of APNs
    gets the default one), and the line printed shows the stored policy;
    without success nothing is printed. *)
Theorem policy_set_exact cred cl link fs f (w : World H) : (forall n, link n = Delivered) ->
  let '(w', out, r) := exec (serve cred) raw_srv link fs 0 (policySetCmd message net_error cl f) w in
  let p := policy_of w in let q := policy_of w' in
  if decide (exit_code r = ExitOK) then
    LocalBreakout q = default (LocalBreakout p) (fLocalBreakout f) /\
    HubPeer q = default (HubPeer p) (fHubPeer f) /\
    MaxUEs q = (if default (MaxUEs p) (fMaxUEs f) <=? 0 then 128 else default (MaxUEs p) (fMaxUEs f)) /\
    Api.APNs q = (if decide (Api.APNs p = []) then ["internet"%string] else Api.APNs p) /\
    QoSDLMbps q = default (QoSDLMbps p) (fQosDL f) /\ QoSULMbps q = default (QoSULMbps p) (fQosUL f) /\
    exists fmt, out = [Printf fmt [AB (LocalBreakout q); AZ (MaxUEs q); AS (HubPeer q);
                                   AZ (QoSDLMbps q); AZ (QoSULMbps q)]]
  else out = [].
Proof.
  intros Hl. unfold policySetCmd. rewrite exec_do by done.
  pose proof (serve_GetPolicy cred w) as Hg. destruct (serve cred GetPolicy_ w) as [w1 x].
  destruct Hg as [[Hst _]|[-> Hw1]].
  { replace (400 <=? status_ x) with true by (symmetry; zbool; lia).
    cbv zeta. by rewrite decide_False by apply (api_error_exit message x). }
  change (400 <=? status_ (mkResponse 200 (PPolicy (policy_of w)))) with false. cbv iota.
  cbn [payload_]. change (writeJSON (PPolicy (policy_of w))) with (Some (PPolicy (policy_of w))).
  cbn [as_policy]. rewrite exec_do by done.
  set (q := apply_flags f (policy_of w)). pose proof (serve_PutPolicy cred q w1) as Hp.
  destruct (serve cred (PutPolicy (Some q)) w1) as [w2 x]. destruct Hp as [[Hst _]|[-> Hw2]].
  { replace (400 <=? status_ x) with true by (symmetry; zbool; lia).
    cbv zeta. by rewrite decide_False by apply (api_error_exit message x). }
  cbn [status_ payload_]. change (400 <=? 200) with false. cbv iota zeta.
  match goal with |- context [writeJSON (PPolicy ?p)] => change (writeJSON (PPolicy p)) with (Some (PPolicy p)) end.
  cbn [as_policy exec printf exit_code]. rewrite decide_True by done. rewrite Hw2. subst q.
  destruct (clamped_apply f (policy_of w)) as (-> & -> & -> & -> & -> & ->).
  repeat (split; [done|]). by eexists.
Qed.
End Facts.

(** ** Batches: export, then import *)
Definition imported_item (s : Subscriber) : SimImportItem := mkItem (sIMSI s) (sMSISDN s) "" (sAPN s) "" 0.
Lemma import_row parse_time s :
  import_item parse_time (columns 0 csv_header) (csv_row s) = imported_item s.
Proof. destruct s. vm_compute. reflexivity. Qed.

Lemma Ext_csv dir : Ext (dir +:+ ".csv") = ".csv"%string.
Proof.
  unfold Ext. rewrite string_bytes_app, reverse_app.
  change (reverse (string_bytes ".csv")) with [118; 115; 99; 46]. reflexivity.
Qed.
Lemma ReadAll_rows subs : Forall (fun s => Forall no_cr (csv_row s)) subs ->
  ReadAll First (WriteAll (csv_header :: (csv_row <$> subs))) = Ok (csv_header :: (csv_row <$> subs)).
Proof.
  intros Hs.
  unfold ReadAll. rewrite normalise_id; [apply scan_all|apply no_cr_all].
  - constructor; [done|]. apply Forall_fmap, Forall_true. by intros [].
  - cbn. apply Forall_fmap, Forall_true. by intros [].
  - constructor; [repeat constructor|]. by apply Forall_fmap.
Qed.

(** What a batch is after the round trip.  The CSV file [sim export]
    writes is read by [sim import] without error, whatever quotes, commas and
    line feeds its fields have, card by card: the IMSI, the MSISDN and the APN
    come back, and the profile, the status and the expiry do not, the file
    having no columns the importer knows for them. *)
Theorem exported_batch_imports parse_time parse_json dir subs :
  Forall (fun s => Forall no_cr (csv_row s)) subs ->
  parseSimImport parse_time parse_json (dir +:+ ".csv") (Some (WriteCSV subs)) =
    Ok (imported_item <$> subs).
Proof.
  intros Hs. unfold parseSimImport. rewrite Ext_csv, decide_False by by destruct dir.
  change (ToLower ".csv") with ".csv"%string. cbv zeta. rewrite decide_False by done.
  change (negb _) with false. cbv iota. unfold parse_csv, WriteCSV. rewrite ReadAll_rows by done.
  f_equal. rewrite <- list_fmap_compose. apply list_fmap_ext. intros i s _. apply import_row.
Qed.

(** ** A batch and a revoked card *)
Definition batch_server (l : list SIM) : World (gset string * bool) :=
  demo_world (∅, true) {| empty_store with mem := {| (mem empty_store) with sims := list_to_map ((fun s => (IMSI s, s)) <$> l) |} |}.
Definition batch_card (st : string) : SIM := mkSIM "999991234567001" "9999001" "lab" st "internet" "" 0 1 1000.
Definition cl0 : client := mkClient DefaultControlURL "".
Definition run_cli {A} (m : Cli A) (w : World (gset string * bool)) : World (gset string * bool) * list Out * res Failure A :=
  exec (serve demo_env Default "" "node-1" "dev" None (fun _ => None) (mkCredentials "" true))
    (fun _ _ _ _ w => (w, (500, ""%string))) (fun _ => Delivered) (fun _ => true) 0 m w.
(** [sim export], then [sim import] of the file it wrote. *)
Definition export_then_import (w : World (gset string * bool)) : option (World (gset string * bool) * Z) :=
  let text r := "e"%string in
  let export := simExportCmd text "unreachable" cl0 (fun _ => ""%string) "now" "today" "csv" "" false in
  match run_cli export w with
  | (w, [Made _; Saved path data; _; _], Ok _) =>
      let import := simImportCmd text "unreachable" cl0 (fun _ => None) (fun _ => None)
                      (fun p => if decide (p = path) then Some data else None) [path] in
      let '(w, _, r) := run_cli import w in Some (w, exit_code r)
  | _ => None
  end.
(** A batch exported and imported unchanged brings a revoked card back. *)
Example export_import_unrevokes :
  match export_then_import (batch_server [batch_card "revoked"]) with
  | Some (w, code) => code = ExitOK /\ SStatus <$> GetSIM "999991234567001" (store w) = Some "issued"%string
  | None => False
  end.
Proof. vm_compute. split; reflexivity. Qed.

(** ** The standalone eSIM commands *)
Section Standalone.
Context {H : Type} `{!Writer H} `{!Aead} `{!JsonProfile}.

Lemma load_plain l : forall m r, keyed EsimRegistry.Token m -> map_Forall (fun _ e => ProfileCipher e = ""%string) m ->
  EsimRegistry.load None m l = Ok r ->
  keyed EsimRegistry.Token r /\ map_Forall (fun _ e => ProfileCipher e = ""%string) r.
Proof.
  induction l as [|d l IH]; intros m r Hk Hc E; cbn [EsimRegistry.load] in E; [by simplify_eq|].
  unfold decryptEntry in E. case_bool_decide as Hd.
  - apply (IH (<[EsimRegistry.Token d := d]> m)); [by apply keyed_insert|by apply map_Forall_insert_2|done].
  - by destruct (Base64Decode _).
Qed.
Lemma open_plain e f f' r : EsimRegistry.Open e f = (f', Ok r) -> EsimRegistry.plain r.
Proof.
  unfold EsimRegistry.Open, OpenWithKey. cbn [validateKey]. intros E.
  assert (He : keyed EsimRegistry.Token ∅ /\ map_Forall (fun _ e => ProfileCipher e = ""%string) (∅ : gmap string EsimRegistry.Entry))
    by (split; [apply keyed_empty|apply map_Forall_empty]).
  destruct f as [| | | |l]; try done.
  - unfold saveLocked in E. destruct (saved_all _ _ _); [|done]. destruct (EsimRegistry.io e); try done.
    cbn in E. injection E as <- <-. split; [done|]. apply He.
  - injection E as <- <-. split; [done|]. apply He.
  - destruct (EsimRegistry.load None ∅ l) as [m|] eqn:El; [|done]. injection E as <- <-.
    split; [done|]. by apply (load_plain l ∅ m).
Qed.

(** Codes issued without a control plane cannot be delivered.  Whenever
    [esim issue] falls back to the local registry and succeeds, with effects
    that succeed and whatever the registry file held, any later [esim serve]
    on that file resolves the new activation code to no profile. *)
Theorem standalone_code_undeliverable e1 e2 e3 rt rp t1 t2 imsi addr eid drv qr f (h : H) f' h' code src :
  EsimRegistry.env_ok e2 -> EsimRegistry.env_ok e3 ->
  esimIssueLocal e1 e2 rt rp t1 t2 imsi addr eid drv qr f h = (f', h', Ok code) ->
  esimServeCmd e3 "" "" f' = Ok src ->
  src (Activation.ActivationCode code) = Ok None.
Proof.
  intros H2 H3 Hi Hs. unfold esimIssueLocal in Hi.
  destruct (LoadTestVector imsi) as [sub|]; [|done]. destruct (Activation.GenerateToken 12 rt) as [token|]; [|done].
  destruct (NewLabProfile _ _ _ _ _ _) as [p|]; [|done].
  destruct (EsimRegistry.Open e1 f) as [f0 [r|]] eqn:Eo; [|done]. apply open_plain in Eo.
  assert (Hadd : exists r1, EsimRegistry.Add e2 token (Some p) r = (r1, Ok tt) /\ f' = EsimRegistry.file r1 /\
                            Activation.ActivationCode code = token).
  { destruct (EsimRegistry.Add e2 token (Some p) r) as [r1 [[]|]]; [|done]. exists r1.
    destruct qr; [|done]. cbn [negb] in Hi. destruct (decide _); [by simplify_eq|].
    destruct (hss_add h sub) as [h1 []]; [|done]. by simplify_eq. }
  destruct Hadd as (r1 & Ha & -> & ->).
  assert (Hn : EsimRegistry.entries r !! token = None).
  { unfold EsimRegistry.Add, AddWithExpiry in Ha. by destruct (EsimRegistry.entries r !! token). }
  destruct (plaintext_profiles_lost e2 e3 r token p 0 Eo H2 Hn) as (r1' & r2 & Ha' & _ & Ho & Hd & Hl).
  unfold EsimRegistry.Add in Ha. rewrite Ha' in Ha. injection Ha as ->.
  unfold esimServeCmd in Hs. destruct (EsimRegistry.Open e3 (EsimRegistry.file r1)) as [f2 x]. cbn in Ho. subst x.
  cbn in Hs. injection Hs as <-. apply Hl. apply elem_of_dom. rewrite Hd. apply elem_of_dom.
  unfold AddWithExpiry in Ha'. rewrite Hn in Ha'. cbv zeta in Ha'.
  destruct (encryptEntry _ _ _) as [en|]; [|done].
  pose proof (saveLocked_entries e2 {| r with entries := <[token := en]> (EsimRegistry.entries r) |}) as [Hse _].
  rewrite Ha' in Hse. cbn in Hse. rewrite Hse. rewrite lookup_insert_eq. by eexists.
Qed.
End Standalone.

(** ** Witnesses *)
Lemma spectrum_arm_exit_witness :
  let '(w', _, r) := exec (serve demo_env Default "" "node-1" "dev" None (fun _ => None) (mkCredentials "" true))
    (fun _ _ _ _ w => (w, (500, ""%string))) (fun _ => Delivered) (fun _ => true) 0
    (spectrumArmCmd (fun _ => ""%string) "" (fun _ => ""%string) cl0 (Some "US"%string) (Some "n48"%string) "")
    (batch_server []) in
  exit_code r = ExitPolicyBlock.
Proof.
  pose proof (spectrum_arm_exit demo_env Default "" "node-1" "dev" None (fun _ => None)
    (fun _ => ""%string) "" (fun _ => ""%string) (fun _ _ _ _ w => (w, (500, ""%string)))
    (mkCredentials "" true) cl0 (fun _ => Delivered) (fun _ => true) "US" "n48" "" (batch_server []) eq_refl) as Ha.
  cbv zeta in Ha. destruct (exec _ _ _ _ _ _ _) as [[w' out] r]. destruct Ha as (_ & _ & Ha).
  rewrite Ha; [vm_compute; reflexivity|by exists "loopback"%string|done].
Defined.
Lemma policy_set_exact_witness :
  let f := mkPolicyFlags None (Some 64) None (Some 20) None in
  let '(w', _, r) := run_cli (policySetCmd (fun _ => ""%string) "" cl0 f) (batch_server []) in
  exit_code r = ExitOK /\ MaxUEs (policy_of w') = 64 /\ QoSULMbps (policy_of w') = QoSULMbps (policy_of (batch_server [])).
Proof.
  intros f. pose proof (policy_set_exact demo_env Default "" "node-1" "dev" None (fun _ => None)
    (fun _ => ""%string) "" (fun _ _ _ _ w => (w, (500, ""%string)))
    (mkCredentials "" true) cl0 (fun _ => Delivered) (fun _ => true) f (batch_server []) ltac:(done)) as Hp.
  assert (E : exit_code (run_cli (policySetCmd (fun _ => ""%string) "" cl0 f) (batch_server [])).2 = ExitOK)
    by (vm_compute; reflexivity).
  unfold run_cli in *. destruct (exec _ _ _ _ _ _ _) as [[w' out] r]. cbn [snd] in E. split; [exact E|].
  cbv zeta in Hp. rewrite decide_True in Hp by exact E. destruct Hp as (_ & _ & Hm & _ & _ & Hu & _).
  split; [exact Hm|exact Hu].
Defined.
(** [policy set] reads and writes in two requests: a change made by another
    operator in between is undone, its flag not passed. *)
Definition interleaved (p : Policy) (r : Request) (w : World (gset string * bool)) : World (gset string * bool) * Response :=
  let srv := serve demo_env Default "" "node-1" "dev" None (fun _ => None) (mkCredentials "" true) in
  let '(w, x) := srv r w in
  (match r with GetPolicy_ => (srv (PutPolicy (Some p)) w).1 | _ => w end, x).
Example policy_set_races :
  let p := policy_of (batch_server []) in
  let p := {| p with HubPeer := "hub-2" |} in
  let f := mkPolicyFlags None (Some 64) None None None in
  let '(w, _, r) := exec (interleaved p) (fun _ _ _ _ w => (w, (500, ""%string))) (fun _ => Delivered)
    (fun _ => true) 0 (policySetCmd (fun _ => ""%string) "" cl0 f) (batch_server []) in
  exit_code r = ExitOK /\ HubPeer (policy_of w) = ""%string.
Proof. vm_compute. split; reflexivity. Qed.
Lemma exported_batch_imports_witness :
  parseSimImport (fun _ => None) (fun _ => None) ("cards" +:+ ".csv")
    (Some (WriteCSV [mkSubscriber "999991234567001" "9999001" "k" "o" "8000" "1" "a,b" "lab" 0 0])) =
  Ok [mkItem "999991234567001" "9999001" "" "a,b" "" 0].
Proof.
  apply (exported_batch_imports (fun _ => None) (fun _ => None) "cards"
    [mkSubscriber "999991234567001" "9999001" "k" "o" "8000" "1" "a,b" "lab" 0 0]).
  repeat constructor.
Defined.

Definition local_rnd (n : Z) : option bytes := Some (replicate (Z.to_nat n) 7).
Definition local_issue := esimIssueLocal (H := NoHSS) (EsimRegistry.demo_env 0) (EsimRegistry.demo_env 1)
  local_rnd local_rnd 1 2 "999991234567001" "fairwave.local:8443" "" "none" true EsimRegistry.NotExist None_.
Lemma standalone_code_undeliverable_witness :
  match local_issue with
  | (f, _, Ok code) =>
      match esimServeCmd (EsimRegistry.demo_env 2) "" "" f with
      | Ok src => src (Activation.ActivationCode code) = Ok None
      | Err _ => False
      end
  | _ => False
  end.
Proof.
  assert (E : match local_issue with
              | (f, _, Ok _) => is_ok (esimServeCmd (EsimRegistry.demo_env 2) "" "" f)
              | _ => false end = true) by (vm_compute; reflexivity).
  destruct local_issue as [[f h] [code|]] eqn:Ei; [|done].
  destruct (esimServeCmd (EsimRegistry.demo_env 2) "" "" f) as [src|] eqn:Es; [|done].
  exact (standalone_code_undeliverable _ _ _ _ _ _ _ _ _ _ _ _ _ _ _ _ _ _ (EsimRegistry.demo_env_ok 1)
    (EsimRegistry.demo_env_ok 2) Ei Es).
Defined.

(** ** The token file *)
(** The token the server makes and writes is the one the client reads. *)
Lemma generated_token_admits {H} (env : Control.Env) control dataDir buf (w : World H) :
  buf <> [] -> dataDir <> ""%string ->
  let tok := admin_token "" None (Some buf) in
  (authenticate env tok (mkCredentials (token (newClient control "" dataDir (Some tok))) false) w).2 =
    Ok (RoleAdmin, "admin"%string).
Proof.
  intros Hb Hd tok. assert (Hne : tok <> ""%string).
  { subst tok. unfold admin_token. rewrite bool_decide_true by done. cbn [negb]. intros E.
    apply (f_equal string_bytes) in E. unfold HexEncode in E. by destruct buf. }
  unfold newClient. cbn [token]. rewrite decide_True, decide_False by done. rewrite decide_False by done.
  unfold authenticate. cbn [bearer]. rewrite bool_decide_false, bool_decide_true by done. done.
Qed.
(** A line feed at its end, which the server trims, stays in the client's. *)
Example edited_token_differs :
  let file := "secret"%string +:+ str lf in
  admin_token "" (Some file) None = "secret"%string /\ token (newClient "" "" "data" (Some file)) = file.
Proof. vm_compute. done. Qed.
(** A lost reply: the server is armed and the command says unreachable. *)
Definition rf_config : ControlConfig := {| Default with Mode := "rf" |}.
Example lost_reply_arms :
  let '(w, _, r) := exec (serve demo_env rf_config "" "node-1" "dev" None (fun _ => None) (mkCredentials "" true))
    (fun _ _ _ _ w => (w, (500, ""%string))) (fun _ => ReplyLost) (fun _ => true) 0
    (spectrumArmCmd (fun _ => ""%string) "eof" (fun _ => ""%string) cl0 (Some "US"%string) (Some "n48"%string) "")
    (batch_server []) in
  exit_code r = ExitError /\ armed w = true.
Proof. vm_compute. split; reflexivity. Qed.
(** Misuse that does not exit 2: a missing activation code. *)
Example esim_revoke_usage :
  exit_code (run_cli (esimRevokeCmd (fun _ => ""%string) "" cl0 []) (batch_server [])).2 = ExitError.
Proof. vm_compute. reflexivity. Qed.
