(* ===== verification/Json.v ===== *)
(** * Json: texts of the standard library

    [encoding/json]'s [Marshal] on the values the program builds by hand,
    [strconv.Quote] behind [%q], and the decimal form of an int; and how a
    double-quoted JavaScript literal is read, for the programs that are handed
    to [mongosh].  The texts are ASCII; bytes above it are copied. *)
From S2P Require Import Prelude.
From S2P Require Import Paths.
From S2P Require Import Encoding.

Definition chr_ (n : Z) : Ascii.ascii := byte_ascii n.
Definition dq : Ascii.ascii := chr_ 34.
Definition bs : Ascii.ascii := chr_ 92.
Definition one (c : Ascii.ascii) : string := String c EmptyString.
Fixpoint all_chars (p : Z -> bool) (s : string) : bool :=
  match s with EmptyString => true | String c s => p (ascii_byte c) && all_chars p s end.
Definition ascii_text (s : string) : Prop := all_chars (fun b => b <? 128) s = true.

(** ** Decimal numbers *)
Fixpoint digits_of (fuel : nat) (n : Z) (acc : string) : string :=
  match fuel with
  | O => acc
  | S fuel => let acc := String (chr_ (48 + n mod 10)) acc in
              if n <? 10 then acc else digits_of fuel (n / 10) acc
  end.
Definition Itoa (z : Z) : string :=
  if z <? 0 then "-" +:+ digits_of 20 (- z) "" else digits_of 20 z "".

(** ** String literals *)
Definition unicode_escape (b : Z) : string :=
  "\u00" +:+ one (chr_ (hex_char (b / 16))) +:+ one (chr_ (hex_char (b mod 16))).
(** [Marshal] escapes what HTML could take for markup too. *)
Definition json_char (c : Ascii.ascii) : string :=
  let b := ascii_byte c in
  if (b =? 34) || (b =? 92) then String bs (one c)
  else if b =? 8 then "\b" else if b =? 12 then "\f" else if b =? 10 then "\n"
  else if b =? 13 then "\r" else if b =? 9 then "\t"
  else if (b <? 32) || (b =? 60) || (b =? 62) || (b =? 38) then unicode_escape b
  else one c.
Definition quote_char (c : Ascii.ascii) : string :=
  let b := ascii_byte c in
  if (b =? 34) || (b =? 92) then String bs (one c)
  else if b =? 7 then "\a" else if b =? 8 then "\b" else if b =? 12 then "\f" else if b =? 10 then "\n"
  else if b =? 13 then "\r" else if b =? 9 then "\t" else if b =? 11 then "\v"
  else if (b <? 32) || (b =? 127) then
    "\x" +:+ one (chr_ (hex_char (b / 16))) +:+ one (chr_ (hex_char (b mod 16)))
  else one c.
Fixpoint escaped (f : Ascii.ascii -> string) (s : string) : string :=
  match s with EmptyString => EmptyString | String c s => f c +:+ escaped f s end.
Definition quoted (s : string) : string := String dq (s +:+ one dq).
Definition json_string (s : string) : string := quoted (escaped json_char s).
Definition Quote (s : string) : string := quoted (escaped quote_char s).

(** ** Values *)
(** A map's keys are sorted by [Marshal], so their order here is free. *)
Inductive Json :=
  | JNum (z : Z) | JBool (b : bool) | JStr (s : string) | JArr (l : list Json)
  | JObj (l : list (string * Json)).
Fixpoint Marshal (j : Json) : string :=
  match j with
  | JNum z => Itoa z
  | JBool b => if b then "true" else "false"
  | JStr s => json_string s
  | JArr l => "[" +:+ String.concat "," (map Marshal l) +:+ "]"
  | JObj l =>
      let fields := map (fun kv : string * Json => (kv.1, Marshal kv.2)) l in
      "{" +:+ String.concat "," (map (fun kv : string * string => json_string kv.1 +:+ ":" +:+ kv.2)
                                    (sort_by fst fields)) +:+ "}"
  end.

(** ** Reading a program *)
(** A program's text as characters of code and string literals.  Comments,
    other quotes and regular expressions are outside the fragment. *)
Inductive Tok := Chr (c : Ascii.ascii) | Str (s : string).
#[global] Instance Tok_eq_dec : EqDecision Tok.
Proof. solve_decision. Defined.
Definition outside (c : Ascii.ascii) : bool :=
  let b := ascii_byte c in (b =? 39) || (b =? 96) || (b =? 47) || (b =? 92).
(** What an escape of one letter stands for: itself, if it is no other. *)
Definition letter_escape (c : Ascii.ascii) : option Ascii.ascii :=
  let b := ascii_byte c in
  if b =? 98 then Some (chr_ 8) else if b =? 102 then Some (chr_ 12) else if b =? 110 then Some (chr_ 10)
  else if b =? 114 then Some (chr_ 13) else if b =? 116 then Some (chr_ 9) else if b =? 118 then Some (chr_ 11)
  else if (48 <=? b) && (b <=? 57) then None
  else if (b =? 10) || (b =? 13) then None else Some c.
Definition hex_pair (a b : Ascii.ascii) : option Ascii.ascii :=
  x ← hex_val (ascii_byte a); y ← hex_val (ascii_byte b); Some (chr_ (16 * x + y)).
(** [m]: in code, or in a literal of which [acc] has been read. *)
Fixpoint lex (m : option string) (s : string) : option (list Tok) :=
  match m, s with
  | None, EmptyString => Some []
  | Some _, EmptyString => None
  | None, String c t =>
      if decide (c = dq) then lex (Some EmptyString) t
      else if outside c then None else cons (Chr c) <$> lex None t
  | Some acc, String c t =>
      if decide (c = dq) then cons (Str acc) <$> lex None t
      else if (ascii_byte c =? 10) || (ascii_byte c =? 13) then None
      else if decide (c = bs) then
        match t with
        | EmptyString => None
        | String e t =>
            if ascii_byte e =? 117 then
              match t with
              | String z (String z' (String a (String b t))) =>
                  if decide (hex_pair z z' = Some (chr_ 0)) then
                    match hex_pair a b with Some c => lex (Some (acc +:+ one c)) t | None => None end
                  else None
              | _ => None
              end
            else if ascii_byte e =? 120 then
              match t with
              | String a (String b t) =>
                  match hex_pair a b with Some c => lex (Some (acc +:+ one c)) t | None => None end
              | _ => None
              end
            else match letter_escape e with Some c => lex (Some (acc +:+ one c)) t | None => None end
        end
      else lex (Some (acc +:+ one c)) t
  end.
Definition chars (s : string) : list Tok := Chr <$> String.list_ascii_of_string s.
Fixpoint intersperse (sep : list Tok) (l : list (list Tok)) : list Tok :=
  match l with [] => [] | [x] => x | x :: l => x ++ sep ++ intersperse sep l end.
(** The tokens of a marshalled value: a string is one literal. *)
Fixpoint tokens (j : Json) : list Tok :=
  match j with
  | JNum z => chars (Itoa z)
  | JBool b => chars (if b then "true" else "false")
  | JStr s => [Str s]
  | JArr l => chars "[" ++ intersperse (chars ",") (map tokens l) ++ chars "]"
  | JObj l =>
      let fields := map (fun kv : string * Json => (kv.1, tokens kv.2)) l in
      chars "{" ++ intersperse (chars ",") (map (fun kv : string * list Tok => Str kv.1 :: chars ":" ++ kv.2)
                                              (sort_by fst fields)) ++ chars "}"
  end.
Fixpoint ascii_json (j : Json) : Prop :=
  match j with
  | JNum _ | JBool _ => True
  | JStr s => ascii_text s
  | JArr l => foldr and True (map ascii_json l)
  | JObj l => foldr and True (map (fun kv : string * Json => ascii_text kv.1 /\ ascii_json kv.2) l)
  end.

(** ** Literals are read back *)
Lemma string_snoc_ acc c s : (acc +:+ one c) +:+ s = acc +:+ String c s.
Proof. by rewrite string_assoc. Qed.
(** One character, escaped, adds itself to the literal being read. *)
Definition reads (f : Ascii.ascii -> string) (c : Ascii.ascii) : Prop :=
  forall acc r, lex (Some acc) (f c +:+ r) = lex (Some (acc +:+ one c)) r.
Lemma json_char_reads c : ascii_byte c < 128 -> reads json_char c.
Proof.
  destruct c as [[] [] [] [] [] [] [] []]; intros Hc; try (exfalso; by vm_compute in Hc); intros acc r; reflexivity.
Qed.
Lemma quote_char_reads c : ascii_byte c < 128 -> ascii_byte c <> 7 -> reads quote_char c.
Proof.
  destruct c as [[] [] [] [] [] [] [] []]; intros Hc Hb; try (exfalso; by vm_compute in Hc);
    try (exfalso; by apply Hb); intros acc r; reflexivity.
Qed.
Lemma escaped_read f p s : (forall c, p (ascii_byte c) = true -> reads f c) -> all_chars p s = true ->
  forall acc r, lex (Some acc) (escaped f s +:+ String dq r) = cons (Str (acc +:+ s)) <$> lex None r.
Proof.
  intros Hf. induction s as [|c s IH]; cbn [all_chars escaped]; intros Hs acc r.
  - rewrite string_app_nil. reflexivity.
  - apply andb_true_iff in Hs as [Hc Hs]. rewrite string_assoc, (Hf c Hc), IH by done.
    by rewrite string_snoc_.
Qed.
Lemma lex_quoted f p s r : (forall c, p (ascii_byte c) = true -> reads f c) -> all_chars p s = true ->
  lex None (quoted (escaped f s) +:+ r) = cons (Str s) <$> lex None r.
Proof.
  intros Hf Hs. unfold quoted. 
  change (String dq (escaped f s +:+ one dq) +:+ r) with (String dq ((escaped f s +:+ one dq) +:+ r)).
  cbn [lex]. rewrite decide_True by done. rewrite string_snoc_. by rewrite (escaped_read f p).
Qed.
Lemma lex_json_string s r : ascii_text s -> lex None (json_string s +:+ r) = cons (Str s) <$> lex None r.
Proof. apply lex_quoted. intros c Hc%Z.ltb_lt. by apply json_char_reads. Qed.
(** [%q] is read back unless it holds a bell, whose escape JavaScript does not
    know. *)
Definition quotable (s : string) : Prop := all_chars (fun b => (b <? 128) && negb (b =? 7)) s = true.
Lemma lex_Quote s r : quotable s -> lex None (Quote s +:+ r) = cons (Str s) <$> lex None r.
Proof.
  apply lex_quoted. intros c [Hc Hb]%andb_true_iff. zbool. by apply quote_char_reads.
Qed.
Example bell_misread : lex None (Quote (one (chr_ 7))) = Some [Str "a"].
Proof. vm_compute. reflexivity. Qed.

(** ** Code is read as it is *)
Definition code (s : string) : Prop := all_chars (fun b => negb ((b =? 34) || (b =? 39) || (b =? 96) || (b =? 47) || (b =? 92))) s = true.
Lemma lex_code s r : code s -> lex None (s +:+ r) = app (chars s) <$> lex None r.
Proof.
  unfold code. induction s as [|c s IH]; cbn [all_chars].
  - intros _. change ("" +:+ r) with r. by destruct (lex None r).
  - intros [Hc Hs]%andb_true_iff. change (String c s +:+ r) with (String c (s +:+ r)). cbn [lex].
    apply negb_true_iff in Hc. rewrite !orb_false_iff in Hc. destruct Hc as ((((H34 & H39) & H96) & H47) & H92).
    rewrite decide_False by by intros ->. unfold outside. rewrite H39, H96, H47, H92. cbn [orb].
    rewrite IH by done. by destruct (lex None r).
Qed.
Lemma code_app s t : code s -> code t -> code (s +:+ t).
Proof.
  unfold code. intros Hs Ht. induction s as [|c s IH]; [done|]. cbn [all_chars] in Hs.
  apply andb_true_iff in Hs as [Hc Hs]. change (String c s +:+ t) with (String c (s +:+ t)).
  cbn [all_chars]. by rewrite Hc, IH.
Qed.
Lemma digits_of_chars (p : Z -> bool) fuel : (forall b, 48 <= b < 58 -> p b = true) ->
  forall n acc, all_chars p acc = true -> all_chars p (digits_of fuel n acc) = true.
Proof.
  intros Hp. induction fuel as [|fuel IH]; intros n acc Ha; [done|]. cbn [digits_of].
  assert (Hc : all_chars p (String (chr_ (48 + n mod 10)) acc) = true).
  { cbn [all_chars]. unfold chr_. pose proof (Z.mod_pos_bound n 10).
    rewrite ascii_byte_ascii by (unfold is_byte; lia). rewrite Ha, andb_true_r. apply Hp. lia. }
  destruct (n <? 10); [done|]. by apply IH.
Qed.
Lemma Itoa_chars (p : Z -> bool) z : (forall b, 48 <= b < 58 -> p b = true) -> p 45 = true ->
  all_chars p (Itoa z) = true.
Proof.
  intros Hp Hm. unfold Itoa. destruct (z <? 0); [|by apply digits_of_chars].
  change ("-" +:+ digits_of 20 (- z) "") with (String (chr_ 45) (digits_of 20 (- z) "")).
  cbn [all_chars]. change (ascii_byte (chr_ 45)) with 45. rewrite Hm. by apply digits_of_chars.
Qed.
Lemma code_Itoa z : code (Itoa z).
Proof.
  apply Itoa_chars; [|done]. intros b Hb. apply negb_true_iff. rewrite !orb_false_iff.
  repeat split; apply Z.eqb_neq; lia.
Qed.

(** ** Values are read back *)
Lemma Json_ind' (P : Json -> Prop) : (forall z, P (JNum z)) -> (forall b, P (JBool b)) ->
  (forall s, P (JStr s)) -> (forall l, Forall P l -> P (JArr l)) ->
  (forall l, Forall (fun kv => P kv.2) l -> P (JObj l)) -> forall j, P j.
Proof.
  intros P1 P2 P3 P4 P5. fix IH 1. intros [z|b|s|l|l]; [apply P1|apply P2|apply P3|apply P4|apply P5].
  - induction l as [|x l Hl]; constructor; [apply IH|exact Hl].
  - induction l as [|[k v] l Hl]; constructor; [apply IH|exact Hl].
Qed.
(** Texts that lex to the given tokens whatever follows. *)
Definition lexes (s : string) (t : list Tok) : Prop := forall r, lex None (s +:+ r) = app t <$> lex None r.
Lemma lexes_code s : code s -> lexes s (chars s).
Proof. intros Hs r. by apply lex_code. Qed.
Lemma lexes_str s : ascii_text s -> lexes (json_string s) [Str s].
Proof. intros Hs r. rewrite lex_json_string by done. by destruct (lex None r). Qed.
Lemma lexes_app s t ts tt : lexes s ts -> lexes t tt -> lexes (s +:+ t) (ts ++ tt).
Proof.
  intros Hs Ht r. rewrite string_assoc, Hs, Ht. destruct (lex None r); [|done]. cbn. by rewrite app_assoc.
Qed.
Lemma lexes_nil : lexes "" [].
Proof. intros r. change ("" +:+ r) with r. by destruct (lex None r). Qed.
Lemma lexes_concat sep l ts : code sep -> Forall2 lexes l ts ->
  lexes (String.concat sep l) (intersperse (chars sep) ts).
Proof.
  intros Hsep. induction 1 as [|s t l ts Hs Hl IH]; [apply lexes_nil|].
  destruct Hl as [|s' t' l ts Hs' Hl]; [done|].
  change (String.concat sep (s :: s' :: l)) with (s +:+ sep +:+ String.concat sep (s' :: l)).
  change (intersperse _ (t :: t' :: ts)) with (t ++ chars sep ++ intersperse (chars sep) (t' :: ts)).
  apply lexes_app; [done|]. apply lexes_app; [by apply lexes_code|done].
Qed.
(** Sorting by key commutes with a map that keeps the keys. *)
Lemma sort_by_map {A B} (ka : A -> string) (kb : B -> string) (f : A -> B) l :
  (forall x, kb (f x) = ka x) -> sort_by kb (f <$> l) = f <$> sort_by ka l.
Proof.
  intros Hk. unfold sort_by, stable_sort. induction l as [|x l IH]; [done|]. cbn.
  change (foldr (sinsert (key_less kb)) [] (f <$> l)) with (stable_sort (key_less kb) (f <$> l)) in *.
  rewrite IH. generalize (foldr (sinsert (key_less ka)) [] l). intros m.
  induction m as [|y m IHm]; [done|]. cbn. unfold key_less at 1. rewrite !Hk.
  change (String.ltb (ka y) (ka x)) with (key_less ka y x).
  destruct (key_less ka y x); [|done]. cbn. f_equal. exact IHm.
Qed.
Lemma foldr_and {A} (P : A -> Prop) l : foldr and True (map P l) <-> Forall P l.
Proof. induction l as [|x l IH]; cbn; [by split|]. by rewrite IH, Forall_cons. Qed.
(** What the program hands over as a string stays one literal, whatever
    characters it has. *)
Lemma lexes_Marshal j : ascii_json j -> lexes (Marshal j) (tokens j).
Proof.
  induction j as [z|b|s|l IH|l IH] using Json_ind'; cbn [ascii_json Marshal tokens].
  - intros _. apply lexes_code, code_Itoa.
  - intros _. by destruct b; apply lexes_code.
  - apply lexes_str.
  - rewrite foldr_and. intros Hl.
    apply (lexes_app "["); [by apply lexes_code|]. apply lexes_app; [|by apply lexes_code].
    apply lexes_concat; [done|]. induction IH as [|x l Hx IH IH']; [constructor|].
    apply Forall_cons in Hl as [Hxs Hl]. constructor; auto.
  - rewrite foldr_and. intros Hl.
    change (map (fun kv : string * Json => (kv.1, Marshal kv.2)) l) with ((fun kv : string * Json => (kv.1, Marshal kv.2)) <$> l).
    change (map (fun kv : string * Json => (kv.1, tokens kv.2)) l) with ((fun kv : string * Json => (kv.1, tokens kv.2)) <$> l).
    rewrite !(sort_by_map fst fst) by done.
    assert (Hs : Forall (fun kv => ascii_text kv.1 /\ lexes (Marshal kv.2) (tokens kv.2)) (sort_by fst l)).
    { rewrite sort_by_perm. clear -IH Hl. induction IH as [|[k v] l Hx IH IH']; [constructor|].
      apply Forall_cons in Hl as [[Hk Hv] Hl]. constructor; [by split; [|apply Hx]|auto]. }
    apply (lexes_app "{"); [by apply lexes_code|]. apply lexes_app; [|by apply lexes_code].
    apply lexes_concat; [done|]. induction Hs as [|[k v] m [Hk Hv] Hm IHm]; [constructor|].
    cbn [fmap list_fmap map fst snd]. constructor; [|exact IHm].
    change (Str k :: chars ":" ++ tokens v) with ([Str k] ++ chars ":" ++ tokens v).
    apply lexes_app; [by apply lexes_str|]. apply lexes_app; [by apply lexes_code|done].
Qed.
(** No line of a marshalled value is broken. *)
Definition no_lf (l : list Tok) : Prop := Chr (chr_ 10) ∉ l.
Lemma no_lf_chars s : all_chars (fun b => negb (b =? 10)) s = true -> no_lf (chars s).
Proof.
  unfold no_lf, chars. induction s as [|c s IH]; cbn [all_chars]; [by intros _ ?%elem_of_nil|].
  intros [Hc Hs]%andb_true_iff. cbn [String.list_ascii_of_string fmap list_fmap]. 
  rewrite elem_of_cons. intros [E|E]; [|by apply IH]. injection E as <-. done.
Qed.
Lemma no_lf_app l1 l2 : no_lf l1 -> no_lf l2 -> no_lf (l1 ++ l2).
Proof. unfold no_lf. rewrite elem_of_app. tauto. Qed.
Lemma no_lf_intersperse sep l : no_lf sep -> Forall no_lf l -> no_lf (intersperse sep l).
Proof.
  intros Hs. induction 1 as [|x l Hx Hl IH]; [by intros ?%elem_of_nil|].
  destruct l as [|y l]; [done|]. change (intersperse sep (x :: y :: l)) with (x ++ sep ++ intersperse sep (y :: l)).
  by repeat apply no_lf_app.
Qed.
Lemma no_lf_cons x l : x <> Chr (chr_ 10) -> no_lf l -> no_lf (x :: l).
Proof. unfold no_lf. rewrite elem_of_cons. intros ? ? [?|?]; [by subst|done]. Qed.
Lemma no_lf_tokens j : no_lf (tokens j).
Proof.
  induction j as [z|b|s|l IH|l IH] using Json_ind'; cbn [tokens].
  - apply no_lf_chars, Itoa_chars; [|done]. intros b Hb. apply negb_true_iff, Z.eqb_neq. lia.
  - by apply no_lf_chars; destruct b.
  - apply no_lf_cons; [done|]. by intros ?%elem_of_nil.
  - repeat apply no_lf_app; try by apply no_lf_chars.
    apply no_lf_intersperse; [by apply no_lf_chars|]. by apply Forall_map.
  - repeat apply no_lf_app; try by apply no_lf_chars.
    apply no_lf_intersperse; [by apply no_lf_chars|].
    change (map (fun kv : string * Json => (kv.1, tokens kv.2)) l) with ((fun kv : string * Json => (kv.1, tokens kv.2)) <$> l).
    rewrite (sort_by_map fst fst) by done. apply Forall_map, Forall_fmap. rewrite sort_by_perm.
    eapply Forall_impl; [exact IH|]. intros [k v] Hv. cbn. apply no_lf_cons; [done|].
    by apply no_lf_cons.
Qed.
(** A text of several lines. *)
Fixpoint lines (l : list Tok) : list (list Tok) :=
  match l with
  | [] => [[]]
  | x :: l => if decide (x = Chr (chr_ 10)) then [] :: lines l
              else match lines l with [] => [[x]] | y :: m => (x :: y) :: m end
  end.
Lemma lines_app x l : no_lf x -> lines (x ++ Chr (chr_ 10) :: l) = x :: lines l.
Proof.
  intros Hx. induction x as [|y x IH]; [cbn; by rewrite decide_True|].
  unfold no_lf in Hx. rewrite elem_of_cons in Hx. cbn [app lines].
  rewrite decide_False by (intros ->; tauto). rewrite IH by (intros ?; tauto). done.
Qed.
Lemma lines_one x : no_lf x -> lines x = [x].
Proof.
  intros Hx. induction x as [|y x IH]; [done|]. unfold no_lf in Hx. rewrite elem_of_cons in Hx.
  cbn [lines]. rewrite decide_False by (intros ->; tauto). rewrite IH by (intros ?; tauto). done.
Qed.
Lemma lines_intersperse l : l <> [] -> Forall no_lf l -> lines (intersperse [Chr (chr_ 10)] l) = l.
Proof.
  intros Hne. induction 1 as [|x l Hx Hl IH]; [done|]. destruct l as [|y l]; [by apply lines_one|].
  change (intersperse _ (x :: y :: l)) with (x ++ Chr (chr_ 10) :: intersperse [Chr (chr_ 10)] (y :: l)).
  rewrite lines_app by done. f_equal. by apply IH.
Qed.
