(* ===== verification/Hss.v ===== *)
(** * Hss: the drivers of the subscriber database

    [core/sim-ops/hsswrite]: the commands the drivers run in the core's
    containers.  The scripts are built as the code builds them, marshalled
    documents and interpolated strings, and read back as the statements they
    are ([Json.lex], [read]); the database is a parameter, of which [Mongo]
    says what a script of such statements does when it runs to its end and
    when it stops on the way. *)
From S2P Require Import Prelude.
From S2P Require Import Paths.
From S2P Require Import Encoding.
From S2P Require Import Json.
From S2P Require Import Profile.
From S2P Require Import Simprov.

(** ** Open5GS *)
Definition ambrValue (mbps : Z) : Z := if mbps <=? 0 then 1 else mbps.
Definition DefaultDBURI : string := "mongodb://localhost:27017/open5gs".
Record Mongosh := mkMongosh { mContainer : string; mDBURI : string }.
Definition mongosh_argv (container uri eval : string) : list string :=
  ["docker"; "exec"; container; "mongosh"; "--quiet"; uri; "--eval"; eval]%string.
Local Open Scope string_scope.
Definition open5gs_doc (sub : Subscriber) : Json := JObj [
  ("imsi", JStr (sIMSI sub));
  ("msisdn", JArr [JStr (sMSISDN sub)]);
  ("access_restriction_data", JNum 32);
  ("network_access_mode", JNum 0);
  ("subscriber_status", JNum 0);
  ("subscribed_rau_tau_timer", JNum 12);
  ("security", JObj [("k", JStr (sKi sub)); ("opc", JStr (sOPc sub)); ("amf", JStr (sAMF sub)); ("sqn", JStr (sSQN sub))]);
  ("apn_list", JArr [JObj [
    ("apn", JStr (sAPN sub));
    ("qos", JObj [("class_id", JNum 9); ("priority_level", JNum 8); ("preemption_vulnerability", JNum 1);
                  ("preemption_capability", JNum 1)]);
    ("ambr", JObj [
      ("uplink", JObj [("value", JNum (ambrValue (QoSULMbps sub))); ("unit", JNum 8)]);
      ("downlink", JObj [("value", JNum (ambrValue (QoSDLMbps sub))); ("unit", JNum 8)])]);
    ("type", JNum 0)]]);
  ("slice", JArr [JObj [
    ("sst", JNum 1); ("default_indicator", JBool true);
    ("session", JArr [JObj [("name", JStr (sAPN sub)); ("type", JNum 3)]])]]);
  ("schema_version", JNum 1);
  ("__v", JNum 0)].
(** The IMSI is interpolated, not marshalled. *)
Definition mongosh_add_script (sub : Subscriber) : string :=
  "db.subscribers.updateOne({imsi: " +:+ quoted (sIMSI sub) +:+ "}, {$set: " +:+ Marshal (open5gs_doc sub)
  +:+ "}, {upsert: true})".
Definition mongosh_remove_script (imsi : string) : string :=
  "db.subscribers.deleteOne({imsi: " +:+ quoted imsi +:+ "})".
Definition dbctl_add_argv (container : string) (sub : Subscriber) : list string :=
  ["docker"; "exec"; container; "open5gs-dbctl"; "add"; sIMSI sub; sKi sub; sOPc sub].
Definition dbctl_remove_argv (container imsi : string) : list string :=
  ["docker"; "exec"; container; "open5gs-dbctl"; "remove"; imsi].

(** ** free5GC *)
Definition Free5GCDBURI : string := "mongodb://localhost:27017/free5gc".
Definition f5cAuthSubsColl := "subscriptionData.authenticationData.authenticationSubscription".
Definition f5cAmDataColl := "subscriptionData.provisionedData.amData".
Definition f5cSmDataColl := "subscriptionData.provisionedData.smData".
Definition f5cSmfSelColl := "subscriptionData.provisionedData.smfSelectionSubscriptionData".
Definition f5cAmPolicyColl := "policyData.ues.amData".
Definition f5cSmPolicyColl := "policyData.ues.smData".
Definition f5cIdentityColl := "subscriptionData.identityData".
Definition f5c_collections : list string :=
  [f5cAuthSubsColl; f5cAmDataColl; f5cSmDataColl; f5cSmfSelColl; f5cAmPolicyColl; f5cSmPolicyColl; f5cIdentityColl].
Definition f5cDefaultDNN := "internet".
Record Free5GC := mkFree5GC { fContainer : string; fDBURI : string; PlmnID : string; SST : Z; SD : string }.
Definition NewFree5GC (container plmnID : string) : Free5GC :=
  let plmnID := if decide (plmnID = "") then "99999" else plmnID in
  mkFree5GC container Free5GCDBURI plmnID 1 "010203".
Definition ambrStr (mbps : Z) : string := if (mbps <=? 0)%Z then "1 Gbps" else Itoa mbps +:+ " Mbps".
(** [%02d] of the slice type, then the differentiator. *)
Definition f5cSnssaiKey (sst : Z) (sd : string) : string :=
  (if ((0 <=? sst) && (sst <? 10))%Z then "0" +:+ Itoa sst else Itoa sst) +:+ sd.
Definition f5cUpsert (coll : string) (filter doc : Json) : string :=
  "db[" +:+ quoted coll +:+ "].updateOne(" +:+ Marshal filter +:+ ", {$set: " +:+ Marshal doc
  +:+ "}, {upsert: true})".
(** The collection, filter and document of each record of a subscriber. *)
Definition f5c_records (f : Free5GC) (sub : Subscriber) : list (string * Json * Json) :=
  let ueID := "imsi-" +:+ sIMSI sub in
  let snssai := JObj [("sst", JNum (SST f)); ("sd", JStr (SD f))] in
  let ambr := JObj [("uplink", JStr (ambrStr (QoSULMbps sub))); ("downlink", JStr (ambrStr (QoSDLMbps sub)))] in
  let ue := [("ueId", JStr ueID)] in
  let ue_plmn := [("ueId", JStr ueID); ("servingPlmnId", JStr (PlmnID f))] in
  let key := f5cSnssaiKey (SST f) (SD f) in [
  (f5cAuthSubsColl, JObj ue, JObj [
     ("ueId", JStr ueID); ("authenticationMethod", JStr "5G_AKA");
     ("authenticationManagementField", JStr (sAMF sub));
     ("encPermanentKey", JStr (sKi sub)); ("encOpcKey", JStr (sOPc sub));
     ("sequenceNumber", JObj [("sqnScheme", JStr "GENERAL"); ("sqn", JStr (sSQN sub))])]);
  (f5cAmDataColl, JObj ue_plmn, JObj [
     ("ueId", JStr ueID); ("servingPlmnId", JStr (PlmnID f));
     ("gpsis", JArr [JStr ("msisdn-" +:+ sMSISDN sub)]);
     ("nssai", JObj [("defaultSingleNssais", JArr [snssai]); ("singleNssais", JArr [snssai])]);
     ("subscribedUeAmbr", ambr)]);
  (f5cSmDataColl, JObj [("ueId", JStr ueID); ("servingPlmnId", JStr (PlmnID f)); ("singleNssai", snssai)], JObj [
     ("ueId", JStr ueID); ("servingPlmnId", JStr (PlmnID f)); ("singleNssai", snssai);
     ("dnnConfigurations", JObj [(f5cDefaultDNN, JObj [
        ("pduSessionTypes", JObj [("defaultSessionType", JStr "IPV4"); ("allowedSessionTypes", JArr [JStr "IPV4"])]);
        ("sscModes", JObj [("defaultSscMode", JStr "SSC_MODE_1"); ("allowedSscModes", JArr [JStr "SSC_MODE_1"])]);
        ("sessionAmbr", ambr);
        ("5gQosProfile", JObj [("5qi", JNum 9); ("arp", JObj [("priorityLevel", JNum 8)]); ("priorityLevel", JNum 8)])])])]);
  (f5cSmfSelColl, JObj ue_plmn, JObj [
     ("ueId", JStr ueID); ("servingPlmnId", JStr (PlmnID f));
     ("subscribedSnssaiInfos", JObj [(key, JObj [("dnnInfos", JArr [JObj [("dnn", JStr f5cDefaultDNN)]])])])]);
  (f5cAmPolicyColl, JObj ue, JObj [("ueId", JStr ueID); ("subscCats", JArr [JStr "free5gc"])]);
  (f5cSmPolicyColl, JObj ue, JObj [
     ("ueId", JStr ueID);
     ("smPolicySnssaiData", JObj [(key, JObj [
        ("snssai", snssai);
        ("smPolicyDnnData", JObj [(f5cDefaultDNN, JObj [("dnn", JStr f5cDefaultDNN)])])])])]);
  (f5cIdentityColl, JObj ue, JObj [("ueId", JStr ueID); ("gpsi", JStr ("msisdn-" +:+ sMSISDN sub))])].
Definition newline : string := one (chr_ 10).
Definition f5c_add_script (f : Free5GC) (sub : Subscriber) : string :=
  String.concat newline (map (fun '(coll, filter, doc) => f5cUpsert coll filter doc) (f5c_records f sub)).
Definition f5c_remove_script (imsi : string) : string :=
  String.concat newline
    (map (fun coll => "db[" +:+ quoted coll +:+ "].deleteMany({ueId: " +:+ Quote ("imsi-" +:+ imsi) +:+ "})")
         f5c_collections).
Local Close Scope string_scope.

(** ** Drivers *)
Inductive Driver := DMongosh (m : Mongosh) | DDBCTL (container : string) | DFree5GC (f : Free5GC) | DNone.
Definition New (driver container : string) : Driver :=
  if decide (driver = "mongosh"%string) then DMongosh (mkMongosh container DefaultDBURI)
  else if decide (driver = "dbctl"%string) then DDBCTL container
  else if decide (driver = "free5gc"%string) then DFree5GC (NewFree5GC container "")
  else DNone.
(** What the daemon builds: the free5GC driver gets the network's own MCC and
    MNC. *)
Definition build (driver container plmn : string) : Driver :=
  if decide (driver = "free5gc"%string) then DFree5GC (NewFree5GC container plmn) else New driver container.
Lemma build_New driver container : build driver container "" = New driver container.
Proof. unfold build, New. by repeat (case_decide; subst). Qed.

(** ** What a script says *)
Inductive Stmt := Upsert (coll key : string) | Delete (coll key : string).
Fixpoint strip (p l : list Tok) : option (list Tok) :=
  match p, l with
  | [], l => Some l
  | x :: p, y :: l => if decide (x = y) then strip p l else None
  | _, [] => None
  end.
Definition ends_with (p l : list Tok) : bool := bool_decide (drop (length l - length p) l = p).
(** The value of the filter's key field. *)
Fixpoint key_of (l : list Tok) : option string :=
  match l with
  | [] => None
  | Str f :: l => match l with
                  | Chr c :: Str k :: _ =>
                      if decide (c = chr_ 58 /\ f = "ueId"%string) then Some k else key_of l
                  | _ => key_of l
                  end
  | _ :: l => key_of l
  end.
Definition upsert_end : list Tok := chars "}, {upsert: true})".
Definition read_line (l : list Tok) : option Stmt :=
  match strip (chars "db[") l with
  | Some (Str coll :: l) =>
      match strip (chars "].updateOne(") l, strip (chars "].deleteMany({ueId: ") l with
      | Some l, _ => if ends_with upsert_end l then Upsert coll <$> key_of l else None
      | None, Some (Str k :: l) => if decide (l = chars "})") then Some (Delete coll k) else None
      | _, _ => None
      end
  | Some _ => None
  | None =>
      match strip (chars "db.subscribers.updateOne({imsi: ") l, strip (chars "db.subscribers.deleteOne({imsi: ") l with
      | Some (Str k :: l), _ =>
          match strip (chars "}, {$set: ") l with
          | Some l => if ends_with upsert_end l then Some (Upsert "subscribers" k) else None
          | None => None
          end
      | None, Some (Str k :: l) => if decide (l = chars "})") then Some (Delete "subscribers" k) else None
      | _, _ => None
      end
  end.
Definition read (text : string) : option (list Stmt) := l ← lex None text; mapM read_line (lines l).

(** ** The database *)
(** Which documents there are: a collection and the subscriber they are of. *)
Notation Docs := (gset (string * string)).
Definition apply_stmt (d : Docs) (s : Stmt) : Docs :=
  match s with Upsert c k => {[(c, k)]} ∪ d | Delete c k => d ∖ {[(c, k)]} end.
Definition digits (s : string) : Prop := all_chars (fun b => (48 <=? b) && (b <=? 57)) s = true.
(** [docker exec] with [mongosh] runs the statements of a script in order, all
    of them if it succeeds, and may stop anywhere if it fails; [open5gs-dbctl]
    adds and removes one subscriber. *)
Class Mongo (D : Type) := {
  run : D -> list string -> D * bool;
  docs : D -> Docs;
  run_script : forall d container uri text prog, read text = Some prog ->
    let '(d', ok) := run d (mongosh_argv container uri text) in
    exists k, docs d' = foldl apply_stmt (docs d) (take k prog) /\ (ok = true -> take k prog = prog);
  run_add : forall d container sub, digits (sIMSI sub) ->
    let '(d', ok) := run d (dbctl_add_argv container sub) in
    exists b : bool, docs d' = (if b then apply_stmt (docs d) (Upsert "subscribers" (sIMSI sub)) else docs d) /\
      (ok = true -> b = true);
  run_remove : forall d container imsi, digits imsi ->
    let '(d', ok) := run d (dbctl_remove_argv container imsi) in
    exists b : bool, docs d' = (if b then apply_stmt (docs d) (Delete "subscribers" imsi) else docs d) /\
      (ok = true -> b = true);
}.

Section Operations.
Context {D : Type} `{!Mongo D}.
Definition Add (drv : Driver) (d : D) (sub : Subscriber) : D * bool :=
  match drv with
  | DMongosh m => run d (mongosh_argv (mContainer m) (mDBURI m) (mongosh_add_script sub))
  | DDBCTL c => run d (dbctl_add_argv c sub)
  | DFree5GC f => run d (mongosh_argv (fContainer f) (fDBURI f) (f5c_add_script f sub))
  | DNone => (d, true)
  end.
Definition Remove (drv : Driver) (d : D) (imsi : string) : D * bool :=
  match drv with
  | DMongosh m => run d (mongosh_argv (mContainer m) (mDBURI m) (mongosh_remove_script imsi))
  | DDBCTL c => run d (dbctl_remove_argv c imsi)
  | DFree5GC f => run d (mongosh_argv (fContainer f) (fDBURI f) (f5c_remove_script imsi))
  | DNone => (d, true)
  end.
End Operations.

(** ** The scripts say what they mean *)
(** A string between quotes, its characters as they are. *)
Definition bare (s : string) : Prop :=
  all_chars (fun b => negb ((b =? 34) || (b =? 92) || (b =? 10) || (b =? 13))) s = true.
Lemma bare_reads c : negb ((ascii_byte c =? 34) || (ascii_byte c =? 92) || (ascii_byte c =? 10) || (ascii_byte c =? 13)) = true ->
  reads one c.
Proof. destruct c as [[] [] [] [] [] [] [] []]; intros Hc; try discriminate Hc; intros acc r; reflexivity. Qed.
Lemma escaped_one s : escaped one s = s.
Proof. induction s as [|c s IH]; [done|]. cbn [escaped]. by rewrite IH. Qed.
Lemma lexes_bare s : bare s -> lexes (quoted s) [Str s].
Proof.
  intros Hs r. rewrite <- (escaped_one s) at 1. rewrite (lex_quoted one _ s r bare_reads Hs).
  by destruct (lex None r).
Qed.
Lemma lexes_quotable s : quotable s -> lexes (Quote s) [Str s].
Proof. intros Hs r. rewrite lex_Quote by done. by destruct (lex None r). Qed.
Lemma all_chars_app p s t : all_chars p (s +:+ t) = all_chars p s && all_chars p t.
Proof.
  induction s as [|c s IH]; [done|]. change (String c s +:+ t) with (String c (s +:+ t)).
  cbn [all_chars]. by rewrite IH, andb_assoc.
Qed.
Lemma all_chars_impl (p q : Z -> bool) s : (forall b, p b = true -> q b = true) ->
  all_chars p s = true -> all_chars q s = true.
Proof.
  intros Hpq. induction s as [|c s IH]; [done|]. cbn [all_chars]. intros [Hc Hs]%andb_true_iff.
  by rewrite (Hpq _ Hc), IH.
Qed.
Lemma strip_app p l : strip p (p ++ l) = Some l.
Proof. induction p as [|x p IH]; [done|]. cbn [strip app]. by rewrite decide_True. Qed.
Lemma ends_with_app p l : ends_with p (l ++ p) = true.
Proof.
  unfold ends_with. apply bool_decide_true. rewrite length_app.
  replace (length l + length p - length p)%nat with (length l) by lia. by rewrite drop_app_length.
Qed.
Lemma lex_whole s t : lexes s t -> lex None s = Some t.
Proof. intros Hs. specialize (Hs ""%string). rewrite string_app_nil in Hs. rewrite Hs. cbn. by rewrite app_nil_r. Qed.
(** A script of lines is read line by line. *)
Lemma read_lines texts ts prog : texts <> [] -> Forall2 lexes texts ts -> Forall no_lf ts ->
  mapM read_line ts = Some prog -> read (String.concat newline texts) = Some prog.
Proof.
  intros Hne Ht Hl Hm. unfold read. rewrite (lex_whole _ _ (lexes_concat newline texts ts eq_refl Ht)).
  cbn [mbind option_bind]. change (chars newline) with [Chr (chr_ 10)]. rewrite lines_intersperse; [done| |done].
  by inversion Ht; subst.
Qed.
Definition upsert_tokens (coll : string) (filter doc : Json) : list Tok :=
  chars "db[" ++ [Str coll] ++ chars "].updateOne(" ++ tokens filter ++ chars ", {$set: " ++ tokens doc ++ upsert_end.
Ltac lexing :=
  repeat first [simple apply lexes_Marshal | simple apply lexes_bare | simple apply lexes_app
               | simple apply lexes_code; reflexivity];
  try assumption.
Lemma f5cUpsert_lexes coll filter doc : bare coll -> ascii_json filter -> ascii_json doc ->
  lexes (f5cUpsert coll filter doc) (upsert_tokens coll filter doc).
Proof. intros Hc Hf Hd. unfold f5cUpsert, upsert_tokens. lexing. Qed.
Ltac no_lines :=
  repeat first [apply no_lf_app | apply no_lf_tokens | apply no_lf_chars; reflexivity | apply no_lf_cons; [done|]
               | by intros ?%elem_of_nil].
Lemma upsert_no_lf coll filter doc : no_lf (upsert_tokens coll filter doc).
Proof. unfold upsert_tokens, upsert_end. no_lines. Qed.
Lemma read_upsert coll filter doc k : (forall l, key_of (tokens filter ++ l) = Some k) ->
  read_line (upsert_tokens coll filter doc) = Some (Upsert coll k).
Proof.
  intros Hk. unfold upsert_tokens, read_line. rewrite strip_app. cbn [app]. rewrite strip_app.
  replace (tokens filter ++ chars ", {$set: " ++ tokens doc ++ upsert_end)
    with ((tokens filter ++ chars ", {$set: " ++ tokens doc) ++ upsert_end) by by rewrite <- !app_assoc.
  rewrite ends_with_app, <- app_assoc, Hk. done.
Qed.

Section Texts.
Context (container plmn : string) (Hplmn : ascii_text plmn).
Let f := NewFree5GC container plmn.
(** Every field is ASCII. *)
Definition ascii_sub (s : Subscriber) : Prop :=
  Forall ascii_text [sIMSI s; sMSISDN s; sKi s; sOPc s; sAMF s; sSQN s; sAPN s].
Lemma ascii_app s t : ascii_text s -> ascii_text t -> ascii_text (s +:+ t).
Proof. unfold ascii_text. intros Hs Ht. by rewrite all_chars_app, Hs, Ht. Qed.
Lemma ascii_ambrStr z : ascii_text (ambrStr z).
Proof.
  unfold ambrStr. destruct (z <=? 0); [done|]. apply ascii_app; [|done].
  apply Itoa_chars; [|done]. intros b Hb. apply Z.ltb_lt. lia.
Qed.
Lemma ascii_plmn : ascii_text (PlmnID f).
Proof. subst f. unfold NewFree5GC. cbn. by destruct (decide _). Qed.
Ltac ascii :=
  repeat match goal with
         | |- _ /\ _ => split
         | |- ascii_text (PlmnID _) => apply ascii_plmn
         | |- ascii_text (ambrStr _) => apply ascii_ambrStr
         | |- ascii_text (_ +:+ _) => apply ascii_app
         end; try exact I; try assumption; try reflexivity.
(** The add script is seven upserts of this subscriber's records, whatever
    characters its fields have. *)
Lemma f5c_add_read sub : ascii_sub sub ->
  read (f5c_add_script f sub) = Some ((fun c => Upsert c ("imsi-" +:+ sIMSI sub)) <$> f5c_collections).
Proof.
  intros Hs. unfold ascii_sub in Hs. decompose_Forall_hyps.
  assert (Hr : Forall (fun '(c, fl, doc) => bare c /\ ascii_json fl /\ ascii_json doc) (f5c_records f sub)).
  { unfold f5c_records. repeat apply Forall_cons_2; try apply Forall_nil_2;
      (split; [reflexivity|]); cbn [ascii_json map foldr fst snd]; ascii. }
  apply (read_lines _ ((fun '(c, fl, doc) => upsert_tokens c fl doc) <$> f5c_records f sub)); [done|..].
  - change (map ?g (f5c_records f sub)) with (g <$> f5c_records f sub).
    apply Forall2_fmap, Forall_Forall2_diag. eapply Forall_impl; [exact Hr|].
    intros [[c fl] doc] (? & ? & ?). by apply f5cUpsert_lexes.
  - apply Forall_fmap, Forall_true. intros [[c fl] doc]. apply upsert_no_lf.
  - unfold f5c_records. cbn [fmap list_fmap mapM].
    rewrite !read_upsert with (k := ("imsi-" +:+ sIMSI sub)%string); [reflexivity|..].
    all: intros l; cbn -[String.append PlmnID]; reflexivity.
Qed.
End Texts.
Lemma f5c_remove_read imsi : quotable imsi ->
  read (f5c_remove_script imsi) = Some ((fun c => Delete c ("imsi-" +:+ imsi)) <$> f5c_collections).
Proof.
  intros Hi. set (t := fun c => chars "db[" ++ [Str c] ++ chars "].deleteMany({ueId: " ++ [Str ("imsi-" +:+ imsi)] ++ chars "})").
  assert (Hq : quotable ("imsi-" +:+ imsi)) by (unfold quotable; by rewrite all_chars_app, Hi).
  apply (read_lines _ (t <$> f5c_collections)); [done|..].
  - change (map ?g f5c_collections) with (g <$> f5c_collections).
    apply Forall2_fmap, Forall_Forall2_diag. repeat apply Forall_cons_2; try apply Forall_nil_2; unfold t;
      repeat first [apply lexes_app | apply lexes_code; reflexivity | apply lexes_bare; reflexivity
                   | by apply lexes_quotable].
  - apply Forall_fmap, Forall_true. intros c. unfold t. no_lines.
  - reflexivity.
Qed.
(** The Open5GS scripts interpolate the IMSI: they say what they mean for one
    with no quote, backslash or line break. *)
Lemma mongosh_add_read sub : bare (sIMSI sub) -> ascii_sub sub ->
  read (mongosh_add_script sub) = Some [Upsert "subscribers" (sIMSI sub)].
Proof.
  intros Hb Hs. unfold ascii_sub in Hs. decompose_Forall_hyps.
  assert (Hd : ascii_json (open5gs_doc sub)) by (cbn; by repeat split).
  assert (Hl : lexes (mongosh_add_script sub) (chars "db.subscribers.updateOne({imsi: " ++ [Str (sIMSI sub)]
    ++ chars "}, {$set: " ++ tokens (open5gs_doc sub) ++ upsert_end)) by (unfold mongosh_add_script; lexing).
  unfold read. rewrite (lex_whole _ _ Hl). cbn [mbind option_bind]. rewrite lines_one by (unfold upsert_end; no_lines).
  cbn [mapM]. unfold read_line. change (strip (chars "db[") _) with (@None (list Tok)). cbv iota.
  rewrite strip_app. cbn [app]. rewrite strip_app, ends_with_app. done.
Qed.
Lemma mongosh_remove_read imsi : bare imsi ->
  read (mongosh_remove_script imsi) = Some [Delete "subscribers" imsi].
Proof.
  intros Hb.
  assert (Hl : lexes (mongosh_remove_script imsi) (chars "db.subscribers.deleteOne({imsi: " ++ [Str imsi] ++ chars "})"))
    by (unfold mongosh_remove_script; lexing).
  unfold read. rewrite (lex_whole _ _ Hl). cbn [mbind option_bind]. rewrite lines_one by no_lines. reflexivity.
Qed.

(** ** What the drivers keep in the core *)
Definition collections (drv : Driver) : list string :=
  match drv with DFree5GC _ => f5c_collections | DNone => [] | _ => ["subscribers"%string] end.
Definition key (drv : Driver) (imsi : string) : string :=
  match drv with DFree5GC _ => "imsi-" +:+ imsi | _ => imsi end.
Inductive Op := OAdd (sub : Subscriber) | ORemove (imsi : string).
Definition op_imsi (o : Op) : string := match o with OAdd s => sIMSI s | ORemove i => i end.
(** Fields are ASCII and the IMSI is digits. *)
Definition plain (o : Op) : Prop :=
  digits (op_imsi o) /\ match o with OAdd s => ascii_sub s | ORemove _ => True end.
Lemma digits_bare s : digits s -> bare s.
Proof.
  apply all_chars_impl. intros b [?%Z.leb_le ?%Z.leb_le]%andb_true_iff. apply negb_true_iff. rewrite !orb_false_iff.
  repeat split; apply Z.eqb_neq; lia.
Qed.
Lemma digits_quotable s : digits s -> quotable s.
Proof.
  apply all_chars_impl. intros b [?%Z.leb_le ?%Z.leb_le]%andb_true_iff. apply andb_true_iff.
  split; [apply Z.ltb_lt; lia|]. apply negb_true_iff, Z.eqb_neq. lia.
Qed.
Lemma apply_frame c k prog : Forall (fun s => match s with Upsert _ k' | Delete _ k' => k' <> k end) prog ->
  forall d, (c, k) ∈ foldl apply_stmt d prog <-> (c, k) ∈ d.
Proof.
  induction 1 as [|s prog Hs Hp IH]; intros d; [done|]. cbn [foldl]. rewrite IH.
  destruct s; cbn [apply_stmt]; set_solver.
Qed.
Lemma apply_upserts k l : forall d c, (c, k) ∈ foldl apply_stmt d ((fun c => Upsert c k) <$> l) <-> c ∈ l \/ (c, k) ∈ d.
Proof.
  induction l as [|x l IH]; intros d c; [set_solver|]. cbn [fmap list_fmap foldl apply_stmt].
  rewrite IH. set_solver.
Qed.
Lemma apply_deletes k l : forall d c, (c, k) ∈ foldl apply_stmt d ((fun c => Delete c k) <$> l) <-> c ∉ l /\ (c, k) ∈ d.
Proof.
  induction l as [|x l IH]; intros d c; [set_solver|]. cbn [fmap list_fmap foldl apply_stmt].
  rewrite IH. set_solver.
Qed.

Section Drivers.
Context {D : Type} `{!Mongo D} (driver container plmn : string).
Let drv := build driver container plmn.
Definition perform (o : Op) (d : D) : D * bool :=
  match o with OAdd s => Add drv d s | ORemove i => Remove drv d i end.
(** The statements an operation stands for. *)
Definition program (o : Op) : list Stmt :=
  (match o with OAdd _ => fun c => Upsert c (key drv (op_imsi o))
              | ORemove _ => fun c => Delete c (key drv (op_imsi o)) end) <$> collections drv.
Lemma perform_prefix o d : ascii_text plmn -> plain o -> let '(d', ok) := perform o d in
  exists n, docs d' = foldl apply_stmt (docs d) (take n (program o)) /\ (ok = true -> take n (program o) = program o).
Proof.
  intros Hplmn [Hd Ha]. unfold perform, program. subst drv. unfold build.
  destruct (decide _) as [|Hne].
  { cbn [collections key Add Remove]. destruct o as [s|i]; cbn [op_imsi] in *; apply run_script.
    + by apply f5c_add_read.
    + by apply f5c_remove_read, digits_quotable. }
  unfold New. rewrite (decide_False (P := driver = "free5gc"%string)) by done.
  destruct (decide _); [|destruct (decide _)]; cbn [collections key Add Remove].
  - destruct o as [s|i]; cbn [op_imsi] in *; apply run_script.
    + apply mongosh_add_read; [by apply digits_bare|done].
    + by apply mongosh_remove_read, digits_bare.
  - destruct o as [s|i]; cbn [op_imsi] in *.
    + pose proof (run_add d container s Hd) as Hr. destruct (run _ _) as [d' ok].
      destruct Hr as (b & -> & Hb). exists (if b then 1%nat else 0%nat). split; [by destruct b|by intros ->%Hb].
    + pose proof (run_remove d container i Hd) as Hr. destruct (run _ _) as [d' ok].
      destruct Hr as (b & -> & Hb). exists (if b then 1%nat else 0%nat). split; [by destruct b|by intros ->%Hb].
  - destruct o; by exists 0%nat.
Qed.
Lemma key_inj i j : key drv i = key drv j -> i = j.
Proof. unfold key. destruct drv; try done. by intros [= ?]. Qed.
(** One operation touches its own subscriber only, and has its whole effect if
    it succeeds. *)
Lemma perform_spec o d : ascii_text plmn -> plain o -> let '(d', ok) := perform o d in
  (forall c i, i <> op_imsi o -> (c, key drv i) ∈ docs d' <-> (c, key drv i) ∈ docs d) /\
  (ok = true -> forall c, c ∈ collections drv ->
     match o with OAdd _ => (c, key drv (op_imsi o)) ∈ docs d' | ORemove _ => (c, key drv (op_imsi o)) ∉ docs d' end).
Proof.
  intros Hplmn Hp. pose proof (perform_prefix o d Hplmn Hp) as Hx. destruct (perform o d) as [d' ok].
  destruct Hx as (n & -> & Hok). split.
  - intros c i Hi. apply apply_frame, Forall_take. unfold program. apply Forall_fmap, Forall_true.
    intros x. destruct o; cbn; by intros ?%key_inj.
  - intros ->%Hok c Hc. unfold program. destruct o; cbn [op_imsi].
    + rewrite apply_upserts. by left.
    + rewrite apply_deletes. tauto.
Qed.

(** A history of operations, each with its outcome. *)
Fixpoint run_ops (ops : list Op) (d : D) : D * list (Op * bool) :=
  match ops with
  | [] => (d, [])
  | o :: ops => let '(d, ok) := perform o d in let '(d, l) := run_ops ops d in (d, (o, ok) :: l)
  end.
Definition last_of (i : string) (l : list (Op * bool)) : option (Op * bool) :=
  last (base.filter (fun p => op_imsi p.1 = i) l).
Lemma last_of_cons i p l : last_of i (p :: l) =
  match last_of i l with Some q => Some q | None => if decide (op_imsi p.1 = i) then Some p else None end.
Proof.
  unfold last_of. destruct (decide (op_imsi p.1 = i)).
  - rewrite filter_cons_True by done. rewrite last_cons. by destruct (last _).
  - rewrite filter_cons_False by done. by destruct (last _).
Qed.

(** C36: The core follows the last write that succeeded.  For each driver the
    daemon or [New] builds, with an ASCII PLMN, after any history of additions
    and removals of plain subscribers (the IMSI is digits only, the other fields
    are ASCII), any of which may fail and stop anywhere in its script, a
    subscriber whose last operation was a successful removal has no record left
    in any of the driver's collections, one whose last was a successful addition
    has all of them, and one never operated on is as it was.  (An IMSI that is
    not digits can reach other subscribers: [mongosh_remove_injected].) *)
Theorem core_follows_last_write ops d i : ascii_text plmn -> Forall plain ops ->
  let '(d', history) := run_ops ops d in
  match last_of i history with
  | None => forall c, (c, key drv i) ∈ docs d' <-> (c, key drv i) ∈ docs d
  | Some (OAdd _, true) => forall c, c ∈ collections drv -> (c, key drv i) ∈ docs d'
  | Some (ORemove _, true) => forall c, c ∈ collections drv -> (c, key drv i) ∉ docs d'
  | Some (_, false) => True
  end.
Proof.
  intros Hplmn Hp. revert d. induction Hp as [|o ops Ho Hops IH]; intros d; cbn [run_ops]; [done|].
  pose proof (perform_spec o d Hplmn Ho) as Hs. destruct (perform o d) as [d1 ok]. destruct Hs as [Hf Hok].
  specialize (IH d1). destruct (run_ops ops d1) as [d' l]. rewrite last_of_cons. cbn [fst].
  destruct (last_of i l) as [[q b]|]; [exact IH|]. destruct (decide (op_imsi o = i)) as [<-|Hi].
  - destruct o, ok; cbn [op_imsi] in *; try done; intros c Hc; rewrite IH; by apply Hok.
  - intros c. rewrite IH. apply Hf. congruence.
Qed.
End Drivers.

(** ** Witnesses *)
(** A core that runs at most so many statements of a script, and reports the
    failure if there were more. *)
Definition run_script_ (d : Docs * nat) (prog : list Stmt) : (Docs * nat) * bool :=
  ((foldl apply_stmt d.1 (take d.2 prog), d.2), (length prog <=? d.2)%nat).
Definition run_argv (d : Docs * nat) (argv : list string) : (Docs * nat) * bool :=
  match argv with
  | [_; _; _; tool; a; i; _; text] =>
      if decide (tool = "mongosh"%string) then
        match read text with Some prog => run_script_ d prog | None => (d, false) end
      else run_script_ d [Upsert "subscribers" i]
  | [_; _; _; _; _; i] => run_script_ d [Delete "subscribers" i]
  | _ => (d, false)
  end.
Lemma run_script_spec d prog : let '(d', ok) := run_script_ d prog in
  exists k, d'.1 = foldl apply_stmt d.1 (take k prog) /\ (ok = true -> take k prog = prog).
Proof. exists d.2. split; [done|]. intros Hk%Nat.leb_le. by apply take_ge. Qed.
Lemma one_statement d s : let '(d', ok) := run_script_ d [s] in
  exists b : bool, d'.1 = (if b then apply_stmt d.1 s else d.1) /\ (ok = true -> b = true).
Proof. destruct d as [d n]. destruct n as [|n]; [by exists false|]. exists true. cbn. by rewrite take_nil. Qed.
#[export] Instance demo_mongo : Mongo (Docs * nat).
Proof.
  refine {| run := run_argv; docs := fst |}.
  - intros d c uri text prog Hr. unfold run_argv, mongosh_argv. rewrite decide_True by done. rewrite Hr.
    apply run_script_spec.
  - intros d c sub _. exact (one_statement d (Upsert "subscribers" (sIMSI sub))).
  - intros d c imsi _. exact (one_statement d (Delete "subscribers" imsi)).
Defined.
Definition lab_sub (i : string) : Subscriber := mkSubscriber i "9999001" "k" "o" "8000" "1" "internet" "lab" 50 25.
Lemma core_follows_last_write_witness :
  let '(d, h) := run_ops "free5gc" "mongo" "00101" [OAdd (lab_sub "999991234567001"); OAdd (lab_sub "999991234567002");
                                            ORemove "999991234567001"] (∅, 7%nat) in
  ((f5cAuthSubsColl, "imsi-999991234567001") ∉ docs d /\ (f5cAuthSubsColl, "imsi-999991234567002") ∈ docs d)%string.
Proof.
  set (ops := [_; _; _]).
  assert (Hp : Forall plain ops) by (repeat constructor).
  pose proof (core_follows_last_write (D := Docs * nat) "free5gc" "mongo" "00101" ops (∅, 7%nat) "999991234567001" eq_refl Hp) as H1.
  pose proof (core_follows_last_write (D := Docs * nat) "free5gc" "mongo" "00101" ops (∅, 7%nat) "999991234567002" eq_refl Hp) as H2.
  assert (E1 : last_of "999991234567001" (run_ops "free5gc" "mongo" "00101" ops (∅, 7%nat)).2 = Some (ORemove "999991234567001", true))
    by (vm_compute; reflexivity).
  assert (E2 : last_of "999991234567002" (run_ops "free5gc" "mongo" "00101" ops (∅, 7%nat)).2 =
               Some (OAdd (lab_sub "999991234567002"), true)) by (vm_compute; reflexivity).
  destruct (run_ops _ _ _ _ _) as [d h]. cbn [snd] in E1, E2. rewrite E1 in H1. rewrite E2 in H2.
  split; [apply H1|apply H2]; by left.
Defined.
(** A script that stops after its first statement reports a failure and has
    added the credentials the core authenticates with. *)
Example partial_add_authenticates :
  let r := Add (New "free5gc" "mongo") ((∅, 1%nat) : Docs * nat) (lab_sub "999991234567001") in
  (r.2, (fun c => bool_decide ((c, "imsi-999991234567001"%string) ∈ docs r.1)) <$> f5c_collections) =
  (false, [true; false; false; false; false; false; false]).
Proof. vm_compute. reflexivity. Qed.
(** An IMSI of fifteen characters, which an import accepts, adds a field to the
    filter of the script that is to remove it. *)
Definition crafted_imsi : string := one dq +:+ ",imsi:" +:+ one dq +:+ "9999912".
Example mongosh_remove_injected : slen crafted_imsi = 15 /\
  lex None (mongosh_remove_script crafted_imsi) =
    Some (chars "db.subscribers.deleteOne({imsi: " ++ [Str ""] ++ chars ",imsi:" ++ [Str "9999912"] ++ chars "})").
Proof. vm_compute. split; reflexivity. Qed.
