(* ===== verification/Agent.v ===== *)
(** * Agent: the on-box agent and the control plane's view of it

    [core/fairwave-agent]: what a heartbeat says, how it is sent, the watchdog
    file; and, over any run of the server, how its alarms follow the
    heartbeats it was sent. *)
From S2P Require Import Prelude.
From S2P Require Import Float64.
From S2P Require Import Paths.
From S2P Require Import Anchor.
From S2P Require Import Fabric.
From S2P Require Import Profile.
From S2P Require Import EsimCrypto.
From S2P Require Import EsimRegistry.
From S2P Require Import Spectrum.
From S2P Require Import Config.
From S2P Require Import Api.
From S2P Require Import Store.
From S2P Require Import Control.
From S2P Require Import Routes.
From S2P Require Import ControlFacts.
From S2P Require Import ControlAlerts.
From S2P Require Import Cli.

(** ** The agent *)
Record Config := mkConfig {
  ControlURL : string; NodeID : string; aToken : string; Interval : Z; aDataDir : string;
  EnableRF : bool; SDRTempPath : string; GPSDoPath : string;
}.
Definition New (cfg : Config) : Config :=
  if Interval cfg <=? 0 then {| cfg with Interval := 10 * Second |} else cfg.
(** What the machine answers: the time, the parsed load average, the
    millidegrees a file holds, which files exist, the platform. *)
Record Box := mkBox {
  now_is : time; loadavg : option f64; millidegrees : string -> option Z; exists_ : string -> bool;
  platform : string;
}.
Definition readProcLoad (b : Box) : f64 := match loadavg b with Some l => l | None => f64_of_Z (-1) end.
Definition readTemp (b : Box) (path : string) : option f64 :=
  (fun m => fdiv (f64_of_Z m) (f64_of_Z 1000)) <$> millidegrees b path.
Definition collect (cfg : Config) (b : Box) : NodeHealth :=
  let load := readProcLoad b in
  mkHealth (NodeID cfg) (now_is b) "lab"
    (if fle f64_zero load then load else f64_zero)
    (if decide (SDRTempPath cfg = ""%string) then None else readTemp b (SDRTempPath cfg))
    (negb (bool_decide (GPSDoPath cfg = ""%string)) && exists_ b (GPSDoPath cfg))
    (EnableRF cfg) "ok" (platform b) "zmq" true false.
Inductive SendError := Unreachable | Refused (status : Z).
(** The credentials and the request of a heartbeat, to a server, on a link. *)
Definition beat (cfg : Config) (h : NodeHealth) : Credentials * Request :=
  (mkCredentials (aToken cfg) false, Telemetry (Some h)).
Definition send {W} (srv : Credentials -> Request -> W -> W * Response) (cfg : Config) (h : NodeHealth)
    (l : Link) (w : W) : W * option SendError :=
  if decide (ControlURL cfg = ""%string) then (w, None) else
  match l with
  | NotSent => (w, Some Unreachable)
  | ReplyLost => ((srv (beat cfg h).1 (beat cfg h).2 w).1, Some Unreachable)
  | Delivered => let '(w, x) := srv (beat cfg h).1 (beat cfg h).2 w in
                 (w, if 300 <=? status_ x then Some (Refused (status_ x)) else None)
  end.
(** [Run] until its context ends: one round per tick, whatever the sending
    returned; the last snapshot is kept for [LastHealth]. *)
Fixpoint Run {W} (srv : Credentials -> Request -> W -> W * Response) (cfg : Config) (rounds : list (Box * Link))
    (last : option NodeHealth) (w : W) : W * option NodeHealth :=
  match rounds with
  | [] => (w, last)
  | (b, l) :: rounds =>
      let h := collect cfg b in
      let '(w, _) := send srv cfg h l w in
      Run srv cfg rounds (Some h) w
  end.
(** The watchdog file; [text] is the formatted time. *)
Definition TouchWatchdog (cfg : Config) (mkdir_ok write_ok : bool) (text : string) (files : gmap string string)
    : gmap string string * bool :=
  if decide (aDataDir cfg = ""%string) then (files, true)
  else if negb mkdir_ok then (files, false)
  else if write_ok then (<[Clean (aDataDir cfg +:+ "/watchdog") := text]> files, true) else (files, false).

(** ** Heartbeats over a run of the server *)
(** A report but for the field that a listing of the nodes recomputes. *)
Definition core (h : NodeHealth) : NodeHealth := {| h with hUp := false |}.

Section Heartbeats.
Context {H : Type} `{!Writer H} `{!BlockCipher} `{!Aead} `{!JsonProfile} `{!Format}.
Context (env : Env) (cfg : ControlConfig) (adminTok node_id version : string).
Context (spectrum : option (string -> string -> bool -> string -> Verdict)).
Context (profileSource : string -> option Subscriber).
Abbreviation serve := (Routes.serve env cfg adminTok node_id version spectrum profileSource).
Abbreviation step := (Routes.step env cfg adminTok node_id version spectrum profileSource).
Abbreviation run := (Routes.run env cfg adminTok node_id version spectrum profileSource).
Abbreviation handle := (Routes.handle env cfg node_id version spectrum profileSource).

Definition reports (w : World H) : gmap string NodeHealth := health (mem (store w)).
(** Reports are kept under their node's name. *)
Definition well (w : World H) : Prop := keyed hNodeID (reports w).
Definition known (id : string) (w : World H) : option NodeHealth := core <$> reports w !! id.
Definition unheard (id : string) (w w' : World H) : Prop := well w -> well w' /\ known id w' = known id w.
#[local] Instance unheard_frame id : Frame (unheard id).
Proof.
  split; [split|]; [by intros w Hw| |by intros w n Hw].
  intros w1 w2 w3 H12 H23 Hw. destruct (H12 Hw) as [Hw2 E2]. destruct (H23 Hw2) as [Hw3 E3].
  split; [done|]. by rewrite E3.
Qed.
Lemma unheard_same id w w' : reports w' = reports w -> unheard id w w'.
Proof. intros E Hw. unfold well, known in *. by rewrite E. Qed.
Lemma stored_unheard {E} id f : (forall ok st, health (mem (f ok st).1) = health (mem st)) ->
  keeps (unheard id) (stored env f : M H E bool).
Proof. intros Hf. apply keeps_stored; [exact _|]. intros ok w. apply unheard_same, Hf. Qed.
Lemma persist_unheard id f : (forall ok st, health (mem (f ok st).1) = health (mem st)) ->
  keeps (unheard id) (persist (H := H) env f).
Proof. intros Hf. unfold persist. keep. by apply stored_unheard. Qed.
Lemma audit_unheard {E} id p a t d : keeps (unheard id) (audit env p a t d : M H E unit).
Proof. unfold audit. keep. apply stored_unheard. store_op; done. Qed.
Ltac unheard_effect :=
  first [ apply audit_unheard
        | apply persist_unheard; store_op; done
        | apply stored_unheard; store_op; done
        | apply keeps_hss_Add; by intros; apply unheard_same
        | apply keeps_hss_Remove; by intros; apply unheard_same
        | apply keeps_engine; by intros; apply unheard_same
        | apply keeps_registry; [exact _|by intros; apply unheard_same]
        | apply keeps_modify; by intros; apply unheard_same ].
Ltac unheard := repeat (keep; try unheard_effect).
Lemma core_up b h : core {| h with hUp := b |} = core h.
Proof. done. Qed.
(** A request that is no report of this node. *)
Definition silent (id : string) (r : Request) : bool :=
  match r with Telemetry (Some h) => negb (bool_decide (hNodeID h = id)) | _ => true end.
Lemma handle_unheard id principal r : silent id r = true -> keeps (unheard id) (handle principal r).
Proof.
  intros Hr. destruct r; cbn [Routes.handle silent] in *; unfold_handlers.
  all: try (clear Hr; unheard; fail).
  - destruct body as [h|]; [|unheard]. apply keeps_pure. cbv beta zeta.
    apply negb_true_iff, bool_decide_eq_false in Hr. unheard.
    all: unfold persist; keep; apply keeps_stored; [exact _|]; intros ok w Hw;
      unfold well, known, reports, UpsertHealth, save in *; destruct ok; cbn.
    all: destruct (IsZero (hTS h)); (split; [by apply keyed_insert|by rewrite lookup_insert_ne]).
  - unheard. apply keeps_modify. intros w Hw. unfold well, known, reports in *. cbn. split.
    + intros i h (h0 & <- & Hi)%lookup_fmap_Some. by apply Hw in Hi.
    + rewrite lookup_fmap. by destruct (health (mem (store w)) !! id).
Qed.
Lemma job_unheard id (t : Tick) : keeps (unheard id) (background (E := unit) env cfg t : M H unit unit).
Proof. destruct t; cbn [background]; unfold_jobs; unheard. Qed.
Definition quiet (id : string) (e : Event) : bool :=
  match e with Call _ r => silent id r | Job _ => true | Restart _ => false end.
Lemma run_unheard id l : Forall (fun e => quiet id e = true) l -> forall w, unheard id w (run w l).
Proof.
  induction 1 as [|e l He Hl IH]; intros w; [by intros Hw|]. cbn [Routes.run foldl].
  etransitivity; [|apply IH]. destruct e as [c r|t|]; [| |done]; cbn [quiet] in He.
  - apply (keeps_serve _ _ _ _ _ _ _ (unheard id)). intros p. by apply handle_unheard.
  - apply job_unheard.
Qed.

(** A heartbeat the server accepts is what it knows of the node. *)
Lemma beat_reports a b w : adminTok <> ""%string -> aToken a = adminTok -> NodeID a <> ""%string -> now_is b <> 0 ->
  reports (serve (beat a (collect a b)).1 (beat a (collect a b)).2 w).1 = <[NodeID a := collect a b]> (reports w).
Proof.
  intros Hne Ht Hid Hts. unfold Routes.serve, authMW, beat. cbn [fst snd route].
  change (public_path "/v1/telemetry") with false. cbv iota. unfold authenticate. cbn [bearer loopback].
  rewrite Ht, bool_decide_false, bool_decide_true by done. cbn [negb andb]. rewrite run_ret_bind.
  cbn [fst snd]. change (authorize RoleAdmin POST "/v1/telemetry") with (@None Denial). cbv iota.
  cbn [Routes.handle]. unfold handleTelemetry, readJSON. rewrite run_ret_bind.
  change (hNodeID (collect a b)) with (NodeID a). rewrite bool_decide_false by done.
  unfold require. cbn [negb]. rewrite run_ret_bind.
  unfold now'. destruct (now_run env (E := Response) w) as (t & w1 & E1 & A1 & _).
  rewrite (run_bind _ _ _ _ _ E1). change (IsZero (hTS (collect a b))) with (now_is b =? 0).
  rewrite (proj2 (Z.eqb_neq _ _) Hts). cbv zeta.
  assert (Hw1 : reports w1 = reports w) by (destruct A1 as (_ & A1 & _); by injection A1).
  unfold mbind at 1, M_bind at 1. rewrite persist_run. rewrite <- Hw1.
  unfold UpsertHealth, save. by destruct (save_ok env (ticks w1)).
Qed.
Lemma beat_known a b w : adminTok <> ""%string -> aToken a = adminTok -> NodeID a <> ""%string -> now_is b <> 0 ->
  well w -> let w' := (serve (beat a (collect a b)).1 (beat a (collect a b)).2 w).1 in
  well w' /\ known (NodeID a) w' = Some (collect a b).
Proof.
  intros Hne Ht Hid Hts Hw. unfold well, known. cbv zeta. rewrite beat_reports by done.
  split; [by apply keyed_insert|]. by rewrite lookup_insert_eq.
Qed.
(** Which alarms the engine raises for a node it knows. *)
Lemma elem_key_if b (k x : string) : k ∈ key_if b x <-> b = true /\ k = x.
Proof. unfold key_if. destruct b; [rewrite list_elem_of_singleton|rewrite elem_of_nil]; naive_solver. Qed.
Lemma node_alarms now id h w : well w -> known id w = Some h ->
  let fires k := k ∈ holding (H := H) cfg now w in
  (fires ("node-down:" +:+ id) <-> stale_after cfg < time_sub now (hTS h)) /\
  (fires ("sdr-temp:" +:+ id) <-> exists t, SDRTempC h = Some t /\ flt (TempHighC cfg) t = true) /\
  (fires ("watchdog:" +:+ id) <-> Watchdog h <> ""%string /\ Watchdog h <> "ok"%string) /\
  (fires ("freq:" +:+ id) <-> FreqCheck h = false).
Proof.
  intros Hw (h0 & Hl & ->)%fmap_Some. pose proof (Hw _ _ Hl) as Hid. cbv zeta.
  assert (Hh : forall k : string, k <> "ues-capacity"%string -> (forall i, k <> "sim-expiry:" +:+ i) ->
    (forall h, k ∈ health_keys cfg now h -> hNodeID h = id) ->
    k ∈ holding (H := H) cfg now w <-> k ∈ health_keys cfg now h0).
  { intros k H4 H5 H6. unfold holding, expiring, capacity_keys.
    rewrite !elem_of_union, !elem_of_list_to_set, elem_key_if, list_elem_of_bind. split.
    - intros [[(h' & Hk & Hi)|Hx]|[_ ?]]; [| |done].
      + pose proof (H6 h' Hk) as Hid'. apply elem_of_values in Hi as (i & Hi).
        pose proof (Hw _ _ Hi) as <-. rewrite Hid' in Hi. unfold reports in Hl. rewrite Hl in Hi. by injection Hi as <-.
      + exfalso. destruct (0 <? _); [|by apply elem_of_nil in Hx].
        apply list_elem_of_bind in Hx as (s & Hs & _). apply elem_key_if in Hs as [_ ->]. by eapply H5.
    - intros Hk. left. left. exists h0. split; [done|]. apply elem_of_values. by eexists. }
  assert (Hkeys : forall k h, k ∈ health_keys cfg now h <->
    (stale_after cfg < time_sub now (hTS h) /\ k = ("node-down:" +:+ hNodeID h)%string) \/
    ((exists t, SDRTempC h = Some t /\ flt (TempHighC cfg) t = true) /\ k = ("sdr-temp:" +:+ hNodeID h)%string) \/
    ((Watchdog h <> ""%string /\ Watchdog h <> "ok"%string) /\ k = ("watchdog:" +:+ hNodeID h)%string) \/
    (FreqCheck h = false /\ k = ("freq:" +:+ hNodeID h)%string)).
  { intros k h. unfold health_keys. rewrite !elem_of_app, !elem_key_if, negb_true_iff, Z.leb_gt, andb_true_iff,
      !negb_true_iff, !bool_decide_eq_false. destruct (SDRTempC h); naive_solver. }
  assert (Hc : forall (P : NodeHealth -> Prop) (pre : string),
    (pre +:+ id)%string <> "ues-capacity"%string -> (forall i, (pre +:+ id)%string <> "sim-expiry:" +:+ i) ->
    (forall h, pre +:+ id ∈ health_keys cfg now h <-> P h /\ (pre +:+ id)%string = (pre +:+ hNodeID h)%string) ->
    pre +:+ id ∈ holding (H := H) cfg now w <-> P h0).
  { intros P pre H4 H5 H6. rewrite Hh; [|done|done|].
    - rewrite H6. cbv beta in Hid. rewrite Hid. tauto.
    - intros h [_ E]%H6. by apply (inj _) in E. }
  split; [|split; [|split]].
  - apply (Hc (fun h => stale_after cfg < time_sub now (hTS h))); [done|done|].
    intros h. rewrite Hkeys. intuition discriminate.
  - apply (Hc (fun h => exists t, SDRTempC h = Some t /\ flt (TempHighC cfg) t = true)); [done|done|].
    intros h. rewrite Hkeys. intuition discriminate.
  - apply (Hc (fun h => Watchdog h <> ""%string /\ Watchdog h <> "ok"%string)); [done|done|].
    intros h. rewrite Hkeys. intuition discriminate.
  - apply (Hc (fun h => FreqCheck h = false)); [done|done|].
    intros h. rewrite Hkeys. intuition discriminate.
Qed.

(** C24: The alarms follow the heartbeats.  Take an agent with the
    administrator's token whose heartbeat reached the server, in whatever
    state, its reply lost or not.  Then, however the server runs on without
    another report of this node or a restart, an evaluation of the alerts has
    the node's alarm on exactly if the time since the agent took that snapshot
    exceeds the configured limit, and its temperature alarm exactly if the
    sensor read above the limit; and the watchdog and frequency alarms, which
    exist for what a heartbeat may say, are never on. *)
Theorem alarm_follows_heartbeats a b (link : Link) w l : AlertsEnabled cfg = true -> well w ->
  adminTok <> ""%string -> aToken a = adminTok -> NodeID a <> ""%string -> now_is b <> 0 ->
  ControlURL a <> ""%string -> link <> NotSent -> Forall (fun e => quiet (NodeID a) e = true) l ->
  let w1 := (send serve a (collect a b) link w).1 in
  let w2 := run w1 l in
  let on k := k ∈ fired (step w2 (Job TickAlerts)) in
  let t := clock env (ticks w2) in
  (on ("node-down:" +:+ NodeID a) <-> stale_after cfg < time_sub t (now_is b)) /\
  (on ("sdr-temp:" +:+ NodeID a) <->
     SDRTempPath a <> ""%string /\
     exists c, readTemp b (SDRTempPath a) = Some c /\ flt (TempHighC cfg) c = true) /\
  ~ on ("watchdog:" +:+ NodeID a) /\ ~ on ("freq:" +:+ NodeID a).
Proof.
  intros Hal Hw Hne Ht Hid Hts Hurl Hl Hq. cbv zeta.
  assert (Es : (send serve a (collect a b) link w).1 = (serve (beat a (collect a b)).1 (beat a (collect a b)).2 w).1).
  { unfold send. rewrite decide_False by done. destruct link; try done; try exact demo_well.
    by destruct (serve (beat a (collect a b)).1 (beat a (collect a b)).2 w). }
  rewrite Es. destruct (beat_known a b w Hne Ht Hid Hts Hw) as [Hw1 Hk1].
  destruct (run_unheard (NodeID a) l Hq _ Hw1) as [Hw2 Hk2]. rewrite Hk1 in Hk2.
  set (w2 := run _ l) in *. cbn [Routes.step background]. rewrite Hal. cbn [when].
  destruct (evaluate_spec env cfg w2) as (_ & -> & _).
  destruct (node_alarms (clock env (ticks w2)) (NodeID a) (collect a b) w2 Hw2 Hk2) as (H4 & H5 & H6 & H7).
  split; [exact H4|]. split; [|split; [|by rewrite H7]].
  - rewrite H5. cbn [SDRTempC collect]. destruct (decide (SDRTempPath a = ""%string)); naive_solver.
  - rewrite H6. by intros [_ []].
Qed.
End Heartbeats.

(** ** Witness *)
Definition demo_agent : Config := mkConfig "http://hub:8080/" "node-1" "secret" 0 "data" false "/sys/temp" "".
Definition demo_box (t : time) : Box := mkBox t None (fun _ => Some 91500) (fun _ => false) "linux/amd64".
Definition demo_cfg : ControlConfig := {| Default with AlertsEnabled := true |}.
Lemma demo_well : well (demo_world None_ empty_store).
Proof. apply (keyed_empty hNodeID). Qed.
Lemma alarm_follows_heartbeats_witness :
  let srv := serve demo_env demo_cfg "secret" "hub" "dev" None (fun _ => None) in
  let w1 := (send srv demo_agent (collect demo_agent (demo_box 1)) ReplyLost (demo_world None_ empty_store)).1 in
  let w2 := run demo_env demo_cfg "secret" "hub" "dev" None (fun _ => None) w1 [Job TickSweep] in
  "watchdog:node-1"%string ∉ fired (step demo_env demo_cfg "secret" "hub" "dev" None (fun _ => None) w2 (Job TickAlerts)) /\
  "sdr-temp:node-1"%string ∈ fired (step demo_env demo_cfg "secret" "hub" "dev" None (fun _ => None) w2 (Job TickAlerts)).
Proof.
  assert (Hq : Forall (fun e => quiet (NodeID demo_agent) e = true) [Job TickSweep]) by by constructor.
  assert (Hl : ReplyLost <> NotSent) by done. assert (Hts : now_is (demo_box 1) <> 0) by done.
  assert (Hne : "secret"%string <> ""%string) by done. assert (Hid : NodeID demo_agent <> ""%string) by done.
  assert (Hurl : ControlURL demo_agent <> ""%string) by done.
  destruct (alarm_follows_heartbeats demo_env demo_cfg "secret" "hub" "dev" None (fun _ => None) demo_agent (demo_box 1)
    ReplyLost (demo_world None_ empty_store) [Job TickSweep] eq_refl demo_well Hne eq_refl Hid Hts Hurl Hl Hq)
    as (_ & H2 & H3 & _).
  split; [exact H3|]. apply H2. split; [done|]. eexists. split; [reflexivity|]. vm_compute. reflexivity.
Defined.
(** The server takes the agent's clock as it is: a node whose clock is ahead
    is never missed. *)
Example clock_ahead_never_down :
  let h := collect demo_agent (demo_box (Hour * 24 * 365)) in
  health_keys demo_cfg (Hour * 24) h = ["sdr-temp:node-1"%string].
Proof. vm_compute. reflexivity. Qed.
