(* ===== verification/Daemon.v ===== *)
(** * Daemon: the Hydra node as a service

    [core/hydra/node/config.go] and [report.go], with [Node.Stats] and the
    addresses of [node.go]: the configuration file, the snapshot of a node's
    activity, and the reports of its threads' health to the control plane,
    run against the server's own handler. *)
From S2P Require Import Prelude Float64.
From S2P Require Import Bearer.
From S2P Require Import Anchor.
From S2P Require Import Fabric.
From S2P Require Import Transport.
From S2P Require Node.
From S2P Require Import Profile.
From S2P Require Import EsimCrypto.
From S2P Require Import EsimRegistry.
From S2P Require Import Spectrum.
From S2P Require Import Config.
From S2P Require Import Api.
From S2P Require Import Store.
From S2P Require Import Control.
From S2P Require Import Routes.
From S2P Require Import ControlFacts.
From S2P Require Import Cli.

(** ** The configuration file *)
Record FileThread := mkFileThread { ftID : string; ftLocal : string; ftRemote : string; ftMbps : f64 }.
Record FileConfig := mkFileConfig {
  fcNodeID : string; fcWeave : string; fcAnchor : string; fcIngress : string; fcEgress : string;
  fcProbeInterval : string; fcProbeTimeout : string; fcProbeFailures : Z; fcQueueFrames : Z;
  fcReport : string; fcToken : string; fcReportInterval : string; fcThreads : list FileThread;
}.
Inductive FileError := ErrNoThreads | ErrProbeInterval | ErrProbeTimeout | ErrThreadNoID (i : nat).
Section File.
(** [time.ParseDuration]. *)
Context (ParseDuration : string -> option Z).
Definition duration_of (e : FileError) (s : string) : res FileError Z :=
  if decide (s = ""%string) then Ok 0
  else match ParseDuration s with Some d => Ok d | None => Err e end.
Fixpoint thread_configs (i : nat) (l : list FileThread) : res FileError (list Node.ThreadConfig) :=
  match l with
  | [] => Ok []
  | t :: l =>
      if decide (ftID t = ""%string) then Err (ErrThreadNoID i)
      else rest ← thread_configs (S i) l;
           Ok (Node.mkThreadConfig (ftID t) (ftLocal t) (ftRemote t) (ftMbps t) :: rest)
  end.
Definition FileConfig_Config (fc : FileConfig) : res FileError Node.Config :=
  match fcThreads fc with
  | [] => Err ErrNoThreads
  | l =>
      interval ← duration_of ErrProbeInterval (fcProbeInterval fc);
      timeout ← duration_of ErrProbeTimeout (fcProbeTimeout fc);
      threads ← thread_configs 0 l;
      Ok (Node.mkConfig (fcNodeID fc) (fcWeave fc) (fcAnchor fc) (fcIngress fc) (fcEgress fc) threads
            interval timeout (fcProbeFailures fc) (fcQueueFrames fc))
  end.
Definition ResolveReportInterval (fc : FileConfig) : Z :=
  if decide (fcReportInterval fc = ""%string) then 5 * Second
  else match ParseDuration (fcReportInterval fc) with
       | Some d => if d <=? 0 then 5 * Second else d
       | None => 5 * Second
       end.
End File.

(** ** The snapshot *)
Record ThreadHealth := mkThreadHealth {
  thID : string; thRTTms : f64; thMisses : Z; thUp : bool; thMbps : f64;
}.
Definition thread_health (n : Node.Node) (id : string) : option ThreadHealth :=
  p ← Node.threads n !! id;
  let h := mkThreadHealth id (Node.rttEwma p) (Node.misses p) (Node.up p) f64_zero in
  Some match Bearer.Get (reg (Node.engine n)) id with
       | Some t => mkThreadHealth id (thRTTms h) (thMisses h) (Up t) (Mbps t)
       | None => h
       end.
Record Stats := mkStats {
  sNodeID : string; sWeaveID : string; sAnchor : string; sIngressFrames : Z; sIngressBytes : Z;
  sEgressFrames : Z; sEgressBytes : Z; sDropped : Z; sDelivered : Z; sAggregate : f64;
  sHealth : list ThreadHealth;
}.
(** [torder] and [worder]: the order the engine's status ranges over its maps. *)
Definition Node_Stats (n : Node.Node) (torder : list Bearer.Thread) (worder : list weaveState) : Stats :=
  let es := Fabric.status (Node.engine n) torder worder in
  mkStats (Node.cID (Node.cfg n)) (Node.cWeaveID (Node.cfg n)) (Node.cAnchor (Node.cfg n))
    (Node.ingressFrames n) (Node.ingressBytes n)
    (Node.egressFrames (egress (Node.engine n))) (Node.egressBytes (egress (Node.engine n)))
    (Node.nDropped n) (stDelivered es) (stAggregate es)
    (omap (thread_health n) (Node.order n)).

(** ** Reports *)
Inductive ReportError := ErrMarshal | ErrLink | ErrStatus (id : string) (status : Z).
Definition c100 : f64 := f64_of_Z 100.
Definition report_body (h : ThreadHealth) : HydraThreadHealth :=
  mkHydraHealth (thMbps h) (thRTTms h) (if thUp h then f64_zero else c100) (thUp h).
(** [link]: what becomes of a thread's request. *)
Section Report.
Context {W : Type} (srv : Credentials -> Request -> W -> W * Response) (tok : string) (link : string -> Link).
Definition report_one (h : ThreadHealth) (w : W) : W * option ReportError :=
  if negb (finite (thMbps h) && finite (thRTTms h)) then (w, Some ErrMarshal) else
  let send := srv (mkCredentials tok false) (HydraHealth (thID h) (Some (report_body h))) w in
  match link (thID h) with
  | NotSent => (w, Some ErrLink)
  | ReplyLost => (send.1, Some ErrLink)
  | Delivered => (send.1, if 400 <=? status_ send.2 then Some (ErrStatus (thID h) (status_ send.2)) else None)
  end.
(** Every thread is reported, and the first error is returned. *)
Fixpoint report_all (l : list ThreadHealth) (first : option ReportError) (w : W)
    : W * option ReportError :=
  match l with
  | [] => (w, first)
  | h :: l =>
      let '(w, e) := report_one h w in
      report_all l (match first with Some _ => first | None => e end) w
  end.
Definition ReportOnce (n : Node.Node) (w : W) : W * option ReportError :=
  report_all (omap (thread_health n) (Node.order n)) None w.
End Report.
Definition report_interval (interval : Z) : Z := if interval <=? 0 then 5 * Second else interval.

(** ** What the control plane makes of a report *)
Section Mirror.
Context {H : Type} `{!Writer H} `{!BlockCipher} `{!Aead} `{!JsonProfile} `{!Format}.
Context (env : Env) (cfg : ControlConfig) (adminTok node_id version : string).
Context (spectrum : option (string -> string -> bool -> string -> Verdict)).
Context (profileSource : string -> option Subscriber).
Abbreviation serve := (Routes.serve env cfg adminTok node_id version spectrum profileSource).

Definition thread_of (id : string) (w : World H) : option Bearer.Thread := Bearer.Get (reg (hydra w)) id.
(** The control plane's view of a reported thread, its other fields as they
    were. *)
Definition mirrors (h : ThreadHealth) (t t' : Bearer.Thread) : Prop :=
  RTTms t' = thRTTms h /\ Up t' = thUp h /\ LossPct t' = (if thUp h then f64_zero else c100) /\
  Mbps t' = (if flt f64_zero (thMbps h) then thMbps h else Mbps t) /\
  Bearer.ID t' = Bearer.ID t /\ Box t' = Box t /\ QueueBytes t' = QueueBytes t.
Definition health_update (now : time) (b : HydraThreadHealth) (t : Bearer.Thread) : Bearer.Thread :=
  let t := if flt f64_zero (hhMbps b) then {| t with Bearer.Mbps := hhMbps b |} else t in
  {| t with Bearer.RTTms := hhRTTms b; Bearer.LossPct := hhLossPct b; Bearer.Up := hhUp b; Bearer.LastSeen := now |}.
(** The handler: the registry's thread, if there is one, then its record. *)
Lemma thread_report_run id b (w : World H) : exists w' r t0,
  handleHydraThreadHealth env id (Some b) w = (w', r) /\
  match thread_of id w with
  | None => reg (hydra w') = reg (hydra w) /\ r = Err (err 404 "not_found")
  | Some t =>
      reg (hydra w') = <[id := health_update t0 b t]> (reg (hydra w)) /\
      (r = Ok (mkResponse 200 (PThreadHealth id (hhUp b))) \/
       r = Err persist_error /\ exists k, save_ok env k = false)
  end.
Proof.
  unfold handleHydraThreadHealth, readJSON, now', now_, engine, next. unfold thread_of, Get.
  destruct (reg (hydra w) !! id) as [t|] eqn:E.
  - destruct (save_ok env (S (ticks w))) eqn:Ek; eexists _, _, (clock env (ticks w)); (split;
      [cbv [mbind M_bind mret M_ret act SetThreadHealth Update]; cbn [hydra ticks]; rewrite E; cbn -[persist];
       rewrite lookup_insert_eq, persist_run; unfold UpsertHydraThread, save, set_engine; cbn [ticks]; rewrite Ek; reflexivity|]);
      (split; [reflexivity|]); [by left|right; split; [done|by eexists]].
  - eexists _, _, 0. split.
    { cbv [mbind M_bind mret M_ret act SetThreadHealth Update]. cbn [hydra ticks]. rewrite E. reflexivity. }
    done.
Qed.
Lemma serve_HydraHealth id b w : adminTok <> ""%string ->
  let '(w', x) := serve (mkCredentials adminTok false) (HydraHealth id (Some b)) w in
  (forall i, i <> id -> thread_of i w' = thread_of i w) /\
  match thread_of id w with
  | None => thread_of id w' = None /\ status_ x = 404
  | Some t =>
      (exists t', thread_of id w' = Some t' /\
         RTTms t' = hhRTTms b /\ Up t' = hhUp b /\ LossPct t' = hhLossPct b /\
         Mbps t' = (if flt f64_zero (hhMbps b) then hhMbps b else Mbps t) /\
         Bearer.ID t' = Bearer.ID t /\ Box t' = Box t /\ QueueBytes t' = QueueBytes t) /\
      (status_ x = 200 \/ exists k, save_ok env k = false)
  end.
Proof.
  intros Hne. unfold Routes.serve, authMW. cbn [route].
  replace (public_path ("/v1/hydra/threads/" +:+ id +:+ "/health")) with false by (vm_compute; reflexivity).
  cbv iota. unfold authenticate. cbn [bearer loopback].
  rewrite bool_decide_false, bool_decide_true by done. cbn [negb andb]. rewrite run_ret_bind. cbn [fst snd].
  replace (authorize RoleAdmin POST ("/v1/hydra/threads/" +:+ id +:+ "/health")) with (@None Denial) by done.
  cbv iota. cbn [Routes.handle].
  destruct (thread_report_run id b w) as (w' & r & t0 & E & Hr). change (principalFrom _) with "admin"%string.
  rewrite E. unfold thread_of, Get in *. destruct (reg (hydra w) !! id) as [t|] eqn:Et.
  - destruct Hr as [Hreg Hr]. replace (match r with Ok x | Err x => (w', x) end) with (w', match r with Ok x | Err x => x end)
      by by destruct r.
    split; [intros i Hi; by rewrite Hreg, lookup_insert_ne|]. split.
    + eexists. rewrite Hreg, lookup_insert_eq. split; [reflexivity|]. unfold health_update.
      by destruct (flt f64_zero (hhMbps b)).
    + destruct Hr as [->|[-> Hk]]; [by left|by right].
  - destruct Hr as [Hreg ->]. cbn. rewrite Hreg. split; [done|]. by rewrite Et.
Qed.

Abbreviation report_all := (report_all serve adminTok).
Abbreviation report_one := (report_one serve adminTok).
Lemma report_one_spec link h w : adminTok <> ""%string ->
  let '(w', e) := report_one link h w in
  (forall i, i <> thID h -> thread_of i w' = thread_of i w) /\
  (is_Some (thread_of (thID h) w') <-> is_Some (thread_of (thID h) w)) /\
  (finite (thMbps h) = true -> finite (thRTTms h) = true -> link (thID h) <> NotSent ->
   forall t, thread_of (thID h) w = Some t -> exists t', thread_of (thID h) w' = Some t' /\ mirrors h t t') /\
  (e = None -> is_Some (thread_of (thID h) w) /\ link (thID h) = Delivered).
Proof.
  intros Hne. unfold Daemon.report_one.
  pose proof (serve_HydraHealth (thID h) (report_body h) w Hne) as Hs.
  destruct (serve _ _ w) as [w' x]. destruct Hs as [Hf Hs]. cbn [fst snd].
  destruct (finite (thMbps h) && finite (thRTTms h)) eqn:Ef; cbn [negb].
  2: { split; [done|]. split; [done|]. split; [|done]. intros E1 E2. by rewrite E1, E2 in Ef. }
  assert (Hd : is_Some (thread_of (thID h) w') <-> is_Some (thread_of (thID h) w)).
  { destruct (thread_of (thID h) w) as [t|]; [|by destruct Hs as [-> _]].
    destruct Hs as [(t' & -> & _) _]. by split. }
  assert (Hm : forall t, thread_of (thID h) w = Some t -> exists t', thread_of (thID h) w' = Some t' /\ mirrors h t t').
  { intros t Et. rewrite Et in Hs. destruct Hs as [(t' & Et' & Hm) _]. by exists t'. }
  destruct (link (thID h)); [|by repeat split|].
  - split; [exact Hf|]. split; [exact Hd|]. split; [by intros _ _ _|].
    destruct (thread_of (thID h) w) as [t|]; [by split; [eexists|]|]. by destruct Hs as [_ ->].
  - split; [exact Hf|]. split; [exact Hd|]. by split; [intros _ _ _|].
Qed.
Lemma report_all_spec link l : adminTok <> ""%string -> NoDup (thID <$> l) -> forall first w,
  let '(w', e) := report_all link l first w in
  (forall i, i ∉ thID <$> l -> thread_of i w' = thread_of i w) /\
  (forall i, is_Some (thread_of i w') <-> is_Some (thread_of i w)) /\
  (forall h t, h ∈ l -> finite (thMbps h) = true -> finite (thRTTms h) = true ->
     link (thID h) <> NotSent -> thread_of (thID h) w = Some t ->
     exists t', thread_of (thID h) w' = Some t' /\ mirrors h t t') /\
  (e = None -> first = None /\ forall h, h ∈ l -> is_Some (thread_of (thID h) w) /\ link (thID h) = Delivered).
Proof.
  intros Hne. induction l as [|h l IH]; intros Hnd first w; cbn [Daemon.report_all].
  { repeat split; try done; intros; by set_solver. }
  cbn [fmap list_fmap] in Hnd. apply NoDup_cons in Hnd as [Hh Hnd].
  pose proof (report_one_spec link h w Hne) as X1. destruct (report_one link h w) as [w1 e1].
  destruct X1 as (Hf1 & Hd1 & Hm1 & He1).
  specialize (IH Hnd (match first with Some _ => first | None => e1 end) w1).
  destruct (report_all link l _ w1) as [w' e]. destruct IH as (Hf & Hd & Hm & He).
  assert (Hd' : forall i, is_Some (thread_of i w1) <-> is_Some (thread_of i w)).
  { intros i. destruct (decide (i = thID h)) as [->|Hi]; [exact Hd1|]. by rewrite Hf1. }
  split; [intros i Hi; rewrite Hf, Hf1; set_solver|]. split; [intros i; by rewrite Hd|]. split.
  - intros h' t [->|Hj]%elem_of_cons F1 F2 Hl Ht.
    + rewrite Hf by done. by apply Hm1.
    + apply Hm; [done..|]. rewrite Hf1; [done|]. intros E. apply Hh. rewrite <- E. by apply list_elem_of_fmap_2.
  - intros Hn. apply He in Hn as [Hfirst Hn]. destruct first; [done|]. split; [done|].
    intros h' [->|Hj]%elem_of_cons; [by apply He1|]. rewrite <- Hd'. by apply Hn.
Qed.
(** The reports of a node: one for each thread it has, in order. *)
Lemma thread_health_ID n id h : thread_health n id = Some h -> thID h = id.
Proof.
  unfold thread_health. destruct (Node.threads n !! id) as [p|]; [|done]. intros [= <-].
  by destruct (Get _ _).
Qed.
Lemma health_ids n l : NoDup l -> NoDup (thID <$> omap (thread_health n) l) /\
  forall i, i ∈ thID <$> omap (thread_health n) l -> i ∈ l.
Proof.
  induction 1 as [|id l Hi Hl [IH1 IH2]]; [split; [by constructor|done]|]. cbn [omap list_omap].
  destruct (thread_health n id) as [h|] eqn:E.
  - pose proof (thread_health_ID _ _ _ E) as Ei. cbn [fmap list_fmap]. split.
    + constructor; [|done]. rewrite Ei. auto.
    + rewrite Ei. intros i [->|Hx]%elem_of_cons; [by left|right; auto].
  - split; [done|]. intros i Hx. right. auto.
Qed.

(** The control plane mirrors the node.  After a round of reports from a
    running node to a control plane that knows its token, each of the node's
    threads that is registered there and whose request got through, its reply
    lost or not, has there the round-trip time, the capacity (if positive) and
    the state the node has it with, total loss if it is down and none if it is
    up; no other thread changes, and none appears or disappears.  The round
    returns no error only if every thread was registered and every exchange
    complete. *)
Theorem report_mirrors (n : Node.Node) link w : adminTok <> ""%string -> NoDup (Node.order n) ->
  let '(w', e) := ReportOnce serve adminTok link n w in
  (forall id, id ∉ Node.order n -> thread_of id w' = thread_of id w) /\
  (forall id, is_Some (thread_of id w') <-> is_Some (thread_of id w)) /\
  (forall id p nt t, id ∈ Node.order n -> Node.threads n !! id = Some p -> Bearer.Get (reg (Node.engine n)) id = Some nt ->
     finite (Mbps nt) = true -> finite (Node.rttEwma p) = true -> link id <> NotSent -> thread_of id w = Some t ->
     exists t', thread_of id w' = Some t' /\
       RTTms t' = Node.rttEwma p /\ Up t' = Up nt /\ LossPct t' = (if Up nt then f64_zero else c100) /\
       Mbps t' = (if flt f64_zero (Mbps nt) then Mbps nt else Mbps t) /\
       Bearer.ID t' = Bearer.ID t /\ Box t' = Box t /\ QueueBytes t' = QueueBytes t) /\
  (e = None -> forall id, id ∈ Node.order n -> is_Some (Node.threads n !! id) ->
     is_Some (thread_of id w) /\ link id = Delivered).
Proof.
  intros Hne Hnd. unfold ReportOnce. destruct (health_ids n (Node.order n) Hnd) as [Hl1 Hl2].
  pose proof (report_all_spec link (omap (thread_health n) (Node.order n)) Hne Hl1 None w) as Hr.
  destruct (report_all _ _ _ _) as [w' e]. destruct Hr as (Hf & Hd & Hm & He).
  split; [auto|]. split; [done|]. split.
  - intros id p nt t Hi Hp Hnt F1 F2 Hl Ht.
    apply (Hm (mkThreadHealth id (Node.rttEwma p) (Node.misses p) (Up nt) (Mbps nt)) t); try done.
    apply list_elem_of_omap. exists id. split; [done|]. unfold thread_health. rewrite Hp. cbn. by rewrite Hnt.
  - intros Hn id Hi [p Hp]. apply He in Hn as [_ Hn].
    assert (Hh : exists h, thread_health n id = Some h) by (unfold thread_health; rewrite Hp; by eexists).
    destruct Hh as [h Hh]. rewrite <- (thread_health_ID _ _ _ Hh). apply Hn, list_elem_of_omap. by exists id.
Qed.
End Mirror.

(** ** Witness *)
(** A control plane where an operator declared the node's thread. *)
Definition declared_thread : Bearer.Thread :=
  Bearer.mkThread "a" "box" "" (f64_of_Z 10) (f64_of_Z 40) f64_zero 0 true 1.
Definition declared_world : World NoHSS :=
  let w := demo_world None_ empty_store in
  {| w with hydra := {| (hydra w) with reg := {["a"%string := declared_thread]} |} |}.
Definition report_to (link : string -> Link) (n : Node.Node) : World NoHSS * option ReportError :=
  ReportOnce (serve demo_env Default "secret" "hub" "dev" None (fun _ => None)) "secret" link n declared_world.
Lemma report_mirrors_witness :
  exists t', thread_of "a" (report_to (fun _ => ReplyLost) Node.demo_node).1 = Some t' /\ RTTms t' = f64_zero.
Proof.
  assert (Hnd : NoDup (Node.order Node.demo_node)) by (apply (bool_decide_eq_true_1 _); vm_compute; reflexivity).
  pose proof (report_mirrors demo_env Default "secret" "hub" "dev" None (fun _ => None) Node.demo_node
    (fun _ => ReplyLost) declared_world ltac:(done) Hnd) as Hr.
  unfold report_to. destruct (ReportOnce _ _ _ _ _) as [w' e]. destruct Hr as (_ & _ & Hm & _).
  destruct (Node.threads Node.demo_node !! "a"%string) as [p|] eqn:Ep; [|vm_compute in Ep; discriminate].
  destruct (Bearer.Get (reg (Node.engine Node.demo_node)) "a") as [nt|] eqn:En; [|vm_compute in En; discriminate].
  destruct (Hm "a"%string p nt declared_thread) as (t' & Et & Er & _).
  - by left.
  - exact Ep.
  - exact En.
  - vm_compute in En. by injection En as <-.
  - vm_compute in Ep. by injection Ep as <-.
  - done.
  - reflexivity.
  - exists t'. split; [exact Et|]. rewrite Er. vm_compute in Ep. by injection Ep as <-.
Defined.
(** A thread that answered no probe yet is reported with no round-trip time,
    which replaces the operator's. *)
Example unmeasured_rtt_reported :
  RTTms <$> thread_of "a" declared_world = Some (f64_of_Z 40) /\
  RTTms <$> thread_of "a" (report_to (fun _ => Delivered) Node.demo_node).1 = Some f64_zero.
Proof. vm_compute. split; reflexivity. Qed.
