(* ===== verification/Programs.v ===== *)
(** * Programs: the mains of the node and of the agent

    [core/hydra/cmd/fairwave-hydra/main.go] and
    [core/fairwave-agent/cmd/fairwave-agent/main.go], with [LoadFile] of
    [core/hydra/node/config.go]: what their flags and files make them run.
    The first composes [Daemon], [Node] and [Shutdown], the second [Agent]'s
    two loops, which share nothing.  Log lines are left out. *)
From S2P Require Import Prelude Float64.
From S2P Require Import Bearer.
From S2P Require Import Anchor.
From S2P Require Import Fabric.
From S2P Require Import Transport.
From S2P Require Node.
From S2P Require Shutdown.
From S2P Require Import Api.
From S2P Require Import Routes.
From S2P Require Import Cli.
From S2P Require Import Daemon.
From S2P Require Import Agent.

(** ** fairwave-hydra *)
Inductive LoadError := ErrRead | ErrParse.
(** [yaml]: the package's [Unmarshal] into a [FileConfig]. *)
Definition LoadFile (read : string -> option bytes) (yaml : bytes -> option FileConfig) (path : string) :
    res LoadError FileConfig :=
  match read path with
  | None => Err ErrRead
  | Some data => match yaml data with None => Err ErrParse | Some fc => Ok fc end
  end.
Inductive HydraFailure := NoConfig | FLoad (e : LoadError) | FConfig (e : FileError) | FNew (e : Node.NewError).
(** A running node: where it reports to, if anywhere, and how often. *)
Record Hydra := mkHydra { h_node : Node.Node; h_report : option (string * string * Z) }.
Inductive HydraEnd := Version | Fatal (e : HydraFailure) | Runs (h : Hydra).
Section HydraMain.
Context (read : string -> option bytes) (yaml : bytes -> option FileConfig) (ParseDuration : string -> option Z).
Definition hydra_main (showVersion : bool) (configPath : string) (env : Node.Env) : HydraEnd :=
  if showVersion then Version
  else if decide (configPath = ""%string) then Fatal NoConfig
  else match LoadFile read yaml configPath with
  | Err e => Fatal (FLoad e)
  | Ok fc =>
      match FileConfig_Config ParseDuration fc with
      | Err e => Fatal (FConfig e)
      | Ok cfg =>
          match Node.NewNode env cfg with
          | Err e => Fatal (FNew e)
          | Ok n =>
              Runs (mkHydra n (if decide (fcReport fc = ""%string) then None
                               else Some (fcReport fc, fcToken fc, ResolveReportInterval ParseDuration fc)))
          end
      end
  end.
(** The goroutines that [Run] starts. *)
Definition goroutines (h : Hydra) : Shutdown.State :=
  let c := Node.cfg (h_node h) in
  Shutdown.start (bool_decide (Node.cIngress c <> ""%string)) (length (Node.order (h_node h)))
    (0 <? Node.ProbeInterval c).
(** [ReportLoop]: a round per tick, whatever it returned, over the node as it
    is by then. *)
Fixpoint ReportLoop {W} (srv : Credentials -> Request -> W -> W * Response) (tok : string)
    (ticks : list ((string -> Link) * Node.Node)) (w : W) : W :=
  match ticks with
  | [] => w
  | (link, n) :: ticks => ReportLoop srv tok ticks (ReportOnce srv tok link n w).1
  end.

End HydraMain.

Lemma thread_configs_ids i l tcs : thread_configs i l = Ok tcs ->
  Node.tcID <$> tcs = ftID <$> l /\ ""%string ∉ ftID <$> l.
Proof.
  revert i tcs. induction l as [|t l IH]; intros i tcs; cbn [thread_configs].
  { intros [= <-]. split; [done|]. apply not_elem_of_nil. }
  destruct (decide (ftID t = ""%string)) as [|Hne]; [done|].
  destruct (thread_configs (S i) l) as [rest|] eqn:E; [|done]. cbn. intros [= <-].
  destruct (IH _ _ E) as [Hr Hn]. cbn. rewrite Hr. split; [done|].
  intros [He|He]%elem_of_cons; [by apply Hne|by apply Hn].
Qed.
(** [New] takes the threads in the file's order, each once. *)
Lemma addThreads_order env tcs n n' : Node.addThreads env n tcs = Ok n' ->
  (forall id, is_Some (Node.threads n !! id) <-> id ∈ Node.order n) -> NoDup (Node.order n) ->
  Node.order n' = Node.order n ++ (Node.tcID <$> tcs) /\ Node.cfg n' = Node.cfg n /\ NoDup (Node.order n') /\
  (forall id, is_Some (Node.threads n' !! id) <-> id ∈ Node.order n').
Proof.
  revert n. induction tcs as [|tc tcs IH]; intros n; cbn [Node.addThreads].
  { intros [= <-] Hi Hd. rewrite app_nil_r. by split_and!. }
  destruct (decide (Node.tcID tc = ""%string)) as [|Hne]; [done|].
  destruct (Node.threads n !! Node.tcID tc) as [|] eqn:Et; [done|].
  destruct (Node.dial env tc) as [ep|]; [|done]. destruct (AddThread _ _ _) as [eng|]; [|done].
  intros H Hi Hd. assert (Hfresh : Node.tcID tc ∉ Node.order n) by (rewrite <- Hi, Et; by intros []).
  destruct (IH _ H) as (Ho & Hc & Hnd & Hk); cbn [Node.order Node.threads Node.cfg] in *.
  - intros id. rewrite elem_of_app, list_elem_of_singleton, lookup_insert_is_Some'. rewrite Hi. intuition congruence.
  - apply NoDup_app. split_and!; [done| |apply NoDup_singleton].
    intros id Hid ->%list_elem_of_singleton. done.
  - split_and!; [by rewrite Ho, <- app_assoc|done..].
Qed.
Definition same_shape (c c' : Node.Config) : Prop :=
  Node.cThreads c' = Node.cThreads c /\ Node.cIngress c' = Node.cIngress c /\ Node.ProbeInterval c' = Node.ProbeInterval c.
Lemma defaults_keeps c : same_shape c (Node.defaults c).
Proof.
  assert (Ht : forall a b d, same_shape a b -> same_shape b d -> same_shape a d)
    by (unfold same_shape; intuition congruence).
  unfold Node.defaults. set (c1 := if decide (Node.cWeaveID c = _) then _ else c).
  apply (Ht _ c1); [unfold c1; by case_decide|]. clearbody c1. cbv zeta.
  set (c2 := if decide (Node.cAnchor c1 = _) then _ else c1).
  apply (Ht _ c2); [unfold c2; by case_decide|]. clearbody c2. set (c3 := if Node.QueueFrames c2 <=? 0 then _ else c2).
  apply (Ht _ c3); [unfold c3; by case_if|]. clearbody c3. set (c4 := if _ && _ then _ else c3).
  apply (Ht _ c4); [unfold c4; by case_if|]. clearbody c4. by case_if.
Qed.
Lemma NewNode_order env c n : Node.NewNode env c = Ok n ->
  Node.order n = Node.tcID <$> Node.cThreads c /\ NoDup (Node.order n) /\
  (forall id, is_Some (Node.threads n !! id) <-> id ∈ Node.order n) /\ Node.cfg n = Node.defaults c.
Proof.
  unfold Node.NewNode. destruct (defaults_keeps c) as [Hc _].
  set (c' := Node.defaults c) in *. clearbody c'. rewrite Hc. destruct (Node.cThreads c) as [|t0 l] eqn:El; [done|]. rewrite <- El.
  case_match; [done|]. destruct (Node.addThreads _ _ _) as [n1|] eqn:Ea; [|done].
  apply addThreads_order in Ea as (Ho & Hcf & Hd & Hk); cbn in *; [| |by apply NoDup_nil_2].
  2: { intros id. rewrite lookup_empty, elem_of_nil. split; [by intros []|done]. }
  destruct (CreateWeave _ _ _ _ _) as [[eng w]|]; [|done]. case_match; [done|]. intros [= <-]. cbn. by split_and!.
Qed.

(** fairwave-hydra runs the node its file describes, or says why not.  When it
    runs, the threads are those of the file, in its order, no two with one
    name and none without; the loops are a reader and a writer for each, the
    ingress loop exactly if the file names an ingress, the prober exactly if
    it has a positive interval; it reports exactly if the file has a
    controller, at a positive interval; and in every state the node then
    reaches, its queues are accounted for. *)
Theorem hydra_main_runs read yaml ParseDuration configPath env h fc :
  LoadFile read yaml configPath = Ok fc -> fcQueueFrames fc <= 2 ^ 32 ->
  hydra_main read yaml ParseDuration false configPath env = Runs h ->
  Node.order (h_node h) = ftID <$> fcThreads fc /\ NoDup (ftID <$> fcThreads fc) /\ ""%string ∉ ftID <$> fcThreads fc /\
  (exists interval, duration_of ParseDuration ErrProbeInterval (fcProbeInterval fc) = Ok interval /\
     goroutines h = Shutdown.start (bool_decide (fcIngress fc <> ""%string)) (length (fcThreads fc)) (0 <? interval)) /\
  (is_Some (h_report h) <-> fcReport fc <> ""%string) /\
  (forall base tok d, h_report h = Some (base, tok, d) -> base = fcReport fc /\ tok = fcToken fc /\ 0 < d) /\
  (forall s, Node.reachable (Node.mkState (h_node h) None) s -> Node.node_inv s).
Proof.
  intros Hl Hq. unfold hydra_main. destruct (decide (configPath = ""%string)) as [|_]; [done|]. rewrite Hl.
  destruct (FileConfig_Config ParseDuration fc) as [cfg|] eqn:Ec; [|done].
  destruct (Node.NewNode env cfg) as [n|] eqn:En; [|done]. intros [= <-]. cbn [h_node h_report].
  unfold FileConfig_Config in Ec. destruct (fcThreads fc) as [|t0 l] eqn:Ef; [done|]. rewrite <- Ef in *.
  destruct (duration_of _ ErrProbeInterval _) as [interval|] eqn:Ei; [|done]. cbn in Ec.
  destruct (duration_of _ ErrProbeTimeout _) as [timeout|] eqn:Eto; [|done]. cbn in Ec.
  destruct (thread_configs 0 (fcThreads fc)) as [tcs|] eqn:Et; [|done]. injection Ec as <-.
  destruct (thread_configs_ids _ _ _ Et) as [Hids Hne].
  destruct (NewNode_order _ _ _ En) as (Ho & Hd & _ & Hc). cbn [Node.cThreads] in Ho. rewrite Hids in Ho.
  split; [done|]. split; [by rewrite <- Ho|]. split; [done|]. split; [|split; [|split]].
  - exists interval. split; [done|]. unfold goroutines. cbn [h_node]. rewrite Hc, Ho, length_fmap.
    match goal with |- context [Node.defaults ?c] => destruct (defaults_keeps c) as (_ & -> & ->) end. done.
  - destruct (decide (fcReport fc = ""%string)); split; [by intros []|done|done|eauto].
  - intros base tok d. destruct (decide (fcReport fc = ""%string)); [done|]. intros [= <- <- <-]. split_and!; [done..|].
    unfold ResolveReportInterval. repeat case_match; cbn; try lia; by vm_compute.
  - intros s Hs. eapply Node.reachable_inv, Hs. by eapply Node.NewNode_inv, En.
Qed.

(** ** fairwave-agent *)
(** The flags; [hostname] is what the system says. *)
Record AgentFlags := mkAgentFlags {
  fControl : string; fNodeID : string; fToken : string; fInterval : Z; fDataDir : string; fEnableRF : bool;
}.
Definition agent_config (f : AgentFlags) (hostname : string) : Agent.Config :=
  Agent.New (Agent.mkConfig (fControl f) (if decide (fNodeID f = ""%string) then hostname else fNodeID f) (fToken f)
    (fInterval f) (fDataDir f) (fEnableRF f) "" "").
(** What happens until the signal: a touch of the watchdog file, with whether
    the directory and the file can be written and the time as text, or a
    heartbeat. *)
Inductive Beat := Touch (mkdir_ok write_ok : bool) (text : string) | Round (b : Box) (l : Link).
Record AgentState (W : Type) := mkAgentState { a_files : gmap string string; a_last : option NodeHealth; a_world : W }.
Arguments mkAgentState {W}. Arguments a_files {W}. Arguments a_last {W}. Arguments a_world {W}.
Section AgentMain.
Context {W : Type} (srv : Credentials -> Request -> W -> W * Response).
Definition beat_ (cfg : Agent.Config) (s : AgentState W) (e : Beat) : AgentState W :=
  match e with
  | Touch m wr t => {| s with a_files := (TouchWatchdog cfg m wr t (a_files s)).1 |}
  | Round b l =>
      let h := collect cfg b in
      mkAgentState (a_files s) (Some h) (send srv cfg h l (a_world s)).1
  end.
(** The watchdog's loop makes its own ticker of the flag: a ticker of no
    positive interval panics, before the first touch. *)
Inductive AgentEnd := Panicked | Stopped (s : AgentState W).
Definition agent_main (f : AgentFlags) (hostname : string) (events : list Beat) (s : AgentState W) : AgentEnd :=
  if fInterval f <=? 0 then Panicked else Stopped (foldl (beat_ (agent_config f hostname)) s events).

Definition touches (l : list Beat) : list (bool * bool * string) :=
  omap (fun e => match e with Touch m wr t => Some (m, wr, t) | Round _ _ => None end) l.
Definition rounds (l : list Beat) : list (Box * Link) :=
  omap (fun e => match e with Round b l => Some (b, l) | Touch _ _ _ => None end) l.
(** The two loops meet nowhere: whatever their order, the files are those of
    the touches, and the control plane and the last heartbeat those of
    [Agent.Run] on the rounds.  A non-positive interval, which [New] replaces
    for the heartbeats, ends the agent. *)
Theorem agent_loops_apart f hostname events s : 
  let cfg := agent_config f hostname in
  match agent_main f hostname events s with
  | Panicked => fInterval f <= 0 /\ Interval cfg = 10 * Second
  | Stopped s' =>
      Interval cfg = fInterval f /\
      a_files s' = foldl (fun files t => (TouchWatchdog cfg t.1.1 t.1.2 t.2 files).1) (a_files s) (touches events) /\
      (a_world s', a_last s') = Agent.Run srv cfg (rounds events) (a_last s) (a_world s)
  end.
Proof.
  intros cfg. unfold agent_main, cfg, agent_config, Agent.New. cbn [Interval].
  destruct (Z.leb_spec (fInterval f) 0); [done|]. set (c := Agent.mkConfig _ _ _ _ _ _ _ _). split; [done|].
  revert s. induction events as [|[m wr t|b l] events IH]; intros s; [done|..]; cbn [foldl touches rounds omap list_omap].
  - destruct (IH (beat_ c s (Touch m wr t))) as [Hf Hr]. split; [exact Hf|exact Hr].
  - cbn [Agent.Run]. cbv zeta. destruct (send srv c (collect c b) l (a_world s)) as [w e] eqn:E.
    assert (Eb : beat_ c s (Round b l) = mkAgentState (a_files s) (Some (collect c b)) w)
      by (unfold beat_; cbv zeta; by rewrite E).
    rewrite Eb. exact (IH (mkAgentState (a_files s) (Some (collect c b)) w)).
Qed.
End AgentMain.

(** ** Witness *)
Definition demo_file : FileConfig :=
  mkFileConfig "edge" "w" "hub" "127.0.0.1:9" "" "2s" "" 0 0 "http://hub:8080" "secret" ""
    [mkFileThread "a" ":1" "h:1" (f64_of_Z 10); mkFileThread "b" ":2" "h:2" (f64_of_Z 20)].
Definition demo_durations (s : string) : option Z := if decide (s = "2s"%string) then Some (2 * Second) else None.
Lemma hydra_main_runs_witness : exists h,
  hydra_main (fun _ => Some []) (fun _ => Some demo_file) demo_durations false "hydra.yaml" Node.demo_env = Runs h /\
  Node.order (h_node h) = ["a"; "b"]%string /\ goroutines h = Shutdown.start true 2 true.
Proof.
  assert (Hr : match hydra_main (fun _ => Some []) (fun _ => Some demo_file) demo_durations false "hydra.yaml" Node.demo_env with
    | Runs _ => true | _ => false end = true) by (vm_compute; reflexivity).
  destruct (hydra_main _ _ _ _ _ _) as [| |h] eqn:E; [discriminate|discriminate|]. exists h. split; [reflexivity|].
  destruct (hydra_main_runs (fun _ => Some []) (fun _ => Some demo_file) demo_durations "hydra.yaml" Node.demo_env h demo_file
    eq_refl ltac:(vm_compute; discriminate) E) as (Ho & _ & _ & (i & Hi & Hg) & _).
  split; [exact Ho|]. rewrite Hg. cbn in Hi. injection Hi as <-. reflexivity.
Defined.
