(* ===== verification/Reports.v ===== *)
(** * Reports: what the server tells operators and regulators

    [core/fairwave-control/internal/api]: the compliance export of [ops.go],
    the event stream of [events.go] and the gauges of [server.go]; the
    export is fetched by the command line over the authenticated raw route
    and read back. *)
From stdpp Require Import pretty.
From S2P Require Import Prelude.
From S2P Require Import Float64.
From S2P Require Import Paths.
From S2P Require Import Encoding.
From S2P Require Import Csv.
From S2P Require Import Bearer.
From S2P Require Import Anchor.
From S2P Require Import Fabric.
From S2P Require Import EsimCrypto.
From S2P Require Import EsimRegistry.
From S2P Require Import Spectrum.
From S2P Require Import Config.
From S2P Require Import Api.
From S2P Require Import Store.
From S2P Require Import Control.
From S2P Require Import Routes.
From S2P Require Import ControlFacts.
From S2P Require Import Cli.
From S2P Require Import CliFacts.

Section Reports.
Context {H : Type} `{!Writer H} `{!Format} (env : Env) (cfg : ControlConfig).
Context (adminTok node_id version : string).
Abbreviation Handler A := (M H Response A).

(** ** The compliance export *)
Local Open Scope string_scope.
Definition audit_header : list string := ["ts"; "principal"; "action"; "target"; "detail"].
Definition audit_row (e : AuditEntry) : list string := [rfc3339 (aTS e); Principal e; Action e; Target e; Detail e].
Definition count_status (l : list SIM) (st : string) : string :=
  pretty (zlen (base.filter (fun s => SStatus s = st) l)).
Definition is_tx (e : AuditEntry) : bool := HasPrefix (Action e) "tx_".
Definition compliance_rows (now : time) (w : World H) : list (list string) :=
  let sims := sims_of w in
  [["fairwave compliance report"; "generated"; rfc3339 now; "node"; node_id];
   ["mode"; Mode cfg; "country"; Country cfg; "tx_armed"; fmt_bool (armed w)];
   [];
   ["sims_total"; pretty (zlen sims); "issued"; count_status sims "issued"; "active"; count_status sims "active";
    "suspended"; count_status sims "suspended"; "revoked"; count_status sims "revoked";
    "expired"; count_status sims "expired"];
   [];
   ["--- TX arm history (audit) ---"];
   audit_header] ++
  (audit_row <$> base.filter (fun e => is_tx e = true) (ListAudit (store w))) ++
  [[]; ["--- full audit trail ---"]; audit_header] ++
  (audit_row <$> ListAudit (store w)).
Definition handleComplianceExport : Handler string :=
  now ← now_ env; gets (fun w => WriteAll (compliance_rows now w)).
Local Close Scope string_scope.
(** The export behind the authentication of every route: status and body;
    [error_text] is the JSON of an error. *)
Definition serve_compliance (error_text : string -> string) (c : Credentials) (w : World H)
    : World H * (Z * string) :=
  let m : Handler string :=
    who ← authenticate env adminTok c;
    match authorize who.1 GET "/v1/compliance/export" with
    | Some _ => fail (err 403 "forbidden")
    | None => handleComplianceExport
    end in
  match m w with
  | (w, Ok text) => (w, (200, text))
  | (w, Err x) => (w, (status_ x, error_text (match payload_ x with PErr code => code | _ => ""%string end)))
  end.

(** ** The event stream *)
Record snapshotEvent := mkSnapshot {
  seNow : time; seVersion : string; seMode : string; sePhase : LifecyclePhase; seTxArmed : bool;
  seNodes : Z; seSIMs : Z; seSessions : Z; sePeers : Z; seAlerts : Z; seCritical : Z; seUpNodes : Z;
  seBytesUp : Z; seBytesDn : Z; seUptimeSec : option Z;
}.
(** [Duration.Seconds], truncated. *)
Definition Seconds (d : Z) : f64 :=
  fadd (f64_of_Z (Z.quot d Second)) (fdiv (f64_of_Z (Z.rem d Second)) (f64_of_Z Second)).
Definition is_critical (a : Alert) : bool :=
  match Severity a with AlertCritical => true | _ => false end.
Definition buildSnapshot (started : time) : Handler snapshotEvent :=
  ns ← ranged env nodes_of;
  now ← now_ env;
  w ← gets id;
  t ← now_ env;
  let fresh h := time_sub now (hTS h) <=? stale_after cfg in
  mret {|
    seNow := now; seVersion := version; seMode := Mode cfg;
    sePhase := match ns with n :: _ => nPhase n | [] => PhaseProvision end;
    seTxArmed := armed w; seNodes := zlen (nodes_of w); seSIMs := zlen (sims_of w);
    seSessions := zlen (ListSessions (store w)); sePeers := zlen (values (peers (mem (store w))));
    seAlerts := zlen (ActiveAlerts (store w));
    seCritical := zlen (base.filter (fun a => is_critical a = true) (ActiveAlerts (store w)));
    seUpNodes := zlen (base.filter (fun h => fresh h = true) (health_of w));
    seBytesUp := u64_sum (BytesUp <$> ListSessions (store w));
    seBytesDn := u64_sum (BytesDn <$> ListSessions (store w));
    seUptimeSec := f64_trunc (Seconds (time_sub t started));
  |}.
(** The interval of a stream: the query's, kept between a second and a
    minute, or five seconds. *)
Definition events_interval (ParseDuration : string -> option Z) (q : string) : Z :=
  if decide (q = ""%string) then 5 * Second
  else match ParseDuration q with
       | Some d => let d := if d <? Second then Second else d in if Minute <? d then Minute else d
       | None => 5 * Second
       end.
(** A stream's snapshots: one at once and one per tick, until the context is
    done or a write fails.  [ticks]: per tick whether the context is still
    there; [wrote]: whether the write of the n-th snapshot succeeds. *)
Fixpoint stream (started : time) (wrote : nat -> bool) (n : nat) (ticks : list bool) : Handler (list snapshotEvent) :=
  s ← buildSnapshot started;
  if negb (wrote n) then mret [] else
  match ticks with
  | true :: ticks => l ← stream started wrote (S n) ticks; mret (s :: l)
  | _ => mret [s]
  end.

(** ** The gauges *)
Record Gauges := mkGauges {
  mNodes : f64; mSIMs : f64; mPeers : f64; mSessions : f64; mTxArmed : f64;
  mHydraThreads : f64; mHydraThreadsUp : f64; mHydraWeaves : f64; mHydraAggMbps : f64;
}.
Definition refreshMetrics : Handler Gauges :=
  ts ← ranged env (fun w => values (reg (hydra w)));
  wo ← ranged env (fun w => values (weaves (hydra w)));
  w ← gets id;
  let hst := Fabric.status (hydra w) ts wo in
  mret (mkGauges (f64_of_Z (zlen (nodes_of w))) (f64_of_Z (zlen (sims_of w)))
    (f64_of_Z (zlen (values (peers (mem (store w)))))) (f64_of_Z (zlen (ListSessions (store w))))
    (if armed w then f64_of_Z 1 else f64_zero)
    (f64_of_Z (Fabric.stThreads hst)) (f64_of_Z (stThreadsUp hst)) (f64_of_Z (Fabric.stWeaves hst))
    (stAggregate hst)).
End Reports.

(** ** The saved export *)
Section Saving.
Context {H : Type} `{!Writer H} `{!Format} (env : Env) (cfg : ControlConfig).
Context (adminTok node_id : string) (error_text : string -> string).
Context (srv : Request -> World H -> World H * Response).
Context (net_error : string) (error_body : string -> option (string * string)) (cl : client).
(** The raw route of the export, with the client's token. *)
Definition raw_routes (method path body : string) (headers : list (string * string)) (w : World H)
    : World H * (Z * string) :=
  if decide (method = "GET"%string /\ path = "/v1/compliance/export"%string)
  then serve_compliance env cfg adminTok node_id error_text (mkCredentials (token cl) false) w
  else (w, (404, error_text "not_found")).
(** Texts a line reader leaves alone. *)
Definition plain_trail (w : World H) : Prop :=
  no_cr node_id /\ no_cr (Config.Mode cfg) /\ no_cr (Country cfg) /\ (forall t, no_cr (rfc3339 t)) /\
  Forall (fun e => Forall no_cr [Principal e; Action e; Target e; Detail e]) (ListAudit (store w)).
Lemma no_cr_bool b : no_cr (fmt_bool b).
Proof. by destruct b. Qed.
Lemma no_cr_pretty_N (x : N) : forall s, no_cr s -> no_cr (pretty_N_go x s).
Proof.
  induction (N.lt_wf_0 x) as [x _ IH]; intros s Hs. destruct (decide (x = 0%N)) as [->|Hx].
  { by rewrite pretty_N_go_0. }
  rewrite pretty_N_go_step by lia. apply IH; [apply N.div_lt; lia|].
  unfold no_cr in *. cbn [has]. rewrite Hs, orb_false_r. unfold pretty_N_char. by repeat case_match.
Qed.
Lemma no_cr_pretty (z : Z) : 0 <= z -> no_cr (pretty z).
Proof.
  intros Hz. destruct z as [|p|p]; [done| |lia]. change (no_cr (pretty (N.pos p))). unfold pretty, pretty_N.
  rewrite decide_False by done. by apply no_cr_pretty_N.
Qed.
Lemma export_readable now w : plain_trail w ->
  ReadAll Any (WriteAll (compliance_rows cfg node_id now w)) =
  Ok (base.filter (fun r => r <> []) (compliance_rows cfg node_id now w)).
Proof.
  intros (Hn & Hm & Hc & Ht & Ha). 
  assert (Hrow : forall l, Forall (fun e => Forall no_cr [Principal e; Action e; Target e; Detail e]) l ->
    Forall (Forall no_cr) (audit_row <$> l)).
  { intros l Hl. apply Forall_fmap. eapply Forall_impl; [exact Hl|]. intros e He. constructor; [apply Ht|exact He]. }
  assert (Hcount : forall st, no_cr (count_status (sims_of w) st)) by (intros st; apply no_cr_pretty, zlen_nonneg).
  apply ReadAll_blanks; unfold compliance_rows; cbv zeta.
  - repeat first [apply Forall_app; split | apply Forall_cons_2 | apply Forall_nil_2];
      try (by left); try (by right); apply Forall_fmap, Forall_true; intros e; by right.
  - repeat first [apply Forall_app; split | apply Forall_cons_2 | apply Forall_nil_2 | apply Hrow | apply Hcount
                 | apply no_cr_bool | apply no_cr_pretty, zlen_nonneg | apply Ht]; try done.
    rewrite Forall_forall in Ha |- *. intros e [_ He]%list_elem_of_filter. by apply Ha.
Qed.

(** The cards of the store in a status. *)
Definition cards_in (w : World H) (st : string) : Z :=
  Z.of_nat (size (base.filter (fun x : string * SIM => SStatus x.2 = st) (sims (mem (store w))))).
Lemma count_cards w st : count_status (sims_of w) st = pretty (cards_in w st).
Proof.
  unfold count_status, cards_in, sims_of, zlen, values. do 2 f_equal.
  induction (sims (mem (store w))) as [|i x m Hi IH] using map_ind.
  - by rewrite map_filter_empty, map_to_list_empty.
  - rewrite map_to_list_insert by done. cbn [fmap list_fmap snd]. rewrite filter_cons. case_decide as Hd.
    + rewrite map_filter_insert_True, map_size_insert_None by (done || by apply map_lookup_filter_None_2; left).
      cbn [length]. by rewrite IH.
    + by rewrite map_filter_insert_not' by (done || by intros y Hy; rewrite Hi in Hy).
Qed.

(** C40: The regulator gets the whole record.  When the server accepts the
    client's token as its administrator's and no text of the report holds a
    carriage return ([plain_trail]), [fairwave compliance] exits 0 and saves a
    file from which a CSV reader gets back exactly: the summary, that is the
    node, the mode, the country, whether transmission is armed, and how many
    cards there are and how many in each status; then the transmission history,
    which is every entry of the audit trail whose action starts with "tx_", and
    the whole trail, each newest first, with every field as it was whatever
    commas, quotes and line feeds it has.  The server is not changed by it. *)
Theorem compliance_saved link fs today out w : link 0%nat = Delivered -> fs 1%nat = true ->
  adminTok <> ""%string -> token cl = adminTok -> plain_trail w ->
  let '(w', printed, r) := exec srv raw_routes link fs 0 (complianceCmd net_error error_body cl today out) w in
  exit_code r = ExitOK /\ store w' = store w /\
  exists path data line, printed = [Saved path data; line] /\
    ReadAll Any data = Ok ((([
      ["fairwave compliance report"; "generated"; rfc3339 (clock env (ticks w)); "node"; node_id];
      ["mode"; Config.Mode cfg; "country"; Country cfg; "tx_armed"; fmt_bool (armed w)];
      ["sims_total"; pretty (Z.of_nat (size (sims (mem (store w)))));
       "issued"; pretty (cards_in w "issued"); "active"; pretty (cards_in w "active");
       "suspended"; pretty (cards_in w "suspended"); "revoked"; pretty (cards_in w "revoked");
       "expired"; pretty (cards_in w "expired")];
      ["--- TX arm history (audit) ---"]; audit_header])%string : list (list string)) ++
      (audit_row <$> base.filter (fun e => is_tx e = true) (ListAudit (store w))) ++
      [["--- full audit trail ---"%string]; audit_header] ++ (audit_row <$> ListAudit (store w))).
Proof.
  intros Hl Hf Hne Ht Hp. unfold complianceCmd, raw. cbn [mbind Cli_bind exec]. rewrite Hl.
  unfold raw_routes at 1. rewrite decide_True by done.
  unfold serve_compliance, authenticate. cbn [bearer]. rewrite Ht, bool_decide_false, bool_decide_true by done.
  cbn [negb andb]. rewrite run_ret_bind. cbn [fst].
  change (authorize RoleAdmin GET "/v1/compliance/export") with (@None Denial). cbv iota.
  unfold handleComplianceExport, now_, next, gets, mbind, M_bind, mret, M_ret. cbn [ticks].
  change (400 <=? 200) with false. cbv iota. set (w1 := {| w with ticks := S (ticks w) |}).
  cbn [Cli_bind write_file exec printf]. rewrite Hf. split; [done|]. split; [done|].
  eexists _, _, _. split; [reflexivity|].
  rewrite export_readable by exact Hp. unfold compliance_rows. cbv zeta. rewrite !count_cards.
  assert (Htot : zlen (sims_of w1) = Z.of_nat (size (sims (mem (store w))))).
  { unfold zlen, sims_of, values. by rewrite length_fmap, length_map_to_list. }
  rewrite Htot.
  assert (Hrows : forall l : list AuditEntry, base.filter (fun r : list string => r <> []) (audit_row <$> l) = audit_row <$> l).
  { intros l. apply filter_id_iff, Forall_fmap, Forall_true. by intros e. }
  rewrite !filter_app, !Hrows. reflexivity.
Qed.
End Saving.

(** ** Witness *)
#[local] Instance line_format : Format := {|
  fmt1 := fun _ => "0.0"; fmt2 := fun _ => "0.00"; quote := fun s => s; rfc3339 := fun t => pretty (Z.to_N t) |}.
Definition logged_world : World NoHSS :=
  demo_world None_ {| empty_store with mem := {| (mem empty_store) with
    Store.audit := [mkAudit "1" 5 "tx_arm" "US/n48" "allowed=true, license=" "admin";
              mkAudit "2" 6 "sim_issue" "x1" ("two" +:+ str lf +:+ "lines") "admin"] |} |}.
Lemma logged_plain : plain_trail Default "hub" logged_world.
Proof.
  unfold plain_trail. repeat split; try done.
  - intros t. change (no_cr (pretty (Z.to_N t))). unfold pretty, pretty_N. case_decide; [done|]. by apply no_cr_pretty_N.
  - vm_compute. repeat constructor.
Qed.
Definition client_ : client := mkClient DefaultControlURL "secret".
Lemma compliance_saved_witness :
  let '(_, printed, r) := exec (fun _ w => (w, mkResponse 500 PEmpty))
    (raw_routes demo_env Default "secret" "hub" (fun c => c) client_) (fun _ => Delivered) (fun _ => true) 0
    (complianceCmd "" (fun _ => None) client_ "today" "") logged_world in
  exit_code r = ExitOK /\ exists path data line, printed = [Saved path data; line].
Proof.
  pose proof (compliance_saved demo_env Default "secret" "hub" (fun c => c) (fun _ w => (w, mkResponse 500 PEmpty))
    "" (fun _ => None) client_ (fun _ => Delivered) (fun _ => true) "today" "" logged_world eq_refl eq_refl
    ltac:(done) eq_refl logged_plain) as Hc.
  destruct (exec _ _ _ _ _ _ _) as [[w' printed] r].
  destruct Hc as (He & _ & path & data & line & Hp & _). split; [exact He|]. by exists path, data, line.
Defined.
