(* ===== verification/Files.v ===== *)
(** * Files: a directory that writes can leave torn

    What [os.WriteFile] and [os.Create] with a later write do to a directory of
    named files, for the components that write a file in place. *)
From S2P Require Import Prelude.

Abbreviation Dir := (gmap string string).
(** The file is emptied before it is written: the write is whole, the file
    cannot be opened, or a part is left. *)
Inductive Write := Whole | Untouched | Part (n : nat).
Definition put (w : Write) (name data : string) (d : Dir) : Dir * bool :=
  match w with
  | Whole => (<[name := data]> d, true)
  | Untouched => (d, false)
  | Part n => (<[name := String.substring 0 n data]> d, false)
  end.
Lemma put_other w name data d other : other <> name -> (put w name data d).1 !! other = d !! other.
Proof. destruct w; cbn; intros H; by rewrite ?lookup_insert_ne by done. Qed.
Lemma put_ok w name data d d' : put w name data d = (d', true) -> d' = <[name := data]> d.
Proof. destruct w; cbn; congruence. Qed.
