(* ===== verification/Identity.v ===== *)
(** * Identity: the node's keys

    [core/fairwave-control/internal/identity]: the key and certificate made once
    and loaded at every later start, the node's identifier, the bootstrap tokens.
    Keys and their PEM texts are a class; the directory is a map of files. *)
From S2P Require Import Prelude.
From S2P Require Import Files.
From S2P Require Import Encoding.
From S2P Require Import Sha256.

(** ** Keys *)
(** Ed25519 keys, their PKCS 8 PEM, and a self-signed certificate of a common
    name, serial number and date. *)
Class KeyFormats := {
  PrivateKey : Type;
  public : PrivateKey -> bytes;
  key_pem : PrivateKey -> string;
  parse_key : string -> option PrivateKey;
  cert_pem : PrivateKey -> string -> Z -> time -> string;
  parse_cert : string -> option string;
  sign : PrivateKey -> bytes -> bytes;
  verify : bytes -> bytes -> bytes -> bool;
  parse_key_pem : forall k, parse_key (key_pem k) = Some k;
  parse_cert_pem : forall k cn n t, parse_cert (cert_pem k cn n t) = Some cn;
}.

Section Identity.
Context `{!KeyFormats}.
Record Identity := mkIdentity {
  PrivKey : PrivateKey; CertPEM : string; Cert : option string; id_ID : string;
}.
Inductive Error := ErrCorrupt | ErrMkdir | ErrGenerate | ErrCertificate | ErrWrite.
(** What the system answers: whether an existing file can be read, the
    directory made; the key drawn, the serial number and the clock; whether
    the certificate and the key can be encoded; the writes. *)
Record Env := mkEnv {
  can_read : string -> bool; mkdir_ok : bool; drawn : option PrivateKey; serial : Z; now_at : time;
  cert_ok : bool; encode_ok : bool; writes : string -> Write;
}.
Definition ReadFile (e : Env) (name : string) (d : Dir) : option string :=
  if can_read e name then d !! name else None.
Definition ShortID (pub : bytes) : string := HexEncode (take 6 (Sum256 pub)).
Definition LoadOrCreate (e : Env) (d : Dir) : Dir * res Error Identity :=
  match ReadFile e "node.key" d with
  | Some data =>
      match parse_key data with
      | None => (d, Err ErrCorrupt)
      | Some k =>
          let crt := ReadFile e "node.crt" d in
          (d, Ok (mkIdentity k (default "" crt) (crt ≫= parse_cert) (ShortID (public k))))
      end
  | None =>
      if negb (mkdir_ok e) then (d, Err ErrMkdir) else
      match drawn e with
      | None => (d, Err ErrGenerate)
      | Some k =>
          let id := ShortID (public k) in
          let cn := "fairwave-node-" +:+ id in
          if negb (cert_ok e) then (d, Err ErrCertificate) else
          let crt := cert_pem k cn (serial e) (now_at e) in
          if negb (encode_ok e) then (d, Err ErrCertificate) else
          let '(d, ok) := put (writes e "node.key") "node.key" (key_pem k) d in
          if negb ok then (d, Err ErrWrite) else
          let '(d, ok) := put (writes e "node.crt") "node.crt" crt d in
          if negb ok then (d, Err ErrWrite)
          else (d, Ok (mkIdentity k crt (Some cn) id))
      end
  end.
Definition Sign (i : Identity) (data : bytes) : bytes := sign (PrivKey i) data.
Definition Verify (pub data sig : bytes) : bool := verify pub data sig.
Definition GenerateBootstrapToken (rnd : option bytes) : option string := HexEncode <$> rnd.

(** ** An identity is kept *)
(** A directory with the whole key of an identity. *)
Definition holds (d : Dir) (k : PrivateKey) : Prop := (d !! "node.key"%string ≫= parse_key) = Some k.
Lemma load_held e d k : can_read e "node.key" = true -> holds d k -> exists i,
  LoadOrCreate e d = (d, Ok i) /\ PrivKey i = k /\ id_ID i = ShortID (public k) /\
  CertPEM i = default "" (ReadFile e "node.crt" d).
Proof.
  intros Hr Hk. unfold LoadOrCreate, ReadFile at 1. rewrite Hr. unfold holds in Hk.
  destruct (d !! _) as [data|]; [|done]. cbn in Hk. rewrite Hk. by eexists.
Qed.
(** A start over the directory that earlier starts left. *)
Fixpoint starts (l : list Env) (d : Dir) : Dir * list (res Error Identity) :=
  match l with
  | [] => (d, [])
  | e :: l => let '(d, r) := LoadOrCreate e d in let '(d, rs) := starts l d in (d, r :: rs)
  end.
Lemma starts_held l k : Forall (fun e => can_read e "node.key" = true) l -> forall d, holds d k ->
  (starts l d).1 = d /\
  Forall (fun r => exists i, r = Ok i /\ PrivKey i = k /\ id_ID i = ShortID (public k)) (starts l d).2.
Proof.
  induction 1 as [|e l He Hl IH]; intros d Hd; cbn [starts]; [done|].
  destruct (load_held e d k He Hd) as (i & -> & Hk & Hi & _). destruct (IH d Hd) as [E HF].
  destruct (starts l d) as [d' rs]. cbn [fst snd] in *. split; [done|]. constructor; [by exists i|done].
Qed.
(** What a first start leaves. *)
Lemma create_holds e d d' r : d !! "node.key"%string = None -> LoadOrCreate e d = (d', r) ->
  match r with
  | Ok i => d' !! "node.key"%string = Some (key_pem (PrivKey i)) /\ id_ID i = ShortID (public (PrivKey i)) /\
            d' !! "node.crt"%string = Some (CertPEM i) /\ Cert i = Some ("fairwave-node-" +:+ id_ID i)%string /\ parse_cert (CertPEM i) = Cert i
  | Err _ => d' !! "node.key"%string = None \/ (exists k, drawn e = Some k /\ holds d' k) \/
             exists n k, drawn e = Some k /\ d' !! "node.key"%string = Some (String.substring 0 n (key_pem k))
  end.
Proof.
  intros Hd. unfold LoadOrCreate, ReadFile. rewrite Hd. destruct (can_read e "node.key").
  1, 2: destruct (mkdir_ok e); cbn [negb]; [|intros [= <- <-]; by left].
  1, 2: destruct (drawn e) as [k|]; [|intros [= <- <-]; by left].
  1, 2: destruct (cert_ok e); cbn [negb]; [|intros [= <- <-]; by left].
  1, 2: destruct (encode_ok e); cbn [negb]; [|intros [= <- <-]; by left].
  1, 2: destruct (writes e "node.key") as [| |n]; cbn [put negb];
    [|intros [= <- <-]; by left|intros [= <- <-]; right; right; exists n, k; by rewrite lookup_insert_eq].
  1, 2: destruct (writes e "node.crt") as [| |n]; cbn [put negb]; intros [= <- <-]; unfold holds; cbn;
    rewrite ?parse_cert_pem, ?lookup_insert_eq, ?lookup_insert_ne, ?lookup_insert_eq by done; try done;
    right; left; exists k; rewrite ?lookup_insert_ne, ?lookup_insert_eq by done; cbn; by rewrite ?parse_key_pem.
Qed.
(** Whether it was loaded or made, an identity's key is in the directory. *)
Lemma LoadOrCreate_holds e d d' i : LoadOrCreate e d = (d', Ok i) ->
  holds d' (PrivKey i) /\ id_ID i = ShortID (public (PrivKey i)).
Proof.
  unfold LoadOrCreate. destruct (ReadFile e "node.key" d) as [data|] eqn:E.
  - unfold ReadFile in E. destruct (can_read e "node.key"); [|done].
    destruct (parse_key data) as [k|] eqn:Ek; [|done]. intros [= <- <-]. split; [|done]. unfold holds. by rewrite E.
  - destruct (mkdir_ok e); [|done]. destruct (drawn e) as [k|]; [|done]. destruct (cert_ok e), (encode_ok e); try done.
    destruct (put _ _ _ d) as [d1 [|]] eqn:P1; [|done]. destruct (put _ _ _ d1) as [d2 [|]] eqn:P2; [|done].
    apply put_ok in P1, P2. cbn [negb]. intros [= <- <-]. subst. split; [|done]. unfold holds.
    rewrite lookup_insert_ne, lookup_insert_eq by done. cbn. apply parse_key_pem.
Qed.

(** A node keeps its identity.  Take a first start that succeeds on a
    directory with no key.  Whatever later starts draw, encode or fail to
    write, as long as each can read the key file: every one of them has the
    key and the identifier of the first, and the directory is as the first
    left it, so that a start that can read the certificate too has the very
    identity. *)
Theorem identity_kept e d d1 i l : d !! "node.key"%string = None -> LoadOrCreate e d = (d1, Ok i) ->
  Forall (fun e => can_read e "node.key" = true) l ->
  let '(d2, rs) := starts l d1 in
  d2 = d1 /\
  Forall (fun r => exists j, r = Ok j /\ PrivKey j = PrivKey i /\ id_ID j = id_ID i) rs /\
  forall e', can_read e' "node.key" = true -> can_read e' "node.crt" = true -> LoadOrCreate e' d2 = (d2, Ok i).
Proof.
  intros Hd Hc Hl. destruct (create_holds e d d1 _ Hd Hc) as (Hk & Hid & Hcrt & _ & Hcn).
  assert (Hh : holds d1 (PrivKey i)) by (unfold holds; rewrite Hk; apply parse_key_pem).
  destruct (starts_held l (PrivKey i) Hl d1 Hh) as [E HF]. destruct (starts l d1) as [d2 rs]. cbn [fst snd] in *. subst d2.
  split; [done|]. split.
  { eapply Forall_impl; [exact HF|]. cbn. intros r (j & -> & ? & ?). exists j. by rewrite Hid. }
  intros e' R1 R2. unfold LoadOrCreate, ReadFile. rewrite R1, R2, Hk, Hcrt, parse_key_pem. cbn.
  rewrite <- Hid, Hcn. by destruct i.
Qed.
End Identity.

(** ** Two keys to try it with *)
#[local] Instance two_keys : KeyFormats := {
  PrivateKey := bool;
  public k := [if k then 1 else 2];
  key_pem k := if k then "KEY 1." else "KEY 2.";
  parse_key s := if String.eqb s "KEY 1." then Some true else if String.eqb s "KEY 2." then Some false else None;
  cert_pem k cn n t := "." +:+ cn;
  parse_cert s := match s with String _ cn => Some cn | EmptyString => None end;
  sign k data := data;
  verify pub data sig := bool_decide (data = sig);
  parse_key_pem k := match k with true => eq_refl | false => eq_refl end;
  parse_cert_pem k cn n t := eq_refl;
}.
Definition draws (k : bool) (w : string -> Write) : Env := mkEnv (fun _ => true) true (Some k) 5 0 true true w.
Definition whole (_ : string) : Write := Whole.
Definition blind (k : bool) : Env := mkEnv (fun _ => false) true (Some k) 5 0 true true whole.
Lemma identity_kept_witness :
  let d1 := (LoadOrCreate (draws true whole) ∅).1 in
  exists i, LoadOrCreate (draws true whole) ∅ = (d1, Ok i) /\
  let '(d2, rs) := starts [draws false whole; draws false (fun _ => Part 0)] d1 in
  d2 = d1 /\ Forall (fun r => exists j, r = Ok j /\ PrivKey j = PrivKey i /\ id_ID j = id_ID i) rs /\
  LoadOrCreate (draws false whole) d2 = (d2, Ok i).
Proof.
  pose (k := fst (LoadOrCreate (draws true whole) ∅)).
  pose (i := mkIdentity true (cert_pem true ("fairwave-node-" +:+ ShortID (public true)) 5 0)
               (Some ("fairwave-node-" +:+ ShortID (public true))) (ShortID (public true))).
  exists i. assert (E : LoadOrCreate (draws true whole) ∅ = (k, Ok i)) by reflexivity.
  split; [exact E|].
  destruct (identity_kept (draws true whole) ∅ k i [draws false whole; draws false (fun _ => Part 0)]) as (A & B & D);
    [reflexivity|exact E|by repeat constructor|].
  split; [exact A|]. split; [exact B|]. by apply D.
Defined.
(** The key is written and then the certificate is not: that start fails, and
    every later one goes without a certificate; none makes one. *)
Example certificate_never_made :
  let '(d, r) := LoadOrCreate (draws true (fun n => if String.eqb n "node.crt" then Untouched else Whole)) ∅ in
  r = Err ErrWrite /\
  forall w, LoadOrCreate (draws false w) d = (d, Ok (mkIdentity true "" None (ShortID [1]))).
Proof. split; reflexivity. Qed.
(** A start that may not read the key draws another over it. *)
Example unreadable_key_replaced :
  let d := (LoadOrCreate (draws true whole) ∅).1 in
  (LoadOrCreate (blind false) d).1 !! "node.key"%string = Some (key_pem false).
Proof. reflexivity. Qed.
(** A key cut short by a failed write makes every later start fail. *)
Example cut_key_stops_the_node :
  let d := (LoadOrCreate (draws true (fun _ => Part 3)) ∅).1 in
  forall w, LoadOrCreate (draws false w) d = (d, Err ErrCorrupt).
Proof. reflexivity. Qed.
