(* ===== verification/Southbound.v ===== *)
(** * Southbound: the configurations written for the core and the radio

    [core/fairwave-control/internal/southbound]: the Open5GS and srsRAN
    templates, the defaults filled in, the files written and the restart of a
    service.  [text/template] is modelled for the only action the templates
    use, a field: its value is written as it is. *)
From Stdlib Require Import Ascii.
From S2P Require Import Prelude.
From S2P Require Import Files.
From S2P Require Import Encoding.
From S2P Require Import Json.

(** ** Templates *)
(** [Parse] and [Execute]: [None] when an action is not closed or names no
    field of the value.  [f] is the name read so far within an action. *)
Fixpoint Execute (value : string -> option string) (f : option string) (tpl : string) : option string :=
  match f, tpl with
  | None, EmptyString => Some EmptyString
  | None, String "{"%char (String "{"%char (String "."%char rest)) => Execute value (Some EmptyString) rest
  | None, String c rest => String c <$> Execute value None rest
  | Some _, EmptyString => None
  | Some f, String "}"%char (String "}"%char rest) =>
      v ← value f; (fun t => v +:+ t)%string <$> Execute value None rest
  | Some f, String c rest => Execute value (Some (f +:+ String c EmptyString)%string) rest
  end.

Record Open5GSConfig := mkOpen5GSConfig {
  MCC : string; MNC : string; TAC : Z; APNs : list string; UE : string;
  DNS1 : string; DNS2 : string; MMEGTPC : string; Mongo : string;
}.
Definition open5gsTpl : string := "# Generated by fairwave-control - DO NOT EDIT BY HAND.
# Template: core/open5gs/open5gs.yaml
global:
  max:
    ue: 1024

mme:
  gtpc:
    addr: {{.MMEGTPC}}
  s1ap:
    addr: 0.0.0.0

sgw:
  gtpc:
    addr: 127.0.0.1
  gtpu:
    addr: 127.0.0.1

pgw:
  gtpc:
    addr: 127.0.0.1
  gtpu:
    addr: 127.0.0.1
  ue_pool:
    - {{.UE}}
  apn:
    - 8.8.8.8/8
    - 1.1.1.1/8
  dns:
    - {{.DNS1}}
    - {{.DNS2}}

hss:
  db:
    uri: {{.Mongo}}
    name: open5gs

pcrf:
  gtpc:
    addr: 127.0.0.1

parameters:
  max:
    ue: 1024
".
Definition open5gs_fields (cfg : Open5GSConfig) (f : string) : option string :=
  match f with
  | "MCC" => Some (MCC cfg) | "MNC" => Some (MNC cfg) | "TAC" => Some (Itoa (TAC cfg)) | "UE" => Some (UE cfg)
  | "DNS1" => Some (DNS1 cfg) | "DNS2" => Some (DNS2 cfg)
  | "MMEGTPC" => Some (MMEGTPC cfg) | "Mongo" => Some (Mongo cfg)
  | _ => None
  end%string.
Definition or_else (s default : string) : string := if decide (s = ""%string) then default else s.
Definition open5gs_defaults (cfg : Open5GSConfig) : Open5GSConfig :=
  {| MCC := MCC cfg; MNC := MNC cfg; TAC := TAC cfg; APNs := APNs cfg;
     Mongo := or_else (Mongo cfg) "mongodb://mongo:27017"; MMEGTPC := or_else (MMEGTPC cfg) "127.0.0.1";
     DNS1 := or_else (DNS1 cfg) "8.8.8.8"; DNS2 := or_else (DNS2 cfg) "1.1.1.1";
     UE := or_else (UE cfg) "10.45.0.0/16" |}.

Record SrsranENBConfig := mkSrsranENBConfig {
  enb_MCC : string; enb_MNC : string; enb_TAC : Z; Earfcn : Z; Device : string; RFArgs : string;
  TxGain : Z; RxGain : Z; MMEAddr : string;
}.
Definition enbTpl : string := "# Generated by fairwave-control - lab or licensed RF operation only.
enb:
  enb_id: 0x1
  cell_id: 0x1
  tac: {{.TAC}}
  plmn:
    mcc: {{.MCC}}
    mnc: {{.MNC}}

rf:
  device_name: {{.Device}}
  device_args: {{.RFArgs}}
  tx_gain: {{.TxGain}}
  rx_gain: {{.RxGain}}

pdcp:
  max_ul_bitrate: 100000000
  max_dl_bitrate: 100000000

s1ap:
  mme_addr: {{.MMEAddr}}
".
Definition enb_fields (cfg : SrsranENBConfig) (f : string) : option string :=
  match f with
  | "MCC" => Some (enb_MCC cfg) | "MNC" => Some (enb_MNC cfg) | "TAC" => Some (Itoa (enb_TAC cfg))
  | "Earfcn" => Some (Itoa (Earfcn cfg)) | "Device" => Some (Device cfg) | "RFArgs" => Some (RFArgs cfg)
  | "TxGain" => Some (Itoa (TxGain cfg)) | "RxGain" => Some (Itoa (RxGain cfg))
  | "MMEAddr" => Some (MMEAddr cfg)
  | _ => None
  end%string.
Definition enb_defaults (cfg : SrsranENBConfig) : SrsranENBConfig :=
  {| enb_MCC := enb_MCC cfg; enb_MNC := enb_MNC cfg; enb_TAC := enb_TAC cfg; Earfcn := Earfcn cfg;
     Device := or_else (Device cfg) "zmq"; RFArgs := RFArgs cfg; TxGain := TxGain cfg; RxGain := RxGain cfg;
     MMEAddr := MMEAddr cfg |}.

(** ** Writing the file *)
(** [ErrTemplate]: the template does not parse, or has a field its value lacks. *)
Inductive Error := ErrMkdir | ErrCreate | ErrTemplate | ErrWrite.
(** [Create] empties the file, and the template then writes into it. *)
Definition write_template (mkdir : bool) (w : Write) (name : string) (text : option string) (d : Dir) :
    Dir * res Error string :=
  if negb mkdir then (d, Err ErrMkdir) else
  match text with
  | None => match w with Untouched => (d, Err ErrCreate) | _ => (<[name := ""%string]> d, Err ErrTemplate) end
  | Some t =>
      match w, put w name t d with
      | Untouched, (d, _) => (d, Err ErrCreate)
      | _, (d, true) => (d, Ok name)
      | _, (d, false) => (d, Err ErrWrite)
      end
  end.
Definition open5gs_text (cfg : Open5GSConfig) : option string :=
  Execute (open5gs_fields (open5gs_defaults cfg)) None open5gsTpl.
Definition enb_text (cfg : SrsranENBConfig) : option string :=
  Execute (enb_fields (enb_defaults cfg)) None enbTpl.
Definition RenderOpen5GS (mkdir : bool) (w : Write) (cfg : Open5GSConfig) (d : Dir) : Dir * res Error string :=
  write_template mkdir w "open5gs.yaml" (open5gs_text cfg) d.
Definition RenderENB (mkdir : bool) (w : Write) (cfg : SrsranENBConfig) (d : Dir) : Dir * res Error string :=
  write_template mkdir w "enb.yml" (enb_text cfg) d.

(** ** Restarting a service *)
Inductive RestartError := ErrDriver (driver : string) | ErrRestart (name output : string).
(** [command] runs a program with its arguments: its output, and whether it
    succeeded. *)
Definition RestartService (command : list string -> string * bool) (driver name : string) : option RestartError :=
  if decide (driver = "none"%string) then None else
  let run argv := let '(out, ok) := command argv in if (ok : bool) then None else Some (ErrRestart name out) in
  if decide (driver = "docker"%string) then run ["docker"; "restart"; name]%string
  else if decide (driver = "systemd"%string) then run ["systemctl"; "restart"; name]%string
  else Some (ErrDriver driver).

(** ** What a reader of the file finds *)
Definition nl : Ascii.ascii := chr_ 10.
Fixpoint str_lines (s : string) : list string :=
  match s with
  | EmptyString => []
  | String c s =>
      if Ascii.eqb c nl then EmptyString :: str_lines s
      else match str_lines s with [] => [one c] | l :: ls => String c l :: ls end
  end.
Fixpoint strip (p s : string) : option string :=
  match p, s with
  | EmptyString, _ => Some s
  | String a p, String b s => if Ascii.eqb a b then strip p s else None
  | _, _ => None
  end.
(** The first line [key: value] under the line [section:]; [key] with its
    indentation. *)
Fixpoint setting (section key : string) (inside : bool) (ls : list string) : option string :=
  match ls with
  | [] => None
  | l :: ls =>
      if String.eqb l (section +:+ ":") then setting section key true ls else
      match strip (key +:+ ": ") l with
      | Some v => if inside then Some v else setting section key inside ls
      | None => setting section key inside ls
      end
  end.
Definition one_line (s : string) : bool := all_chars (fun b => negb (b =? 10)) s.

Lemma str_lines_cons x r : one_line x = true -> str_lines (x +:+ String nl r) = x :: str_lines r.
Proof.
  induction x as [|c x IH]; [done|].
  change (negb (ascii_byte c =? 10) && one_line x = true -> str_lines (String c (x +:+ String nl r)) = String c x :: str_lines r).
  intros [Hc Hx]%andb_true_iff. cbn [str_lines]. rewrite (IH Hx).
  destruct (Ascii.eqb_spec c nl) as [->|_]; done.
Qed.
Lemma one_line_app x y : one_line x = true -> one_line y = true -> one_line (x +:+ y) = true.
Proof.
  unfold one_line. induction x as [|c x IH]; [done|]. change (String c x +:+ y) with (String c (x +:+ y)). cbn [all_chars].
  intros [-> Hx]%andb_true_iff Hy. by rewrite IH.
Qed.
Lemma one_line_Itoa z : one_line (Itoa z) = true.
Proof. apply Itoa_chars; [|done]. intros b Hb. apply negb_true_iff, Z.eqb_neq. lia. Qed.
Definition unlines (ls : list string) : string := foldr (fun l t => l +:+ String nl t)%string EmptyString ls.
Lemma str_lines_unlines ls : forallb one_line ls = true -> str_lines (unlines ls) = ls.
Proof.
  induction ls as [|l ls IH]; [done|]. cbn [forallb unlines foldr]. intros [Hl Hls]%andb_true_iff.
  rewrite str_lines_cons by done. f_equal. by apply IH.
Qed.
(** The two templates are well formed and name only fields of their values. *)
Lemma enb_lines cfg : enb_text cfg = Some (unlines [
  "# Generated by fairwave-control - lab or licensed RF operation only."; "enb:"; "  enb_id: 0x1"; "  cell_id: 0x1";
  "  tac: " +:+ Itoa (enb_TAC cfg); "  plmn:"; "    mcc: " +:+ enb_MCC cfg; "    mnc: " +:+ enb_MNC cfg; ""; "rf:";
  "  device_name: " +:+ or_else (Device cfg) "zmq"; "  device_args: " +:+ RFArgs cfg;
  "  tx_gain: " +:+ Itoa (TxGain cfg); "  rx_gain: " +:+ Itoa (RxGain cfg); ""; "pdcp:";
  "  max_ul_bitrate: 100000000"; "  max_dl_bitrate: 100000000"; ""; "s1ap:"; "  mme_addr: " +:+ MMEAddr cfg])%string.
Proof. reflexivity. Qed.
Lemma open5gs_lines cfg : open5gs_text cfg = Some (unlines [
  "# Generated by fairwave-control - DO NOT EDIT BY HAND."; "# Template: core/open5gs/open5gs.yaml"; "global:";
  "  max:"; "    ue: 1024"; ""; "mme:"; "  gtpc:"; "    addr: " +:+ or_else (MMEGTPC cfg) "127.0.0.1"; "  s1ap:";
  "    addr: 0.0.0.0"; ""; "sgw:"; "  gtpc:"; "    addr: 127.0.0.1"; "  gtpu:"; "    addr: 127.0.0.1"; ""; "pgw:";
  "  gtpc:"; "    addr: 127.0.0.1"; "  gtpu:"; "    addr: 127.0.0.1"; "  ue_pool:";
  "    - " +:+ or_else (UE cfg) "10.45.0.0/16"; "  apn:"; "    - 8.8.8.8/8"; "    - 1.1.1.1/8"; "  dns:";
  "    - " +:+ or_else (DNS1 cfg) "8.8.8.8"; "    - " +:+ or_else (DNS2 cfg) "1.1.1.1"; ""; "hss:"; "  db:";
  "    uri: " +:+ or_else (Mongo cfg) "mongodb://mongo:27017"; "    name: open5gs"; ""; "pcrf:"; "  gtpc:";
  "    addr: 127.0.0.1"; ""; "parameters:"; "  max:"; "    ue: 1024"])%string.
Proof. reflexivity. Qed.
(** Neither the network code nor the tracking area nor the APNs reach the core. *)
Lemma open5gs_ignores_plmn cfg mcc mnc tac apns : open5gs_text cfg =
  open5gs_text {| MCC := mcc; MNC := mnc; TAC := tac; APNs := apns; UE := UE cfg; DNS1 := DNS1 cfg;
                  DNS2 := DNS2 cfg; MMEGTPC := MMEGTPC cfg; Mongo := Mongo cfg |}.
Proof. by rewrite !open5gs_lines. Qed.

(** The radio reads back what it was configured with, value by value, when no
    value holds a line feed. *)
Lemma enb_reads_back cfg t : enb_text cfg = Some t ->
  forallb one_line [enb_MCC cfg; enb_MNC cfg; Device cfg; RFArgs cfg; MMEAddr cfg] = true ->
  (fun sk => setting sk.1 sk.2 false (str_lines t)) <$>
    [("enb", "  tac"); ("enb", "    mcc"); ("enb", "    mnc"); ("rf", "  device_name"); ("rf", "  device_args");
     ("rf", "  tx_gain"); ("rf", "  rx_gain"); ("s1ap", "  mme_addr")]%string =
  Some <$> [Itoa (enb_TAC cfg); enb_MCC cfg; enb_MNC cfg; or_else (Device cfg) "zmq"; RFArgs cfg;
            Itoa (TxGain cfg); Itoa (RxGain cfg); MMEAddr cfg]%string.
Proof.
  rewrite enb_lines. intros E. apply (inj Some) in E. subst t. cbn [forallb]. rewrite !andb_true_iff. intros (H1 & H2 & H3 & H4 & H5 & _).
  rewrite str_lines_unlines; [reflexivity|]. cbn [forallb].
  assert (one_line (or_else (Device cfg) "zmq") = true) by (unfold or_else; by case_decide).
  by repeat (rewrite ?andb_true_iff; split);
    rewrite ?one_line_app; auto using one_line_Itoa.
Qed.
(** A line feed in a value adds settings of its own. *)
Example rf_args_injected :
  let cfg := mkSrsranENBConfig "001" "01" 1 100 "uhd" ("x" +:+ String nl "  tx_gain: 90") 10 20 "127.0.0.1" in
  exists t, enb_text cfg = Some t /\ setting "rf" "  tx_gain" false (str_lines t) = Some "90"%string.
Proof. eexists. split; reflexivity. Qed.

(** ** What is left behind *)
(** A rendered file is whole or reported: success means the file holds the
    text, failure names the step, and no other file changes. *)
Lemma write_template_spec mkdir w name text d :
  let '(d', r) := write_template mkdir w name text d in
  (forall n, n <> name -> d' !! n = d !! n) /\
  match r with
  | Ok p => p = name /\ exists t, text = Some t /\ d' !! name = Some t
  | Err ErrMkdir | Err ErrCreate => d' = d
  | Err ErrTemplate => text = None /\ d' !! name = Some ""%string
  | Err ErrWrite => exists t n, text = Some t /\ d' !! name = Some (String.substring 0 n t)
  end.
Proof.
  unfold write_template. destruct mkdir; cbn [negb]; [|done].
  destruct text as [t|], w as [| |n]; cbn; split; try done; intros;
    rewrite ?lookup_insert_ne, ?lookup_insert_eq by done; eauto.
Qed.
(** [Create] comes first: a rendering that fails half way has destroyed the
    configuration the service was running on. *)
Example torn_configuration cfg old :
  (RenderENB true (Part 5) cfg {["enb.yml"%string := old]}).1 !! "enb.yml"%string = Some "# Gen"%string.
Proof. unfold RenderENB. rewrite enb_lines. reflexivity. Qed.
Lemma RestartService_spec command driver name :
  match RestartService command driver name with
  | None => driver = "none"%string \/ exists argv out, command argv = (out, true) /\
      argv = (if decide (driver = "docker") then ["docker"; "restart"; name] else ["systemctl"; "restart"; name])%string
  | Some (ErrDriver d) => d = driver /\ driver ∉ ["none"; "docker"; "systemd"]%string
  | Some (ErrRestart n out) => n = name /\ driver ∈ ["docker"; "systemd"]%string
  end.
Proof.
  unfold RestartService. case_decide as H1; [by left|]. case_decide as H2.
  - destruct (command _) as [out [|]] eqn:E; [right; by eexists _, out|set_solver].
  - case_decide as H3; [|set_solver].
    destruct (command _) as [out [|]] eqn:E; [right; by eexists _, out|set_solver].
Qed.
