(* ===== verification/Boot.v ===== *)
(** * Boot: how a control plane starts

    [core/fairwave-control/cmd/fairwave-control/main.go] up to the listener, and
    what [NewWithOptions] and [newEsimSvc] do there: the configuration, the
    identity, the store, the spectrum registry, the core drivers the
    configuration chooses, the eSIM service, the admin token.  The theorems tie
    the start to the [Restart] of the routes' model, and the chosen drivers to
    what the configuration's validation demands. *)
From stdpp Require Import functions.
From S2P Require Import Prelude.
From S2P Require Import Files.
From S2P Require Identity.
From S2P Require Import Paths.
From S2P Require Import Encoding.
From S2P Require Import Anchor.
From S2P Require Import Profile.
From S2P Require Import EsimCrypto.
From S2P Require EsimRegistry.
From S2P Require Upf.
From S2P Require Cdr.
From S2P Require Collector.
From S2P Require Hss.
From S2P Require Import Spectrum.
From S2P Require Import Config.
From S2P Require Import Api.
From S2P Require Import Store.
From S2P Require Import Control.
From S2P Require Import Routes.
From S2P Require Import ControlFacts.
From S2P Require ControlSafety.

(** ** The core drivers *)
Definition choose_hss (cfg : ControlConfig) : Hss.Driver :=
  Hss.build (HSSDriver cfg) (HSSContainer cfg) (MCC cfg +:+ MNC cfg).

(** A [collector.Source]; the sources of a [Multi] are none of the tap's, which
    has a state. *)
Inductive Source :=
  | SNone | SOpen5GS (mme smf : string) | SFree5GC (amf : string) | SCDR (dir : string)
  | SMulti (l : list Source) | SUPF (iface : string).
(** What answers the collectors: HTTP, the decoders of its bodies, the charging
    function's directory, and whether a raw socket opens on an interface. *)
Record Net := mkNet {
  get : string -> string -> option bytes;
  decode_mme : bytes -> option (list Collector.MmeUE); decode_smf : bytes -> option (list Collector.SmfUE);
  decode_amf : bytes -> option (list Collector.Item);
  list_dir : string -> option (list Cdr.dirEntry); tap_opens : string -> bool;
}.
Definition forget {E A} (r : res E A) : res unit A := match r with Ok a => Ok a | Err _ => Err tt end.
(** A poll of a source other than the tap: its sessions, in some order. *)
Fixpoint poll_ (n : Net) (now : time) (s : Source) : res unit (list Session) :=
  match s with
  | SNone | SUPF _ => Ok []
  | SOpen5GS mme smf =>
      forget (Collector.Open5GS_Poll (get n) (decode_mme n) (decode_smf n) mme smf now)
  | SFree5GC amf => forget (Collector.Free5GC_Poll (get n) (decode_amf n) amf now)
  | SCDR dir => values <$> forget (Cdr.Poll dir (list_dir n dir) now)
  | SMulti l => values <$> Cdr.MultiPoll (map (poll_ n now) l)
  end.
Definition Poll (n : Net) (now : time) (s : Source) (u : Upf.UPF) : Upf.UPF * res unit (list Session) :=
  match s with
  | SUPF iface => let '(u, r) := Upf.Poll (tap_opens n iface) now u in (u, forget r)
  | s => (u, poll_ n now s)
  end.
Definition choose_source (cfg : ControlConfig) : Source :=
  if is_ (Core cfg) "free5gc" && CollectorEnabled cfg then
    if is_ (CDRDir cfg) "" then SFree5GC (AMFOAMURL cfg)
    else SMulti [SFree5GC (AMFOAMURL cfg); SCDR (CDRDir cfg)]
  else if UPFEnabled cfg then SUPF (UPFIface cfg)
  else if CollectorEnabled cfg then SOpen5GS (MMEURL cfg) (SMFURL cfg)
  else SNone.
(** The tap is polled at once: a start without its socket is none. *)
Definition choose_collector (n : Net) (now : time) (cfg : ControlConfig) : option (Source * Upf.UPF) :=
  let s := choose_source cfg in
  match s with
  | SUPF _ =>
      match Poll n now s (Upf.NewUPF false) with
      | (u, Ok _) => Some (s, u)
      | (_, Err _) => None
      end
  | s => Some (s, Upf.NewUPF false)
  end.

(** ** The start *)
Section Boot.
Context {H : Type} `{!Writer H} `{!EsimRegistry.Aead} `{!JsonProfile} `{!Identity.KeyFormats}.

Definition registry_path (cfg : ControlConfig) : string :=
  if decide (RegistryPath cfg = ""%string) then Clean (DataDir cfg +:+ "/esim/registry.json") else RegistryPath cfg.
Definition or_default (s default : string) : string := if decide (s = ""%string) then default else s.
Definition newEsimSvc (e : EsimRegistry.Env) (cfg : ControlConfig) (f : EsimRegistry.File) :
    EsimRegistry.File * option EsimSvc :=
  if negb (ESIMEnabled cfg) then (f, None) else
  let '(f, r) := EsimRegistry.Open e f in
  match r with
  | Err _ => (f, None)
  | Ok reg =>
      (f, Some (mkEsim reg (or_default (SMDPAddress cfg) "fairwave.local:8443") (or_default (SMDPID cfg) "fairwave-esim")
                  (CodeTTL cfg)))
  end.

(** The directories and files of the machine, by path. *)
Record Disks := mkDisks {
  identities : string -> Dir; states : string -> Files;
  registries : string -> EsimRegistry.File; tokenFiles : string -> option string;
}.
(** What a start meets: the environment's variables, the configuration file as
    [Load] reads it, key generation, the store's directory, the overlay, the
    network, random bytes and the write of the token file. *)
Record Machine := mkMachine {
  getenv : string -> option string; load : res ConfigError ControlConfig;
  id_env : Identity.Env; mkdir_ok : bool; overlay : Overlay; net : Net;
  rnd : option bytes; token_write : Write;
}.
Inductive Failure :=
  | FConfig (e : ConfigError) | FIdentity (e : Identity.Error) | FStore | FSpectrum (e : OverlayError) | FTap.
Record Daemon := mkDaemon {
  d_cfg : ControlConfig; d_id : Identity.Identity; d_spectrum : Registry; d_hss : Hss.Driver;
  d_source : Source; d_tap : Upf.UPF; d_token : string; d_world : World H;
}.
Definition Getenv (m : Machine) (k : string) : string := default ""%string (getenv m k).
(** The token file is written when neither the variable nor the file is there. *)
Definition write_token (m : Machine) (cfg : ControlConfig) (path : string) (d : Disks) : Disks :=
  if decide (TrimSpace (Getenv m (AdminTokenEnv cfg)) = ""%string) then
    match tokenFiles d path, rnd m with
    | None, Some buf =>
        let f := (put (token_write m) path (HexEncode buf) ∅).1 !! path in
        {| d with tokenFiles := <[path := f]> (tokenFiles d) |}
    | _, _ => d
    end
  else d.

(** [main]: the outside's state [h], the webhooks [wh] and the effect counter
    [k] are the world's, which goes on without the daemon. *)
Definition boot (m : Machine) (env : Env) (h : H) (wh : list (Alert * bool)) (k : nat) (d : Disks) :
    Disks * res Failure Daemon :=
  match load m with
  | Err e => (d, Err (FConfig e))
  | Ok cfg =>
      let id_path := (DataDir cfg +:+ "/identity")%string in
      let '(dir, id) := Identity.LoadOrCreate (id_env m) (identities d id_path) in
      let d := {| d with identities := <[id_path := dir]> (identities d) |} in
      match id with
      | Err e => (d, Err (FIdentity e))
      | Ok id =>
          match Store.Open (mkdir_ok m) (states d (DataDir cfg +:+ "/state")%string) with
          | None => (d, Err FStore)
          | Some st =>
              match DefaultRegistry (OverlayPath cfg) (overlay m) with
              | Err e => (d, Err (FSpectrum e))
              | Ok reg =>
                  match choose_collector (net m) (clock env k) cfg with
                  | None => (d, Err FTap)
                  | Some (src, tap) =>
                      let r_path := registry_path cfg in
                      let '(f, svc) := newEsimSvc (esim_env env k) cfg (registries d r_path) in
                      let d := {| d with registries := <[r_path := f]> (registries d) |} in
                      let w := NewWithOptions (Getenv m "FAIRWAVE_HYDRA_ANCHOR") (clock env k) st h wh svc (S k) in
                      let t_path := Clean (DataDir cfg +:+ "/admin_token") in
                      let tok := admin_token (Getenv m (AdminTokenEnv cfg)) (tokenFiles d t_path) (rnd m) in
                      let d := write_token m cfg t_path d in
                      (d, Ok (mkDaemon cfg id reg (choose_hss cfg) src tap tok w))
                  end
              end
          end
      end
  end.

(** ** What the configuration's validation is good for *)
Lemma is_spec s t : is_ s t = true <-> s = t.
Proof. apply bool_decide_eq_true. Qed.
Lemma Validate_drivers c : Validate c = None ->
  HSSDriver c ∈ ["none"; "mongosh"; "dbctl"; "free5gc"]%string /\
  (HSSDriver c <> "none"%string -> HSSContainer c <> ""%string) /\
  (Core c = "free5gc"%string -> CollectorEnabled c = true -> AMFOAMURL c <> ""%string) /\
  (Core c <> "free5gc"%string -> CollectorEnabled c = true -> MMEURL c <> ""%string) /\
  (UPFEnabled c = true -> UPFIface c <> ""%string) /\
  slen (MCC c +:+ MNC c) ∈ [5; 6].
Proof.
  unfold Validate. repeat (case_if; [done|]). intros _. rewrite slen_app. unfold is_ in *. zbool.
  rewrite ?orb_true_iff, ?andb_false_iff, ?negb_false_iff, ?Z.eqb_eq, ?bool_decide_eq_true, ?bool_decide_eq_false in *.
  split; [|split; [|split; [|split; [|split]]]].
  - clear - Heqb6. set_solver.
  - clear - Heqb7. tauto.
  - clear - Heqb8. intuition congruence.
  - clear - Heqb11. intuition congruence.
  - clear - Heqb12. intuition congruence.
  - clear - Heqb0 Heqb1. destruct Heqb0 as [_ ->], Heqb1 as [_ [->| ->]]; set_solver.
Qed.
(** The HSS is written exactly when a driver is configured, in a named
    container; free5GC is given the whole network code. *)
Lemma choose_hss_configured c : Validate c = None ->
  match choose_hss c with
  | Hss.DNone => HSSDriver c = "none"%string
  | Hss.DMongosh m => HSSDriver c = "mongosh"%string /\ Hss.mContainer m <> ""%string
  | Hss.DDBCTL container => HSSDriver c = "dbctl"%string /\ container <> ""%string
  | Hss.DFree5GC f =>
      HSSDriver c = "free5gc"%string /\ Hss.fContainer f <> ""%string /\ Hss.PlmnID f = (MCC c +:+ MNC c)%string
  end.
Proof.
  intros Hv. destruct (Validate_drivers c Hv) as (Hd & Hc & _ & _ & _ & Hp). unfold choose_hss, Hss.build, Hss.New.
  assert (MCC c +:+ MNC c <> ""%string) by (intros E; rewrite E in Hp; set_solver).
  rewrite !elem_of_cons, elem_of_nil in Hd.
  destruct Hd as [E|[E|[E|[E|[]]]]]; rewrite E in *; repeat (case_decide; try done); cbn; auto.
  rewrite decide_False by done. auto.
Qed.

(** ** What the collector asks *)
(** Everything the collectors ask is answered, with bodies that decode. *)
Definition answers (n : Net) : Prop :=
  (forall base path, is_Some (get n base path)) /\
  (forall b, is_Some (decode_mme n b)) /\ (forall b, is_Some (decode_smf n b)) /\
  (forall b, is_Some (decode_amf n b)) /\ (forall dir, is_Some (list_dir n dir)).
Lemma Free5GC_polls n now amf : answers n -> amf <> ""%string ->
  exists l, Collector.Free5GC_Poll (get n) (decode_amf n) amf now = Ok l.
Proof.
  intros (Hg & _ & _ & Ha & _) Hu. unfold Collector.Free5GC_Poll, Collector.parse. rewrite decide_False by done.
  destruct (Hg amf "/namf-oam/v1/registered-ue-context"%string) as [b ->]. destruct (Ha b) as [items ->]. eauto.
Qed.
Lemma Open5GS_polls n now mme smf : answers n -> mme <> ""%string ->
  exists l, Collector.Open5GS_Poll (get n) (decode_mme n) (decode_smf n) mme smf now = Ok l.
Proof.
  intros (Hg & Hm & Hs & _) Hu. unfold Collector.Open5GS_Poll, Collector.pollMME, Collector.pollSMFIPs.
  rewrite decide_False by done. destruct (Hg mme "/ue-info"%string) as [b ->]. destruct (Hm b) as [ues ->].
  case_decide; [eauto|]. destruct (Hg smf "/pdu-info"%string) as [b' ->]. destruct (Hs b') as [pdus ->]. eauto.
Qed.
(** A valid configuration's source has the addresses it needs. *)
Lemma choose_source_configured cfg : Validate cfg = None ->
  match choose_source cfg with
  | SNone => True
  | SOpen5GS url _ | SFree5GC url | SUPF url => url <> ""%string
  | SMulti l => exists amf dir, l = [SFree5GC amf; SCDR dir] /\ amf <> ""%string /\ dir <> ""%string
  | SCDR _ => False
  end.
Proof.
  intros Hv. destruct (Validate_drivers cfg Hv) as (_ & _ & Ha & Hm & Hu & _). unfold choose_source.
  destruct (is_ (Core cfg) "free5gc") eqn:E5, (CollectorEnabled cfg); cbn [andb].
  2, 3, 4: destruct (UPFEnabled cfg); auto.
  - apply is_spec in E5. specialize (Ha E5 eq_refl). destruct (is_ (CDRDir cfg) "") eqn:Ed; [done|].
    exists (AMFOAMURL cfg), (CDRDir cfg). split; [done|]. split; [done|]. by apply bool_decide_eq_false in Ed.
  - apply Hm; [|done]. by apply bool_decide_eq_false in E5.
Qed.
(** The drivers a valid configuration chooses lack nothing: when what they ask
    is answered, every poll has a snapshot; the tap, once started, always. *)
Lemma chosen_source_polls n now now' cfg s u : Validate cfg = None -> choose_collector n now cfg = Some (s, u) ->
  answers n -> exists l, (Poll n now' s u).2 = Ok l.
Proof.
  intros Hv Hc Hn. pose proof (choose_source_configured cfg Hv) as Hs. unfold choose_collector in Hc.
  destruct (choose_source cfg) as [|mme smf|amf|dir|l|iface] eqn:E; try (injection Hc as <- <-).
  - by exists [].
  - destruct (Open5GS_polls n now' mme smf Hn Hs) as [l El]. exists l. cbn. by rewrite El.
  - destruct (Free5GC_polls n now' amf Hn Hs) as [l El]. exists l. cbn. by rewrite El.
  - done.
  - destruct Hs as (amf & dir & -> & Ha & Hd). destruct (Free5GC_polls n now' amf Hn Ha) as [l El].
    destruct Hn as (_ & _ & _ & _ & Hl). destruct (Hl dir) as [es Ees]. cbn. rewrite El.
    unfold Cdr.Poll. rewrite decide_False, Ees by done. cbn. eauto.
  - cbn in Hc. unfold Upf.Poll, Upf.start in *. cbn in Hc. destruct (tap_opens n iface); cbn in Hc; [|done].
    injection Hc as <- <-. cbn. eauto.
Qed.

Lemma choose_collector_source n now cfg s u : choose_collector n now cfg = Some (s, u) -> s = choose_source cfg.
Proof.
  unfold choose_collector. destruct (choose_source cfg) as [| | | | |iface]; try (by intros [= <- <-]).
  destruct (Poll n now (SUPF iface) (Upf.NewUPF false)) as [u' [|]]; [by intros [= <- <-]|done].
Qed.
Lemma choose_collector_opens n now cfg : tap_opens n (UPFIface cfg) = true ->
  exists u, choose_collector n now cfg = Some (choose_source cfg, u).
Proof.
  intros Ht. unfold choose_collector. destruct (choose_source cfg) as [| | | | |iface] eqn:E; eauto.
  assert (iface = UPFIface cfg) as -> by (unfold choose_source in E; repeat case_match; simplify_eq; done).
  cbn. unfold Upf.Poll, Upf.start. cbn. rewrite Ht. cbn. eauto.
Qed.

(** ** A start and what it leaves *)
(** A start that fails leaves the stores, the registries and the token as they
    were, and on a bad configuration everything. *)
Lemma boot_failed m env h wh k d d' e : boot m env h wh k d = (d', Err e) ->
  states d' = states d /\ registries d' = registries d /\ tokenFiles d' = tokenFiles d /\
  (forall c, e = FConfig c -> d' = d).
Proof.
  unfold boot. destruct (load m) as [cfg|c]; [|by intros [= <- <-]].
  destruct (Identity.LoadOrCreate _ _) as [dir [id|x]]; [|by intros [= <- <-]].
  destruct (Store.Open _ _); [|by intros [= <- <-]]. destruct (DefaultRegistry _ _); [|by intros [= <- <-]].
  destruct (choose_collector _ _ _) as [[src u]|]; [|by intros [= <- <-]].
  by destruct (newEsimSvc _ _ _).
Qed.
(** The pieces of a start that succeeds. *)
Lemma boot_started m env h wh k d d' dm : boot m env h wh k d = (d', Ok dm) ->
  let cfg := d_cfg dm in
  load m = Ok cfg /\
  (exists dir, Identity.LoadOrCreate (id_env m) (identities d (DataDir cfg +:+ "/identity")%string) = (dir, Ok (d_id dm)) /\
     identities d' (DataDir cfg +:+ "/identity")%string = dir) /\
  DefaultRegistry (OverlayPath cfg) (overlay m) = Ok (d_spectrum dm) /\
  choose_collector (net m) (clock env k) cfg = Some (d_source dm, d_tap dm) /\
  d_hss dm = choose_hss cfg /\
  d_token dm = admin_token (Getenv m (AdminTokenEnv cfg)) (tokenFiles d (Clean (DataDir cfg +:+ "/admin_token"))) (rnd m) /\
  (let '(f, svc) := newEsimSvc (esim_env env k) cfg (registries d (registry_path cfg)) in
   let files := states d (DataDir cfg +:+ "/state")%string in
   registries d' (registry_path cfg) = f /\
   d_world dm = NewWithOptions (Getenv m "FAIRWAVE_HYDRA_ANCHOR") (clock env k) (mkStore (Store.load files) files) h wh svc (S k)) /\
  states d' = states d.
Proof.
  unfold boot. destruct (load m) as [cfg|c] eqn:El; [|done].
  destruct (Identity.LoadOrCreate _ _) as [dir [id|x]] eqn:Ei; [|done].
  unfold Store.Open. destruct (mkdir_ok m); [|done]. destruct (DefaultRegistry _ _) eqn:Er; [|done].
  destruct (choose_collector _ _ _) as [[src u]|] eqn:Ec; [|done].
  cbn [registries]. destruct (newEsimSvc _ _ _) as [f svc] eqn:Es. intros [= <- <-]. cbn [d_cfg d_id d_spectrum d_source d_tap d_hss d_token d_world].
  rewrite Es. split; [done|]. split; [|split; [done|split; [done|split; [done|split; [done|split]]]]].
  - exists dir. split; [done|]. unfold write_token. repeat case_match; cbn; by rewrite fn_lookup_insert.
  - split; [|done]. unfold write_token. repeat case_match; cbn; by rewrite fn_lookup_insert.
  - unfold write_token. by repeat case_match.
Qed.

(** ** A start is the model's restart *)
(** The eSIM service was made from the configuration. *)
Definition wired (cfg : ControlConfig) (w : World H) : Prop := forall svc, esim w = Some svc ->
  ESIMEnabled cfg = true /\ address svc = or_default (SMDPAddress cfg) "fairwave.local:8443" /\
  smdpID svc = or_default (SMDPID cfg) "fairwave-esim" /\ codeTTL svc = CodeTTL cfg.
Lemma newEsimSvc_wired e cfg f : forall svc, (newEsimSvc e cfg f).2 = Some svc ->
  ESIMEnabled cfg = true /\ address svc = or_default (SMDPAddress cfg) "fairwave.local:8443" /\
  smdpID svc = or_default (SMDPID cfg) "fairwave-esim" /\ codeTTL svc = CodeTTL cfg.
Proof.
  intros svc. unfold newEsimSvc. destruct (ESIMEnabled cfg); [|done]. cbn [negb].
  destruct (EsimRegistry.Open e f) as [f' [reg|]]; [|done]. by intros [= <-].
Qed.
Lemma newEsimSvc_reopens env k cfg (w : World H) svc : wired cfg w -> esim w = Some svc ->
  (newEsimSvc (esim_env env k) cfg (EsimRegistry.file (reg_ svc))).2 = reopen_esim env k (Some svc).
Proof.
  intros Hw E. destruct (Hw svc E) as (He & Ha & Hi & Ht). unfold newEsimSvc, reopen_esim. rewrite He. cbn [negb].
  destruct (EsimRegistry.Open _ _) as [f [reg|]]; [|done]. cbn. f_equal. destruct svc. cbn in *. by subst.
Qed.
End Boot.

Section Life.
Context {H : Type} `{!Writer H} `{!BlockCipher} `{!EsimRegistry.Aead} `{!JsonProfile} `{!Identity.KeyFormats} `{!Format}.
Context (env : Env) (version : string) (profileSource : string -> option Subscriber).
(** The daemon serves requests, runs its jobs, and is restarted in between. *)
Definition live (dm : Daemon (H := H)) (l : list Event) : World H :=
  run env (d_cfg dm) (d_token dm) (Identity.id_ID (d_id dm)) version (Some (Check_ (d_spectrum dm))) profileSource (d_world dm) l.

Definition stays_wired cfg (w w' : World H) : Prop := wired cfg w -> wired cfg w'.
#[local] Instance wired_frame cfg : Frame (stays_wired cfg).
Proof.
  split; [split|].
  - by intros w Hw.
  - intros w1 w2 w3 E1 E2 Hw. auto.
  - by intros w n Hw.
Qed.
Lemma set_registry_wired cfg w r : stays_wired cfg w (set_registry r w).
Proof.
  unfold stays_wired, wired, set_registry. intros Hw. destruct (esim w) as [svc0|] eqn:E; cbn; rewrite ?E; [|done].
  intros svc [= <-]. cbn. by apply Hw.
Qed.
Lemma persist_wired cfg (f : bool -> Store -> Store * bool) : keeps (stays_wired cfg) (persist (H := H) env f).
Proof. unfold persist. keep. apply keeps_stored; [exact _|]. by intros ok w ?. Qed.
Lemma audit_wired {E} cfg p a t d : keeps (stays_wired cfg) (audit env p a t d : M H E unit).
Proof. unfold audit. keep. apply keeps_stored; [exact _|]. by intros ok w ?. Qed.
Ltac wired_effect :=
  first [ apply audit_wired
        | apply persist_wired
        | apply keeps_stored; [exact _|by intros ok w ?]
        | apply keeps_hss_Add; by intros w h ?
        | apply keeps_hss_Remove; by intros w h ?
        | apply keeps_engine; by intros w e ?
        | apply keeps_registry; [exact _|apply set_registry_wired]
        | apply keeps_modify; by intros w ? ].
Lemma handle_wired cfg id sp principal r : keeps (stays_wired cfg) (handle env cfg id version sp profileSource principal r).
Proof.
  destruct r; cbn [Routes.handle] in *; unfold_handlers.
  all: repeat (keep; try wired_effect).
Qed.
Lemma job_wired cfg (t : Tick) : keeps (stays_wired cfg) (background (E := unit) env cfg t : M H unit unit).
Proof. destruct t; cbn [background]; unfold_jobs; repeat (keep; try wired_effect). Qed.
Lemma restart_wired cfg anchor w : stays_wired cfg w (restart env anchor w).
Proof.
  intros Hw svc. unfold restart, NewWithOptions. cbn [esim]. unfold reopen_esim.
  destruct (esim w) as [svc0|] eqn:E; [|done]. specialize (Hw svc0 E).
  destruct (EsimRegistry.Open _ _) as [f [r|]]; [|done]. cbn. intros [= <-]. exact Hw.
Qed.
Lemma run_wired cfg tok id sp l : forall w, wired cfg w -> wired cfg (run env cfg tok id version sp profileSource w l).
Proof.
  induction l as [|e l IH]; intros w Hw; [done|]. apply (IH (step env cfg tok id version sp profileSource w e)).
  destruct e as [c r|t|a]; cbn [Routes.step].
  - apply (keeps_serve _ _ _ _ _ _ _ (stays_wired cfg)); [|done]. intros p. apply handle_wired.
  - by apply job_wired.
  - by apply restart_wired.
Qed.
Lemma live_wired m h wh k d d' dm l : boot m env h wh k d = (d', Ok dm) -> wired (d_cfg dm) (live dm l).
Proof.
  intros Hb. apply run_wired. destruct (boot_started m env h wh k d d' dm Hb) as (_ & _ & _ & _ & _ & _ & Hw & _).
  pose proof (newEsimSvc_wired (esim_env env k) (d_cfg dm) (registries d (registry_path (d_cfg dm)))) as Hs.
  destruct (newEsimSvc _ _ _) as [f svc]. destruct Hw as [_ ->]. exact Hs.
Qed.

(** What a daemon in state [w] has on the disks: its store's files, and its
    registry's where it has one. *)
Definition on_disk (cfg : ControlConfig) (w : World H) (d : Disks) : Prop :=
  states d (DataDir cfg +:+ "/state")%string = disk (store w) /\
  forall svc, esim w = Some svc -> registries d (registry_path cfg) = EsimRegistry.file (reg_ svc).

(** C16: A daemon resumes where it stopped.  Start a control plane, let it serve
    and run its jobs, and stop it between two of them; start it again on what it
    has on disk, with the same configuration and spectrum overlay, a key that can
    be read, a data directory that can be made and a tap that opens, whatever
    else the machine would draw or fail to write.  It comes up with the same
    identity, spectrum registry, core drivers and source of sessions, and its
    state is what [Restart] gives in every theorem about the server, but for
    the eSIM service: the tables are the files', the armed flag too, in lab mode
    as in rf.  Where the eSIM service was open it is [Restart]'s too; one that
    had failed to open is tried again. *)
Theorem boot_resumes m h0 wh0 k0 d0 d1 dm l m' d2 :
  boot m env h0 wh0 k0 d0 = (d1, Ok dm) ->
  let cfg := d_cfg dm in
  let w := live dm l in
  on_disk cfg w d2 -> identities d2 = identities d1 ->
  load m' = Ok cfg -> Identity.can_read (id_env m') "node.key" = true -> mkdir_ok m' = true ->
  overlay m' = overlay m -> tap_opens (net m') (UPFIface cfg) = true ->
  exists d3 dm', boot m' env (hss w) (webhooks w) (ticks w) d2 = (d3, Ok dm') /\
    Identity.PrivKey (d_id dm') = Identity.PrivKey (d_id dm) /\ Identity.id_ID (d_id dm') = Identity.id_ID (d_id dm) /\
    d_cfg dm' = cfg /\ d_spectrum dm' = d_spectrum dm /\ d_hss dm' = d_hss dm /\ d_source dm' = d_source dm /\
    d_world dm' = {| (restart env (Getenv m' "FAIRWAVE_HYDRA_ANCHOR") w) with esim := esim (d_world dm') |} /\
    (esim w <> None -> d_world dm' = restart env (Getenv m' "FAIRWAVE_HYDRA_ANCHOR") w) /\
    armed (d_world dm') = default false (f_tx (disk (store w))).
Proof.
  intros Hb cfg w [Hs Hr] Hi Hl Hk Hmk Ho Ht.
  destruct (boot_started m env h0 wh0 k0 d0 d1 dm Hb) as (Hl1 & (dir & Hid & Hdir) & Hreg & Hcol & Hh & _ & _ & _).
  apply Identity.LoadOrCreate_holds in Hid as [Hholds Hname].
  destruct (Identity.load_held (id_env m') (identities d2 (DataDir cfg +:+ "/identity")%string) (Identity.PrivKey (d_id dm)) Hk)
    as (id' & Eid & Kid & Nid & _).
  { rewrite Hi. subst cfg. by rewrite Hdir. }
  destruct (choose_collector_opens (net m') (clock env (ticks w)) cfg Ht) as [u Eu].
  apply choose_collector_source in Hcol.
  set (f := registries d2 (registry_path cfg)).
  pose proof (live_wired m h0 wh0 k0 d0 d1 dm l Hb) as Hw. fold cfg w in Hw.
  pose proof (newEsimSvc_reopens env (ticks w) cfg w) as Hre.
  unfold boot. rewrite Hl, Eid. unfold Store.Open. rewrite Hmk. unfold cfg at 1. rewrite Ho, Hreg, Eu. cbn [registries states].
  rewrite Hs. fold f. destruct (newEsimSvc _ cfg f) as [f' svc'] eqn:Esvc.
  do 2 eexists. split; [reflexivity|]. cbn [d_id d_cfg d_spectrum d_hss d_source d_world].
  rewrite Nid, Hname, Hcol, Hh. do 6 (split; [done|]). split; [done|]. split; [|done].
  intros Hne. destruct (esim w) as [svc|] eqn:E; [|done]. specialize (Hr svc eq_refl). fold f in Hr.
  specialize (Hre svc Hw eq_refl). rewrite <- Hr, Esvc in Hre. cbn [snd] in Hre. unfold restart. by rewrite E, Hre.
Qed.
End Life.

(** ** A box in the field *)
Definition rf : ControlConfig :=
  {| Default with Mode := "rf"; Country := "GB"; MCC := "234"; MNC := "15"; HSSDriver := "free5gc" |}%string.
Definition no_disks : Disks := mkDisks (fun _ => ∅) (fun _ => no_files) (fun _ => EsimRegistry.NotExist) (fun _ => None).
Definition deaf : Net := mkNet (fun _ _ => None) (fun _ => None) (fun _ => None) (fun _ => None) (fun _ => None) (fun _ => true).
#[local] Existing Instance Identity.two_keys.
#[local] Existing Instance EsimRegistry.tag_aead.
Definition machine (cfg : ControlConfig) (key : bool) : Machine :=
  mkMachine (fun _ => None) (match Validate cfg with Some e => Err e | None => Ok cfg end)
    (Identity.draws key Identity.whole) true Missing deaf (Some (replicate 24 7)) Whole.
Definition arming : list Event :=
  [Call (mkCredentials (HexEncode (replicate 24 7)) false) (TxArm (Some ControlSafety.arm_request))].
(** The first start on an empty machine, and what it leaves running. *)
Definition first : Disks * res Failure (Daemon (H := NoHSS)) := boot (machine rf true) demo_env None_ [] 0 no_disks.
Definition saved (d : Disks) (dm : Daemon (H := NoHSS)) (l : list Event) : Disks :=
  let w := live demo_env "dev" (fun _ => None) dm l in
  {| d with states := <[(DataDir (d_cfg dm) +:+ "/state")%string := disk (store w)]> (states d);
            registries := match esim w with
                          | Some svc => <[registry_path (d_cfg dm) := EsimRegistry.file (reg_ svc)]> (registries d)
                          | None => registries d
                          end |}.
Lemma saved_on_disk d dm l : on_disk (d_cfg dm) (live demo_env "dev" (fun _ => None) dm l) (saved d dm l).
Proof.
  split; cbn [saved states registries]; [by rewrite fn_lookup_insert|].
  intros svc ->. by rewrite fn_lookup_insert.
Qed.
Definition holds_after (d : Disks) (dm : Daemon (H := NoHSS)) (cfg : ControlConfig) : bool :=
  let w := live demo_env "dev" (fun _ => None) dm arming in
  match (boot (machine cfg false) demo_env (hss w) (webhooks w) (ticks w) (saved d dm arming)).2 with
  | Ok dm' => armed w && armed (d_world dm') && bool_decide (Mode (d_cfg dm') = Mode cfg)
  | Err _ => false
  end.
(** The administrator arms the box, it stops and starts on a machine that would
    draw another key. *)
Lemma boot_resumes_witness : exists d1 dm, first = (d1, Ok dm) /\
  let w := live demo_env "dev" (fun _ => None) dm arming in
  armed w = true /\
  exists d3 dm', boot (machine rf false) demo_env (hss w) (webhooks w) (ticks w) (saved d1 dm arming) = (d3, Ok dm') /\
    Identity.PrivKey (d_id dm') = Identity.PrivKey (d_id dm) /\ armed (d_world dm') = true.
Proof.
  assert (E : (match first with (d1, Ok dm) => is_ (Mode (d_cfg dm)) "rf" && armed (live demo_env "dev" (fun _ => None) dm arming)
    && bool_decide (f_tx (disk (store (live demo_env "dev" (fun _ => None) dm arming))) = Some true) | _ => false end) = true)
    by (vm_compute; reflexivity).
  destruct first as [d1 [dm|]] eqn:Hb; [|discriminate]. rewrite !andb_true_iff in E. destruct E as [[_ Ha] Hf].
  apply bool_decide_eq_true in Hf.
  assert (Hcfg : d_cfg dm = rf).
  { destruct (boot_started _ _ _ _ _ _ _ _ Hb) as [El _]. vm_compute in El. vm_compute. congruence. }
  exists d1, dm. split; [done|]. split; [exact Ha|].
  destruct (boot_resumes demo_env "dev" (fun _ => None) (machine rf true) None_ [] 0 no_disks d1 dm arming
              (machine rf false) (saved d1 dm arming) Hb (saved_on_disk d1 dm arming))
    as (d3 & dm' & E & Hk & _ & _ & _ & _ & _ & _ & _ & Hx); try reflexivity; [by rewrite Hcfg|].
  exists d3, dm'. split; [exact E|]. split; [exact Hk|]. by rewrite Hx, Hf.
Defined.
(** An armed box that is put back into lab mode comes up armed. *)
Example armed_survives_lab_mode :
  match first with (d1, Ok dm) => holds_after d1 dm Default | _ => false end = true.
Proof. vm_compute. reflexivity. Qed.
(** Open5GS with the tap on: the configuration's MME is never asked, and on
    free5GC the tap is never started. *)
Example tap_replaces_mme cfg : Core cfg = "open5gs"%string -> CollectorEnabled cfg = true -> UPFEnabled cfg = true ->
  choose_source cfg = SUPF (UPFIface cfg).
Proof. intros E1 E2 E3. unfold choose_source. by rewrite E1, E2, E3. Qed.
Example free5gc_replaces_tap cfg : Core cfg = "free5gc"%string -> CollectorEnabled cfg = true -> UPFEnabled cfg = true ->
  forall iface, choose_source cfg <> SUPF iface.
Proof. intros E1 E2 E3 iface. unfold choose_source. rewrite E1, E2. cbn. by destruct (is_ (CDRDir cfg) ""). Qed.
